(* ===== verification/_CoqProject ===== *)
-Q . S2P
Prelude.v
CStr.v
Wire.v
Ext.v
CmdGuard.v
Prog.v
Json.v
Host.v
Demo.v
TextOps.v
FileTools.v
QueryTools.v
BashTool.v
Anchored.v
Handlers.v
KnowledgeHandlers.v
Dispatch.v
DispatchFacts.v
DispatchProps.v
BashProps.v
WriteProps.v
GuardProps.v
