(* ===== verification/Prelude.v ===== *)
(** * The tools module of aimee

    A model of [src/src/modules/tools] (the tools an agent may call, and the
    dispatcher that routes a call to one of them) and of the Go process that
    serves its classifier ([src/server-go/modules/tools/tools.go]), with the
    theorems that make them correct.

    ** The program

    A delegate's call arrives as a tool name and a JSON text of arguments.
    [dispatch_tool_call_ctx] (agent_tools_dispatch.c) parses and normalises the
    arguments, refuses calls of a cancelled delegate or without permission, asks
    the shell-git gate and the guardrail, routes the call to one of 46 native
    handlers ([td_*]), to an MCP server or to an error, classifies the outcome
    and reports it through two hooks (agent_tools_completion.c).  The handlers
    run the tools of agent_tools.c and agent_tools_anchored.c: files through the
    workspace provider, shell commands in a child process, git and grep queries,
    the knowledge service, stores of other modules.  The classifier of tool names
    is behind a binary wire contract (module_api.h) with two servers, the C
    adapter (module_adapter.c) and the Go handler (tools.go).

    ** The files

    - [Prelude]: notations, the tactics [breflect], [case_if], [decide_lia], list
      lemmas.  [CStr]: the C library on strings and numbers.
    - [Wire]: module_api.h, module_adapter.c, tools.go; buffers are lists of
      bytes, the encoders and decoders option-valued functions.
    - [Ext]: pure functions and constants of other modules, as a class.
      [Json]: cJSON as a class, its laws, a concrete instance.
    - [Prog]: programs over calls to the environment ([prog]), their runs against
      an oracle, and the program logics [returns], [avoids], [within], [guarded].
      [Host]: the calls of the tools ([req], one constructor per external
      function), the types of their answers, proof automation.  [Demo]: an
      environment on which the witnesses run.
    - [CmdGuard]: which shell commands may run outside the sandbox (agent_tools.c
      77-557, agent_tools_internal.h); pure.
    - [TextOps]: occurrence count and replacement, binary test, line window,
      truncation, listing, slop advisory, shell quoting; pure.
    - [FileTools], [QueryTools], [BashTool] (agent_tools.c), [Anchored]
      (agent_tools_anchored.c): the tools, as programs.
    - [Handlers], [KnowledgeHandlers]: the [td_*] functions of
      agent_tools_dispatch.c.  [Dispatch]: the dispatcher; the statics
      [g_td_*], [g_dispatch_role] and the installed hooks are the record [hooks],
      threaded through a dispatch.
    - [DispatchFacts], [DispatchProps], [GuardProps], [WriteProps], [BashProps]:
      lemmas on whole dispatches and the theorems.

    ** Modelling

    A tool is a [tool A]: a tree of calls with a branch for every answer.  A
    theorem over every oracle holds whatever the other modules, the operating
    system, the clock and concurrent processes do; a hypothesis on the oracle
    ([answers ok o]) says what a theorem relies on.  A C string is a [string], a
    pointer that may be NULL an [option], a snprintf the truncation [snprintf],
    an [int] a [Z] with its conversion written out ([wrap32]), the [size_t] of an
    allocation reduced modulo 2^64 ([size_t]), an exit status its low byte.  The
    line counters of the un-anchored read are the exception: [read_loop_int] shows
    that they do not overflow on files under 2 GiB.  cJSON trees have one owner
    and are threaded as values.

    Fuel: the string scans of [CStr], [CmdGuard], [TextOps] and [Dispatch] get the
    length of their input plus one, and their specifications show that this is
    enough ([readonly_root_scan_spec], [stale_scan_spec], [read_window_lines]).
    The chain loops get the number of commands.  The [select] loop of
    [tool_bash] is bounded by the clock only: its fuel is an argument,
    [poll_loop_ends] gives the fuel that is enough.

    ** The theorems

    - Wire: encoding and decoding round trip, the classifier end to end, byte
      parity of the two servers (each with its own constants and tables) and
      where it ends, safety of the decoder.
    - The dispatcher: every call of a tool comes after a permitting answer of the
      guardrail; each dispatch reports started, completed and its outcome exactly
      once; the outcome vocabulary; the shell permission; native tools win; the
      tools of the READ class make queries and keep their own records only.
    - Arguments: aliases fill gaps only; the path the guardrail judges against
      the path the tool uses; how far rewrites reach; the scan for commands on
      aimee's own state.
    - Files: no write without the read-only, parent-worktree and validation
      guards on that very path; session isolation; the dry run leaves no mark;
      [edit_file] end to end; line
      windows, truncation, listings, advisories.
    - Commands: the scan for the protected worktree, the read-only chain
      validator as a grammar with the bounds of its arrays.
    - The shell tool: a delegate without a sandbox starts nothing on the host;
      what may start there when the parent worktree is protected; a command is
      handed to the workspace provider only when that runs commands elsewhere (a
      detached client or a container); children run validated commands only; the loop ends, captures a prefix and the child is reaped once.

    The theorems named after a divergence ([redirect_escapes_scan],
    [readonly_test_by_name], [skipped_pipeline_tail_runs],
    [edit_symbol_not_isolated], [adapter_go_nul_divergence],
    [slop_warning_overread]) characterise behaviours the surrounding comments and
    documents do not announce, each for every input of its shape, with a run as
    witness.

    ** Not modelled

    The Go bus and runtime ([src/server-go/bus], [src/runtime]): transport, not
    this module's logic.  The setters of thread-locals of agent_tools.h that live
    in other modules; registration of the hooks (their presence is a field of
    [hooks]).  Allocation failures inside [dstr]; allocations of the tools
    themselves are calls.  [close], [dup2], [setpgid] and errno.  The other
    modules (workspace, guardrails, knowledge service, MCP registries, code
    outline, anchors, diff): they are not in this repository and are calls or
    parameters. *)
From Stdlib Require Export ZArith Lia Ascii.
From stdpp Require Export base tactics option list strings pretty numbers.

(** * Notations

    The development's notations live in [tools_scope]; every file opens it. *)
Declare Scope tools_scope.
Delimit Scope tools_scope with tools.

Notation "a == b" := (String.eqb a b) (at level 70, no associativity) : tools_scope.
Notation "a <b b" := (Nat.ltb a b) (at level 70, no associativity) : tools_scope.
Notation "a <=b b" := (Nat.leb a b) (at level 70, no associativity) : tools_scope.
Notation "a '<Z' b" := (Z.ltb a b) (at level 70, no associativity) : tools_scope.
Notation "a '<=Z' b" := (Z.leb a b) (at level 70, no associativity) : tools_scope.

(** Let [cbn] compute [+:+] on a constructor. *)
#[global] Arguments String.append !s1 s2 : simpl nomatch.

Create HintDb tools discriminated.
Create Rewrite HintDb tools_rw.

(** * Tactics *)

(** Turn the boolean tests in the context into propositions. *)
Ltac breflect :=
  repeat match goal with
  | H : (_ && _)%bool = true |- _ => apply andb_true_iff in H; destruct H
  | H : (_ || _)%bool = false |- _ => apply orb_false_iff in H; destruct H
  | H : (_ || _)%bool = true |- _ => apply orb_true_iff in H
  | H : (_ && _)%bool = false |- _ => apply andb_false_iff in H
  | H : negb _ = true |- _ => apply negb_true_iff in H
  | H : negb _ = false |- _ => apply negb_false_iff in H
  | H : Nat.ltb _ _ = true |- _ => apply Nat.ltb_lt in H
  | H : Nat.ltb _ _ = false |- _ => apply Nat.ltb_ge in H
  | H : Nat.leb _ _ = true |- _ => apply Nat.leb_le in H
  | H : Nat.leb _ _ = false |- _ => apply Nat.leb_gt in H
  | H : Nat.eqb _ _ = true |- _ => apply Nat.eqb_eq in H
  | H : Nat.eqb _ _ = false |- _ => apply Nat.eqb_neq in H
  | H : Z.ltb _ _ = true |- _ => apply Z.ltb_lt in H
  | H : Z.ltb _ _ = false |- _ => apply Z.ltb_ge in H
  | H : Z.leb _ _ = true |- _ => apply Z.leb_le in H
  | H : Z.leb _ _ = false |- _ => apply Z.leb_gt in H
  | H : Z.eqb _ _ = true |- _ => apply Z.eqb_eq in H
  | H : Z.eqb _ _ = false |- _ => apply Z.eqb_neq in H
  | H : String.eqb _ _ = true |- _ => apply String.eqb_eq in H
  | H : String.eqb _ _ = false |- _ => apply String.eqb_neq in H
  | H : Ascii.eqb _ _ = true |- _ => apply Ascii.eqb_eq in H
  | H : Ascii.eqb _ _ = false |- _ => apply Ascii.eqb_neq in H
  end.

(** Case on the scrutinee of an [if] or [match] of the goal, keeping the equation. *)
Ltac case_if :=
  match goal with
  | |- context [if ?b then _ else _] => destruct b eqn:?
  end.

(** Decide the arithmetic tests of the goal with [lia]. *)
Ltac decide_lia :=
  repeat match goal with
  | |- context [decide ?P] =>
      first [ rewrite (decide_True (P := P)) by lia | rewrite (decide_False (P := P)) by lia ]
  end.

(** * Generic lemmas *)

(** [in_list x l]: [x] is one of the strings of [l]; the model of a scan of a
    NULL-terminated array of names with [strcmp]. *)
Definition in_list (x : string) (l : list string) : bool :=
  existsb (String.eqb x) l.

Lemma in_list_spec x l : in_list x l = true <-> x ∈ l.
Proof.
  unfold in_list. rewrite existsb_exists. split.
  - intros (y & Hy & E). apply String.eqb_eq in E as ->. by apply list_elem_of_In.
  - intros H. exists x. split; [by apply list_elem_of_In | apply String.eqb_refl].
Qed.

Lemma in_list_false x l : in_list x l = false <-> x ∉ l.
Proof.
  rewrite <- in_list_spec. destruct (in_list x l); split; try congruence; done.
Qed.

Lemma forallb_take {A} (f : A -> bool) n l : forallb f l = true -> forallb f (take n l) = true.
Proof.
  revert n; induction l as [|a l IH]; intros [|n] H; simpl in *; try done.
  apply andb_true_iff in H as [H1 H2]. by rewrite H1, IH.
Qed.

Lemma existsb_false {A} (f : A -> bool) l :
  existsb f l = false <-> List.Forall (fun x => f x = false) l.
Proof.
  induction l as [|a l IH]; cbn; [by split|]. rewrite orb_false_iff, IH. split.
  - intros [Ha Hl]. by constructor.
  - by inversion 1.
Qed.
