(* ===== verification/CStr.v ===== *)
(** The C library functions on strings and numbers that the tools call.

    A NUL-terminated [const char *] is a [string] without the NUL character, a
    nullable one an [option string], a pointer into a string the suffix that
    starts there ([sdrop]).  A buffer that may hold NUL bytes (file contents,
    wire payloads) is a [string] too, and [cstr] is what a C string function
    sees of it. *)
From S2P Require Import Prelude.
Local Open Scope tools_scope.

(** * Characters *)

Definition NUL : ascii := Ascii.zero.
Definition chr (n : nat) : ascii := Ascii.ascii_of_nat n.
Definition code (c : ascii) : nat := Ascii.nat_of_ascii c.
Definition TAB : ascii := chr 9.
Definition NL : ascii := chr 10.
Definition CR : ascii := chr 13.
Definition SP : ascii := chr 32.
Definition DQUOTE : ascii := chr 34.
Definition SQUOTE : ascii := chr 39.

(** [nl] is the one-character string ["\n"]. *)
Definition nl : string := String NL "".

(** [jt s] is [s] with each single quote replaced by a double quote: the text of
    the JSON literals of the source. *)
Fixpoint jt (s : string) : string :=
  match s with
  | "" => ""
  | String c r => String (if Ascii.eqb c SQUOTE then DQUOTE else c) (jt r)
  end.

Definition isdigit (c : ascii) : bool := (48 <=b code c) && (code c <=b 57).
Definition isupper (c : ascii) : bool := (65 <=b code c) && (code c <=b 90).
Definition islower (c : ascii) : bool := (97 <=b code c) && (code c <=b 122).
Definition isalpha (c : ascii) : bool := isupper c || islower c.
Definition isalnum (c : ascii) : bool := isalpha c || isdigit c.

(** [isspace] in the C locale: space, \t, \n, \v, \f, \r. *)
Definition isspace (c : ascii) : bool :=
  (code c =? 32) || ((9 <=b code c) && (code c <=b 13)).

(** [is_char c l]: [c] is one of the characters of the string [l]. *)
Fixpoint is_char (c : ascii) (l : string) : bool :=
  match l with
  | "" => false
  | String d r => Ascii.eqb c d || is_char c r
  end.

(** * Strings *)

Definition strlen (s : string) : nat := String.length s.

Fixpoint sdrop (n : nat) (s : string) : string :=
  match n, s with
  | S n, String _ r => sdrop n r
  | _, _ => s
  end.

Fixpoint stake (n : nat) (s : string) : string :=
  match n, s with
  | S n, String c r => String c (stake n r)
  | _, _ => ""
  end.

(** [char_at n s] is [s[n]], the terminating NUL included. *)
Fixpoint char_at (n : nat) (s : string) : ascii :=
  match n, s with
  | _, "" => NUL
  | 0, String c _ => c
  | S n, String _ r => char_at n r
  end.

(** [cstr s]: the C string stored in the buffer [s]. *)
Fixpoint cstr (s : string) : string :=
  match s with
  | "" => ""
  | String c r => if Ascii.eqb c NUL then "" else String c (cstr r)
  end.

(** [starts_with p s] is [strncmp(s, p, strlen(p)) == 0]. *)
Fixpoint starts_with (p s : string) : bool :=
  match p, s with
  | "", _ => true
  | String c p', String d s' => Ascii.eqb c d && starts_with p' s'
  | String _ _, "" => false
  end.

(** [strstr hay needle]: the offset of the first occurrence. *)
Fixpoint strstr (hay needle : string) : option nat :=
  if starts_with needle hay then Some 0
  else match hay with
       | "" => None
       | String _ r => S <$> strstr r needle
       end.

Definition contains (hay needle : string) : bool :=
  match strstr hay needle with Some _ => true | None => false end.

(** [strchr s c], for [c] other than NUL. *)
Fixpoint strchr (s : string) (c : ascii) : option nat :=
  match s with
  | "" => None
  | String d r => if Ascii.eqb c d then Some 0 else S <$> strchr r c
  end.

Definition has_char (s : string) (c : ascii) : bool :=
  match strchr s c with Some _ => true | None => false end.

Fixpoint strrchr (s : string) (c : ascii) : option nat :=
  match s with
  | "" => None
  | String d r =>
      match strrchr r c with
      | Some i => Some (S i)
      | None => if Ascii.eqb c d then Some 0 else None
      end
  end.

(** The nullable-pointer tests the source writes: [p && p[0]]. *)
Definition nonempty (p : option string) : bool :=
  match p with
  | Some (String _ _) => true
  | _ => false
  end.

(** [p ? p : d]. *)
Definition or_else (p : option string) (d : string) : string := default d p.

(** [snprintf(buf, n, "%s", s)] keeps [n - 1] characters. *)
Definition snprintf (n : nat) (s : string) : string := stake (n - 1) s.

(** [%d]. *)
Definition fmt_d (z : Z) : string := pretty z.
(** [%zu]. *)
Definition fmt_u (n : nat) : string := pretty (Z.of_nat n).

(** * Numbers *)

Definition INT_MAX : Z := (2 ^ 31 - 1)%Z.
Definition INT_MIN : Z := (- 2 ^ 31)%Z.
Definition LONG_MAX : Z := (2 ^ 63 - 1)%Z.
Definition LONG_MIN : Z := (- 2 ^ 63)%Z.

(** [wrap32]: conversion of a [long] to [int] in two's complement. *)
Definition wrap32 (z : Z) : Z := ((z + 2 ^ 31) mod 2 ^ 32 - 2 ^ 31)%Z.

(** The value of an expression of type [size_t] (64 bits). *)
Definition size_t (z : Z) : Z := (z mod 2 ^ 64)%Z.

Fixpoint skip_space (s : string) : string :=
  match s with
  | String c r => if isspace c then skip_space r else s
  | "" => ""
  end.

(** The value of the leading digits and what follows them. *)
Fixpoint digits (acc : Z) (s : string) : Z * string :=
  match s with
  | String c r =>
      if isdigit c then digits (10 * acc + Z.of_nat (code c - 48))%Z r else (acc, s)
  | "" => (acc, "")
  end.

Definition clamp (lo hi z : Z) : Z := Z.max lo (Z.min hi z).

(** [strtol(s, &end, 10)]: the value and the suffix [end] points to; without a
    conversion [end] is [s]. *)
Definition strtol (s : string) : Z * string :=
  let s1 := skip_space s in
  let '(neg, s2) :=
    match s1 with
    | String c r => if Ascii.eqb c "-" then (true, r)
                    else if Ascii.eqb c "+" then (false, r) else (false, s1)
    | "" => (false, "")
    end in
  if isdigit (char_at 0 s2) then
    let '(v, rest) := digits 0 s2 in
    (clamp LONG_MIN LONG_MAX (if neg then - v else v)%Z, rest)
  else (0%Z, s).

(** [atoi s], as [(int) strtol(s, NULL, 10)]. *)
Definition atoi (s : string) : Z := wrap32 (strtol s).1.

(** * Lemmas *)

Lemma strlen_app a b : strlen (a +:+ b) = strlen a + strlen b.
Proof. unfold strlen. induction a as [|c a IH]; [done|]. cbn. by f_equal. Qed.

Lemma app_nil_s s : s +:+ "" = s.
Proof. induction s as [|c s IH]; [done|]. cbn. by f_equal. Qed.

Lemma app_assoc_s a b c : a +:+ b +:+ c = (a +:+ b) +:+ c.
Proof. induction a as [|x a IH]; [done|]. cbn. by f_equal. Qed.

Lemma strlen_stake n s : strlen (stake n s) = Nat.min n (strlen s).
Proof.
  revert s. induction n as [|n IH]; intros [|c s]; try done.
  cbn. f_equal. apply IH.
Qed.

Lemma strlen_sdrop n s : strlen (sdrop n s) = strlen s - n.
Proof.
  revert s. induction n as [|n IH]; intros [|c s]; try done. apply IH.
Qed.

Lemma stake_sdrop n s : stake n s +:+ sdrop n s = s.
Proof.
  revert s. induction n as [|n IH]; intros [|c s]; try done. cbn. f_equal. apply IH.
Qed.

Lemma stake_ge n s : strlen s <= n -> stake n s = s.
Proof.
  revert s. induction n as [|n IH]; intros [|c s] H; cbn in *; try done; try lia.
  f_equal. apply IH. unfold strlen in *. lia.
Qed.

Lemma stake_app_exact a b : stake (strlen a) (a +:+ b) = a.
Proof. induction a as [|c a IH]; [by destruct b|]. cbn. by f_equal. Qed.

Lemma sdrop_app_exact a b : sdrop (strlen a) (a +:+ b) = b.
Proof. induction a as [|c a IH]; [done|]. apply IH. Qed.

Lemma sdrop_sdrop n m s : sdrop n (sdrop m s) = sdrop (m + n) s.
Proof.
  revert s. induction m as [|m IH]; intros [|c s]; try done; [by destruct n | apply IH].
Qed.

Lemma sdrop_app_plus a b n : sdrop (strlen a + n) (a +:+ b) = sdrop n b.
Proof. induction a as [|c a IH]; [done|]. apply IH. Qed.

Lemma char_at_app_r a b n : char_at (strlen a + n) (a +:+ b) = char_at n b.
Proof. induction a as [|c a IH]; [done|]. apply IH. Qed.

Lemma char_at_end s : char_at (strlen s) s = NUL.
Proof. induction s as [|c s IH]; [done | apply IH]. Qed.

Lemma char_at_sdrop n m s : char_at n (sdrop m s) = char_at (m + n) s.
Proof.
  revert s. induction m as [|m IH]; intros [|c s]; try done; [by destruct n | apply IH].
Qed.

Lemma snprintf_short n s : strlen s < n -> snprintf n s = s.
Proof. intros H. apply stake_ge. lia. Qed.

Lemma strlen_snprintf n s : strlen (snprintf n s) <= n - 1.
Proof. unfold snprintf. rewrite strlen_stake. lia. Qed.

Lemma starts_with_spec p s : starts_with p s = true <-> exists r, s = p +:+ r.
Proof.
  revert s. induction p as [|c p IH]; intros s; cbn.
  - split; [by exists s | done].
  - destruct s as [|d s]; [split; [done | by intros [r Hr]]|].
    rewrite andb_true_iff, IH, Ascii.eqb_eq. split.
    + intros [-> [r ->]]. by exists r.
    + intros [r Hr]. injection Hr as -> ->. eauto.
Qed.

Lemma starts_with_app p r : starts_with p (p +:+ r) = true.
Proof. apply starts_with_spec. by exists r. Qed.

Lemma starts_with_le p s : starts_with p s = true -> strlen p <= strlen s.
Proof. intros [r ->]%starts_with_spec. rewrite strlen_app. lia. Qed.

Lemma starts_with_split p s : starts_with p s = true -> s = p +:+ sdrop (strlen p) s.
Proof. intros [r ->]%starts_with_spec. by rewrite sdrop_app_exact. Qed.

(** [strstr] finds the first occurrence: it returns [Some i] exactly when the
    needle starts at [i] and at no earlier offset. *)
Lemma strstr_Some hay needle i :
  strstr hay needle = Some i ->
  starts_with needle (sdrop i hay) = true /\
  forall j, j < i -> starts_with needle (sdrop j hay) = false.
Proof.
  revert i. induction hay as [|c hay IH]; intros i; cbn.
  - destruct needle; [intros [= <-]; split; [done | lia] | done].
  - destruct (starts_with needle (String c hay)) eqn:E.
    + intros [= <-]. split; [done | lia].
    + destruct (strstr hay needle) as [k|] eqn:F; [|done]. intros [= <-].
      destruct (IH k eq_refl) as [H1 H2]. split; [done|].
      intros [|j] Hj; [done | apply H2; lia].
Qed.

Lemma strstr_None hay needle :
  strstr hay needle = None -> forall j, starts_with needle (sdrop j hay) = false.
Proof.
  induction hay as [|c hay IH]; cbn.
  - destruct needle; [done|]. intros _ [|j]; done.
  - destruct (starts_with needle (String c hay)) eqn:E; [done|].
    destruct (strstr hay needle) eqn:F; [done|]. intros _ [|j]; [done | by apply IH].
Qed.

Lemma strstr_bound hay needle i :
  strstr hay needle = Some i -> i + strlen needle <= strlen hay.
Proof.
  revert i. induction hay as [|c hay IH]; intros i; cbn.
  - destruct needle; [intros [= <-]; cbn; lia | done].
  - destruct (starts_with needle (String c hay)) eqn:E.
    + intros [= <-]. by apply starts_with_le in E.
    + destruct (strstr hay needle) as [k|]; [|done]. intros [= <-].
      specialize (IH k eq_refl). unfold strlen in *. cbn. lia.
Qed.

(** The split at the first occurrence. *)
Lemma strstr_split hay needle i :
  strstr hay needle = Some i ->
  hay = stake i hay +:+ needle +:+ sdrop (i + strlen needle) hay.
Proof.
  intros H. destruct (strstr_Some _ _ _ H) as [E _].
  apply starts_with_split in E. rewrite sdrop_sdrop in E.
  rewrite <- E. by rewrite stake_sdrop.
Qed.

Lemma contains_spec hay needle :
  contains hay needle = true <-> exists a b, hay = a +:+ needle +:+ b.
Proof.
  unfold contains. destruct (strstr hay needle) as [i|] eqn:E.
  - split; [|done]. intros _. eexists _, _. by apply strstr_split.
  - split; [done|]. intros (a & b & ->).
    pose proof (strstr_None _ _ E (strlen a)) as H.
    by rewrite sdrop_app_exact, starts_with_app in H.
Qed.

Lemma strchr_Some s c i :
  strchr s c = Some i -> char_at i s = c /\ i < strlen s /\ has_char (stake i s) c = false.
Proof.
  revert i. induction s as [|d s IH]; intros i; cbn; [done|].
  destruct (Ascii.eqb c d) eqn:E.
  - intros [= <-]. apply Ascii.eqb_eq in E as ->. cbn. auto with lia.
  - destruct (strchr s c) as [k|] eqn:F; [|done]. intros [= <-].
    destruct (IH k eq_refl) as (H1 & H2 & H3). cbn. split_and!; [done | unfold strlen in *; lia |].
    unfold has_char in *. cbn. rewrite E. by destruct (strchr (stake k s) c).
Qed.

Lemma strchr_split s c k :
  strchr s c = Some k -> s = stake k s +:+ String c (sdrop (S k) s).
Proof.
  revert k. induction s as [|d s IH]; intros k; cbn [strchr]; [done|].
  destruct (Ascii.eqb_spec c d) as [->|N]; [by intros [= <-]|].
  destruct (strchr s c) as [j|]; [|done]. intros [= <-].
  cbn. f_equal. by apply IH.
Qed.

Lemma has_char_app a b c : has_char (a +:+ b) c = has_char a c || has_char b c.
Proof.
  unfold has_char. induction a as [|d a IH]; [done|]. cbn [String.append strchr].
  destruct (Ascii.eqb c d); [done|].
  destruct (strchr (a +:+ b) c), (strchr a c), (strchr b c); done.
Qed.

(** Two strings of the same length, one a prefix of the other's extension. *)
Lemma starts_with_exact d e r :
  (strlen e =? strlen d) && starts_with d (e +:+ r) = (d == e).
Proof.
  apply eq_true_iff_eq. rewrite andb_true_iff, Nat.eqb_eq, String.eqb_eq. split.
  - intros [L H]. apply starts_with_split in H. apply (f_equal (stake (strlen d))) in H.
    rewrite <- L in H at 1. rewrite !stake_app_exact in H. done.
  - intros ->. by rewrite starts_with_app.
Qed.

Lemma cstr_id s : has_char s NUL = false -> cstr s = s.
Proof.
  unfold has_char. induction s as [|c s IH]; [done|]. intros H.
  cbn [strchr cstr] in *. rewrite Ascii.eqb_sym. case_if; [done|].
  f_equal. apply IH. by destruct (strchr s NUL).
Qed.

Lemma strlen_cstr s : strlen (cstr s) <= strlen s.
Proof. induction s as [|c s IH]; cbn; [lia|]. case_match; cbn; unfold strlen in *; lia. Qed.

#[export] Hint Rewrite strlen_app strlen_stake strlen_sdrop stake_app_exact sdrop_app_exact
  starts_with_app : tools_rw.
