(* ===== verification/Wire.v ===== *)
(** The wire contract of the tool classifier ([include/aimee/tools/module_api.h])
    and its two servers: the C adapter ([module_adapter.c], the parity fixture)
    and the production Go handler ([server-go/modules/tools/tools.go]).

    A byte is a [Z] in [0, 256), a buffer a [list Z]; a pointer that may be NULL
    is an [option]. *)
From stdpp Require Import gmap.
From S2P Require Import Prelude CStr.
Local Open Scope tools_scope.

(** * module_api.h *)

Definition AIMEE_TOOLS_STAGE_DISPATCH : Z := 1.
Definition AIMEE_TOOLS_REQUEST_MAGIC : Z := 0x53494454.
Definition AIMEE_TOOLS_RESPONSE_MAGIC : Z := 0x534c4354.
Definition AIMEE_TOOLS_WIRE_VERSION : Z := 1.
Definition AIMEE_TOOLS_NAME_MAX : nat := 95.
Definition AIMEE_TOOLS_REQUEST_LEN : nat := 104.
Definition AIMEE_TOOLS_RESPONSE_LEN : nat := 8.

Inductive aimee_tool_class_t : Type :=
| AIMEE_TOOL_CLASS_UNKNOWN
| AIMEE_TOOL_CLASS_READ
| AIMEE_TOOL_CLASS_WRITE
| AIMEE_TOOL_CLASS_EXEC
| AIMEE_TOOL_CLASS_CONTROL
| AIMEE_TOOL_CLASS_REMOTE.

#[export] Instance aimee_tool_class_eq_dec : EqDecision aimee_tool_class_t.
Proof. solve_decision. Defined.

(** The enumeration constants' values. *)
Definition class_value (c : aimee_tool_class_t) : Z :=
  match c with
  | AIMEE_TOOL_CLASS_UNKNOWN => 0
  | AIMEE_TOOL_CLASS_READ => 1
  | AIMEE_TOOL_CLASS_WRITE => 2
  | AIMEE_TOOL_CLASS_EXEC => 3
  | AIMEE_TOOL_CLASS_CONTROL => 4
  | AIMEE_TOOL_CLASS_REMOTE => 5
  end.

(** The cast [(aimee_tool_class_t) value] of the decoder, on its range. *)
Definition class_of_value (v : Z) : option aimee_tool_class_t :=
  match v with
  | 0%Z => Some AIMEE_TOOL_CLASS_UNKNOWN
  | 1%Z => Some AIMEE_TOOL_CLASS_READ
  | 2%Z => Some AIMEE_TOOL_CLASS_WRITE
  | 3%Z => Some AIMEE_TOOL_CLASS_EXEC
  | 4%Z => Some AIMEE_TOOL_CLASS_CONTROL
  | 5%Z => Some AIMEE_TOOL_CLASS_REMOTE
  | _ => None
  end.

Definition byte_at (p : list Z) (i : nat) : Z := default 0%Z (p !! i).

(** [aimee_tools_put_u32 (p + off) v]: four stores of [(uint8_t)(v >> 8i)]. *)
Definition aimee_tools_put_u32 (p : list Z) (off : nat) (v : Z) : list Z :=
  fold_left
    (fun buf i => <[off + i := Z.land (Z.shiftr v (8 * Z.of_nat i)) 255]> buf)
    (seq 0 4) p.

(** [aimee_tools_get_u32 (p + off)]. *)
Definition aimee_tools_get_u32 (p : list Z) (off : nat) : Z :=
  fold_left
    (fun v i => Z.lor v (Z.shiftl (byte_at p (off + i)) (8 * Z.of_nat i)))
    (seq 0 4) 0%Z.

(** The bytes of a C string, without the terminator; and the string in a byte
    buffer up to its first NUL. *)
Fixpoint bytes_of (s : string) : list Z :=
  match s with
  | "" => []
  | String c r => Z.of_nat (code c) :: bytes_of r
  end.

Fixpoint string_of (l : list Z) : string :=
  match l with
  | [] => ""
  | b :: r => String (chr (Z.to_nat b)) (string_of r)
  end.

(** [memcpy (buf + off) src]. *)
Definition memcpy (buf : list Z) (off : nat) (src : list Z) : list Z :=
  take off buf ++ src ++ drop (off + length src) buf.

(** [aimee_tools_request_encode]: [None] is the result -1, otherwise the buffer
    after the stores; the buffer's length is the argument [cap]. *)
Definition aimee_tools_request_encode (name : option string) (out : option (list Z)) :
    option (list Z) :=
  let len := match name with Some n => strlen n | None => 0 end in
  match out with
  | None => None
  | Some out =>
      if (length out <b AIMEE_TOOLS_REQUEST_LEN) || (len =? 0) || (AIMEE_TOOLS_NAME_MAX <b len)
      then None
      else
        let out := memcpy out 0 (replicate AIMEE_TOOLS_REQUEST_LEN 0%Z) in
        let out := aimee_tools_put_u32 out 0 AIMEE_TOOLS_REQUEST_MAGIC in
        let out := <[4 := AIMEE_TOOLS_WIRE_VERSION]> out in
        let out := <[6 := Z.of_nat len]> out in
        Some (memcpy out 8 (bytes_of (or_else name "")))
  end.

(** [aimee_tools_request_decode]: the name buffer after the stores (the [len]
    bytes of the name, then NUL), or [None] for -1.  [cap] is the length of the
    name buffer. *)
Definition aimee_tools_request_decode (inp : option (list Z)) (name : option (list Z)) :
    option (list Z) :=
  match inp, name with
  | Some inp, Some name =>
      let b6 := Z.to_nat (byte_at inp 6) in
      if negb (length inp =? AIMEE_TOOLS_REQUEST_LEN) || (length name =? 0)
         || negb (aimee_tools_get_u32 inp 0 =? AIMEE_TOOLS_REQUEST_MAGIC)%Z
         || negb (byte_at inp 4 =? AIMEE_TOOLS_WIRE_VERSION)%Z
         || negb (byte_at inp 5 =? 0)%Z || negb (byte_at inp 7 =? 0)%Z
         || (b6 =? 0) || (AIMEE_TOOLS_NAME_MAX <b b6) || (length name <=b b6)
      then None
      else Some (<[b6 := 0%Z]> (memcpy name 0 (take b6 (drop 8 inp))))
  | _, _ => None
  end.

Definition aimee_tools_response_decode (inp : option (list Z)) : option aimee_tool_class_t :=
  match inp with
  | None => None
  | Some inp =>
      if negb (length inp =? AIMEE_TOOLS_RESPONSE_LEN)
         || negb (aimee_tools_get_u32 inp 0 =? AIMEE_TOOLS_RESPONSE_MAGIC)%Z
      then None
      else
        let value := aimee_tools_get_u32 inp 4 in
        if (class_value AIMEE_TOOL_CLASS_REMOTE <Z value) then None
        else class_of_value value
  end.

(** * module_adapter.c *)

Definition exec_names : list string := ["bash"; "execute_script"; "test"; "run_tests"].
Definition write_names : list string :=
  ["write_file"; "edit_file"; "edit_symbol"; "create_note"; "rules_propose";
   "learning_propose"; "git_commit"; "git_push"; "git_branch"; "git_pr"].
Definition control_names : list string :=
  ["request_input"; "clarify_start"; "clarify_answer"; "diagnose_start"; "diagnose_observe";
   "diagnose_hypothesize"; "diagnose_evidence"].
Definition read_names : list string :=
  ["read_file"; "list_files"; "grep"; "code_search"; "find_symbol"; "read_symbol";
   "search_memory"; "search_docs"; "web_search"; "web_read"; "list_notes"; "search_notes";
   "git_log"; "git_diff"; "git_status"].

Definition one_of (name : string) (values : list string) : bool := in_list name values.

Definition classify (name : string) : aimee_tool_class_t :=
  if has_char name ":" then AIMEE_TOOL_CLASS_REMOTE
  else if one_of name exec_names then AIMEE_TOOL_CLASS_EXEC
  else if one_of name write_names then AIMEE_TOOL_CLASS_WRITE
  else if one_of name control_names then AIMEE_TOOL_CLASS_CONTROL
  else if one_of name read_names then AIMEE_TOOL_CLASS_READ
  else AIMEE_TOOL_CLASS_UNKNOWN.

Inductive module_status : Type :=
| STATUS_OK
| STATUS_INVALID_REQUEST
| STATUS_CANCELLED.

(** The fields of [aimee_module_invocation_t] the handler reads: the stage, and
    the answer of [aimee_module_invocation_cancelled]. *)
Record invocation := { stage_id : Z; cancelled : bool }.

(** [aimee_module_handler]: the status and the response bytes written.
    [response] is the caller's buffer, [want_len] says that [response_len] is
    not NULL.  The response bytes are the buffer's first [*response_len]. *)
Definition aimee_module_handler (inv : option invocation) (request : option (list Z))
    (response : list Z) (want_len : bool) : module_status * list Z :=
  match inv with
  | None => (STATUS_INVALID_REQUEST, [])
  | Some inv =>
      if negb want_len || negb (stage_id inv =? AIMEE_TOOLS_STAGE_DISPATCH)%Z
         || (length response <b AIMEE_TOOLS_RESPONSE_LEN)
      then (STATUS_INVALID_REQUEST, [])
      else
        match aimee_tools_request_decode request
                (Some (replicate (AIMEE_TOOLS_NAME_MAX + 1) 0%Z)) with
        | None => (STATUS_INVALID_REQUEST, [])
        | Some name =>
            if cancelled inv then (STATUS_CANCELLED, [])
            else
              let response := aimee_tools_put_u32 response 0 AIMEE_TOOLS_RESPONSE_MAGIC in
              let response :=
                aimee_tools_put_u32 response 4
                  (class_value (classify (cstr (string_of name)))) in
              (STATUS_OK, take AIMEE_TOOLS_RESPONSE_LEN response)
        end
  end.

(** * tools.go *)

(** The Go process has constants and tables of its own. *)
Definition go_StageDispatch : Z := 1.
Definition go_requestMagic : Z := 0x53494454.
Definition go_responseMagic : Z := 0x534c4354.
Definition go_wireVersion : Z := 1.
Definition go_requestLen : nat := 104.
Definition go_responseLen : nat := 8.
Definition go_nameMax : nat := 95.

Definition go_ClassUnknown : Z := 0.
Definition go_ClassRead : Z := 1.
Definition go_ClassWrite : Z := 2.
Definition go_ClassExec : Z := 3.
Definition go_ClassControl : Z := 4.
Definition go_ClassRemote : Z := 5.

(** The [map[string]struct{}] variables: sets of names. *)
Definition go_execNames : gset string :=
  list_to_set ["bash"; "execute_script"; "test"; "run_tests"].
Definition go_writeNames : gset string := list_to_set
  ["write_file"; "edit_file"; "edit_symbol"; "create_note";
   "rules_propose"; "learning_propose"; "git_commit"; "git_push"; "git_branch"; "git_pr"].
Definition go_controlNames : gset string := list_to_set
  ["request_input"; "clarify_start"; "clarify_answer"; "diagnose_start"; "diagnose_observe";
   "diagnose_hypothesize"; "diagnose_evidence"].
Definition go_readNames : gset string := list_to_set
  ["read_file"; "list_files"; "grep"; "code_search"; "find_symbol"; "read_symbol";
   "search_memory"; "search_docs"; "web_search"; "web_read"; "list_notes"; "search_notes";
   "git_log"; "git_diff"; "git_status"].

(** [classify] of the Go process, on the whole Go string. *)
Definition go_classify (name : string) : Z :=
  if has_char name ":" then go_ClassRemote
  else if decide (name ∈ go_execNames) then go_ClassExec
  else if decide (name ∈ go_writeNames) then go_ClassWrite
  else if decide (name ∈ go_controlNames) then go_ClassControl
  else if decide (name ∈ go_readNames) then go_ClassRead
  else go_ClassUnknown.

Definition go_Handle (inv : invocation) (request : list Z) : list Z * module_status :=
  let b6 := Z.to_nat (byte_at request 6) in
  if negb (stage_id inv =? go_StageDispatch)%Z || negb (length request =? go_requestLen)
     || negb (aimee_tools_get_u32 request 0 =? go_requestMagic)%Z
     || negb (byte_at request 4 =? go_wireVersion)%Z || negb (byte_at request 5 =? 0)%Z
     || negb (byte_at request 7 =? 0)%Z || (b6 =? 0) || (go_nameMax <b b6)
  then ([], STATUS_INVALID_REQUEST)
  else if cancelled inv then ([], STATUS_CANCELLED)
  else
    let name := string_of (take b6 (drop 8 request)) in
    let response := replicate go_responseLen 0%Z in
    let response := aimee_tools_put_u32 response 0 go_responseMagic in
    (aimee_tools_put_u32 response 4 (go_classify name), STATUS_OK).

(** The 104 bytes of a request for [name]: header, name, zero padding. *)
Definition request_bytes (name : string) : list Z :=
  [0x54; 0x44; 0x49; 0x53; 1; 0; Z.of_nat (strlen name); 0]%Z ++ bytes_of name
  ++ replicate (96 - strlen name) 0%Z.

(** The name field of a request, as the Go process reads it. *)
Definition request_name (inp : list Z) : string :=
  string_of (take (Z.to_nat (byte_at inp 6)) (drop 8 inp)).

(** * Lemmas *)

Lemma length_bytes_of s : length (bytes_of s) = strlen s.
Proof. induction s as [|c s IH]; [done|]. cbn. by f_equal. Qed.

Lemma string_of_bytes_of s : string_of (bytes_of s) = s.
Proof.
  induction s as [|c s IH]; [done|]. cbn [bytes_of string_of]. rewrite IH, Nat2Z.id.
  unfold chr, code. by rewrite Ascii.ascii_nat_embedding.
Qed.

Lemma string_of_app l k : string_of (l ++ k) = string_of l +:+ string_of k.
Proof. induction l as [|b l IH]; [done|]. cbn. by rewrite IH. Qed.

(** The C string of a buffer holding [s], NUL and anything. *)
Lemma cstr_terminated s r :
  has_char s NUL = false -> cstr (s +:+ String NUL r) = s.
Proof.
  unfold has_char. induction s as [|c s IH]; [done|].
  cbn [strchr String.append cstr]. rewrite Ascii.eqb_sym.
  destruct (Ascii.eqb c NUL); [done|]. intros H. f_equal. apply IH.
  by destruct (strchr s NUL).
Qed.

Lemma cstr_truncates s r : cstr (s +:+ String NUL r) = cstr s.
Proof. induction s as [|c s IH]; [done|]. cbn. by rewrite IH. Qed.

Lemma cstr_bytes_of s r :
  has_char s NUL = false -> cstr (string_of (bytes_of s ++ 0%Z :: r)) = s.
Proof. intros H. rewrite string_of_app, string_of_bytes_of. by apply cstr_terminated. Qed.

Lemma memcpy_0 buf src : memcpy buf 0 src = src ++ drop (length src) buf.
Proof. done. Qed.

Lemma length_memcpy buf off src :
  off + length src <= length buf -> length (memcpy buf off src) = length buf.
Proof.
  intros H. unfold memcpy. rewrite !length_app, length_take, length_drop. lia.
Qed.

(** The encoder writes [request_bytes] and leaves the rest of the caller's
    buffer unchanged. *)
Lemma request_layout name out :
  AIMEE_TOOLS_REQUEST_LEN <= length out -> 0 < strlen name <= AIMEE_TOOLS_NAME_MAX ->
  aimee_tools_request_encode (Some name) (Some out) =
  Some (request_bytes name ++ drop AIMEE_TOOLS_REQUEST_LEN out).
Proof.
  intros Hout [Hpos Hmax]. unfold aimee_tools_request_encode, request_bytes.
  rewrite <- !app_assoc.
  rewrite (proj2 (Nat.ltb_ge _ _)) by done.
  rewrite (proj2 (Nat.eqb_neq _ _)) by lia.
  rewrite (proj2 (Nat.ltb_ge _ _)) by done.
  cbn [orb or_else]. f_equal. rewrite memcpy_0, length_replicate.
  change (replicate AIMEE_TOOLS_REQUEST_LEN 0%Z)
    with ([0;0;0;0;0;0;0;0]%Z ++ replicate 96 0%Z).
  rewrite <- !app_assoc. cbn -[replicate drop strlen bytes_of].
  unfold memcpy. cbn -[replicate drop strlen bytes_of]. rewrite length_bytes_of.
  change (8 + strlen name) with (S (S (S (S (S (S (S (S (strlen name))))))))).
  cbn [skipn List.app]. rewrite take_0, app_nil_l. do 8 f_equal. f_equal.
  rewrite drop_app_le by (rewrite length_replicate; unfold AIMEE_TOOLS_NAME_MAX in *; lia).
  by rewrite drop_replicate.
Qed.

Lemma byte_at_insert p i j x :
  i < length p -> byte_at (<[i := x]> p) j = if decide (i = j) then x else byte_at p j.
Proof.
  intros H. unfold byte_at. rewrite list_lookup_insert. repeat case_decide; try done; lia.
Qed.

Lemma length_put_u32 p off v : length (aimee_tools_put_u32 p off v) = length p.
Proof. unfold aimee_tools_put_u32. cbn. by rewrite !length_insert. Qed.

(** What [put_u32] stores, [get_u32] reads back, modulo the width. *)
Lemma get_put_u32 p off v :
  off + 4 <= length p ->
  aimee_tools_get_u32 (aimee_tools_put_u32 p off v) off = (v mod 2 ^ 32)%Z.
Proof.
  intros H. unfold aimee_tools_get_u32, aimee_tools_put_u32. cbn [seq fold_left].
  rewrite !byte_at_insert by (rewrite ?length_insert; lia).
  decide_lia.
  apply Z.bits_inj'. intros n Hn. rewrite Z.testbit_mod_pow2 by lia.
  rewrite !Z.lor_spec, !Z.shiftl_spec, !Z.land_spec, Z.testbit_0_l by lia.
  change 255%Z with (Z.ones 8).
  assert (Hb : forall k, (0 <= k)%Z ->
    (Z.testbit (Z.shiftr v k) (n - k) && Z.testbit (Z.ones 8) (n - k))%bool =
    (bool_decide (k <= n < k + 8)%Z && Z.testbit v n)%bool).
  { intros k Hk. rewrite Z.testbit_ones by lia.
    destruct (decide (k <= n)%Z) as [Hkn|Hkn].
    - rewrite Z.shiftr_spec, Z.sub_add by lia.
      rewrite andb_comm. f_equal. apply eq_true_iff_eq.
      rewrite bool_decide_eq_true, andb_true_iff, Z.leb_le, Z.ltb_lt. lia.
    - rewrite (Z.testbit_neg_r _ (n - k)) by lia. rewrite bool_decide_eq_false_2 by lia. done. }
  rewrite !Hb by lia. cbn -[Z.testbit bool_decide Z.mul].
  destruct (Z.testbit v n); rewrite ?andb_true_r, ?andb_false_r, ?orb_false_r, ?orb_false_l; [|done].
  apply eq_true_iff_eq. rewrite !orb_true_iff, !bool_decide_eq_true, Z.ltb_lt. lia.
Qed.

(** What an accepted request is, and the buffer a successful decode leaves. *)
Lemma request_decode_Some inp nm d :
  aimee_tools_request_decode (Some inp) (Some nm) = Some d ->
  let n := Z.to_nat (byte_at inp 6) in
  length inp = AIMEE_TOOLS_REQUEST_LEN /\ 1 <= n <= AIMEE_TOOLS_NAME_MAX /\ n < length nm /\
  d = take n (drop 8 inp) ++ 0%Z :: drop (S n) nm.
Proof.
  unfold aimee_tools_request_decode. case_match eqn:E; [done|]. intros [= <-]. breflect.
  set (n := Z.to_nat (byte_at inp 6)) in *. cbn zeta.
  assert (Hl : length (take n (drop 8 inp)) = n).
  { rewrite length_take, length_drop.
    unfold AIMEE_TOOLS_REQUEST_LEN, AIMEE_TOOLS_NAME_MAX in *. lia. }
  split_and!; [done | lia | done | done |].
  rewrite memcpy_0, Hl, insert_app_r_alt by lia. rewrite Hl, Nat.sub_diag.
  rewrite (drop_S nm (nth n nm 0%Z) n); [done|].
  apply lookup_lt_is_Some_2 in H0 as [x Hx]. by rewrite Hx, (nth_lookup_Some _ _ _ _ Hx).
Qed.

Lemma cstr_decoded inp nm d :
  aimee_tools_request_decode (Some inp) (Some nm) = Some d ->
  cstr (string_of d) = cstr (request_name inp).
Proof.
  intros (_ & _ & _ & ->)%request_decode_Some. rewrite string_of_app. apply cstr_truncates.
Qed.

(** The response bytes do not depend on the previous contents of the buffer. *)
Lemma response_bytes r a b :
  AIMEE_TOOLS_RESPONSE_LEN <= length r ->
  take AIMEE_TOOLS_RESPONSE_LEN (aimee_tools_put_u32 (aimee_tools_put_u32 r 0 a) 4 b) =
  aimee_tools_put_u32 (aimee_tools_put_u32 (replicate 8 0%Z) 0 a) 4 b.
Proof.
  unfold AIMEE_TOOLS_RESPONSE_LEN. intros H.
  do 8 (destruct r as [|? r]; [cbn in H; lia|]). reflexivity.
Qed.

(** A Go set and a C table with the same names answer alike. *)
Lemma decide_one_of (s : gset string) l name :
  s = list_to_set l -> (if decide (name ∈ s) then true else false) = one_of name l.
Proof.
  intros ->. unfold one_of. destruct (decide _) as [H|H]; rewrite elem_of_list_to_set in H.
  - symmetry. by apply in_list_spec.
  - symmetry. by apply in_list_false.
Qed.

(** The tables of the two languages hold the same names. *)
Lemma go_tables :
  go_execNames = list_to_set exec_names /\ go_writeNames = list_to_set write_names /\
  go_controlNames = list_to_set control_names /\ go_readNames = list_to_set read_names.
Proof. split_and!; reflexivity. Qed.

Lemma go_classify_value name : go_classify name = class_value (classify name).
Proof.
  destruct go_tables as (He & Hw & Hc & Hr).
  pose proof (decide_one_of _ _ name He) as He'. pose proof (decide_one_of _ _ name Hw) as Hw'.
  pose proof (decide_one_of _ _ name Hc) as Hc'. pose proof (decide_one_of _ _ name Hr) as Hr'.
  unfold go_classify, classify. rewrite <- He', <- Hw', <- Hc', <- Hr'. by repeat case_match.
Qed.

(** A name without a NUL. *)
Definition plain_name (n : string) : bool := negb (has_char n NUL).

Lemma table_names_plain l name :
  forallb plain_name l = true -> has_char name NUL = true -> one_of name l = false.
Proof.
  intros Hl Hn. apply in_list_false. intros Hin. rewrite forallb_forall in Hl.
  specialize (Hl name). rewrite <- list_elem_of_In in Hl. specialize (Hl Hin).
  unfold plain_name in Hl. by rewrite Hn in Hl.
Qed.

Lemma classify_nul name :
  has_char name NUL = true ->
  classify name = if has_char name ":" then AIMEE_TOOL_CLASS_REMOTE else AIMEE_TOOL_CLASS_UNKNOWN.
Proof.
  intros Hn. unfold classify.
  by rewrite !(table_names_plain _ name) by (reflexivity || done).
Qed.

Lemma class_of_class_value c : class_of_value (class_value c) = Some c.
Proof. by destruct c. Qed.

Lemma class_value_range c : (0 <= class_value c <= 5)%Z.
Proof. destruct c; cbn; lia. Qed.

Lemma length_request_bytes name :
  strlen name <= AIMEE_TOOLS_NAME_MAX -> length (request_bytes name) = AIMEE_TOOLS_REQUEST_LEN.
Proof.
  unfold request_bytes, AIMEE_TOOLS_NAME_MAX, AIMEE_TOOLS_REQUEST_LEN. intros H.
  rewrite !length_app, length_bytes_of, length_replicate. cbn [length]. lia.
Qed.

Lemma take_request_bytes name rest :
  strlen name <= AIMEE_TOOLS_NAME_MAX ->
  take AIMEE_TOOLS_REQUEST_LEN (request_bytes name ++ rest) = request_bytes name.
Proof. intros H. by rewrite take_app_length' by (by rewrite length_request_bytes). Qed.

Lemma request_decode_bytes name nm :
  0 < strlen name <= AIMEE_TOOLS_NAME_MAX -> strlen name < length nm ->
  aimee_tools_request_decode (Some (request_bytes name)) (Some nm) =
  Some (bytes_of name ++ 0%Z :: drop (S (strlen name)) nm).
Proof.
  intros [H0 H1] H2.
  destruct (aimee_tools_request_decode _ _) as [d|] eqn:E.
  - apply request_decode_Some in E as (_ & _ & _ & ->). do 2 f_equal.
    + change (byte_at (request_bytes name) 6) with (Z.of_nat (strlen name)).
      rewrite Nat2Z.id. unfold request_bytes.
      change (drop 8 (?a ++ ?b)) with b. cbn [skipn List.app].
      by rewrite take_app_length' by (by rewrite length_bytes_of).
    + change (byte_at (request_bytes name) 6) with (Z.of_nat (strlen name)).
      by rewrite Nat2Z.id.
  - exfalso. unfold aimee_tools_request_decode in E.
    rewrite length_request_bytes in E by done.
    change (byte_at (request_bytes name) 6) with (Z.of_nat (strlen name)) in E.
    rewrite Nat2Z.id in E.
    change (aimee_tools_get_u32 (request_bytes name) 0) with AIMEE_TOOLS_REQUEST_MAGIC in E.
    change (byte_at (request_bytes name) 4) with 1%Z in E.
    change (byte_at (request_bytes name) 5) with 0%Z in E.
    change (byte_at (request_bytes name) 7) with 0%Z in E.
    rewrite (proj2 (Nat.eqb_neq (length nm) 0)), (proj2 (Nat.eqb_neq (strlen name) 0)),
      (proj2 (Nat.ltb_ge AIMEE_TOOLS_NAME_MAX _)), (proj2 (Nat.leb_gt (length nm) _)) in E
      by lia.
    discriminate E.
Qed.

Lemma encode_Some name out b :
  aimee_tools_request_encode (Some name) (Some out) = Some b ->
  0 < strlen name <= AIMEE_TOOLS_NAME_MAX /\
  b = request_bytes name ++ drop AIMEE_TOOLS_REQUEST_LEN out.
Proof.
  intros H. assert (G : AIMEE_TOOLS_REQUEST_LEN <= length out /\
                        0 < strlen name <= AIMEE_TOOLS_NAME_MAX).
  { unfold aimee_tools_request_encode in H.
    destruct (_ || _)%bool eqn:E in H; [done|]. breflect. lia. }
  destruct G as [G1 G2]. rewrite request_layout in H by done. by injection H.
Qed.

Lemma response_decode_bytes c :
  aimee_tools_response_decode
    (Some (aimee_tools_put_u32
             (aimee_tools_put_u32 (replicate 8 0%Z) 0 AIMEE_TOOLS_RESPONSE_MAGIC)
             4 (class_value c))) = Some c.
Proof. by destruct c. Qed.

(** The adapter's decoder rejects exactly what the Go handler's guard rejects. *)
Lemma request_guard_go request :
  (negb (length request =? go_requestLen)
     || negb (aimee_tools_get_u32 request 0 =? go_requestMagic)%Z
     || negb (byte_at request 4 =? go_wireVersion)%Z || negb (byte_at request 5 =? 0)%Z
     || negb (byte_at request 7 =? 0)%Z || (Z.to_nat (byte_at request 6) =? 0)
     || (go_nameMax <b Z.to_nat (byte_at request 6))) =
  match aimee_tools_request_decode (Some request)
          (Some (replicate (AIMEE_TOOLS_NAME_MAX + 1) 0%Z)) with
  | Some _ => false | None => true end.
Proof.
  unfold aimee_tools_request_decode.
  unfold AIMEE_TOOLS_REQUEST_LEN, AIMEE_TOOLS_WIRE_VERSION, AIMEE_TOOLS_NAME_MAX.
  unfold AIMEE_TOOLS_REQUEST_MAGIC, go_requestLen, go_requestMagic, go_wireVersion, go_nameMax.
  rewrite length_replicate. change (95 + 1 =? 0) with false. rewrite orb_false_r.
  destruct (_ || _ || _ || _ || _ || _ || (95 <b _))%bool eqn:E; [done|]. cbn [orb].
  breflect. by rewrite (proj2 (Nat.leb_gt _ _)) by lia.
Qed.

(** * Properties *)

(** C18: a tool name of 1 to 95 characters survives the wire: the encoder
    succeeds on any large enough buffer, keeps the buffer's length and its bytes
    past the request, and the decoder stores the same name, NUL-terminated, in
    any buffer that has room for it. *)
Theorem request_roundtrip (name : string) (out nm : list Z)
  (Hnul : has_char name NUL = false) (Hlen : 0 < strlen name <= AIMEE_TOOLS_NAME_MAX)
  (Hout : AIMEE_TOOLS_REQUEST_LEN <= length out) (Hnm : strlen name < length nm) :
  exists b d,
    aimee_tools_request_encode (Some name) (Some out) = Some b /\
    length b = length out /\
    drop AIMEE_TOOLS_REQUEST_LEN b = drop AIMEE_TOOLS_REQUEST_LEN out /\
    aimee_tools_request_decode (Some (take AIMEE_TOOLS_REQUEST_LEN b)) (Some nm) = Some d /\
    length d = length nm /\
    cstr (string_of d) = name.
Proof.
  eexists _, _. split; [by apply request_layout|].
  assert (Hb := length_request_bytes name (proj2 Hlen)).
  split_and!.
  - rewrite length_app, Hb, length_drop. lia.
  - by rewrite drop_app_length' by done.
  - rewrite take_request_bytes by lia. by apply request_decode_bytes.
  - rewrite length_app, length_bytes_of. cbn [length]. rewrite length_drop. lia.
  - by apply cstr_bytes_of.
Qed.

Lemma request_roundtrip_witness :
  exists b d,
    aimee_tools_request_encode (Some "git_log") (Some (replicate 110 7%Z)) = Some b /\
    length b = length (replicate 110 7%Z) /\
    drop AIMEE_TOOLS_REQUEST_LEN b = drop AIMEE_TOOLS_REQUEST_LEN (replicate 110 7%Z) /\
    aimee_tools_request_decode (Some (take AIMEE_TOOLS_REQUEST_LEN b))
      (Some (replicate 96 9%Z)) = Some d /\
    length d = length (replicate 96 9%Z) /\
    cstr (string_of d) = "git_log".
Proof.
  apply (request_roundtrip "git_log" (replicate 110 7%Z) (replicate 96 9%Z));
    [reflexivity | cbv; lia | cbv; lia | cbv; lia].
Defined.

(** C16: the classifier's client, the wire and the adapter compose: for every
    tool name that fits the wire, the adapter's handler answers the encoded
    request with status OK, and decoding its response gives the class of that
    name. *)
Theorem classifier_end_to_end (name : string) (out response : list Z) (b : list Z)
  (Hnul : has_char name NUL = false)
  (Henc : aimee_tools_request_encode (Some name) (Some out) = Some b)
  (Hresp : AIMEE_TOOLS_RESPONSE_LEN <= length response) :
  exists r,
    aimee_module_handler (Some {| stage_id := AIMEE_TOOLS_STAGE_DISPATCH; cancelled := false |})
      (Some (take AIMEE_TOOLS_REQUEST_LEN b)) response true = (STATUS_OK, r) /\
    aimee_tools_response_decode (Some r) = Some (classify name).
Proof.
  apply encode_Some in Henc as (Hlen & -> ).
  rewrite take_request_bytes by lia. unfold aimee_module_handler. cbn [negb stage_id cancelled orb].
  rewrite (proj2 (Nat.ltb_ge _ _)) by done.
  rewrite request_decode_bytes by (rewrite ?length_replicate; unfold AIMEE_TOOLS_NAME_MAX in *; lia).
  eexists. split; [reflexivity|].
  rewrite response_bytes, cstr_bytes_of by done.
  apply response_decode_bytes.
Qed.

Lemma classifier_end_to_end_witness :
  exists r,
    aimee_module_handler (Some {| stage_id := AIMEE_TOOLS_STAGE_DISPATCH; cancelled := false |})
      (Some (take AIMEE_TOOLS_REQUEST_LEN (request_bytes "bash"))) (replicate 16 1%Z) true
      = (STATUS_OK, r) /\
    aimee_tools_response_decode (Some r) = Some (classify "bash").
Proof.
  apply (classifier_end_to_end "bash" (replicate 104 0%Z)); [reflexivity | reflexivity | cbv; lia].
Defined.

(** C17: byte parity of the C fixture with the production Go process: on every
    request whose name field has no NUL byte, and with a response buffer of at
    least 8 bytes, the two handlers return the same status and the same bytes,
    the rejected and the cancelled requests included. *)
Theorem adapter_go_parity (inv : invocation) (request response : list Z)
  (Hnul : has_char (request_name request) NUL = false)
  (Hresp : AIMEE_TOOLS_RESPONSE_LEN <= length response) :
  aimee_module_handler (Some inv) (Some request) response true =
  ((go_Handle inv request).2, (go_Handle inv request).1).
Proof.
  unfold aimee_module_handler, go_Handle. cbn [negb orb].
  rewrite (proj2 (Nat.ltb_ge _ _)), orb_false_r by done.
  unfold AIMEE_TOOLS_STAGE_DISPATCH, go_StageDispatch.
  destruct (stage_id inv =? 1)%Z; [|reflexivity]. cbn [negb orb].
  rewrite request_guard_go.
  destruct (aimee_tools_request_decode _ _) as [d|] eqn:E; [|done].
  destruct (cancelled inv); [done|]. cbn [fst snd].
  rewrite response_bytes by done. rewrite (cstr_decoded _ _ _ E), cstr_id by done.
  by rewrite go_classify_value.
Qed.

Lemma adapter_go_parity_witness :
  aimee_module_handler (Some {| stage_id := 1; cancelled := false |})
    (Some (request_bytes "mcp:remote")) (replicate 8 0%Z) true =
  ((go_Handle {| stage_id := 1; cancelled := false |} (request_bytes "mcp:remote")).2,
   (go_Handle {| stage_id := 1; cancelled := false |} (request_bytes "mcp:remote")).1).
Proof. apply adapter_go_parity; [reflexivity | cbv; lia]. Defined.

(** C39: the parity ends at a NUL byte: on every request both servers accept whose
    name field is [a], a NUL and [b], the adapter classifies [a], while the Go
    process classifies the whole field, which is in no table: REMOTE when it
    holds a colon, UNKNOWN otherwise.  So the two differ exactly when [a] has
    another class. *)
Theorem adapter_go_nul_divergence (inv : invocation) (request response : list Z) (a b : string)
  (Hok : (go_Handle inv request).2 = STATUS_OK)
  (Hname : request_name request = a +:+ String NUL b) (Ha : has_char a NUL = false)
  (Hresp : AIMEE_TOOLS_RESPONSE_LEN <= length response) :
  let c := aimee_module_handler (Some inv) (Some request) response true in
  let go_class := if has_char a ":" || has_char b ":" then AIMEE_TOOL_CLASS_REMOTE
                  else AIMEE_TOOL_CLASS_UNKNOWN in
  c.1 = STATUS_OK /\
  aimee_tools_response_decode (Some c.2) = Some (classify a) /\
  aimee_tools_response_decode (Some (go_Handle inv request).1) = Some go_class /\
  (c.2 = (go_Handle inv request).1 <-> classify a = go_class).
Proof.
  cbv zeta. unfold go_Handle in *. unfold aimee_module_handler. cbn [negb orb].
  rewrite (proj2 (Nat.ltb_ge _ _)), orb_false_r by done.
  unfold AIMEE_TOOLS_STAGE_DISPATCH, go_StageDispatch in *.
  destruct (stage_id inv =? 1)%Z; [|discriminate Hok]. cbn [negb orb] in *.
  rewrite request_guard_go in *.
  destruct (aimee_tools_request_decode _ _) as [d|] eqn:D; [|discriminate Hok].
  destruct (cancelled inv); [discriminate Hok|]. cbn [fst snd].
  rewrite response_bytes by done. rewrite (cstr_decoded _ _ _ D), Hname, cstr_terminated by done.
  fold (request_name request). rewrite Hname, go_classify_value.
  assert (Hc : classify (a +:+ String NUL b) =
    if has_char a ":" || has_char b ":" then AIMEE_TOOL_CLASS_REMOTE else AIMEE_TOOL_CLASS_UNKNOWN).
  { rewrite classify_nul by (rewrite has_char_app; apply orb_true_r). rewrite has_char_app.
    by replace (has_char (String NUL b) ":") with (has_char b ":")
      by (unfold has_char; cbn; by destruct (strchr b ":")). }
  rewrite Hc. generalize (if has_char a ":" || has_char b ":"
    then AIMEE_TOOL_CLASS_REMOTE else AIMEE_TOOL_CLASS_UNKNOWN). intros g.
  unfold go_responseLen, go_responseMagic. fold AIMEE_TOOLS_RESPONSE_MAGIC.
  split_and!; [done | apply response_decode_bytes | apply response_decode_bytes|].
  split; [|by intros ->]. intros He. apply (f_equal (fun r => aimee_tools_response_decode (Some r))) in He.
  rewrite !response_decode_bytes in He. by injection He.
Qed.

(** "bash", a NUL and a rest: EXEC for the one, UNKNOWN for the other. *)
Lemma adapter_go_nul_divergence_witness :
  let inv := {| stage_id := 1; cancelled := false |} in
  let request := request_bytes ("bash" +:+ String NUL "x") in
  let c := aimee_module_handler (Some inv) (Some request) (replicate 8 0%Z) true in
  classify "bash" = AIMEE_TOOL_CLASS_EXEC /\ c.2 <> (go_Handle inv request).1.
Proof.
  destruct (adapter_go_nul_divergence {| stage_id := 1; cancelled := false |}
              (request_bytes ("bash" +:+ String NUL "x")) (replicate 8 0%Z) "bash" "x")
    as (_ & _ & _ & H); [reflexivity | reflexivity | reflexivity | cbv; lia|].
  split; [reflexivity|]. intros E. apply H in E. discriminate E.
Defined.

(** C19: memory safety of the request decoder: whatever bytes arrive, a
    successful decode has read only the request's 104 bytes and has written only
    the name and its terminator, inside the name buffer; the stored name is 1 to
    95 bytes of the request's name field. *)
Theorem request_decode_safe (inp nm d : list Z)
  (Hd : aimee_tools_request_decode (Some inp) (Some nm) = Some d) :
  exists n, 1 <= n <= AIMEE_TOOLS_NAME_MAX /\ n < length nm /\
    length inp = AIMEE_TOOLS_REQUEST_LEN /\ length d = length nm /\
    take n d = take n (drop 8 inp) /\ d !! n = Some 0%Z /\ drop (S n) d = drop (S n) nm.
Proof.
  apply request_decode_Some in Hd as (Hi & Hn & Hnm & ->).
  set (n := Z.to_nat _) in *. exists n.
  assert (Hl : length (take n (drop 8 inp)) = n).
  { rewrite length_take, length_drop.
    unfold AIMEE_TOOLS_REQUEST_LEN, AIMEE_TOOLS_NAME_MAX in *. lia. }
  split_and!; try done; try lia.
  - rewrite length_app, Hl. cbn [length]. rewrite length_drop. lia.
  - by rewrite take_app_length' by done.
  - rewrite lookup_app_r by lia. by rewrite Hl, Nat.sub_diag.
  - rewrite drop_app_ge by lia. rewrite Hl. replace (S n - n) with 1 by lia. done.
Qed.

Lemma request_decode_safe_witness :
  exists n, 1 <= n <= AIMEE_TOOLS_NAME_MAX /\ n < length (replicate 96 9%Z) /\
    length (request_bytes "grep") = AIMEE_TOOLS_REQUEST_LEN /\
    length (bytes_of "grep" ++ 0%Z :: replicate 91 9%Z) = length (replicate 96 9%Z) /\
    take n (bytes_of "grep" ++ 0%Z :: replicate 91 9%Z) = take n (drop 8 (request_bytes "grep")) /\
    (bytes_of "grep" ++ 0%Z :: replicate 91 9%Z) !! n = Some 0%Z /\
    drop (S n) (bytes_of "grep" ++ 0%Z :: replicate 91 9%Z) = drop (S n) (replicate 96 9%Z).
Proof. apply request_decode_safe. reflexivity. Defined.
