(* ===== verification/Ext.v ===== *)
(** What the tools module takes from the rest of the server as pure functions
    and constants: code that is not in this repository, a parameter of every
    definition that uses it.  No law is assumed of them; the file ends with a
    concrete instance. *)
From S2P Require Import Prelude CStr.
Local Open Scope tools_scope.

Class Ext := {
  (** [#ifdef __linux__]. *)
  build_linux : bool;
  (** Constants of headers outside the repository. *)
  MAX_PATH_LEN : nat;
  AGENT_TOOL_OUTPUT_MAX : nat;
  AGENT_TOOL_OUTPUT_RAW_MAX : nat;
  AGENT_MAX_LIST_FILES : nat;
  (** [agent_tool_output_cap_clamp] of agent_exec.h. *)
  agent_tool_output_cap_clamp : Z -> nat;
  (** [normalize_path(path, cwd, ...)]: the absolute path written. *)
  normalize_path : string -> option string -> string;
  (** [shlex_split(command, tokens, max)]: the tokens, at most [max]; none when
      the call returns 0 or a negative count. *)
  shlex_split : string -> nat -> list string;
  util_token_is_shell_operator : string -> bool;
  has_shell_metachar : string -> bool;
  text_is_valid_utf8 : string -> bool;
  (** What a read of indeterminate memory gives: an uninitialised array, a freed
      block. *)
  indeterminate : string;
}.

(** * A reference instance

    A concrete choice of the parameters, on which the witnesses run: lexical
    path joining, tokens split at blanks, the sizes of a Linux build. *)

Fixpoint split_blanks (cur s : string) : list string :=
  match s with
  | "" => if cur == "" then [] else [cur]
  | String c r =>
      if isspace c then (if cur == "" then [] else [cur]) ++ split_blanks "" r
      else split_blanks (cur +:+ String c "") r
  end.

Definition demo_normalize (path : string) (cwd : option string) : string :=
  if starts_with "/" path then path else or_else cwd "" +:+ "/" +:+ path.

Definition demo_ext : Ext := {|
  build_linux := true;
  MAX_PATH_LEN := 512;
  AGENT_TOOL_OUTPUT_MAX := Z.to_nat 32768;
  AGENT_TOOL_OUTPUT_RAW_MAX := Z.to_nat 32768;
  AGENT_MAX_LIST_FILES := 100;
  agent_tool_output_cap_clamp v :=
    Z.to_nat (if (v <=Z 0) then 32768 else Z.min v 32768)%Z;
  normalize_path := demo_normalize;
  shlex_split s n := take n (split_blanks "" s);
  util_token_is_shell_operator t := in_list t ["&&"; "||"; ";"; "|"; "&"; ">"; "<"; ">>"];
  has_shell_metachar s := existsb (has_char s) (String.list_ascii_of_string "|&;<>$");
  text_is_valid_utf8 s := forallb (fun c => code c <b 128) (String.list_ascii_of_string s);
  indeterminate := "?";
|}.
