(* ===== verification/CmdGuard.v ===== *)
(** The command guard: which shell commands may run outside the sandbox.

    [agent_tools.c] lines 77 to 557 decide, from the tokens of a command,
    whether it is a chain of read-only commands, or of file commands that stay
    inside the delegate's own worktree, and [agent_tools_internal.h] scans a
    command for the protected parent worktree.  All of it is a pure function of
    the command, of the delegate's write root and of three functions of other
    modules ([normalize_path], [util_token_is_shell_operator], [access]). *)
From S2P Require Import Prelude CStr Ext.
Local Open Scope tools_scope.

(** * agent_tools_internal.h: references to the read-only root *)

Definition before_chars : string :=
  String SQUOTE (String DQUOTE ("=:,([{< " +:+ String TAB nl)).
Definition after_chars : string :=
  "/" +:+ String SQUOTE (String DQUOTE (":,)]}> " +:+ String TAB nl)).

(** [p[-1]] is one of the opening delimiters, or [p] is the start. *)
Definition ref_before_ok (cmd : string) (q : nat) : bool :=
  (q =? 0) || is_char (char_at (q - 1) cmd) before_chars.

(** [p[ro_len]] is one of the closing delimiters or the end. *)
Definition ref_after_ok (p ro : string) : bool :=
  is_char (char_at (strlen ro) p) after_chars || Ascii.eqb (char_at (strlen ro) p) NUL.

Definition ref_under_rw (p : string) (rw : option string) : bool :=
  match rw with
  | None => false
  | Some rw =>
      (0 <b strlen rw) && starts_with rw p
      && (Ascii.eqb (char_at (strlen rw) p) "/" || Ascii.eqb (char_at (strlen rw) p) NUL)
  end.

(** One position of the scan. *)
Definition ref_hit (cmd ro : string) (rw : option string) (q : nat) : bool :=
  let p := sdrop q cmd in
  ref_before_ok cmd q && ref_after_ok p ro && negb (ref_under_rw p rw).

(** The [for] loop from offset [p]; each turn moves past the occurrence found,
    so the length of the command bounds the number of turns. *)
Fixpoint ref_scan (fuel : nat) (cmd ro : string) (rw : option string) (p : nat) : bool :=
  match fuel with
  | 0 => false
  | S fuel =>
      match strstr (sdrop p cmd) ro with
      | None => false
      | Some k => if ref_hit cmd ro rw (p + k) then true
                  else ref_scan fuel cmd ro rw (S (p + k))
      end
  end.

Definition agent_tools_cmd_refers_to_readonly_root (cmd ro : option string)
    (rw : option string) : bool :=
  match cmd, ro with
  | Some cmd, Some ro =>
      if ro == "" then false else ref_scan (S (strlen cmd)) cmd ro rw 0
  | _, _ => false
  end.

Definition lxc_cmd_safe (cmd ro rw : option string) : bool :=
  negb (agent_tools_cmd_refers_to_readonly_root cmd ro rw).

(** * Paths and words *)

Definition bash_basename (path : string) : string :=
  match strrchr path "/" with
  | Some i => sdrop (S i) path
  | None => path
  end.

(** The loop over the entries of PATH. *)
Fixpoint path_has_dir_loop (fuel : nat) (p dir : string) : bool :=
  match fuel with
  | 0 => false
  | S fuel =>
      match p with
      | "" => false
      | _ =>
          let colon := strchr p ":" in
          let len := default (strlen p) colon in
          if (len =? strlen dir) && starts_with dir p then true
          else match colon with
               | None => false
               | Some k => path_has_dir_loop fuel (sdrop (S k) p) dir
               end
      end
  end.

Definition bash_path_has_dir (path_env : string) (dir : string) : bool :=
  if dir == "" then false else path_has_dir_loop (S (strlen path_env)) path_env dir.

Definition bash_word_in_list (word : option string) (l : list string) : bool :=
  match word with
  | None => false
  | Some w => in_list w l
  end.

Definition bash_path_under_root (path : string) (root : option string) : bool :=
  match root with
  | None => false
  | Some root =>
      if (path == "") || (root == "") then false
      else starts_with root path
           && (Ascii.eqb (char_at (strlen root) path) NUL
               || Ascii.eqb (char_at (strlen root) path) "/")
  end.

Definition bash_token_looks_path_like (token : string) : bool :=
  negb (token == "") && (has_char token "/" || (token == ".") || (token == "..")).

Section Guard.
Context `{E : Ext}.

(** [write_root]: the answer of [agent_tools_parent_write_guard_write_root()],
    a thread-local the guard only reads. *)
Variable write_root : option string.

Definition bash_path_under_guard_write_root (path : string) (workspace : option string) : bool :=
  if negb (nonempty write_root) || (path == "") then false
  else bash_path_under_root (snprintf MAX_PATH_LEN (normalize_path path workspace)) write_root.

Definition bash_guarded_path_token_allowed (token : string) (workspace : option string) : bool :=
  if token == "" then true
  else
    let value := match strchr token "=" with Some i => sdrop (S i) token | None => "" end in
    if negb (value == "") && bash_token_looks_path_like value
       && negb (bash_path_under_guard_write_root value workspace) then false
    else if bash_token_looks_path_like token
            && negb (bash_path_under_guard_write_root token workspace) then false
    else true.

Definition readonly_git : list string :=
  ["status"; "diff"; "show"; "log"; "rev-parse"; "ls-files"; "branch"; "describe";
   "merge-base"; "grep"; "remote"].

(** The scan for the subcommand, over the tokens after [git]. *)
Fixpoint git_subcommand (tokens : list string) : option string :=
  match tokens with
  | [] => None
  | t :: r =>
      if (t == "-C") || (t == "-c") then
        match r with [] => None | _ :: r' => git_subcommand r' end
      else if starts_with "-C" t && negb (Ascii.eqb (char_at 2 t) NUL) then git_subcommand r
      else if Ascii.eqb (char_at 0 t) "-" then git_subcommand r
      else Some t
  end.

Definition bash_git_subcommand_is_readonly (tokens : list string) : bool :=
  bash_word_in_list (git_subcommand (tail tokens)) readonly_git.

Definition bash_aimee_subcommand_is_readonly (tokens : list string) : bool :=
  match tokens with
  | _ :: cmd :: r =>
      let sub := default "" (head r) in
      if cmd == "index" then
        in_list sub ["overview"; "list"; "find"; "structure"; "callers"; "blast-radius"]
      else if cmd == "memory" then in_list sub ["search"; "list"; "get"; "read"]
      else if cmd == "delegate" then in_list sub ["status"; "log"; "--list-roles"]
      else if cmd == "provider" then in_list sub ["list"; "show"]
      else if (cmd == "jobs") || (cmd == "job") then in_list sub ["list"; "status"; "logs"]
      else (cmd == "status") || (cmd == "workers")
  | _ => false
  end.

Definition readonly_commands : list string :=
  ["cat"; "cut"; "dirname"; "echo"; "file"; "find"; "grep"; "head"; "ls"; "nl"; "printf";
   "pwd"; "rg"; "sed"; "sort"; "stat"; "tail"; "test"; "true"; "wc"; "uniq"; "false";
   "basename"; "readlink"; "realpath"].

Definition find_actions : list string :=
  ["-delete"; "-exec"; "-execdir"; "-ok"; "-okdir"; "-fprint"; "-fprintf"].

Definition bash_command_is_readonly_exec (tokens : list string) (workspace : option string) : bool :=
  match tokens with
  | [] => false
  | t0 :: args =>
      if existsb util_token_is_shell_operator tokens then false
      else
        let cmd := bash_basename t0 in
        if cmd == "cd" then
          match args with
          | [t1] => bash_path_under_guard_write_root t1 workspace
          | _ => false
          end
        else if cmd == "git" then bash_git_subcommand_is_readonly tokens
        else if cmd == "aimee" then bash_aimee_subcommand_is_readonly tokens
        else if negb (in_list cmd readonly_commands) then false
        else if cmd == "sed" then
          negb (existsb (fun t => (t == "-i") || starts_with "-i" t) args)
        else if cmd == "find" then
          negb (existsb (fun t => in_list t find_actions) args)
        else true
  end.

(** What a validator leaves in its output arrays: the start and the length of
    each command, and the operator before it ([operators[0]] is NULL). *)
Record chain := {
  c_starts : list nat;
  c_counts : list nat;
  c_ops : list (option string);
}.

Definition chain_init : chain := {| c_starts := []; c_counts := []; c_ops := [None] |}.

Definition push_command (c : chain) (start count : nat) : chain :=
  {| c_starts := c_starts c ++ [start]; c_counts := c_counts c ++ [count]; c_ops := c_ops c |}.

Definition push_operator (c : chain) (op : string) : chain :=
  {| c_starts := c_starts c; c_counts := c_counts c; c_ops := c_ops c ++ [Some op] |}.

(** [tokens + start], [count] of them. *)
Definition segment (tokens : list string) (start count : nat) : list string :=
  take count (drop start tokens).

Section Chain.
(** The operators a chain may use and the test each command must pass: the two
    validators of the source share the loop below, which is the body of both. *)
Variable allowed_op : string -> bool.
Variable command_ok : list string -> bool.
Variable max_commands : nat.

(** The [for (i = 0; i <= count; i++)] loop; [idx] are the values of [i] left. *)
Fixpoint chain_loop (tokens : list string) (idx : list nat) (start : nat) (c : chain) :
    option chain :=
  match idx with
  | [] => Some c
  | i :: idx =>
      let at_end := i =? length tokens in
      let tok := default "" (tokens !! i) in
      let at_allowed_op := negb at_end && allowed_op tok in
      if negb at_end && util_token_is_shell_operator tok && negb at_allowed_op then None
      else if negb at_end && negb at_allowed_op then chain_loop tokens idx start c
      else
        let n := i - start in
        if (n =? 0) || (max_commands <=b length (c_starts c)) then None
        else if negb (command_ok (segment tokens start n)) then None
        else
          let c := push_command c start n in
          if at_end then chain_loop tokens idx start c
          else if max_commands <=b length (c_starts c) then None
          else chain_loop tokens idx (S i) (push_operator c tok)
  end.

Definition chain_validate (tokens : list string) : option chain :=
  chain_loop tokens (seq 0 (S (length tokens))) 0 chain_init.
End Chain.

Definition readonly_op (t : string) : bool := (t == "&&") || (t == ";") || (t == "|").
Definition workspace_op (t : string) : bool := (t == "&&") || (t == ";").

(** [None] is the result 0. *)
Definition bash_readonly_chain_validate (tokens : list string) (max_commands : nat)
    (workspace : option string) : option chain :=
  if (length tokens =? 0) || (max_commands =? 0) then None
  else chain_validate readonly_op (fun seg => bash_command_is_readonly_exec seg workspace)
         max_commands tokens.

Definition bash_command_paths_stay_in_guarded_workspace (tokens : list string)
    (workspace : option string) : bool :=
  forallb (fun t => bash_guarded_path_token_allowed t workspace) tokens.

Definition bash_guarded_fallback_paths_safe (command : string) (workspace : option string) : bool :=
  let tokens := shlex_split command 64 in
  if (length tokens =? 0) || (64 <=b length tokens) then false
  else bash_command_paths_stay_in_guarded_workspace tokens workspace.

(** The path an option of [make] carries, in the same or in the next token. *)
Fixpoint make_options (tokens : list string) (workspace : option string) : bool :=
  match tokens with
  | [] => true
  | t :: r =>
      if in_list t ["-C"; "--directory"; "-f"; "--file"; "--makefile"] then
        match r with
        | [] => false
        | path :: r' =>
            if negb (bash_path_under_guard_write_root path workspace) then false
            else make_options r' workspace
        end
      else
        let path :=
          if starts_with "-C" t && negb (Ascii.eqb (char_at 2 t) NUL) then Some (sdrop 2 t)
          else if starts_with "-f" t && negb (Ascii.eqb (char_at 2 t) NUL) then Some (sdrop 2 t)
          else if starts_with "--directory=" t then Some (sdrop 12 t)
          else if starts_with "--file=" t then Some (sdrop 7 t)
          else if starts_with "--makefile=" t then Some (sdrop 11 t)
          else None in
        match path with
        | Some p => if negb (bash_path_under_guard_write_root p workspace) then false
                    else make_options r workspace
        | None => make_options r workspace
        end
  end.

Definition bash_make_path_options_stay_in_workspace (tokens : list string)
    (workspace : option string) : bool := make_options (tail tokens) workspace.

Definition workspace_commands : list string := ["mkdir"; "touch"; "cp"; "mv"; "rm"; "rmdir"].

(** [access_x p] is [access(p, X_OK) == 0]. *)
Variable access_x : string -> bool.

Definition bash_command_is_guarded_workspace_segment (tokens : list string)
    (workspace : option string) : bool :=
  match tokens, workspace with
  | t0 :: _, Some ws =>
      if ws == "" then false
      else if negb (bash_path_under_root ws write_root) then false
      else if existsb util_token_is_shell_operator tokens then false
      else if negb (bash_command_paths_stay_in_guarded_workspace tokens workspace) then false
      else
        let cmd := bash_basename t0 in
        if cmd == "make" then bash_make_path_options_stay_in_workspace tokens workspace
        else if in_list cmd workspace_commands then true
        else if has_char t0 "/" then
          let resolved := snprintf MAX_PATH_LEN (normalize_path t0 workspace) in
          bash_path_under_root resolved write_root && access_x resolved
        else false
  | _, _ => false
  end.

Definition bash_workspace_chain_validate (tokens : list string) (max_commands : nat)
    (workspace : option string) : option chain :=
  chain_validate workspace_op (fun seg => bash_command_is_guarded_workspace_segment seg workspace)
    max_commands tokens.
End Guard.

(** * Reference definitions *)

(** The entries of a PATH-like string. *)
Fixpoint path_entries_from (cur : string) (p : string) : list string :=
  match p with
  | "" => [cur]
  | String c r =>
      if Ascii.eqb ":" c then cur :: path_entries_from "" r
      else path_entries_from (cur +:+ String c "") r
  end.

Definition path_entries (p : string) : list string := path_entries_from "" p.

(** [path] is [root] or lies below it. *)
Definition below (path root : string) : Prop :=
  root <> "" /\ (path = root \/ exists r, path = root +:+ "/" +:+ r).

(** What a chain validator accepts: commands separated by single operators. *)
Record chain_shape (allowed_op : string -> bool) (is_op : string -> bool)
    (command_ok : list string -> bool) (max : nat)
    (tokens : list string) (init : list (list string)) (ops : list string)
    (last : list string) : Prop := {
  cs_tokens : tokens = concat (zip_with (fun s o => s ++ [o]) init ops) ++ last;
  cs_length : length init = length ops /\ length init < max;
  cs_ops : Forall (fun o => allowed_op o = true) ops;
  cs_commands : Forall (fun s => s <> [] /\ command_ok s = true /\
      Forall (fun t => allowed_op t = false /\ is_op t = false) s) (init ++ [last]);
}.

(** What the output arrays of a validator say: the commands are segments of the
    token array, in bounds, and the operators follow the NULL of the first. *)
Record chain_arrays (tokens : list string) (c : chain) (segs : list (list string))
    (ops : list string) : Prop := {
  ca_segments : zip_with (segment tokens) (c_starts c) (c_counts c) = segs;
  ca_starts : length (c_starts c) = length segs;
  ca_counts : length (c_counts c) = length segs;
  ca_bounds : Forall2 (fun st n => st + n <= length tokens) (c_starts c) (c_counts c);
  ca_ops : c_ops c = None :: map Some ops;
}.

(** * Lemmas *)

Lemma ref_scan_sound fuel cmd ro rw p :
  ref_scan fuel cmd ro rw p = true ->
  exists q, starts_with ro (sdrop q cmd) = true /\ ref_hit cmd ro rw q = true.
Proof.
  revert p. induction fuel as [|fuel IH]; intros p; cbn [ref_scan]; [done|].
  destruct (strstr (sdrop p cmd) ro) as [k|] eqn:E; [|done].
  apply strstr_Some in E as [E _]. rewrite sdrop_sdrop in E.
  destruct (ref_hit cmd ro rw (p + k)) eqn:H; [eauto | apply IH].
Qed.

Lemma sdrop_ge n s : strlen s <= n -> sdrop n s = "".
Proof.
  intros H. assert (L : strlen (sdrop n s) = 0) by (rewrite strlen_sdrop; lia).
  by destruct (sdrop n s).
Qed.

Lemma ref_scan_complete fuel cmd ro rw p q :
  ro <> "" -> strlen cmd < fuel + p -> p <= q ->
  starts_with ro (sdrop q cmd) = true -> ref_hit cmd ro rw q = true ->
  ref_scan fuel cmd ro rw p = true.
Proof.
  intros Hro. revert p. induction fuel as [|fuel IH]; intros p Hf Hpq Hs Hh.
  { exfalso. rewrite sdrop_ge in Hs by lia. by destruct ro. }
  cbn [ref_scan]. destruct (strstr (sdrop p cmd) ro) as [k|] eqn:E.
  - destruct (strstr_Some _ _ _ E) as [_ Hmin].
    destruct (ref_hit cmd ro rw (p + k)) eqn:Hk; [done|].
    destruct (decide (q = p + k)) as [->|]; [congruence|].
    apply IH; try done; [lia|].
    destruct (decide (q < p + k)); [|lia].
    exfalso. specialize (Hmin (q - p) ltac:(lia)).
    rewrite sdrop_sdrop in Hmin. replace (p + (q - p)) with q in Hmin by lia. congruence.
  - exfalso. pose proof (strstr_None _ _ E (q - p)) as Hn.
    rewrite sdrop_sdrop in Hn. replace (p + (q - p)) with q in Hn by lia. congruence.
Qed.

Lemma bash_path_under_root_spec path root :
  has_char path NUL = false ->
  bash_path_under_root path (Some root) = true <-> below path root.
Proof.
  intros Hnul. unfold bash_path_under_root, below.
  destruct (String.eqb_spec root "") as [->|Hr].
  { rewrite orb_true_r. split; [done | by intros [? _]]. }
  rewrite orb_false_r. destruct (String.eqb_spec path "") as [->|Hp].
  { split; [done|]. intros [_ [H|[r H]]]; by destruct root. }
  rewrite andb_true_iff, starts_with_spec, orb_true_iff, !Ascii.eqb_eq. split.
  - intros [[r ->] H]. split; [done|]. rewrite <- (Nat.add_0_r (strlen root)) in H.
    rewrite char_at_app_r in H. destruct r as [|c r]; [left; by rewrite app_nil_s|].
    rewrite has_char_app in Hnul. apply orb_false_iff in Hnul as [_ Hnul].
    destruct H as [H|H]; cbn in H; subst c; [done | right; by exists r].
  - intros [_ [->|[r ->]]].
    + split; [exists ""; by rewrite app_nil_s | left; apply char_at_end].
    + split; [by eexists | right].
      rewrite <- (Nat.add_0_r (strlen root)). by rewrite char_at_app_r.
Qed.

Lemma path_entries_from_unfold cur p :
  path_entries_from cur p =
  match strchr p ":" with
  | None => [cur +:+ p]
  | Some k => (cur +:+ stake k p) :: path_entries (sdrop (S k) p)
  end.
Proof.
  revert cur. induction p as [|c p IH]; intros cur; cbn [path_entries_from strchr].
  { by rewrite app_nil_s. }
  destruct (Ascii.eqb ":" c) eqn:Ec; [by rewrite app_nil_s|].
  rewrite IH. destruct (strchr p ":"); cbn; by rewrite <- app_assoc_s.
Qed.

Lemma path_has_dir_loop_spec fuel p dir :
  dir <> "" -> strlen p < fuel -> path_has_dir_loop fuel p dir = in_list dir (path_entries p).
Proof.
  intros Hd. revert p. induction fuel as [|fuel IH]; intros p Hf; [lia|].
  cbn [path_has_dir_loop]. destruct p as [|c p'] eqn:Ep.
  { unfold in_list. cbn. destruct (String.eqb_spec dir ""); done. }
  rewrite <- Ep in *. unfold path_entries. rewrite path_entries_from_unfold.
  destruct (strchr p ":") as [k|] eqn:K; unfold in_list; cbn [from_option id existsb].
  - pose proof (strchr_split _ _ _ K) as Hs. pose proof (strchr_Some _ _ _ K) as (_ & Hk & _).
    assert (Hkey : (k =? strlen dir) && starts_with dir p = (dir == stake k p)).
    { rewrite <- (starts_with_exact dir (stake k p) (String ":" (sdrop (S k) p))), <- Hs.
      rewrite strlen_stake. by replace (Nat.min k (strlen p)) with k by lia. }
    rewrite Hkey. cbn [String.append]. destruct (dir == stake k p); [done|].
    cbn [orb]. rewrite IH; [done|]. rewrite strlen_sdrop. lia.
  - pose proof (starts_with_exact dir p "") as Hkey. rewrite app_nil_s in Hkey.
    rewrite Hkey. cbn [String.append]. by destruct (dir == p).
Qed.

(** ** The chain validators *)

Section ChainLemmas.
Context `{E : Ext} (allowed_op : string -> bool) (command_ok : list string -> bool) (max : nat).

(** A token that is not at a chain operator. *)
Definition plain (t : string) : Prop :=
  allowed_op t = false /\ util_token_is_shell_operator t = false.

(** The loop's invariant: the tokens before [start] are the commands pushed so
    far, each followed by its operator, and the tokens from [start] to [i] are
    plain. *)
Record chain_inv (tokens : list string) (i start : nat) (c : chain)
    (init : list (list string)) (ops : list string) : Prop := {
  ci_le : start <= i;
  ci_prefix : take start tokens = concat (zip_with (fun s o => s ++ [o]) init ops);
  ci_length : length init = length ops;
  ci_arrays : chain_arrays tokens c init ops;
  ci_ops : Forall (fun o => allowed_op o = true) ops;
  ci_commands : Forall (fun s => s <> [] /\ command_ok s = true /\ Forall plain s) init;
  ci_plain : Forall plain (segment tokens start (i - start));
}.

Lemma segment_snoc (tokens : list string) start i t :
  start <= i -> tokens !! i = Some t ->
  segment tokens start (S i - start) = segment tokens start (i - start) ++ [t].
Proof.
  intros H Ht. unfold segment. replace (S i - start) with (S (i - start)) by lia.
  apply take_S_r. rewrite lookup_drop. by replace (start + (i - start)) with i by lia.
Qed.

Lemma length_segment (tokens : list string) start n :
  start + n <= length tokens -> length (segment tokens start n) = n.
Proof. intros H. unfold segment. rewrite length_take, length_drop. lia. Qed.

Lemma segment_full (tokens : list string) start :
  segment tokens start (length tokens - start) = drop start tokens.
Proof. unfold segment. by rewrite firstn_all2 by (rewrite length_drop; lia). Qed.

Lemma inv_init tokens : chain_inv tokens 0 0 chain_init [] [].
Proof. repeat split; cbn; try done; constructor. Qed.

Lemma push_arrays tokens c segs ops start n :
  chain_arrays tokens c segs ops -> start + n <= length tokens ->
  chain_arrays tokens (push_command c start n) (segs ++ [segment tokens start n]) ops.
Proof.
  intros [Hz Hs Hn Hb Ho] H. split; cbn [push_command c_starts c_counts c_ops];
    rewrite ?length_app; cbn [length]; try lia; try done.
  - by rewrite zip_with_app, Hz by lia.
  - apply Forall2_app; [done|]. by repeat constructor.
Qed.

Lemma push_operator_arrays tokens c segs ops op :
  chain_arrays tokens c segs ops -> chain_arrays tokens (push_operator c op) segs (ops ++ [op]).
Proof.
  intros [Hz Hs Hn Hb Ho]. split; cbn [push_operator c_starts c_counts c_ops]; try done.
  by rewrite Ho, map_app.
Qed.

(** Stepping over a plain token. *)
Lemma inv_plain tokens i start c init ops t :
  chain_inv tokens i start c init ops -> tokens !! i = Some t -> plain t ->
  chain_inv tokens (S i) start c init ops.
Proof.
  intros [] Ht Hp. split; try done; [lia|].
  rewrite (segment_snoc _ _ _ t) by (done || lia). apply Forall_app; auto.
Qed.

(** Closing a command at an operator. *)
Lemma inv_operator tokens i start c init ops op :
  chain_inv tokens i start c init ops -> tokens !! i = Some op -> allowed_op op = true ->
  start < i -> command_ok (segment tokens start (i - start)) = true ->
  chain_inv tokens (S i) (S i) (push_operator (push_command c start (i - start)) op)
    (init ++ [segment tokens start (i - start)]) (ops ++ [op]).
Proof.
  intros [? Hpre Hl Ha Ho Hc Hp] Ht Hop Hlt Hok.
  assert (Hlen := lookup_lt_Some _ _ _ Ht). split.
  - lia.
  - rewrite zip_with_app, concat_app, <- Hpre by done. cbn. rewrite app_nil_r.
    rewrite <- (segment_snoc tokens start i op) by (done || lia). unfold segment.
    rewrite <- (take_drop start (take (S i) tokens)), take_take, skipn_firstn_comm.
    by replace (start `min` S i) with start by lia.
  - rewrite !length_app, Hl. cbn. lia.
  - apply push_operator_arrays, push_arrays; [done | lia].
  - apply Forall_app; auto.
  - apply Forall_app; split; [done|]. constructor; [|done]. split; [|done].
    intros Hn. apply (f_equal length) in Hn. rewrite length_segment in Hn by lia.
    cbn in Hn. lia.
  - by rewrite Nat.sub_diag.
Qed.

(** Closing the last command. *)
Lemma inv_end tokens start c init ops :
  chain_inv tokens (length tokens) start c init ops -> start < length tokens ->
  command_ok (segment tokens start (length tokens - start)) = true ->
  length init < max ->
  let last := segment tokens start (length tokens - start) in
  let c' := push_command c start (length tokens - start) in
  chain_shape allowed_op util_token_is_shell_operator command_ok max tokens init ops last /\
  chain_arrays tokens c' (init ++ [last]) ops.
Proof.
  intros [? Hpre Hl Ha Ho Hc Hp] Hlt Hok Hm. cbn zeta.
  split; [|apply push_arrays; [done | lia]].
  split; [|by split | done |].
  - by rewrite segment_full, <- Hpre, take_drop.
  - apply Forall_app; split; [done|]. constructor; [|done]. split_and!; try done.
    intros Hn. apply (f_equal length) in Hn. rewrite length_segment in Hn by lia.
    cbn in Hn. lia.
Qed.

Lemma chain_loop_sound n tokens i start c init ops c' :
  n = length tokens - i -> i <= length tokens -> chain_inv tokens i start c init ops ->
  chain_loop allowed_op command_ok max tokens (seq i (S n)) start c = Some c' ->
  exists init' ops' last,
    chain_shape allowed_op util_token_is_shell_operator command_ok max tokens init' ops' last /\
    chain_arrays tokens c' (init' ++ [last]) ops'.
Proof.
  revert i start c init ops. induction n as [|n IH]; intros i start c init ops Hn Hi Hinv.
  - assert (i = length tokens) as -> by lia. cbn [seq chain_loop].
    rewrite Nat.eqb_refl. cbn [negb andb].
    destruct (_ || _)%bool eqn:G1; [done|]. destruct (command_ok _) eqn:G2; [|done].
    cbn [negb]. intros [= <-]. breflect. exists init, ops. eexists.
    pose proof (ca_starts _ _ _ _ (ci_arrays _ _ _ _ _ _ Hinv)).
    apply inv_end; try done; lia.
  - change (seq i (S (S n))) with (i :: seq (S i) (S n)). cbn [chain_loop].
    destruct (lookup_lt_is_Some_2 tokens i) as [t Ht]; [lia|].
    rewrite Ht. rewrite (proj2 (Nat.eqb_neq i (length tokens))) by lia.
    cbn [negb andb from_option id].
    destruct (allowed_op t) eqn:Ea; cbn [negb andb].
    + rewrite andb_false_r.
      destruct (_ || _)%bool eqn:G1; [done|]. destruct (command_ok _) eqn:G2; [|done].
      cbn [negb]. destruct (max <=b length (c_starts (push_command _ _ _))); [done|]. breflect.
      eapply IH; [lia | lia | apply inv_operator; try done; lia].
    + rewrite andb_true_r. destruct (util_token_is_shell_operator t) eqn:Es; [done|].
      eapply IH; [lia | lia | by eapply inv_plain].
Qed.

(** The loop runs over plain tokens without a change of state. *)
Lemma chain_loop_plain k m tokens i start c :
  (forall j, j < k -> exists t, tokens !! (i + j) = Some t /\ plain t) ->
  chain_loop allowed_op command_ok max tokens (seq i (k + m)) start c =
  chain_loop allowed_op command_ok max tokens (seq (i + k) m) start c.
Proof.
  revert i. induction k as [|k IH]; intros i H; [by rewrite Nat.add_0_r|].
  cbn [Nat.add seq chain_loop]. destruct (H 0) as (t & Ht & Ha & Hs); [lia|].
  rewrite Nat.add_0_r in Ht. rewrite Ht. assert (Hi := lookup_lt_Some _ _ _ Ht).
  rewrite (proj2 (Nat.eqb_neq i (length tokens))) by lia.
  cbn [negb andb from_option id]. rewrite Ha, Hs. cbn [negb andb].
  rewrite IH; [by rewrite Nat.add_succ_r|].
  intros j Hj. destruct (H (S j)) as (u & Hu & Hp); [lia|]. exists u.
  by rewrite Nat.add_succ_r in Hu.
Qed.

Lemma plain_lookup (tokens s r : list string) start :
  drop start tokens = s ++ r -> Forall plain s ->
  forall j, j < length s -> exists t, tokens !! (start + j) = Some t /\ plain t.
Proof.
  intros Hd Hp j Hj. destruct (lookup_lt_is_Some_2 s j Hj) as [t Ht]. exists t. split.
  - by rewrite <- lookup_drop, Hd, lookup_app_l.
  - by eapply Forall_lookup_1.
Qed.

Lemma segment_prefix (tokens s r : list string) start :
  drop start tokens = s ++ r -> segment tokens start (length s) = s.
Proof. intros Hd. unfold segment. rewrite Hd. apply take_app_length. Qed.

Lemma chain_loop_complete init ops last tokens start c :
  drop start tokens = concat (zip_with (fun s o => s ++ [o]) init ops) ++ last ->
  length init = length ops -> length (c_starts c) + length init < max ->
  Forall (fun o => allowed_op o = true) ops ->
  Forall (fun s => s <> [] /\ command_ok s = true /\ Forall plain s) (init ++ [last]) ->
  start <= length tokens ->
  is_Some (chain_loop allowed_op command_ok max tokens
             (seq start (S (length tokens - start))) start c).
Proof.
  revert ops start c. induction init as [|s init IH]; intros [|op ops] start c Hd Hl Hm Ho Hc Hs;
    try done; apply (f_equal length) in Hd as Hdl; rewrite length_drop in Hdl.
  - cbn [List.app concat zip_with length] in *.
    destruct (Forall_cons_1 _ _ _ Hc) as [(Hne & Hok & Hp) _].
    rewrite Hdl. replace (S (length last)) with (length last + 1) by lia.
    rewrite chain_loop_plain by (apply (plain_lookup _ _ []); [by rewrite app_nil_r | done]).
    cbn [seq chain_loop]. replace (start + length last) with (length tokens) by lia.
    rewrite Nat.eqb_refl. cbn [negb andb]. rewrite Hdl.
    rewrite (segment_prefix tokens last [] start) by (by rewrite app_nil_r).
    rewrite Hok. rewrite (proj2 (Nat.eqb_neq _ _)) by (destruct last; [done | cbn; lia]).
    rewrite (proj2 (Nat.leb_gt _ _)) by lia. done.
  - cbn [List.app concat zip_with length] in *.
    destruct (Forall_cons_1 _ _ _ Hc) as [(Hne & Hok & Hp) Hc'].
    destruct (Forall_cons_1 _ _ _ Ho) as [Hop Ho'].
    set (rest := concat (zip_with (fun s o => s ++ [o]) init ops) ++ last) in *.
    assert (Hd' : drop start tokens = s ++ op :: rest) by (by rewrite Hd, <- !app_assoc).
    clear Hd Hdl. apply (f_equal length) in Hd' as Hdl.
    rewrite length_drop, length_app in Hdl. cbn [length] in Hdl.
    set (i := start + length s).
    replace (S (length tokens - start)) with (length s + S (S (length tokens - S i))) by lia.
    rewrite chain_loop_plain by (by eapply plain_lookup). fold i. cbn [seq chain_loop].
    assert (Hi : tokens !! i = Some op).
    { unfold i. rewrite <- lookup_drop, Hd', lookup_app_r by lia. by rewrite Nat.sub_diag. }
    rewrite Hi. rewrite (proj2 (Nat.eqb_neq i (length tokens))) by (unfold i; lia).
    cbn [negb andb from_option id]. rewrite Hop, andb_false_r. cbn [negb andb].
    replace (i - start) with (length s) by (unfold i; lia).
    rewrite (segment_prefix _ _ _ _ Hd'), Hok.
    rewrite (proj2 (Nat.eqb_neq (length s) 0)) by (destruct s; [done | cbn; lia]).
    cbn [push_command c_starts]. rewrite length_app. cbn [length].
    rewrite !(proj2 (Nat.leb_gt _ _)) by lia. cbn [orb negb].
    apply (IH ops); try done; cbn [push_operator push_command c_starts];
      rewrite ?length_app; cbn [length]; try lia.
    replace (S i) with (start + S (length s)) by (unfold i; lia).
    rewrite <- drop_drop, Hd'. rewrite drop_app_ge by lia.
    by replace (S (length s) - length s) with 1 by lia.
Qed.
End ChainLemmas.

Lemma chain_validate_sound `{E : Ext} allowed_op command_ok max tokens c :
  chain_validate allowed_op command_ok max tokens = Some c ->
  exists init ops last,
    chain_shape allowed_op util_token_is_shell_operator command_ok max tokens init ops last /\
    chain_arrays tokens c (init ++ [last]) ops.
Proof.
  intros H.
  apply (chain_loop_sound allowed_op command_ok max (length tokens) tokens 0 0 chain_init [] [] c);
    [lia | lia | apply inv_init | exact H].
Qed.

Lemma chain_validate_complete `{E : Ext} allowed_op command_ok max tokens init ops last :
  chain_shape allowed_op util_token_is_shell_operator command_ok max tokens init ops last ->
  is_Some (chain_validate allowed_op command_ok max tokens).
Proof.
  intros [Ht [Hl Hm] Ho Hc]. unfold chain_validate.
  rewrite <- (Nat.sub_0_r (length tokens)).
  apply (chain_loop_complete allowed_op command_ok max init ops last tokens 0 chain_init);
    [exact Ht | done | exact Hm | done | exact Hc | lia].
Qed.

(** The [k]-th recorded command. *)
Lemma chain_arrays_lookup tokens c segs ops k st n :
  chain_arrays tokens c segs ops -> c_starts c !! k = Some st -> c_counts c !! k = Some n ->
  segs !! k = Some (segment tokens st n) /\ st + n <= length tokens.
Proof.
  intros [<- _ _ Hb _] Hs Hn. split; [by rewrite lookup_zip_with, Hs, Hn|].
  by apply (Forall2_lookup_lr _ _ _ _ _ _ Hb Hs Hn).
Qed.

Lemma elem_of_chain_tokens (init : list (list string)) ops last s :
  s ∈ init ++ [last] -> length init = length ops ->
  Forall (fun t => t ∈ concat (zip_with (fun s o => s ++ [o]) init ops) ++ last) s.
Proof.
  intros Hs Hl. apply Forall_forall. intros t Ht. apply list_elem_of_In in Ht.
  apply elem_of_app in Hs as [Hs|Hs]; apply elem_of_app.
  - left. apply list_elem_of_In, in_concat. apply list_elem_of_lookup in Hs as [k Hk].
    destruct (lookup_lt_is_Some_2 ops k) as [o Ho].
    { rewrite <- Hl. by eapply lookup_lt_Some. }
    exists (s ++ [o]). split; apply list_elem_of_In; [|apply elem_of_app; by left].
    apply list_elem_of_lookup. exists k. by rewrite lookup_zip_with, Hk, Ho.
  - right. by apply list_elem_of_singleton in Hs as ->.
Qed.

(** A path-like token the guard lets through resolves to the write root or below. *)
Lemma guarded_token_path_like `{E : Ext} wroot t ws :
  bash_guarded_path_token_allowed wroot t ws = true ->
  bash_token_looks_path_like t = true -> bash_path_under_guard_write_root wroot t ws = true.
Proof.
  unfold bash_guarded_path_token_allowed. intros H Ht. rewrite Ht in H.
  destruct (String.eqb_spec t "") as [->|]; [done|].
  destruct (negb _ && _ && _)%bool in H; [done|]. cbn [andb] in H.
  by destruct (bash_path_under_guard_write_root wroot t ws).
Qed.

Lemma workspace_segment_paths `{E : Ext} wroot access_x seg ws t :
  bash_command_is_guarded_workspace_segment wroot access_x seg (Some ws) = true ->
  t ∈ seg -> bash_token_looks_path_like t = true ->
  bash_path_under_guard_write_root wroot t (Some ws) = true.
Proof.
  unfold bash_command_is_guarded_workspace_segment. destruct seg as [|t0 r]; [done|].
  destruct (ws == ""); [done|]. destruct (negb (bash_path_under_root _ _)); [done|].
  destruct (existsb _ _); [done|].
  destruct (bash_command_paths_stay_in_guarded_workspace wroot (t0 :: r) (Some ws)) eqn:P; [|done].
  intros _ Ht Hp. unfold bash_command_paths_stay_in_guarded_workspace in P.
  rewrite forallb_forall in P. apply guarded_token_path_like; [|done].
  apply P. by apply list_elem_of_In.
Qed.

Lemma workspace_segment_root `{E : Ext} wroot access_x seg ws :
  bash_command_is_guarded_workspace_segment wroot access_x seg (Some ws) = true ->
  bash_path_under_root ws wroot = true.
Proof.
  unfold bash_command_is_guarded_workspace_segment. destruct seg as [|t0 r]; [done|].
  destruct (ws == ""); [done|]. by destruct (bash_path_under_root ws wroot).
Qed.

Lemma strrchr_app a b c :
  strrchr (a +:+ b) c =
  match strrchr b c with Some i => Some (strlen a + i) | None => strrchr a c end.
Proof.
  induction a as [|d a IH]; cbn [String.append strrchr]; [by destruct (strrchr b c)|].
  rewrite IH. by destruct (strrchr b c).
Qed.

Lemma strrchr_None s c : has_char s c = false -> strrchr s c = None.
Proof.
  unfold has_char. induction s as [|d s IH]; cbn [strchr strrchr]; [done|].
  destruct (Ascii.eqb c d); [done|]. intros H. rewrite IH; [done|].
  revert H. by destruct (strchr s c).
Qed.

(** The base name of [dir/name], for a name without a slash. *)
Lemma bash_basename_join dir name :
  has_char name "/" = false -> bash_basename (dir +:+ "/" +:+ name) = name.
Proof.
  intros H. unfold bash_basename. rewrite strrchr_app.
  assert (strrchr ("/" +:+ name) "/" = Some 0) as ->.
  { cbn. by rewrite strrchr_None. }
  rewrite Nat.add_0_r.
  change (sdrop (S (strlen dir)) (dir +:+ "/" +:+ name) = name).
  replace (S (strlen dir)) with (strlen dir + 1) by lia. by rewrite sdrop_app_plus.
Qed.

(** * Properties *)

(** C22: the scan for the protected parent worktree finds every delimited
    reference: it reports a command exactly when the root occurs at some offset
    with an opening delimiter (or the start) before it, a closing delimiter (or
    the end) after it, and the occurrence is not inside the delegate's own
    worktree; in particular the loop always terminates with the answer. *)
Theorem readonly_root_scan_spec (cmd ro : string) (rw : option string) :
  agent_tools_cmd_refers_to_readonly_root (Some cmd) (Some ro) rw = true <->
  ro <> "" /\ exists q, starts_with ro (sdrop q cmd) = true /\ ref_hit cmd ro rw q = true.
Proof.
  unfold agent_tools_cmd_refers_to_readonly_root.
  destruct (String.eqb_spec ro "") as [->|Hro]; [split; [done | by intros [? _]]|]. split.
  - intros H. split; [done|]. by eapply ref_scan_sound.
  - intros [_ (q & Hs & Hh)]. apply (ref_scan_complete _ _ _ _ 0 q); try done; lia.
Qed.

(** The scan finds nothing when no occurrence of the root is a hit. *)
Lemma scan_safe cmd ro rw :
  (forall q, starts_with ro (sdrop q cmd) = true -> ref_hit cmd ro rw q = false) ->
  lxc_cmd_safe (Some cmd) (Some ro) rw = true.
Proof.
  intros H. unfold lxc_cmd_safe, agent_tools_cmd_refers_to_readonly_root.
  destruct (ro == ""); [done|]. apply negb_true_iff, not_true_is_false. intros Hs.
  apply ref_scan_sound in Hs as (q & Hq & Hh). rewrite H in Hh; done.
Qed.

Lemma scan_hit cmd ro rw q :
  ro <> "" -> starts_with ro (sdrop q cmd) = true -> ref_hit cmd ro rw q = true ->
  lxc_cmd_safe (Some cmd) (Some ro) rw = false.
Proof.
  intros Hro Hq Hh. unfold lxc_cmd_safe, agent_tools_cmd_refers_to_readonly_root.
  destruct (String.eqb_spec ro "") as [|_]; [done|].
  rewrite (ref_scan_complete _ _ _ _ 0 q); try done; lia.
Qed.

Lemma sdrop_app_length pre s n : n = strlen pre -> sdrop n (pre +:+ s) = s.
Proof. intros ->. induction pre as [|c pre IH]; [done | exact IH]. Qed.

Lemma char_at_app_length pre c s : char_at (strlen pre) (pre +:+ String c s) = c.
Proof. induction pre as [|d pre IH]; [done | exact IH]. Qed.

(** C35: an output redirection, a semicolon, a pipe or an ampersand written against
    a path escapes the scan: none of them is an opening delimiter ([<] is), so a
    command whose only occurrence of the protected root follows one of them
    directly is declared safe, whatever comes before and after; with a blank in
    between, the same reference is found. *)
Theorem redirect_escapes_scan (pre post ro : string) (rw : option string) (c : ascii)
  (Hc : is_char c ">;|&" = true) (Hro : ro <> "")
  (Honly : forall q, starts_with ro (sdrop q (pre +:+ String c (ro +:+ post))) = true ->
     q = S (strlen pre))
  (Hend : ref_after_ok (ro +:+ post) ro = true) (Hrw : ref_under_rw (ro +:+ post) rw = false) :
  lxc_cmd_safe (Some (pre +:+ String c (ro +:+ post))) (Some ro) rw = true /\
  lxc_cmd_safe (Some (pre +:+ String c (" " +:+ ro +:+ post))) (Some ro) rw = false.
Proof.
  split.
  - apply scan_safe. intros q Hq. apply Honly in Hq as ->. unfold ref_hit, ref_before_ok.
    rewrite Nat.sub_succ, Nat.sub_0_r, char_at_app_length. cbn [Nat.eqb orb].
    assert (Hb : is_char c before_chars = false).
    { cbn [is_char] in Hc. rewrite !orb_true_iff, !Ascii.eqb_eq in Hc.
      by destruct Hc as [->|[->|[->|[->|?]]]]. }
    by rewrite Hb.
  - assert (Hd : sdrop (S (S (strlen pre))) (pre +:+ String c (" " +:+ ro +:+ post)) = ro +:+ post).
    { change (String c (" " +:+ ro +:+ post)) with (String c " " +:+ (ro +:+ post)).
      rewrite app_assoc_s. apply sdrop_app_length. rewrite strlen_app. cbn. lia. }
    apply (scan_hit _ _ _ (S (S (strlen pre)))); [done| |].
    + rewrite Hd. apply starts_with_spec. by exists post.
    + unfold ref_hit. rewrite Hd, Hend, Hrw. unfold ref_before_ok.
      rewrite Nat.sub_succ, Nat.sub_0_r.
      change (String c (" " +:+ ro +:+ post)) with (String c "" +:+ String SP (ro +:+ post)).
      rewrite app_assoc_s. replace (S (strlen pre)) with (strlen (pre +:+ String c ""))
        by (rewrite strlen_app; cbn; lia).
      by rewrite char_at_app_length.
Qed.

Lemma redirect_escapes_scan_witness :
  lxc_cmd_safe (Some "echo x >/parent/f") (Some "/parent") (Some "/parent/wt") = true /\
  lxc_cmd_safe (Some "echo x > /parent/f") (Some "/parent") (Some "/parent/wt") = false.
Proof.
  apply (redirect_escapes_scan "echo x " "/f" "/parent" (Some "/parent/wt") ">");
    [reflexivity | discriminate | | reflexivity | reflexivity].
  intros q Hq. do 9 (destruct q as [|q]; [first [discriminate Hq | reflexivity]|]).
  do 10 (destruct q as [|q]; [discriminate Hq|]). discriminate Hq.
Defined.

(** The PATH scan is membership in the list of PATH entries. *)
Lemma path_has_dir_spec (path dir : string) :
  bash_path_has_dir path dir = negb (dir == "") && in_list dir (path_entries path).
Proof.
  unfold bash_path_has_dir. destruct (String.eqb_spec dir "") as [->|Hd]; [done|].
  rewrite path_has_dir_loop_spec by (done || lia). done.
Qed.

(** C20: a command line is accepted for direct read-only execution exactly when
    its tokens are at most [max] nonempty commands separated by single [&&],
    [;] or [|], with no other shell operator anywhere, every command passing the
    read-only test. *)
Theorem readonly_chain_spec `{E : Ext} (wroot ws : option string) (tokens : list string) (max : nat) :
  is_Some (bash_readonly_chain_validate wroot tokens max ws) <->
  exists init ops last,
    chain_shape readonly_op util_token_is_shell_operator
      (fun seg => bash_command_is_readonly_exec wroot seg ws) max tokens init ops last.
Proof.
  unfold bash_readonly_chain_validate. split.
  - destruct (_ || _)%bool; [by intros [? ?]|]. intros [c Hc].
    apply chain_validate_sound in Hc as (init & ops & last & Hs & _). eauto.
  - intros (init & ops & last & Hs). assert (Hs' := Hs). destruct Hs' as [Ht [_ Hm] _ Hc].
    rewrite (proj2 (Nat.eqb_neq max 0)) by lia.
    rewrite (proj2 (Nat.eqb_neq (length tokens) 0)); [by eapply chain_validate_complete|].
    apply Forall_app in Hc as [_ Hc]. destruct (Forall_cons_1 _ _ _ Hc) as [[Hne _] _].
    rewrite Ht, length_app. destruct last; [done | cbn; lia].
Qed.

(** C21: memory safety of the readonly validator's output arrays: it fills at
    most [max] entries of each, every recorded command lies inside the token
    array, is not empty and passes the read-only test, [operators[0]] is NULL
    and every other entry an operator of the chain. *)
Theorem readonly_chain_arrays `{E : Ext} (wroot ws : option string) (tokens : list string)
    (max : nat) (c : chain)
  (Hc : bash_readonly_chain_validate wroot tokens max ws = Some c) :
  1 <= length (c_starts c) <= max /\ length (c_counts c) = length (c_starts c) /\
  length (c_ops c) = length (c_starts c) /\ c_ops c !! 0 = Some None /\
  (forall k st n, c_starts c !! k = Some st -> c_counts c !! k = Some n ->
     0 < n /\ st + n <= length tokens /\
     bash_command_is_readonly_exec wroot (segment tokens st n) ws = true) /\
  (forall k o, c_ops c !! S k = Some o -> exists op, o = Some op /\ readonly_op op = true).
Proof.
  unfold bash_readonly_chain_validate in Hc. destruct (_ || _)%bool in Hc; [done|].
  apply chain_validate_sound in Hc as (init & ops & last & [Ht [Hl Hm] Ho Hcm] & Ha).
  rewrite (ca_starts _ _ _ _ Ha), (ca_counts _ _ _ _ Ha), (ca_ops _ _ _ _ Ha). rewrite length_app. cbn [length]. rewrite length_map.
  split_and!; try lia; try done.
  - intros k st n Hst Hcn.
    destruct (chain_arrays_lookup _ _ _ _ _ _ _ Ha Hst Hcn) as [Hseg Hb].
    destruct (Forall_lookup_1 _ _ _ _ Hcm Hseg) as (Hne & Hok & _).
    split_and!; [|done | done]. destruct n; [by destruct (drop st tokens) | lia].
  - intros k o Hk. cbn [lookup] in Hk.
    change ((Some <$> ops) !! k = Some o) in Hk. rewrite list_lookup_fmap in Hk.
    destruct (ops !! k) as [op|] eqn:Hop; [|done]. injection Hk as <-. exists op.
    split; [done|]. exact (Forall_lookup_1 _ _ _ _ Ho Hop).
Qed.

Lemma readonly_chain_arrays_witness :
  let E := demo_ext in
  let tokens := ["cat"; "a"; "|"; "wc"; "-l"] in
  let c := {| c_starts := [0; 3]; c_counts := [2; 2]; c_ops := [None; Some "|"] |} in
  1 <= length (c_starts c) <= 32 /\ length (c_counts c) = length (c_starts c) /\
  length (c_ops c) = length (c_starts c) /\ c_ops c !! 0 = Some None /\
  (forall k st n, c_starts c !! k = Some st -> c_counts c !! k = Some n ->
     0 < n /\ st + n <= length tokens /\
     bash_command_is_readonly_exec None (segment tokens st n) None = true) /\
  (forall k o, c_ops c !! S k = Some o -> exists op, o = Some op /\ readonly_op op = true).
Proof. apply (readonly_chain_arrays (E := demo_ext) None None); reflexivity. Defined.

(** C36: the read-only test goes by the base name of the program alone: for a
    name of its table, in any directory, and arguments that are plain words (the
    chain validators pass no operator tokens), the command is accepted unless it
    is a [sed] with an argument starting with [-i], or a [find] with one of seven
    actions.  In particular it accepts any program carrying such a name, and
    [sed --in-place]. *)
Theorem readonly_test_by_name `{E : Ext} (wroot ws : option string) (dir name : string)
    (args : list string)
  (Hname : name ∈ readonly_commands)
  (Hwords : Forall (fun t => util_token_is_shell_operator t = false)
     ((dir +:+ "/" +:+ name) :: args)) :
  bash_command_is_readonly_exec wroot ((dir +:+ "/" +:+ name) :: args) ws = true <->
  (name = "sed" -> Forall (fun t => starts_with "-i" t = false) args) /\
  (name = "find" -> Forall (fun t => t ∉ find_actions) args).
Proof.
  unfold bash_command_is_readonly_exec.
  assert (Hops : existsb util_token_is_shell_operator ((dir +:+ "/" +:+ name) :: args) = false).
  { by apply existsb_false. }
  rewrite Hops. apply in_list_spec in Hname as Hin.
  assert (Hplain : forallb (fun n => negb (has_char n "/") && negb (in_list n ["cd"; "git"; "aimee"]))
                     readonly_commands = true) by done.
  rewrite forallb_forall in Hplain.
  specialize (Hplain name (proj1 (list_elem_of_In _ _) Hname)).
  apply andb_true_iff in Hplain as [Hs Hn]. apply negb_true_iff in Hs, Hn.
  rewrite bash_basename_join by done. rewrite Hin. cbn [negb]. apply in_list_false in Hn.
  rewrite !not_elem_of_cons in Hn. destruct Hn as (Hcd & Hgit & Haimee & _).
  apply String.eqb_neq in Hcd, Hgit, Haimee. rewrite Hcd, Hgit, Haimee.
  destruct (String.eqb_spec name "sed") as [->|Hsed].
  { rewrite negb_true_iff, existsb_false. split.
    - intros H. split; [intros _|done]. eapply Forall_impl; [|exact H].
      intros t Ht. by apply orb_false_iff in Ht as [_ Ht].
    - intros [H _]. eapply Forall_impl; [|by apply H]. intros t Ht. cbn beta in *.
      rewrite Ht, orb_false_r. apply String.eqb_neq. intros ->. discriminate Ht. }
  destruct (String.eqb_spec name "find") as [->|Hfind]; [|by split].
  rewrite negb_true_iff, existsb_false. split.
  - intros H. split; [done|]. intros _. eapply Forall_impl; [|exact H].
    intros t Ht. by apply in_list_false.
  - intros [_ H]. eapply Forall_impl; [|by apply H]. intros t Ht. by apply in_list_false.
Qed.

(** [/tmp/evil/cat] and [sed --in-place] are accepted, [sed -i] is not. *)
Lemma readonly_test_by_name_witness :
  let E := demo_ext in
  bash_command_is_readonly_exec None ["/tmp/evil" +:+ "/" +:+ "cat"; "/etc/passwd"] None = true /\
  bash_command_is_readonly_exec None
    ["/usr/bin" +:+ "/" +:+ "sed"; "--in-place"; "s/a/b/"; "/parent/f"] None = true /\
  bash_command_is_readonly_exec None
    ["/usr/bin" +:+ "/" +:+ "sed"; "-i"; "s/a/b/"; "/parent/f"] None <> true.
Proof.
  split_and!.
  - apply (readonly_test_by_name (E := demo_ext) None None "/tmp/evil" "cat" ["/etc/passwd"]);
      [by apply in_list_spec | by repeat constructor | by split].
  - apply (readonly_test_by_name (E := demo_ext) None None "/usr/bin" "sed"
             ["--in-place"; "s/a/b/"; "/parent/f"]);
      [by apply in_list_spec | by repeat constructor | split; [intros _ | done]].
    by repeat constructor.
  - intros H. apply (readonly_test_by_name (E := demo_ext) None None "/usr/bin" "sed"
             ["-i"; "s/a/b/"; "/parent/f"]) in H;
      [| by apply in_list_spec | by repeat constructor].
    destruct H as [H _]. specialize (H eq_refl). inversion H. discriminate.
Defined.
