(* ===== verification/Prog.v ===== *)
(** Effectful code: programs that call other modules.

    The tools call the workspace provider, the guardrails, the knowledge service,
    the operating system: code outside the repository, with state of its own.  A
    tool is a [prog]: a tree whose nodes are calls ([req]) and whose branches are
    the answers the environment may give.  [run] executes a program against an
    oracle, an arbitrary function from the calls made so far to an answer, and
    returns the trace of calls with their answers, and the result; a theorem
    about every oracle is a theorem about every behaviour of the environment. *)
From S2P Require Import Prelude.
Local Open Scope tools_scope.

Section Prog.
Context {req : Type} {answer : req -> Type}.

Inductive prog (A : Type) : Type :=
| Ret (a : A)
| Ask (q : req) (k : answer q -> prog A).

Arguments Ret {A} a.
Arguments Ask {A} q k.

Fixpoint bind {A B} (p : prog A) (f : A -> prog B) : prog B :=
  match p with
  | Ret a => f a
  | Ask q k => Ask q (fun r => bind (k r) f)
  end.

Definition ask (q : req) : prog (answer q) := Ask q (fun r => Ret r).

(** One call of a trace. *)
Record step : Type := Step { asked : req; got : answer asked }.

Definition oracle : Type := list req -> forall q, answer q.

(** [h] holds the calls made so far, the latest first. *)
Fixpoint run {A} (o : oracle) (h : list req) (p : prog A) : list step * A :=
  match p with
  | Ret a => ([], a)
  | Ask q k =>
      let r := o h q in
      let '(t, a) := run o (q :: h) (k r) in
      (Step q r :: t, a)
  end.

Definition trace {A} (o : oracle) (p : prog A) : list step := (run o [] p).1.
Definition result {A} (o : oracle) (p : prog A) : A := (run o [] p).2.

(** The calls of a trace. *)
Definition calls (t : list step) : list req := map asked t.

(** The history after a trace. *)
Definition hist (h : list req) (t : list step) : list req := rev (calls t) ++ h.

(** [post p Q]: every run of [p] ends with a trace and a result satisfying [Q]. *)
Definition post {A} (p : prog A) (Q : list step -> A -> Prop) : Prop :=
  forall o h, Q (run o h p).1 (run o h p).2.

(** [returns p Q]: every result of [p] satisfies [Q]. *)
Fixpoint returns {A} (p : prog A) (Q : A -> Prop) : Prop :=
  match p with
  | Ret a => Q a
  | Ask q k => forall r, returns (k r) Q
  end.

(** [avoids bad p]: no run of [p] makes a [bad] call. *)
Fixpoint avoids {A} (bad : req -> bool) (p : prog A) : Prop :=
  match p with
  | Ret _ => True
  | Ask q k => bad q = false /\ forall r, avoids bad (k r)
  end.

(** [within ok bad p]: in an environment whose answers all satisfy [ok], no run
    of [p] makes a [bad] call. *)
Fixpoint within {A} (ok : step -> Prop) (bad : req -> bool) (p : prog A) : Prop :=
  match p with
  | Ret _ => True
  | Ask q k => bad q = false /\ forall r, ok (Step q r) -> within ok bad (k r)
  end.

(** [returns_within ok p Q]: in such an environment every result satisfies [Q]. *)
Fixpoint returns_within {A} (ok : step -> Prop) (p : prog A) (Q : A -> Prop) : Prop :=
  match p with
  | Ret a => Q a
  | Ask q k => forall r, ok (Step q r) -> returns_within ok (k r) Q
  end.

(** The answers of an oracle satisfy [ok]. *)
Definition answers (ok : step -> Prop) (o : oracle) : Prop :=
  forall h q, ok (Step q (o h q)).

(** [guarded pass w p]: in every run of [p], a call satisfying [w] comes after a
    call whose answer satisfies [pass]. *)
Fixpoint guarded {A} (pass : step -> bool) (w : req -> bool) (p : prog A) : Prop :=
  match p with
  | Ret _ => True
  | Ask q k => w q = false /\ forall r, pass (Step q r) = true \/ guarded pass w (k r)
  end.

(** What [guarded] means on a trace. *)
Definition preceded (pass : step -> bool) (w : req -> bool) (t : list step) : Prop :=
  forall i s, t !! i = Some s -> w (asked s) = true ->
    exists j s', j < i /\ t !! j = Some s' /\ pass s' = true.

(** ** Lemmas *)

Lemma hist_cons h s t : hist h (s :: t) = hist (asked s :: h) t.
Proof. unfold hist. cbn. by rewrite <- app_assoc. Qed.

Lemma run_bind {A B} o h (p : prog A) (f : A -> prog B) :
  run o h (bind p f) =
  ((run o h p).1 ++ (run o (hist h (run o h p).1) (f (run o h p).2)).1,
   (run o (hist h (run o h p).1) (f (run o h p).2)).2).
Proof.
  revert h. induction p as [a|q k IH]; intros h; cbn.
  { by destruct (run o h (f a)). }
  rewrite IH. destruct (run o (q :: h) (k (o h q))) as [t a] eqn:E.
  cbn [fst snd List.app]. by rewrite hist_cons.
Qed.

Lemma run_assoc {A B C} o h (p : prog A) (f : A -> prog B) (g : B -> prog C) :
  run o h (bind (bind p f) g) = run o h (bind p (fun a => bind (f a) g)).
Proof. revert h. induction p as [a|q k IH]; intros h; cbn; [done|]. by rewrite IH. Qed.

Lemma trace_ask {A} o h q (k : answer q -> prog A) :
  (run o h (Ask q k)).1 = Step q (o h q) :: (run o (q :: h) (k (o h q))).1.
Proof. cbn. by destruct (run o (q :: h) (k (o h q))). Qed.

Lemma result_ask {A} o h q (k : answer q -> prog A) :
  (run o h (Ask q k)).2 = (run o (q :: h) (k (o h q))).2.
Proof. cbn. by destruct (run o (q :: h) (k (o h q))). Qed.

Lemma returns_run {A} (p : prog A) Q : returns p Q -> forall o h, Q (run o h p).2.
Proof.
  induction p as [a|q k IH]; intros H o h; [exact H|]. rewrite result_ask. by apply IH.
Qed.

Lemma returns_bind {A B} (p : prog A) (f : A -> prog B) Q :
  returns p (fun a => returns (f a) Q) -> returns (bind p f) Q.
Proof. induction p as [a|q k IH]; cbn; [done|]. intros H r. by apply IH. Qed.

Lemma returns_and {A} (p : prog A) (P Q : A -> Prop) :
  returns p P -> returns p Q -> returns p (fun a => P a /\ Q a).
Proof. induction p as [a|q k IH]; cbn; auto. Qed.

Lemma returns_returns_within {A} ok (p : prog A) Q : returns p Q -> returns_within ok p Q.
Proof. induction p as [a|q k IH]; cbn; auto. Qed.

Lemma returns_mono {A} (p : prog A) (P Q : A -> Prop) :
  (forall a, P a -> Q a) -> returns p P -> returns p Q.
Proof. intros H. induction p as [a|q k IH]; cbn; auto. Qed.

Lemma returns_all {A} (p : prog A) (Q : A -> Prop) : (forall a, Q a) -> returns p Q.
Proof. intros H. induction p; cbn; auto. Qed.

(** The results of a sequence are those of its second part. *)
Lemma returns_seq {A B} (p : prog A) (f : A -> prog B) Q :
  (forall a, returns (f a) Q) -> returns (bind p f) Q.
Proof. intros H. apply returns_bind. by apply returns_all. Qed.

Lemma avoids_bind {A B} bad (p : prog A) (f : A -> prog B) :
  avoids bad p -> returns p (fun a => avoids bad (f a)) -> avoids bad (bind p f).
Proof.
  induction p as [a|q k IH]; cbn; [done|]. intros [Hq Hk] Hf. split; [done|].
  intros r. by apply IH.
Qed.

Lemma avoids_mono {A} (bad bad' : req -> bool) (p : prog A) :
  (forall q, bad' q = true -> bad q = true) -> avoids bad p -> avoids bad' p.
Proof.
  intros H. induction p as [a|q k IH]; cbn; [done|]. intros [Hq Hk]. split; [|auto].
  destruct (bad' q) eqn:E; [|done]. apply H in E. congruence.
Qed.

Lemma avoids_run {A} bad (p : prog A) :
  avoids bad p -> forall o h, Forall (fun s => bad (asked s) = false) (run o h p).1.
Proof.
  induction p as [a|q k IH]; intros H o h; [constructor|]. rewrite trace_ask.
  destruct H as [Hq Hk]. constructor; [done | by apply IH].
Qed.

Lemma within_bind {A B} ok bad (p : prog A) (f : A -> prog B) :
  within ok bad p -> returns_within ok p (fun a => within ok bad (f a)) ->
  within ok bad (bind p f).
Proof.
  induction p as [a|q k IH]; cbn; [done|]. intros [Hq Hk] Hf. split; [done|].
  intros r Hr. apply IH; auto.
Qed.

Lemma within_run {A} ok bad (p : prog A) :
  within ok bad p -> forall o h, answers ok o ->
  Forall (fun s => bad (asked s) = false) (run o h p).1.
Proof.
  intros H o h Ho. revert H h. induction p as [a|q k IH]; intros H h; [constructor|].
  rewrite trace_ask. destruct H as [Hq Hk]. constructor; [done|]. apply IH, Hk, Ho.
Qed.

Lemma avoids_within {A} ok bad (p : prog A) : avoids bad p -> within ok bad p.
Proof. induction p as [a|q k IH]; cbn; [done|]. intros [Hq Hk]. auto. Qed.

Lemma returns_within_bind {A B} ok (p : prog A) (f : A -> prog B) Q :
  returns_within ok p (fun a => returns_within ok (f a) Q) -> returns_within ok (bind p f) Q.
Proof. induction p as [a|q k IH]; cbn; [done|]. intros H r Hr. by apply IH, H. Qed.

Lemma returns_within_mono {A} ok (p : prog A) (P Q : A -> Prop) :
  (forall a, P a -> Q a) -> returns_within ok p P -> returns_within ok p Q.
Proof. intros H. induction p as [a|q k IH]; cbn; auto. Qed.

Lemma returns_within_all {A} ok (p : prog A) (Q : A -> Prop) :
  (forall a, Q a) -> returns_within ok p Q.
Proof. intros H. induction p; cbn; auto. Qed.

Lemma returns_within_run {A} ok (p : prog A) Q :
  returns_within ok p Q -> forall o h, answers ok o -> Q (run o h p).2.
Proof.
  intros H o h Ho. revert H h. induction p as [a|q k IH]; intros H h; [exact H|].
  rewrite result_ask. apply IH, H, Ho.
Qed.

Lemma guarded_avoids {A} pass w (p : prog A) : avoids w p -> guarded pass w p.
Proof. induction p as [a|q k IH]; cbn; [done|]. intros [Hq Hk]. split; auto. Qed.

Lemma guarded_bind {A B} pass w (p : prog A) (f : A -> prog B) :
  guarded pass w p -> returns p (fun a => guarded pass w (f a)) -> guarded pass w (bind p f).
Proof.
  induction p as [a|q k IH]; cbn; [done|]. intros [Hq Hk] Hf. split; [done|].
  intros r. destruct (Hk r) as [Hp|Hg]; [by left | right; by apply IH].
Qed.

Lemma guarded_run {A} pass w (p : prog A) :
  guarded pass w p -> forall o h, preceded pass w (run o h p).1.
Proof.
  induction p as [a|q k IH]; intros H o h i s Hi Hw; [done|].
  rewrite trace_ask in *. destruct H as [Hq Hk].
  destruct i as [|i]; [injection Hi as <-; cbn in Hw; congruence|]. cbn in Hi.
  destruct (Hk (o h q)) as [Hp|Hg].
  - exists 0, (Step q (o h q)). split_and!; [lia | done | done].
  - destruct (IH _ Hg o (q :: h) i s Hi Hw) as (j & s' & Hj & Hl & Hp).
    exists (S j), s'. split_and!; [lia | done | done].
Qed.

Lemma post_bind {A B} (p : prog A) (f : A -> prog B) P Q :
  post p P ->
  (forall t a, P t a -> post (f a) (fun t' b => Q (t ++ t') b)) -> post (bind p f) Q.
Proof. intros Hp Hf o h. rewrite run_bind. apply (Hf _ _ (Hp o h)). Qed.
End Prog.

Arguments prog {req} answer A.
Arguments Ret {req answer A} a.
Arguments Ask {req answer A} q k.
Arguments step {req} answer.
Arguments Step {req answer} asked got.
Arguments oracle {req} answer.
Arguments ask {req answer} q.

Notation "'let*' x ':=' p 'in' q" := (bind p (fun x => q))
  (at level 10, x pattern, p at level 200, q at level 200) : tools_scope.
