(* ===== verification/Json.v ===== *)
(** The JSON library (cJSON) as the tools use it.

    cJSON is third-party code: its values and operations are the class [CJson],
    the documented laws a theorem needs are [CJsonLaws], and [jv_cjson] is a
    concrete instance on which the witnesses run.  A cJSON tree that the C code
    updates in place is threaded as a value: every tree here has one owner. *)
From S2P Require Import Prelude CStr.
Local Open Scope tools_scope.

Class CJson := {
  json : Type;
  (** NULL on malformed text. *)
  cJSON_Parse : string -> option json;
  (** NULL on an allocation failure. *)
  cJSON_PrintUnformatted : json -> option string;
  (** Case-insensitive lookup. *)
  cJSON_GetObjectItem : json -> string -> option json;
  cJSON_GetObjectItemCaseSensitive : json -> string -> option json;
  (** [valuestring] if [cJSON_IsString]. *)
  string_value : json -> option string;
  (** [valueint] if [cJSON_IsNumber]. *)
  int_value : json -> option Z;
  (** [(long long) valuedouble] if [cJSON_IsNumber]. *)
  long_value : json -> option Z;
  (** [valuedouble != 0] if [cJSON_IsNumber]. *)
  nonzero_value : json -> option bool;
  (** [cJSON_IsTrue] if [cJSON_IsBool]. *)
  bool_value : json -> option bool;
  cJSON_IsObject : json -> bool;
  cJSON_IsArray : json -> bool;
  (** The children, in order. *)
  children : json -> list json;
  cJSON_CreateObject : json;
  cJSON_CreateArray : json;
  cJSON_CreateNumber : Z -> json;
  cJSON_AddStringToObject : json -> string -> string -> json;
  cJSON_AddBoolToObject : json -> string -> bool -> json;
  cJSON_AddNumberToObject : json -> string -> Z -> json;
  cJSON_AddItemToObject : json -> string -> json -> json;
  cJSON_AddItemToArray : json -> json -> json;
  (** The detached item and the object without it. *)
  cJSON_DetachItemFromObject : json -> string -> option (json * json);
  cJSON_ReplaceItemInObject : json -> string -> json -> json;
  (** [cJSON_SetValuestring] on the item [cJSON_GetObjectItem] finds. *)
  set_item_string : json -> string -> string -> json;
  cJSON_Duplicate : json -> option json;
}.

(** Equality of object keys up to the case of ASCII letters, as [cJSON] compares
    them (tolower on both sides). *)
Definition tolower (c : ascii) : ascii := if isupper c then chr (code c + 32) else c.

Fixpoint lower (s : string) : string :=
  match s with
  | "" => ""
  | String c r => String (tolower c) (lower r)
  end.

Definition same_key (a b : string) : bool := lower a == lower b.

Class CJsonLaws (J : CJson) : Prop := {
  get_create k : cJSON_GetObjectItem cJSON_CreateObject k = None;
  create_object : cJSON_IsObject cJSON_CreateObject = true;
  add_string_object o k v :
    cJSON_IsObject (cJSON_AddStringToObject o k v) = cJSON_IsObject o;
  string_add o k v :
    cJSON_IsObject o = true -> cJSON_GetObjectItem o k = None ->
    (cJSON_GetObjectItem (cJSON_AddStringToObject o k v) k) ≫= string_value = Some v;
  get_add_other o k v k' :
    same_key k k' = false ->
    cJSON_GetObjectItem (cJSON_AddStringToObject o k v) k' = cJSON_GetObjectItem o k';
  get_add_item o k j :
    cJSON_IsObject o = true -> cJSON_GetObjectItem o k = None ->
    cJSON_GetObjectItem (cJSON_AddItemToObject o k j) k = Some j;
  get_add_item_other o k j k' :
    same_key k k' = false ->
    cJSON_GetObjectItem (cJSON_AddItemToObject o k j) k' = cJSON_GetObjectItem o k';
  detach_get o k :
    cJSON_DetachItemFromObject o k = None <-> cJSON_GetObjectItem o k = None;
  detach_item o k j o' :
    cJSON_DetachItemFromObject o k = Some (j, o') -> cJSON_GetObjectItem o k = Some j;
  detach_other o k j o' k' :
    cJSON_DetachItemFromObject o k = Some (j, o') -> same_key k k' = false ->
    cJSON_GetObjectItem o' k' = cJSON_GetObjectItem o k';
  detach_object o k j o' :
    cJSON_DetachItemFromObject o k = Some (j, o') ->
    cJSON_IsObject o = true /\ cJSON_IsObject o' = true;
  add_item_object o k j :
    cJSON_IsObject (cJSON_AddItemToObject o k j) = cJSON_IsObject o;
  replace_get o k j :
    cJSON_GetObjectItem o k <> None ->
    cJSON_GetObjectItem (cJSON_ReplaceItemInObject o k j) k = Some j;
  replace_other o k j k' :
    same_key k k' = false ->
    cJSON_GetObjectItem (cJSON_ReplaceItemInObject o k j) k' = cJSON_GetObjectItem o k';
  set_item_get o k s s0 :
    cJSON_GetObjectItem o k ≫= string_value = Some s0 ->
    cJSON_GetObjectItem (set_item_string o k s) k ≫= string_value = Some s;
  set_item_other o k s k' :
    same_key k k' = false ->
    cJSON_GetObjectItem (set_item_string o k s) k' = cJSON_GetObjectItem o k';
}.

(** * Accessors the handlers repeat *)

Section Accessors.
Context `{J : CJson}.

(** [item = cJSON_GetObjectItem(o, k); item && cJSON_IsString(item)]: the string. *)
Definition get_string (o : json) (k : string) : option string :=
  cJSON_GetObjectItem o k ≫= string_value.

Definition get_int (o : json) (k : string) : option Z :=
  cJSON_GetObjectItem o k ≫= int_value.

Definition get_bool (o : json) (k : string) : option bool :=
  cJSON_GetObjectItem o k ≫= bool_value.

(** [(item && cJSON_IsBool(item)) ? cJSON_IsTrue(item) : 0]. *)
Definition get_flag (o : json) (k : string) : bool := default false (get_bool o k).

Definition get_string_cs (o : json) (k : string) : option string :=
  cJSON_GetObjectItemCaseSensitive o k ≫= string_value.

(** The envelope [{"stdout","stderr","exit_code"}] of the exec family. *)
Definition exec_envelope (out err : string) (exit_code : Z) : json :=
  cJSON_AddNumberToObject
    (cJSON_AddStringToObject
       (cJSON_AddStringToObject cJSON_CreateObject "stdout" out) "stderr" err)
    "exit_code" exit_code.
End Accessors.

(** * A concrete instance *)

Local Set Warnings "-register-all".

Inductive jv : Type :=
| JNull
| JBool (b : bool)
| JNum (z : Z)
| JStr (s : string)
| JArr (l : list jv)
| JObj (l : list (string * jv)).

Fixpoint assoc_get (eq : string -> bool) (l : list (string * jv)) : option jv :=
  match l with
  | [] => None
  | (k, v) :: r => if eq k then Some v else assoc_get eq r
  end.

Fixpoint assoc_set (eq : string -> bool) (v : jv) (l : list (string * jv)) : list (string * jv) :=
  match l with
  | [] => []
  | (k, w) :: r => if eq k then (k, v) :: r else (k, w) :: assoc_set eq v r
  end.

Fixpoint assoc_remove (eq : string -> bool) (l : list (string * jv)) :
    option (jv * list (string * jv)) :=
  match l with
  | [] => None
  | (k, v) :: r =>
      if eq k then Some (v, r)
      else match assoc_remove eq r with
           | Some (j, r') => Some (j, (k, v) :: r')
           | None => None
           end
  end.

Definition jv_add (o : jv) (k : string) (v : jv) : jv :=
  match o with JObj l => JObj (l ++ [(k, v)]) | _ => o end.

Definition jv_get (eq : string -> bool) (o : jv) : option jv :=
  match o with JObj l => assoc_get eq l | _ => None end.

(** A printer without escapes, enough for the strings of the witnesses. *)
Definition quoted (s : string) : string := String DQUOTE (s +:+ String DQUOTE "").

Fixpoint jv_print (v : jv) : string :=
  match v with
  | JNull => "null"
  | JBool b => if b then "true" else "false"
  | JNum z => fmt_d z
  | JStr s => quoted s
  | JArr l => "[" +:+ String.concat "," (map jv_print l) +:+ "]"
  | JObj l => "{" +:+ String.concat "," (map (fun kv => quoted kv.1 +:+ ":" +:+ jv_print kv.2) l)
              +:+ "}"
  end.

Definition jv_cjson (parse : string -> option jv) : CJson := {|
  json := jv;
  cJSON_Parse := parse;
  cJSON_PrintUnformatted v := Some (jv_print v);
  cJSON_GetObjectItem o k := jv_get (fun k' => same_key k k') o;
  cJSON_GetObjectItemCaseSensitive o k := jv_get (fun k' => k == k') o;
  string_value v := match v with JStr s => Some s | _ => None end;
  int_value v := match v with JNum z => Some (clamp INT_MIN INT_MAX z) | _ => None end;
  long_value v := match v with JNum z => Some z | _ => None end;
  nonzero_value v := match v with JNum z => Some (negb (z =? 0)%Z) | _ => None end;
  bool_value v := match v with JBool b => Some b | _ => None end;
  cJSON_IsObject v := match v with JObj _ => true | _ => false end;
  cJSON_IsArray v := match v with JArr _ => true | _ => false end;
  children v := match v with JArr l => l | JObj l => map snd l | _ => [] end;
  cJSON_CreateObject := JObj [];
  cJSON_CreateArray := JArr [];
  cJSON_CreateNumber := JNum;
  cJSON_AddStringToObject o k v := jv_add o k (JStr v);
  cJSON_AddBoolToObject o k v := jv_add o k (JBool v);
  cJSON_AddNumberToObject o k v := jv_add o k (JNum v);
  cJSON_AddItemToObject := jv_add;
  cJSON_AddItemToArray a v := match a with JArr l => JArr (l ++ [v]) | _ => a end;
  cJSON_DetachItemFromObject o k :=
    match o with
    | JObj l => match assoc_remove (fun k' => same_key k k') l with
                | Some (j, l') => Some (j, JObj l')
                | None => None
                end
    | _ => None
    end;
  cJSON_ReplaceItemInObject o k v :=
    match o with JObj l => JObj (assoc_set (fun k' => same_key k k') v l) | _ => o end;
  set_item_string o k s :=
    match o with
    | JObj l => match assoc_get (fun k' => same_key k k') l with
                | Some (JStr _) => JObj (assoc_set (fun k' => same_key k k') (JStr s) l)
                | _ => o
                end
    | _ => o
    end;
  cJSON_Duplicate v := Some v;
|}.

Section Instance.
Variable parse : string -> option jv.

Lemma same_key_refl k : same_key k k = true.
Proof. apply String.eqb_refl. Qed.

Lemma same_key_trans_false a b c : same_key a b = true -> same_key a c = false -> same_key c b = false.
Proof.
  unfold same_key. intros E N. apply String.eqb_eq in E. apply String.eqb_neq in N.
  apply String.eqb_neq. congruence.
Qed.

Lemma assoc_get_app eq l k v :
  assoc_get eq (l ++ [(k, v)]) =
  match assoc_get eq l with Some w => Some w | None => if eq k then Some v else None end.
Proof. induction l as [|[k' w] l IH]; cbn; [done|]. by destruct (eq k'). Qed.

Lemma jv_get_add eq o k v :
  jv_get eq (jv_add o k v) =
  match jv_get eq o with
  | Some w => Some w
  | None => if match o with JObj _ => eq k | _ => false end then Some v else None
  end.
Proof. destruct o; try done. apply assoc_get_app. Qed.

Lemma assoc_remove_None eq l : assoc_remove eq l = None <-> assoc_get eq l = None.
Proof.
  induction l as [|[k v] l IH]; cbn; [done|]. destruct (eq k); [done|].
  rewrite <- IH. by destruct (assoc_remove eq l) as [[]|].
Qed.

Lemma assoc_remove_Some eq l j l' :
  assoc_remove eq l = Some (j, l') ->
  assoc_get eq l = Some j /\
  forall eq', (forall k, eq k = true -> eq' k = false) -> assoc_get eq' l' = assoc_get eq' l.
Proof.
  revert l'. induction l as [|[k v] l IH]; intros l'; cbn; [done|].
  destruct (eq k) eqn:Ek.
  - intros [= <- <-]. split; [done|]. intros eq' H. by rewrite (H k Ek).
  - destruct (assoc_remove eq l) as [[j' r]|]; [|done]. intros [= <- <-].
    destruct (IH r eq_refl) as [H1 H2]. split; [done|]. intros eq' H. cbn.
    destruct (eq' k); [done | by apply H2].
Qed.

Lemma assoc_get_set eq l v : assoc_get eq l <> None -> assoc_get eq (assoc_set eq v l) = Some v.
Proof.
  induction l as [|[k w] l IH]; cbn; [done|].
  destruct (eq k) eqn:E; cbn; rewrite E; [done | exact IH].
Qed.

Lemma assoc_get_set_other eq eq' l v :
  (forall k, eq k = true -> eq' k = false) -> assoc_get eq' (assoc_set eq v l) = assoc_get eq' l.
Proof.
  intros H. induction l as [|[k w] l IH]; cbn; [done|].
  destruct (eq k) eqn:E; cbn; [by rewrite (H k E) | by rewrite IH].
Qed.

#[export] Instance jv_cjson_laws : CJsonLaws (jv_cjson parse).
Proof.
  split; cbn; intros.
  - done.
  - done.
  - by destruct o.
  - rewrite jv_get_add, H0. destruct o; try done. by rewrite same_key_refl.
  - rewrite jv_get_add. destruct (jv_get _ o); [done|]. destruct o; try done.
    assert (same_key k' k = false) as ->; [|done].
    unfold same_key in *. by rewrite String.eqb_sym.
  - rewrite jv_get_add, H0. destruct o; try done. by rewrite same_key_refl.
  - rewrite jv_get_add. destruct (jv_get _ o); [done|]. destruct o; try done.
    assert (same_key k' k = false) as ->; [|done].
    unfold same_key in *. by rewrite String.eqb_sym.
  - destruct o; try done. cbn. rewrite <- assoc_remove_None.
    by destruct (assoc_remove _ l) as [[]|].
  - destruct o; try done. destruct (assoc_remove _ l) as [[j' r]|] eqn:E; [|done].
    injection H as <- <-. by apply assoc_remove_Some in E as [? _].
  - destruct o; try done. destruct (assoc_remove _ l) as [[j' r]|] eqn:E; [|done].
    injection H as <- <-. apply assoc_remove_Some in E as [_ E]. apply E.
    intros x Hx. by eapply same_key_trans_false.
  - destruct o; try done. by destruct (assoc_remove _ l) as [[j' r]|]; [injection H as <- <-|].
  - by destruct o.
  - destruct o; try done. by apply assoc_get_set.
  - destruct o; try done. apply assoc_get_set_other. intros x Hx. by eapply same_key_trans_false.
  - destruct o as [| | | | |l]; try done. cbn in *. destruct (assoc_get _ l) as [[]|] eqn:G; try done.
    cbn. by rewrite assoc_get_set by (by rewrite G).
  - destruct o as [| | | | |l]; try done. cbn. destruct (assoc_get _ l) as [[]|]; try done.
    apply assoc_get_set_other. intros x Hx. by eapply same_key_trans_false.
Qed.
End Instance.
