(* ===== verification/Host.v ===== *)
(** The rest of the server as the tools see it.

    [Lib] holds the types and the pure functions of other modules; [req] lists
    the calls that read or change state outside the tools module, one constructor
    per external function (named as in the C code), and [answer] the type of its
    result.  Nothing is assumed of the answers. *)
From S2P Require Import Prelude CStr Ext Json Prog.
Local Open Scope tools_scope.

(** [ws->kind], in the order of the comment in [tool_list_files]. *)
Inductive ws_kind : Type :=
| WS_PROVIDER_SHARED
| WS_PROVIDER_DETACHED
| WS_PROVIDER_MIRROR
| WS_PROVIDER_CONTAINER.

(** What the tools read of [workspace_provider_t]: its kind and which of the
    optional operations it has. *)
Record ws_provider : Type := {
  kind : ws_kind;
  has_exec_shell : bool;
  has_exec_shell_timeout : bool;
}.

(** [definition_t] of code_outline.h and [term_hit_t] of kb_client.h. *)
Record definition_t : Type := { d_line : Z; d_line_end : Z; d_kind : string; d_name : string }.
Record term_hit_t : Type :=
  { th_file_path : string; th_line : Z; th_line_end : Z; th_kind : string }.
Record code_hit_t : Type :=
  { ch_project : string; ch_file_path : string; ch_snippet : string; ch_rank : Z }.
Record memory_t : Type :=
  { m_key : string; m_tier : string; m_kind : string; m_content : string }.
Record lsp_diag_t : Type :=
  { ld_severity : Z; ld_file : string; ld_line : Z; ld_message : string }.
(** [slop_finding_t]; the category is kept as its label. *)
Record slop_finding_t : Type :=
  { sf_line_number : Z; sf_category_label : string; sf_excerpt : string }.

(** The file type [stat] reports. *)
Inductive st_type : Type := ST_DIR | ST_LNK | ST_REG | ST_OTHER.

Inductive access_mode : Type := R_OK | W_OK | X_OK.

Inductive mcp_transport : Type := MCP_TRANSPORT_STDIO | MCP_TRANSPORT_SSE | MCP_TRANSPORT_OTHER.

(** The status [waitpid] reports: an exit code, a signal, anything else, or the
    failure of the call itself. *)
Inductive wait_status : Type := W_EXITED (code : Z) | W_SIGNALED (sig : Z) | W_UNKNOWN | W_FAILED.

(** The outcome of [select]: the ready descriptors, none within the timeout, an
    interrupted call or another error. *)
Inductive select_result : Type :=
| SEL_READY (stdout_ready stderr_ready : bool)
| SEL_TIMEOUT
| SEL_EINTR
| SEL_ERROR.

Class Lib (J : CJson) := {
  session_state_t : Type;
  guardrail_mode_t : Type;
  anchor_snapshot_t : Type;
  diff_result_t : Type;
  blast_radius_t : Type;
  clarify_session_t : Type;
  sandbox_config_t : Type;

  session_record_read : session_state_t -> string -> session_state_t;
  (** [state.is_delegate = 1]. *)
  set_is_delegate : session_state_t -> session_state_t;

  (** [anchor_format_read(data, len, offset, limit, snapshot)]. *)
  anchor_format_read : string -> Z -> Z -> option string -> option string;
  anchor_split_lines : string -> list string;
  anchor_line_digest : string -> bool -> Z;
  anchor_short_tag : Z -> string;
  (** The ordinal of an anchor, on success. *)
  anchor_parse : string -> option Z;
  (** A rejection (the payload may be NULL) or the new text. *)
  edit_anchored_plan : string -> anchor_snapshot_t -> option json -> option json + string;
  code_outline_ext : string -> string;
  code_outline_format : string -> string -> option string -> option string;
  code_outline_symbol_defs : string -> string -> string -> nat -> list definition_t;

  diff_compute : option string -> string -> option diff_result_t;
  diff_changed : diff_result_t -> bool;
  diff_format_summary : diff_result_t -> option string;
  diff_format_unified : option string -> string -> diff_result_t -> option string;
  diff_result_to_json : diff_result_t -> json;
  blast_radius_advisory_format : blast_radius_t -> string -> option string;

  slop_detect_buf : string -> list slop_finding_t;
  lsp_sev_error : Z;
  lsp_sev_warning : Z;
  lsp_severity_label : Z -> string;

  tool_args_coerce : json -> json -> option json;
  td_search_result_from_response : option json -> string -> option string;
  td_extract_hit_docs : json -> nat -> list (Z * string);
  db1_clarify_to_json : clarify_session_t -> option string;

  (** [sandbox_effective_mode(cfg) == SANDBOX_MODE_OFF], [cfg.mode == SANDBOX_MODE_OFF]
      and [cfg.mode = SANDBOX_MODE_ALLOWLIST]. *)
  sandbox_effective_off : sandbox_config_t -> bool;
  sandbox_mode_off : sandbox_config_t -> bool;
  sandbox_set_allowlist : sandbox_config_t -> sandbox_config_t;

  DELEGATE_DETACHED_CHANNEL_DOWN_JSON : string;
  DIAG_RANK_DIRECT : Z;
  DIAG_RANK_LOG : Z;
  DIAG_RANK_CODE : Z;
  DIAG_RANK_SPECULATION : Z;

  (** Which weak symbols the link resolved. *)
  linked_durable_job_id : bool;
  linked_job_is_cancelled : bool;
  linked_spawn_stop_reason : bool;
  linked_retrieval_outcome_bridge : bool;
}.

Section Host.
Context {J : CJson} {L : Lib J}.

Inductive req : Type :=
(** config, session and storage *)
| config_present
| config_tool_output_max_bytes
| config_rewind_auto_snapshot
| config_guardrail_mode
| config_embedder_command_current
| config_learning_implicit_retrieval_outcome
| config_sandbox
| session_id
| session_state_load (sid : option string)
| session_state_save (st : session_state_t) (sid : option string)
| db1_init
| agent_tools_get_snap_id
| agent_tools_set_snap_id (id : Z)
| agent_tools_get_turn
| db1_fsnap_get_or_create (sid : string) (turn : Z) (label : string)
| db1_fsnap_record_file (id : Z) (path : string)
| db1_session_write_path_record (key : option string) (path : string)
| delegation_active_id
| aimee_home
| aimee_log (msg : string)
(** permissions and guardrails *)
| agent_tools_readonly_delegate_blocks
| agent_tools_parent_write_guard_blocks (path : string) (cwd : option string)
| agent_tools_session_isolation_blocks (path : string) (cwd : string)
| agent_tools_parent_write_guard_root
| agent_tools_parent_write_guard_write_root
| agent_tools_shell_allowed
| agent_tools_knowledge_write_allowed
| agent_tools_tool_allowed_for_role (role : option string) (tool : string)
| guardrails_validate_file_path (path : string)
| pre_tool_check (name input : string) (st : session_state_t) (mode : guardrail_mode_t)
    (cwd : string)
| shell_git_gate_registered
| shell_git_gate (command cwd : string)
(** workspace provider *)
| workspace_provider_active
| ws_stat (path : string)
| ws_read_all (path : string)
| ws_write_all (path data : string)
| ws_list (path : string) (pattern : option string)
| ws_exec (argv : list string) (cap : nat)
| ws_exec_shell (command : string)
| ws_exec_shell_timeout (command : string) (timeout_ms : Z)
| run_cmd_get_cwd
| getcwd
| workspace_active_root (cwd : string)
| workspace_repo_identity (cwd : string)
| sandbox_learned_observe (cwd : option string) (command : string)
(** files, anchors, processes *)
| malloc (size : nat)
| calloc (count : nat)
| fmemopen (data : string)
| fopen_read (path : string) (max : nat)
| stat (path : string)
| lstat (path : string)
| access (path : string) (mode : access_mode)
| getenv (name : string)
| safe_exec_capture (argv : list string) (cap : nat)
| resolve_proposal_path (name : string)
| anchor_snapshot_create (path data : string)
| anchor_snapshot_get_copy (id : string)
| guardrails_blast_radius_for_abs_path (path : string)
| lsp_manager_diagnostics (ws path : string) (max : nat)
| proc_start (command : string) (cwd : option string)
| proc_get_output (id tail : Z) (cap : nat)
| proc_kill (id : Z)
| proc_list (cap : nat)
| tool_execute_script (language body : string) (secs : Z) (dir env_json : option string)
(** the HTTP probe of [tool_verify]; [tls] tells the TLS calls from the plain ones *)
| socket_connect (host port : string) (timeout_ms : Z)
| socket_set_timeouts
| tls_client_context
| tls_client_session_new (host : string)
| tls_handshake_client
| http_write_all (tls : bool) (data : string)
| http_read (tls : bool) (cap : nat)
(** the shell child of [tool_bash] *)
| pipe
| sandbox_exec (cfg : sandbox_config_t) (command : string) (ws : option string)
| sandbox_exec_with_readonly (cfg : sandbox_config_t) (command : string) (ws ro rw : option string)
(** [fork]; the child runs [readonly_child], [workspace_child] or the shell of
    module [BashTool] *)
| fork_readonly_chain (tokens : list string) (ws : option string)
| fork_workspace_chain (tokens : list string) (ws : option string)
| fork_shell (command : string) (cwd : option string)
| kill (pid sig : Z)
| usleep (us : Z)
| waitpid (pid : Z)
| clock_gettime
| select (stdout_open stderr_open : bool) (timeout_ms : Z)
| read_stdout (cap : nat)
| read_stderr (cap : nat)
(** [stdout_pipe[0] >= FD_SETSIZE || stderr_pipe[0] >= FD_SETSIZE] *)
| fd_exceeds_setsize
(** what [access(_, X_OK)] says of every path while one command is validated *)
| access_snapshot
(** inside a forked child: [fork_exec] is a fork whose child redirects the given
    ends, changes to [dir], prepares PATH and executes [argv] *)
| chdir (path : string)
| fork_exec (argv : list string) (dir : option string) (stdin_pipe stdout_pipe : bool)
| execvp (argv : list string)
| readlink_self (max : nat)
| setenv (name value : string)
(** knowledge service *)
| kb_client_index_find (symbol : string) (max : nat)
| kb_client_index_code_search (query : string) (project : option string) (max : Z)
| agent_source_append_overlay_code_hits (arr : json) (query : string) (project : option string)
    (max : Z)
| agent_source_add_index_freshness (hit : json) (project file : string)
| kb_client_note_create_json (title content : string) (tags : option string) (author : string)
| kb_client_note_list_json (tag : option string) (limit : Z)
| kb_client_note_search_json (query : string) (limit : Z)
| kb_client_memory_find_facts (query : string) (max : nat)
| kb_client_collab_rules_propose (text reason author : string)
| kb_client_collab_rules_list_active_json
| kb_client_learning_propose_signal_json (args : json)
| kb_client_learning_list_proposals_json (state : string) (sink : option string) (limit : Z)
| kb_client_search_json_scoped_ex (project : option string) (all : bool) (query : string)
    (embedder : option string) (max : Z)
| kb_client_ranker_emit_event (ids : list Z)
| retrieval_outcome_bridge_note (ev : string) (docs : list (Z * string))
| econ_module_tool_recall (dir ref : string)
| web_search_ex (query : string) (max : Z) (fetch : option bool)
| web_handle_register_from_search (out : string)
| tool_web_read (ref : string) (query : option string) (span : Z) (mode : option string)
| tool_find_symbol (identifier : string)
(** delegation, clarification, diagnosis *)
| delegation_request_input (question : string)
| db1_clarify_start (description : string)
| db1_clarify_answer (sid : Z) (answer_text : string)
| db1_diagnose_start (symptom : string)
| db1_diagnose_add_observation (id : Z) (content source : string)
| db1_diagnose_add_hypothesis (id : Z) (content : string)
| db1_diagnose_add_evidence (id hyp : Z) (ekind content source : string) (rank : Z)
| db1_diagnose_json_full (id : Z)
| agent_get_durable_job_id
| db1_agent_job_is_cancelled (job : Z)
| db1_delegation_spawn_stop_reason (delegation : string)
(** registries and hooks *)
| agent_tool_get_schema_cached (name : string)
| tool_suggest (name : string)
| git_write_registered
| git_write (name : string) (args : json) (sid : option string)
| mcp_call_registered
| mcp_call (name : string) (args : json) (sid : option string)
| agent_tools_is_mcp_derived (name : string)
| mcp_client_registry_transport_kind (name : string)
| mcp_client_registry_get (client : string)
| mcp_client_registry_call_tool (name : string) (args : json) (timeout_ms : Z)
| kb_client_mcp_call (name : string) (args : json) (timeout_ms : Z) (role : option string)
| tool_event_cb (phase tool : string)
| tool_classifier (name : string)
| tool_completion_cb (tool actor verdict reason_code mode : string).

(** The results.  [option string] is a nullable string, a [Z] a return code
    unless said otherwise; calls whose result is only compared with zero answer
    a [bool], true for success. *)
Definition answer (q : req) : Type :=
  match q with
  | config_present | config_rewind_auto_snapshot
  | config_learning_implicit_retrieval_outcome => bool
  | config_tool_output_max_bytes => Z
  | config_guardrail_mode => guardrail_mode_t
  | config_embedder_command_current => option string
  | config_sandbox => sandbox_config_t
  | session_id => option string
  | session_state_load _ => session_state_t
  | session_state_save _ _ => unit
  | db1_init => bool
  | agent_tools_get_snap_id => Z
  | agent_tools_set_snap_id _ => unit
  | agent_tools_get_turn => Z
  | db1_fsnap_get_or_create _ _ _ => Z
  | db1_fsnap_record_file _ _ | db1_session_write_path_record _ _ => unit
  | delegation_active_id | aimee_home => option string
  | aimee_log _ => unit
  | agent_tools_readonly_delegate_blocks | agent_tools_parent_write_guard_blocks _ _
  | agent_tools_session_isolation_blocks _ _ => bool
  | agent_tools_parent_write_guard_root | agent_tools_parent_write_guard_write_root =>
      option string
  | agent_tools_shell_allowed | agent_tools_knowledge_write_allowed
  | agent_tools_tool_allowed_for_role _ _ => bool
  | guardrails_validate_file_path _ => option string * string (* the error, the resolved path *)
  | pre_tool_check _ _ _ _ _ => Z * string * session_state_t (* rc, message, state *)
  | shell_git_gate_registered | shell_git_gate _ _ => bool
  | workspace_provider_active => option ws_provider
  | ws_stat _ => bool * Z (* exists, size *)
  | ws_read_all _ => option string
  | ws_write_all _ _ => bool
  | ws_list _ _ => option (list string)
  | ws_exec _ _ => Z * option string
  | ws_exec_shell _ | ws_exec_shell_timeout _ _ => option string * Z
  | run_cmd_get_cwd | getcwd => option string
  | workspace_active_root _ | workspace_repo_identity _ => option string
  | sandbox_learned_observe _ _ => unit
  | malloc _ | calloc _ | fmemopen _ => bool
  | fopen_read _ _ => option string
  | stat _ => option st_type
  | lstat _ => option (st_type * Z) (* type, size *)
  | access _ _ => bool
  | getenv _ => option string
  | safe_exec_capture _ _ => Z * option string
  | resolve_proposal_path _ => option string
  | anchor_snapshot_create _ _ => option string
  | anchor_snapshot_get_copy _ => option anchor_snapshot_t
  | guardrails_blast_radius_for_abs_path _ => option blast_radius_t
  | lsp_manager_diagnostics _ _ _ => list lsp_diag_t
  | proc_start _ _ => Z * string (* id, error text *)
  | proc_get_output _ _ _ => string
  | proc_kill _ => bool
  | proc_list _ => string
  | tool_execute_script _ _ _ _ _ => option string
  | socket_connect _ _ _ => Z (* the descriptor *)
  | socket_set_timeouts | tls_client_context | tls_client_session_new _ | tls_handshake_client
  | http_write_all _ _ => bool
  | http_read _ _ => string (* empty at the end or on an error *)
  | pipe => bool
  | sandbox_exec _ _ _ | sandbox_exec_with_readonly _ _ _ _ _ => Z (* pid *)
  | fork_readonly_chain _ _ | fork_workspace_chain _ _ | fork_shell _ _ => Z (* pid *)
  | kill _ _ | usleep _ => unit
  | waitpid _ => wait_status
  | clock_gettime => Z * Z (* seconds, nanoseconds *)
  | select _ _ _ => select_result
  | read_stdout _ | read_stderr _ => string (* empty: the result is not positive *)
  | fd_exceeds_setsize => bool
  | access_snapshot => string -> bool
  | chdir _ => bool
  | fork_exec _ _ _ _ => Z (* pid *)
  | execvp _ => unit (* the exit code of an exec that fails is 127 *)
  | readlink_self _ => option string
  | setenv _ _ => unit
  | kb_client_index_find _ _ => list term_hit_t
  | kb_client_index_code_search _ _ _ => list code_hit_t
  | agent_source_append_overlay_code_hits _ _ _ _ => Z * json
  | agent_source_add_index_freshness _ _ _ => json
  | kb_client_note_create_json _ _ _ _ | kb_client_note_list_json _ _
  | kb_client_note_search_json _ _ => option string
  | kb_client_memory_find_facts _ _ => list memory_t
  | kb_client_collab_rules_propose _ _ _ => Z
  | kb_client_collab_rules_list_active_json => option string
  | kb_client_learning_propose_signal_json _ => option string
  | kb_client_learning_list_proposals_json _ _ _ => option string
  | kb_client_search_json_scoped_ex _ _ _ _ _ => option string
  | kb_client_ranker_emit_event _ => option string
  | retrieval_outcome_bridge_note _ _ => unit
  | econ_module_tool_recall _ _ => string + string (* the error text, or the output *)
  | web_search_ex _ _ _ => option string
  | web_handle_register_from_search _ => unit
  | tool_web_read _ _ _ _ | tool_find_symbol _ => option string
  | delegation_request_input _ => option string
  | db1_clarify_start _ | db1_clarify_answer _ _ => option clarify_session_t
  | db1_diagnose_start _ | db1_diagnose_add_observation _ _ _
  | db1_diagnose_add_hypothesis _ _ | db1_diagnose_add_evidence _ _ _ _ _ _ => Z
  | db1_diagnose_json_full _ => option string
  | agent_get_durable_job_id => Z
  | db1_agent_job_is_cancelled _ => bool
  | db1_delegation_spawn_stop_reason _ => Z * string
  | agent_tool_get_schema_cached _ => option json
  | tool_suggest _ => option string
  | git_write_registered => bool
  | git_write _ _ _ => option json
  | mcp_call_registered => bool
  | mcp_call _ _ _ => option json
  | agent_tools_is_mcp_derived _ => bool
  | mcp_client_registry_transport_kind _ => mcp_transport
  | mcp_client_registry_get _ => bool
  | mcp_client_registry_call_tool _ _ _ => string + json (* the error text, or the result *)
  | kb_client_mcp_call _ _ _ _ => string + json
  | tool_event_cb _ _ => unit
  | tool_classifier _ => Z * Z (* rc, classification *)
  | tool_completion_cb _ _ _ _ _ => unit
  end.
End Host.

(** The programs of the tools. *)
Abbreviation tool A := (prog answer A).

(** One call. *)
Definition call {J : CJson} {L : Lib J} (q : req) : tool (answer q) := ask q.

(** * Automation

    [solve_avoids] proves that a program never makes a [bad] call, walking over
    its structure; the programs with loops have lemmas in the hint database
    [avoids]. *)
Create HintDb avoids discriminated.

Section Automation.
Context {J : CJson} {L : Lib J}.

Lemma avoids_call bad q : bad q = false -> avoids bad (call q).
Proof. done. Qed.

Lemma avoids_seq {A B} bad (p : tool A) (f : A -> tool B) :
  avoids bad p -> (forall a, avoids bad (f a)) -> avoids bad (bind p f).
Proof. intros Hp Hf. apply avoids_bind; [done|]. by apply returns_all. Qed.

Lemma guarded_seq {A B} pass w (p : tool A) (f : A -> tool B) :
  guarded pass w p -> (forall a, guarded pass w (f a)) -> guarded pass w (bind p f).
Proof. intros Hp Hf. apply guarded_bind; [done|]. by apply returns_all. Qed.

Lemma within_seq {A B} ok bad (p : tool A) (f : A -> tool B) :
  within ok bad p -> (forall a, within ok bad (f a)) -> within ok bad (bind p f).
Proof. intros Hp Hf. apply within_bind; [done|]. by apply returns_within_all. Qed.

(** A program that only makes calls of [alphabet] avoids what is outside it. *)
Lemma avoids_alphabet {A} (alphabet bad : req -> bool) (p : tool A) :
  avoids (fun q => negb (alphabet q)) p -> (forall q, alphabet q = true -> bad q = false) ->
  avoids bad p.
Proof.
  intros Hp H. apply (avoids_mono (fun q => negb (alphabet q))); [|done].
  intros q Hq. destruct (alphabet q) eqn:E; [|done]. rewrite H in Hq; done.
Qed.
End Automation.

Ltac prog_head p :=
  lazymatch p with
  | ?f _ => prog_head f
  | ?f => f
  end.

(** One step on [avoids _ p]: the structure of [p], a lemma, or its definition. *)
Ltac avoids_step :=
  lazymatch goal with
  | |- avoids _ (Ret _) => exact I
  | |- avoids _ (call _) => apply avoids_call; reflexivity
  | |- avoids _ (Ask _ _) => split; [reflexivity | intro]
  | |- avoids _ (bind _ _) => apply avoids_seq; [|intro]
  | |- avoids _ (match ?x with _ => _ end) => destruct x
  | |- avoids _ (let _ := _ in _) => cbv zeta
  | |- avoids _ ?p =>
      first [ solve [auto with avoids nocore]
            | let h := prog_head p in progress unfold h; cbv zeta beta ]
  end.

Ltac solve_avoids := cbv zeta beta; repeat avoids_step.

(** One step on [returns p Q]: the results do not depend on the calls before. *)
Ltac returns_step :=
  lazymatch goal with
  | |- returns (Ret _) _ => cbn
  | |- returns (bind _ _) _ => apply returns_seq; intro
  | |- returns (match ?x with _ => _ end) _ => destruct x
  | |- returns (let _ := _ in _) _ => cbv zeta
  | |- returns ?p _ =>
      first [ solve [auto with returns nocore]
            | let h := prog_head p in progress unfold h; cbv zeta beta ]
  end.
Create HintDb returns discriminated.

Ltac solve_returns := cbv zeta beta; repeat returns_step.
