(* ===== verification/Demo.v ===== *)
(** A concrete environment: an instance of [Lib] over the JSON values of [Json],
    a default answer for every call, and oracles built from a table of answers.
    The witnesses of the theorems, and the runs that show a behaviour, use it. *)
From S2P Require Import Prelude CStr Ext Prog Json Host.
Local Open Scope tools_scope.

(** A parser that knows the given texts. *)
Fixpoint table_parse (table : list (string * jv)) (s : string) : option jv :=
  match table with
  | [] => None
  | (k, v) :: r => if k == s then Some v else table_parse r s
  end.

Definition demo_json (table : list (string * jv)) : CJson := jv_cjson (table_parse table).

Section Demo.
Variable table : list (string * jv).

(** A sandbox configuration: the effective mode is off, the configured mode is
    off.  The session state is the list of the paths read. *)
Definition demo_lib : Lib (demo_json table) := {|
  session_state_t := list string;
  guardrail_mode_t := unit;
  anchor_snapshot_t := string;
  diff_result_t := bool;
  blast_radius_t := unit;
  clarify_session_t := string;
  sandbox_config_t := bool * bool;
  session_record_read st p := p :: st;
  set_is_delegate st := st;
  anchor_format_read data off lim snap := Some data;
  anchor_split_lines data := [data];
  anchor_line_digest l first := Z.of_nat (strlen l);
  anchor_short_tag z := "aa";
  anchor_parse s := if isdigit (char_at 0 s) then Some (atoi s) else None;
  edit_anchored_plan data snap edits := inr data : option (@json (demo_json table)) + string;
  code_outline_ext p := "c";
  code_outline_format d e s := Some d;
  code_outline_symbol_defs d e s n :=
    [{| d_line := 1; d_line_end := 1; d_kind := "function"; d_name := s |}];
  diff_compute old new := Some (negb (or_else old "" == new));
  diff_changed b := b;
  diff_format_summary b := Some "+1";
  diff_format_unified old new b := None;
  diff_result_to_json b := (JObj [] : @json (demo_json table));
  blast_radius_advisory_format b p := None;
  slop_detect_buf s := [];
  lsp_sev_error := 1;
  lsp_sev_warning := 2;
  lsp_severity_label z := "error";
  tool_args_coerce schema args := None;
  td_search_result_from_response r q := Some q;
  td_extract_hit_docs hits n := [];
  db1_clarify_to_json s := Some s;
  sandbox_effective_off c := c.1;
  sandbox_mode_off c := c.2;
  sandbox_set_allowlist c := (c.1, false);
  DELEGATE_DETACHED_CHANNEL_DOWN_JSON := "down";
  DIAG_RANK_DIRECT := 4;
  DIAG_RANK_LOG := 3;
  DIAG_RANK_CODE := 2;
  DIAG_RANK_SPECULATION := 1;
  linked_durable_job_id := true;
  linked_job_is_cancelled := true;
  linked_spawn_stop_reason := true;
  linked_retrieval_outcome_bridge := false;
|}.

Let Q : Type := @req (demo_json table) demo_lib.
Let A (q : Q) : Type := @answer (demo_json table) demo_lib q.

(** The default answers: no, nothing, zero, except where the name of the call
    says that the ordinary case is yes. *)
Definition demo_answer (q : Q) : A q.
Proof.
  refine (match q as q return A q with
  | malloc _ | calloc _ | fmemopen _ | agent_tools_shell_allowed
  | agent_tools_knowledge_write_allowed | agent_tools_tool_allowed_for_role _ _
  | pipe | ws_write_all _ _ => true
  | config_sandbox => (false, false)
  | pre_tool_check _ _ st _ _ => (0%Z, "", st)
  | session_id => Some "s1"
  | run_cmd_get_cwd => Some "/p/wt"
  | guardrails_validate_file_path p => (None, p)
  | waitpid _ => W_EXITED 0
  | select _ _ _ => SEL_READY true true
  | mcp_client_registry_transport_kind _ => MCP_TRANSPORT_STDIO
  | mcp_client_registry_call_tool _ _ _ | kb_client_mcp_call _ _ _ _ => inl ""
  | econ_module_tool_recall _ _ => inl ""
  | access_snapshot => fun _ => false
  | config_guardrail_mode => tt
  | session_state_load _ => []
  | agent_source_append_overlay_code_hits arr _ _ _ => (0%Z, arr)
  | agent_source_add_index_freshness hit _ _ => hit
  | _ => _
  end);
  unfold A; cbn;
  first [ exact false | exact 0%Z | exact tt | exact None | exact "" | exact []
        | exact (0%Z, 0%Z) | exact (0%Z, @None string) | exact (@None string, 0%Z)
        | exact (0%Z, "") | exact (false, 0%Z) ].
Defined.

(** The oracle of a table of answers. *)
Definition demo_oracle (f : forall q : Q, option (A q)) : oracle A :=
  fun _ q => match f q with Some r => r | None => demo_answer q end.
End Demo.
