(* ===== verification/TextOps.v ===== *)
(** The text algorithms of the file tools, as pure functions.

    The occurrence count and the replacement of [tool_edit_file]
    ([agent_tools_dispatch.c]), the binary test, the line window, the
    truncation of [tool_read_file] and the slop advisory text ([agent_tools.c]).
    The tools of [FileTools] call them. *)
From S2P Require Import Prelude CStr Ext Json Host.
Local Open Scope tools_scope.

(** * Occurrences and replacement *)

(** [for (p = content; (p = strstr(p, old)); p += old_len) count++]. *)
Fixpoint count_loop (fuel : nat) (p old : string) (count : nat) : nat :=
  match fuel with
  | 0 => count
  | S fuel =>
      match strstr p old with
      | None => count
      | Some k => count_loop fuel (sdrop (k + strlen old) p) old (S count)
      end
  end.

Definition count_occurrences (content old : string) : nat :=
  count_loop (S (strlen content)) content old 0.

(** The copy loop: [dst] is what has been written, [src] what is left. *)
Fixpoint replace_loop (reps : nat) (src old new dst : string) : string :=
  match reps with
  | 0 => dst +:+ src
  | S reps =>
      match strstr src old with
      | None => dst +:+ src
      | Some k =>
          replace_loop reps (sdrop (k + strlen old) src) old new (dst +:+ stake k src +:+ new)
      end
  end.

Definition replace_occurrences (content old new : string) (reps : nat) : string :=
  replace_loop reps content old new "".

(** The argument of the [malloc], [content_len + reps * new_len - reps * old_len
    + 1], every operation in [size_t]. *)
Definition replace_alloc (content old new : string) (reps : nat) : Z :=
  let reps := Z.of_nat reps in
  size_t (size_t (size_t (Z.of_nat (strlen content) + size_t (reps * Z.of_nat (strlen new)))
                  - size_t (reps * Z.of_nat (strlen old))) + 1).

(** * Binary detection and line windows *)

Definition binary_char (c : ascii) : bool :=
  Ascii.eqb c NUL || (code c =? 127)
  || ((code c <b 32) && negb (Ascii.eqb c NL) && negb (Ascii.eqb c CR) && negb (Ascii.eqb c TAB)).

Fixpoint tool_buffer_looks_binary (buf : string) : bool :=
  match buf with
  | "" => false
  | String c r => if binary_char c then true else tool_buffer_looks_binary r
  end.

(** The sample is the first 4096 bytes. *)
Definition tool_file_looks_binary (data : string) : bool :=
  tool_buffer_looks_binary (stake 4096 data).

(** [fgets(line, n, f)]: up to [n - 1] bytes, through the first newline. *)
Fixpoint fgets_chunk (k : nat) (s : string) : string * string :=
  match k, s with
  | S k, String c r =>
      if Ascii.eqb c NL then (nl, r)
      else let '(a, b) := fgets_chunk k r in (String c a, b)
  | _, _ => ("", s)
  end.

Definition fgets (n : nat) (s : string) : option (string * string) :=
  match s with
  | "" => None
  | _ => Some (fgets_chunk (n - 1) s)
  end.

Definition LINE_BUF : nat := 4096.

(** The [while (fgets(...))] loop of the un-anchored read; [buf] holds the
    [total] bytes copied so far.  [next] is the increment of the [int] counters
    [line_num] and [lines_read]: [read_window] takes [Z.succ], and [read_loop_int]
    shows that the 32-bit increment gives the same for every file under 2 GiB
    (past 2^31 lines the C program's behaviour is undefined). *)
Fixpoint read_loop (next : Z -> Z) (fuel : nat) (rest : string) (cap : nat) (offset max_lines : Z)
    (buf : string) (line_num lines_read : Z) : string :=
  match fuel with
  | 0 => buf
  | S fuel =>
      match fgets LINE_BUF rest with
      | None => buf
      | Some (chunk, rest) =>
          let line_num := next line_num in
          if (0 <Z offset) && (line_num <=Z offset)
          then read_loop next fuel rest cap offset max_lines buf line_num lines_read
          else
            let line := cstr chunk in
            if cap <=b strlen buf + strlen line
            then buf +:+ stake (cap - strlen buf) line
            else
              let buf := buf +:+ line in
              let lines_read := next lines_read in
              if max_lines <=Z lines_read then buf
              else read_loop next fuel rest cap offset max_lines buf line_num lines_read
      end
  end.

Definition read_window (data : string) (cap : nat) (offset limit : Z) : string :=
  let max_lines := if (0 <Z limit) then limit else 100000%Z in
  read_loop Z.succ (S (strlen data)) data cap offset max_lines "" 0 0.

(** [while (cut > 0 && formatted[cut] != '\n') cut--]. *)
Fixpoint find_cut (formatted : string) (cut : nat) : nat :=
  match cut with
  | 0 => 0
  | S c => if Ascii.eqb (char_at cut formatted) NL then cut else find_cut formatted c
  end.

(** The leading whole lines of a formatted read that fit in [cap] bytes. *)
Definition truncate_lines (formatted : string) (cap : nat) : string :=
  let cut := find_cut formatted cap in
  stake (if 0 <b cut then S cut else cap) formatted.

Definition truncation_note (cap : nat) : string :=
  "[truncated at " +:+ fmt_u cap +:+ " bytes; re-read with offset/limit for more]" +:+ nl.

(** * The listing buffer of tool_list_files *)

(** The copy loop: whole entries, while they fit and the limit is not reached. *)
Fixpoint list_fill (entries : list string) (count : nat) (max_files buf_size : nat)
    (buf : string) : string :=
  match entries with
  | [] => buf
  | e :: r =>
      if max_files <=b count then buf
      else if buf_size <=b strlen buf + strlen e + 1 then buf
      else list_fill r (S count) max_files buf_size (buf +:+ e +:+ nl)
  end.

(** * The slop advisory *)

Definition WARN_BUF : nat := 2048.

Definition slop_row (f : slop_finding_t) : string :=
  nl +:+ "  line " +:+ fmt_d (sf_line_number f) +:+ " [" +:+ sf_category_label f +:+ "] "
  +:+ sf_excerpt f.

(** The loop over the findings: [wpos] is the sum of the [snprintf] results, the
    lengths the rows would have, [buf] what the buffer holds. *)
Fixpoint slop_rows (fs : list slop_finding_t) (wpos : nat) (buf : string) : nat * string :=
  match fs with
  | [] => (wpos, buf)
  | f :: r =>
      if wpos <b WARN_BUF - 80 then
        slop_rows r (wpos + strlen (slop_row f))
          (buf +:+ snprintf (WARN_BUF - wpos) (slop_row f))
      else (wpos, buf)
  end.

(** The final [wpos] and the contents of [warn_buf]; the source then copies
    [wpos + 1] bytes out of it. *)
Definition slop_warning (fs : list slop_finding_t) : nat * string :=
  let head := nl +:+ nl +:+ "slop advisory (" +:+ fmt_d (Z.of_nat (length fs))
              +:+ " finding(s)):" in
  slop_rows fs (strlen head) head.

(** * Shell quoting *)

(** The [cd '...'] prefix: the loop over the characters of the directory. *)
Fixpoint sh_quote_body (s : string) : string :=
  match s with
  | "" => ""
  | String c r =>
      (if Ascii.eqb c SQUOTE
       then String SQUOTE (String "\" (String SQUOTE (String SQUOTE "")))
       else String c "") +:+ sh_quote_body r
  end.

Definition cd_prefix (cwd : string) : string :=
  "cd " +:+ String SQUOTE (sh_quote_body cwd) +:+ String SQUOTE " && ".

(** * Reference definitions *)

(** [join sep ps]: the pieces with [sep] between them. *)
Fixpoint join (sep : string) (ps : list string) : string :=
  match ps with
  | [] => ""
  | [p] => p
  | p :: ps => p +:+ sep +:+ join sep ps
  end.

(** The split of a text at the occurrences of [old], leftmost first. *)
Inductive pieces (old : string) : string -> list string -> Prop :=
| pieces_last s : strstr s old = None -> pieces old s [s]
| pieces_cons p s ps :
    strstr (p +:+ old +:+ s) old = Some (strlen p) -> pieces old s ps ->
    pieces old (p +:+ old +:+ s) (p :: ps).

(** The lines of a text, each with its newline. *)
Fixpoint lines (s : string) : list string :=
  match s with
  | "" => []
  | String c r =>
      if Ascii.eqb c NL then nl :: lines r
      else match lines r with
           | [] => [String c ""]
           | l :: ls => String c l :: ls
           end
  end.

Definition sconcat (l : list string) : string := foldr String.append "" l.

(** How a POSIX shell reads one word: single quotes protect everything up to the
    next single quote, a backslash outside quotes the next character, and an
    unquoted blank ends the word. *)
Fixpoint sh_word (quoted : bool) (s : string) : string * string :=
  match s with
  | "" => ("", "")
  | String c r =>
      if quoted then
        if Ascii.eqb c SQUOTE then sh_word false r
        else let '(w, rest) := sh_word true r in (String c w, rest)
      else if Ascii.eqb c SQUOTE then sh_word true r
      else if Ascii.eqb c "\" then
        match r with
        | "" => ("", "")
        | String d r' => let '(w, rest) := sh_word false r' in (String d w, rest)
        end
      else if isspace c then ("", r)
      else let '(w, rest) := sh_word false r in (String c w, rest)
  end.

(** * Lemmas *)

Lemma strlen_pos s : s <> "" -> 0 < strlen s.
Proof. destruct s; [done | cbn; lia]. Qed.

Lemma pieces_total old s : old <> "" -> exists ps, pieces old s ps.
Proof.
  intros Hold. remember (strlen s) as n eqn:Hn.
  revert s Hn. induction n as [n IH] using lt_wf_ind. intros s ->.
  destruct (strstr s old) as [k|] eqn:E; [|exists [s]; by constructor].
  pose proof (strstr_split _ _ _ E) as Hs. pose proof (strstr_bound _ _ _ E) as Hb.
  assert (0 < strlen old) by (destruct old; [done | cbn; lia]).
  destruct (IH (strlen (sdrop (k + strlen old) s))) with (s := sdrop (k + strlen old) s)
    as [ps Hps]; [rewrite strlen_sdrop; lia | done |].
  exists (stake k s :: ps). rewrite Hs at 1. constructor; [|done].
  rewrite <- Hs, strlen_stake, E. f_equal. lia.
Qed.

Lemma pieces_not_nil old s ps : pieces old s ps -> ps <> [].
Proof. by destruct 1. Qed.

Lemma join_cons sep p ps : ps <> [] -> join sep (p :: ps) = p +:+ sep +:+ join sep ps.
Proof. by destruct ps. Qed.

Lemma pieces_join old s ps : pieces old s ps -> join old ps = s.
Proof.
  induction 1 as [|p s ps H Hp IH]; [done|].
  rewrite join_cons by (by eapply pieces_not_nil). by rewrite IH.
Qed.

Lemma sdrop_mid p old s : sdrop (strlen p + strlen old) (p +:+ old +:+ s) = s.
Proof. by rewrite sdrop_app_plus, sdrop_app_exact. Qed.

Lemma count_loop_pieces old s ps fuel c :
  old <> "" -> pieces old s ps -> strlen s < fuel ->
  count_loop fuel s old c = c + (length ps - 1).
Proof.
  intros Hold Hp. revert fuel c. induction Hp as [s H|p s ps H Hp IH]; intros [|fuel] c Hf; try lia.
  - cbn. rewrite H. lia.
  - cbn [count_loop length]. rewrite H, sdrop_mid, IH.
    + pose proof (pieces_not_nil _ _ _ Hp). destruct ps; [done | cbn; lia].
    + rewrite !strlen_app in Hf. pose proof (strlen_pos old Hold). lia.
Qed.

Lemma count_occurrences_pieces old s ps :
  old <> "" -> pieces old s ps -> count_occurrences s old = length ps - 1.
Proof. intros Ho Hp. unfold count_occurrences. by rewrite (count_loop_pieces old s ps) by (done || lia). Qed.

Lemma replace_loop_dst reps src old new dst :
  replace_loop reps src old new dst = dst +:+ replace_loop reps src old new "".
Proof.
  revert src dst. induction reps as [|reps IH]; intros src dst; cbn [replace_loop]; [done|].
  destruct (strstr src old) as [k|]; [|done].
  rewrite (IH _ (dst +:+ _)), (IH _ ("" +:+ _)). cbn. by rewrite <- !app_assoc_s.
Qed.

Lemma replace_all_pieces old new s ps :
  pieces old s ps -> replace_occurrences s old new (length ps - 1) = join new ps.
Proof.
  unfold replace_occurrences. induction 1 as [s H|p s ps H Hp IH]; [done|].
  pose proof (pieces_not_nil _ _ _ Hp) as Hne. rewrite join_cons by done.
  replace (length (p :: ps) - 1) with (S (length ps - 1)) by (destruct ps; [done | cbn; lia]).
  cbn [replace_loop]. rewrite H, sdrop_mid, replace_loop_dst, IH, stake_app_exact. cbn.
  by rewrite <- app_assoc_s.
Qed.

Lemma replace_one old new p s :
  strstr (p +:+ old +:+ s) old = Some (strlen p) ->
  replace_occurrences (p +:+ old +:+ s) old new 1 = p +:+ new +:+ s.
Proof.
  intros H. unfold replace_occurrences. cbn [replace_loop].
  rewrite H, sdrop_mid, stake_app_exact. cbn. by rewrite <- app_assoc_s.
Qed.

Lemma strlen_replace reps old new s ps :
  pieces old s ps -> reps <= length ps - 1 ->
  (Z.of_nat (strlen (replace_occurrences s old new reps)) =
   Z.of_nat (strlen s) + Z.of_nat (reps * strlen new) - Z.of_nat (reps * strlen old))%Z.
Proof.
  intros Hp. unfold replace_occurrences.
  revert s ps Hp. induction reps as [|reps IH]; intros s ps Hp Hr.
  { change (replace_loop 0 s old new "") with s. lia. }
  destruct Hp as [s H|p s ps H Hp]; [cbn in Hr; lia|].
  cbn [replace_loop]. rewrite H, sdrop_mid, replace_loop_dst, stake_app_exact.
  specialize (IH s ps Hp). cbn [length] in Hr.
  rewrite !strlen_app. change (strlen "") with 0. lia.
Qed.

(** The wrap-around of the allocation's intermediate results does not matter. *)
Lemma size_t_sum a b c :
  size_t (size_t (size_t (a + size_t b) - size_t c) + 1) = ((a + b - c + 1) mod 2 ^ 64)%Z.
Proof.
  unfold size_t. generalize (2 ^ 64)%Z. intros n. rewrite Zplus_mod_idemp_l.
  replace ((a + b mod n) mod n - c mod n + 1)%Z
    with ((a + b mod n) mod n + (1 - c mod n))%Z by lia.
  rewrite Zplus_mod_idemp_l.
  replace (a + b mod n + (1 - c mod n))%Z with (b mod n + (a + 1 - c mod n))%Z by lia.
  rewrite Zplus_mod_idemp_l.
  replace (b + (a + 1 - c mod n))%Z with (a + b + 1 - c mod n)%Z by lia.
  rewrite Zminus_mod_idemp_r. f_equal. lia.
Qed.

Lemma replace_alloc_mod s old new reps :
  replace_alloc s old new reps =
  ((Z.of_nat (strlen s) + Z.of_nat (reps * strlen new) - Z.of_nat (reps * strlen old) + 1)
   mod 2 ^ 64)%Z.
Proof. unfold replace_alloc. cbv zeta. by rewrite size_t_sum, !Nat2Z.inj_mul. Qed.

(** For a file under the editor's limit and a new text under a terabyte, the
    allocation is exact. *)
Lemma replace_alloc_exact s old new reps ps :
  pieces old s ps -> reps <= length ps - 1 -> old <> "" ->
  (Z.of_nat (strlen s) < 8 * 1024 * 1024)%Z -> (Z.of_nat (strlen new) < 2 ^ 40)%Z ->
  (Z.of_nat (strlen (replace_occurrences s old new reps)) + 1 = replace_alloc s old new reps)%Z.
Proof.
  intros Hp Hr Hold Hs Hn. rewrite replace_alloc_mod, <- (strlen_replace reps old new s ps) by done.
  pose proof (strlen_replace reps old new s ps Hp Hr) as E.
  pose proof (strlen_replace reps old "" s ps Hp Hr) as E0. change (strlen "") with 0 in E0.
  pose proof (strlen_pos old Hold) as Ho.
  rewrite Z.mod_small; [done|]. rewrite !Nat2Z.inj_mul in *.
  assert (Z.of_nat reps <= Z.of_nat (strlen s))%Z by nia.
  assert (Z.of_nat reps * Z.of_nat (strlen new) <= 8 * 1024 * 1024 * 2 ^ 40)%Z
    by (apply Z.mul_le_mono_nonneg; lia).
  lia.
Qed.

(** No piece contains the needle. *)
Lemma pieces_free old s ps : old <> "" -> pieces old s ps -> Forall (fun p => contains p old = false) ps.
Proof.
  intros Hold. induction 1 as [s H|p s ps H Hp IH]; constructor; try done.
  - unfold contains. by rewrite H.
  - apply not_true_iff_false. intros (a & b & ->)%contains_spec.
    apply strstr_Some in H as [_ H]. specialize (H (strlen a)).
    rewrite <- !app_assoc_s, sdrop_app_exact, starts_with_app in H.
    enough (true = false) by done. apply H. rewrite !strlen_app.
    pose proof (strlen_pos old Hold). lia.
Qed.


(** ** Lines and windows *)

Lemma lines_cons_nonnil c r : lines (String c r) <> [].
Proof. cbn. case_match; [done|]. by case_match. Qed.

(** [fgets] with a buffer longer than the line reads exactly the line. *)
Lemma fgets_chunk_line k s l ls :
  lines s = l :: ls -> strlen l <= k ->
  exists rest, fgets_chunk k s = (l, rest) /\ lines rest = ls /\ s = l +:+ rest /\ l <> "".
Proof.
  revert k l ls. induction s as [|c s IH]; intros k l ls Hl Hk; [done|].
  cbn [lines] in Hl. destruct (Ascii.eqb c NL) eqn:Ec.
  - injection Hl as <- <-. destruct k as [|k]; [cbn in Hk; lia|]. cbn [fgets_chunk].
    rewrite Ec. apply Ascii.eqb_eq in Ec as ->. by exists s.
  - destruct (lines s) as [|l' ls'] eqn:Es.
    + injection Hl as <- <-. destruct s; [|by destruct (lines_cons_nonnil _ _ Es)].
      destruct k as [|k]; [cbn in Hk; lia|]. cbn [fgets_chunk]. rewrite Ec.
      exists "". by destruct k.
    + injection Hl as <- <-. destruct k as [|k]; [cbn in Hk; lia|].
      destruct (IH k l' ls' eq_refl) as (rest & H1 & H2 & H3 & _);
        [cbn in Hk; unfold strlen in *; lia|].
      exists rest. cbn [fgets_chunk]. rewrite Ec, H1. split_and!; [done..| |done].
      cbn. by rewrite <- H3.
Qed.

Lemma fgets_line s l ls :
  lines s = l :: ls -> strlen l < LINE_BUF ->
  exists rest, fgets LINE_BUF s = Some (l, rest) /\ lines rest = ls /\ s = l +:+ rest /\ l <> "".
Proof.
  intros Hl Hk. destruct (fgets_chunk_line (LINE_BUF - 1) s l ls) as (rest & H1 & H); [done|lia|].
  exists rest. split; [|done]. unfold fgets. rewrite H1. by destruct s.
Qed.

(** One [fgets] of a non-empty text consumes at least a byte. *)
Lemma fgets_progress s chunk rest : fgets LINE_BUF s = Some (chunk, rest) -> strlen rest < strlen s.
Proof.
  assert (H : forall k s chunk rest, fgets_chunk k s = (chunk, rest) -> strlen rest <= strlen s).
  { clear. induction k as [|k IH]; intros s chunk rest; cbn [fgets_chunk].
    { by intros [= <- <-]. }
    destruct s as [|c s]; [by intros [= <- <-]|]. cbn [strlen String.length]. case_match.
    - intros [= <- <-]. unfold strlen. cbn. lia.
    - destruct (fgets_chunk k s) as [a b] eqn:E. intros [= <- <-]. apply IH in E.
      unfold strlen in *. cbn. lia. }
  destruct s as [|c s]; [done|]. unfold fgets.
  change (LINE_BUF - 1) with (S (LINE_BUF - 2)). cbn [fgets_chunk].
  case_match; [intros [= <- <-]; unfold strlen; cbn; lia|].
  destruct (fgets_chunk (LINE_BUF - 2) s) as [a b] eqn:E. intros [= <- <-]. apply H in E.
  unfold strlen in *. cbn. lia.
Qed.

(** The [int] counters of the loop do not overflow on a file under 2 GiB. *)
Lemma read_loop_int fuel rest cap offset max_lines buf ln lr :
  (0 <= ln)%Z -> (0 <= lr)%Z ->
  (ln + Z.of_nat (strlen rest) < 2 ^ 31)%Z -> (lr + Z.of_nat (strlen rest) < 2 ^ 31)%Z ->
  read_loop (fun z => wrap32 (z + 1)) fuel rest cap offset max_lines buf ln lr =
  read_loop Z.succ fuel rest cap offset max_lines buf ln lr.
Proof.
  assert (W : forall z, (0 <= z)%Z -> (z + 1 < 2 ^ 31)%Z -> wrap32 (z + 1) = Z.succ z).
  { intros z H1 H2. unfold wrap32. rewrite Z.mod_small; lia. }
  revert rest buf ln lr. induction fuel as [|fuel IH]; intros rest buf ln lr H1 H2 H3 H4; [done|].
  cbn [read_loop]. destruct (fgets LINE_BUF rest) as [[chunk rest']|] eqn:E; [|done].
  apply fgets_progress in E. cbv zeta. rewrite !W by lia.
  repeat case_match; try done; apply IH; lia.
Qed.

Lemma stake_app_ge n a b : strlen a <= n -> stake n (a +:+ b) = a +:+ stake (n - strlen a) b.
Proof.
  revert n. induction a as [|c a IH]; intros n H.
  - cbn. by rewrite Nat.sub_0_r.
  - destruct n as [|n]; cbn in *; [lia|]. f_equal. apply IH. unfold strlen in *. lia.
Qed.

Lemma stake_app_le n a b : n <= strlen a -> stake n (a +:+ b) = stake n a.
Proof.
  revert a. induction n as [|n IH]; intros [|c a] H; cbn in *; try done; [lia|].
  f_equal. apply IH. unfold strlen in *. lia.
Qed.

Lemma read_loop_lines fuel rest cap offset max_lines buf ln lr :
  strlen rest < fuel -> strlen buf <= cap -> (0 <= ln)%Z -> (lr < max_lines)%Z ->
  has_char rest NUL = false -> Forall (fun l => strlen l < LINE_BUF) (lines rest) ->
  read_loop Z.succ fuel rest cap offset max_lines buf ln lr =
  stake cap (buf +:+ sconcat (take (Z.to_nat (max_lines - lr))
                                (drop (Z.to_nat (offset - ln)) (lines rest)))).
Proof.
  revert rest buf ln lr. induction fuel as [|fuel IH]; intros rest buf ln lr Hf Hb Hln Hlr Hn Hs; [lia|].
  cbn [read_loop]. change (Z.succ ln) with (ln + 1)%Z. change (Z.succ lr) with (lr + 1)%Z.
  destruct (lines rest) as [|l ls] eqn:El.
  { destruct rest; [|by destruct (lines_cons_nonnil _ _ El)].
    cbn [fgets]. rewrite drop_nil, take_nil. cbn. by rewrite app_nil_s, stake_ge. }
  apply Forall_cons_1 in Hs as [Hl Hls].
  destruct (fgets_line rest l ls El Hl) as (rest' & -> & Hr & -> & Hne).
  rewrite has_char_app in Hn. apply orb_false_iff in Hn as [Hnl Hnr].
  pose proof (strlen_pos l Hne). rewrite strlen_app in Hf. subst ls.
  destruct (Z.leb_spec (ln + 1) offset) as [Ho|Ho].
  - rewrite (proj2 (Z.ltb_lt 0 offset)) by lia. cbn [andb].
    rewrite IH by (done || lia).
    replace (Z.to_nat (offset - ln)) with (S (Z.to_nat (offset - (ln + 1)))) by lia. done.
  - rewrite andb_false_r, cstr_id by done.
    replace (Z.to_nat (offset - ln)) with 0 by lia. cbn [drop].
    replace (Z.to_nat (max_lines - lr)) with (S (Z.to_nat (max_lines - (lr + 1)))) by lia.
    change (take (S ?n) (l :: ?ls)) with (l :: take n ls).
    change (sconcat (l :: ?x)) with (l +:+ sconcat x).
    destruct (Nat.leb_spec cap (strlen buf + strlen l)) as [Hc|Hc].
    + rewrite stake_app_ge by done. f_equal. rewrite stake_app_le by lia. done.
    + destruct (Z.leb_spec max_lines (lr + 1)) as [Hm|Hm].
      * replace (Z.to_nat (max_lines - (lr + 1))) with 0 by lia. cbn.
        rewrite app_nil_s, stake_ge; [done | rewrite strlen_app; lia].
      * rewrite IH by (done || lia || (rewrite strlen_app; lia)).
        replace (Z.to_nat (offset - (ln + 1))) with 0 by lia. by rewrite app_assoc_s.
Qed.

Lemma find_cut_spec f n :
  find_cut f n <= n /\
  (0 < find_cut f n -> char_at (find_cut f n) f = NL) /\
  (forall j, find_cut f n < j <= n -> char_at j f <> NL).
Proof.
  induction n as [|n (H1 & H2 & H3)]; [cbn; split_and!; [lia..|intros; lia]|].
  cbn [find_cut]. destruct (Ascii.eqb_spec (char_at (S n) f) NL) as [E|E].
  - split_and!; [lia | done | intros; lia].
  - split_and!; [lia | done |]. intros j Hj.
    destruct (decide (j = S n)) as [->|]; [done | apply H3; lia].
Qed.

Lemma list_fill_take es count max size buf :
  exists k, list_fill es count max size buf =
    buf +:+ sconcat (map (fun e => e +:+ nl) (take k es)) /\
    k <= length es /\ (k = 0 \/ count + k <= max /\ strlen (list_fill es count max size buf) < size) /\
    (k = length es \/ max <= count + k \/
     exists e, es !! k = Some e /\ size <= strlen (list_fill es count max size buf) + strlen e + 1).
Proof.
  revert count buf. induction es as [|e es IH]; intros count buf.
  { exists 0. cbn. rewrite app_nil_s. auto. }
  cbn [list_fill]. destruct (Nat.leb_spec max count) as [Hm|Hm].
  { exists 0. cbn. rewrite app_nil_s. split_and!; [done|lia|auto|right; left; lia]. }
  destruct (Nat.leb_spec size (strlen buf + strlen e + 1)) as [Hs|Hs].
  { exists 0. cbn. rewrite app_nil_s. split_and!; [done|lia|auto|]. right; right. by exists e. }
  destruct (IH (S count) (buf +:+ e +:+ nl)) as (k & E & Hk & Hb & Hx).
  exists (S k). split_and!.
  - rewrite E. change (take (S k) (e :: es)) with (e :: take k es). cbn [map sconcat foldr].
    by rewrite !app_assoc_s.
  - cbn. lia.
  - right. destruct Hb as [->|[Hb Hl]]; [|split; [lia|done]].
    split; [lia|]. rewrite E. cbn. rewrite app_nil_s, !strlen_app. change (strlen nl) with 1. lia.
  - destruct Hx as [->|[Hx|Hx]]; [by left | right; left; lia | by right; right].
Qed.

(** ** Slop rows *)

Lemma slop_rows_fit fs wpos buf :
  Forall (fun f => strlen (slop_row f) <= 80) fs -> wpos = strlen buf -> wpos < WARN_BUF ->
  exists k, slop_rows fs wpos buf =
    (strlen (buf +:+ sconcat (map slop_row (take k fs))), buf +:+ sconcat (map slop_row (take k fs)))
    /\ strlen (buf +:+ sconcat (map slop_row (take k fs))) < WARN_BUF.
Proof.
  intros H. revert wpos buf. induction H as [|f fs Hf Hfs IH]; intros wpos buf -> Hw.
  { exists 0. cbn. by rewrite app_nil_s. }
  cbn [slop_rows]. destruct (Nat.ltb_spec (strlen buf) (WARN_BUF - 80)) as [Hl|Hl].
  - rewrite snprintf_short by (unfold WARN_BUF in *; lia).
    rewrite <- strlen_app.
    destruct (IH (strlen (buf +:+ slop_row f)) (buf +:+ slop_row f) eq_refl) as (k & -> & Hk).
    { rewrite strlen_app. unfold WARN_BUF in *. lia. }
    exists (S k). change (take (S k) (f :: fs)) with (f :: take k fs). cbn [map sconcat foldr].
    fold (sconcat (map slop_row (take k fs))). rewrite <- !app_assoc_s in *. done.
  - exists 0. cbn. by rewrite app_nil_s.
Qed.

(** ** Shell words *)

Lemma sh_word_quoted s r : sh_word true (sh_quote_body s +:+ String SQUOTE r) =
  (s +:+ (sh_word false r).1, (sh_word false r).2).
Proof.
  induction s as [|c s IH]; cbn [sh_quote_body].
  { cbn. by destruct (sh_word false r). }
  destruct (Ascii.eqb_spec c SQUOTE) as [->|N].
  - cbn in *. by rewrite IH.
  - cbn [String.append sh_word]. apply Ascii.eqb_neq in N. rewrite N. cbn in *. by rewrite IH.
Qed.

(** * Theorems *)



(** A unique occurrence: the content is a prefix, the needle and a suffix that
    do not contain it, and the output has exactly that occurrence changed. *)
Lemma single_occurrence content old new :
  old <> "" -> count_occurrences content old = 1 ->
  exists p s, content = p +:+ old +:+ s /\ contains p old = false /\ contains s old = false /\
    replace_occurrences content old new 1 = p +:+ new +:+ s.
Proof.
  intros Ho Hc. destruct (pieces_total old content Ho) as [ps Hp].
  rewrite (count_occurrences_pieces old content ps) in Hc by done.
  pose proof (pieces_free old content ps Ho Hp) as Hf.
  destruct Hp as [s H|p s ps H Hp]; [done|].
  destruct Hp as [s H'|p' s ps H' Hp]; [|pose proof (pieces_not_nil _ _ _ Hp); destruct ps; [done | cbn in Hc; lia]].
  exists p, s. apply Forall_cons_1 in Hf as [Hf1 Hf2]. apply Forall_cons_1 in Hf2 as [Hf2 _].
  split_and!; try done. by apply replace_one.
Qed.

(** C28: the un-anchored read of a NUL-free text whose lines are shorter than the
    line buffer returns the lines [offset .. offset + limit) of the file (100000
    of them without a limit), cut at the output cap: the loop never overruns
    the buffer of [cap + 1] bytes and ends within its fuel. *)
Theorem read_window_lines data cap offset limit :
  has_char data NUL = false -> Forall (fun l => strlen l < LINE_BUF) (lines data) ->
  read_window data cap offset limit =
    stake cap (sconcat (take (Z.to_nat (if 0 <Z limit then limit else 100000))
                          (drop (Z.to_nat offset) (lines data)))) /\
  strlen (read_window data cap offset limit) <= cap.
Proof.
  intros Hn Hl.
  assert (E : read_window data cap offset limit =
    stake cap (sconcat (take (Z.to_nat (if 0 <Z limit then limit else 100000))
                          (drop (Z.to_nat offset) (lines data))))).
  { unfold read_window. rewrite read_loop_lines; [by rewrite !Z.sub_0_r | | | | | done | done].
    - lia.
    - cbn. lia.
    - lia.
    - destruct (Z.ltb_spec 0 limit); lia. }
  split; [done|]. rewrite E, strlen_stake. lia.
Qed.

Lemma read_window_lines_witness :
  let data := "a" +:+ nl +:+ "bc" +:+ nl +:+ "d" +:+ nl in
  read_window data 100 1 1 =
    stake 100 (sconcat (take (Z.to_nat (if 0 <Z 1 then 1 else 100000))
                          (drop (Z.to_nat 1) (lines data)))) /\
  strlen (read_window data 100 1 1) <= 100.
Proof.
  apply read_window_lines; [reflexivity|].
  apply Forall_forall. intros l Hl. apply Nat.ltb_lt.
  cbn in Hl. destruct Hl as [<-|[<-|[<-|[]]]]; reflexivity.
Defined.

(** C30: a formatted read longer than the cap is cut to a prefix of at most
    [cap + 1] bytes: through the last newline of the first [cap + 1] bytes (its
    first byte apart), and at [cap] bytes when there is none. *)
Theorem truncate_lines_prefix formatted cap :
  exists k, truncate_lines formatted cap = stake k formatted /\
    ((1 < k <= S cap /\ char_at (k - 1) formatted = NL /\
        forall j, k <= j <= cap -> char_at j formatted <> NL) \/
     (k = cap /\ forall j, 0 < j <= cap -> char_at j formatted <> NL)).
Proof.
  destruct (find_cut_spec formatted cap) as (H1 & H2 & H3). unfold truncate_lines.
  destruct (Nat.ltb_spec 0 (find_cut formatted cap)) as [Hc|Hc].
  - exists (S (find_cut formatted cap)). split; [done|]. left.
    rewrite Nat.sub_succ, Nat.sub_0_r. split_and!; [lia..|by apply H2|].
    intros j Hj. apply H3. lia.
  - exists cap. split; [done|]. right. split; [done|]. intros j Hj. apply H3. lia.
Qed.

(** C29: the listing of [list_files] is whole entries, each with its newline, in
    the provider's order: at most the file limit of them, always shorter than
    the buffer, and it only leaves out an entry at the limit or at one that
    does not fit. *)
Theorem list_fill_whole_entries entries max size :
  exists k, let out := list_fill entries 0 max size "" in
    out = sconcat (map (fun e => e +:+ nl) (take k entries)) /\
    k <= length entries /\ k <= max /\ strlen out <= size - 1 /\
    (k = length entries \/ k = max \/
     exists e, entries !! k = Some e /\ size <= strlen out + strlen e + 1).
Proof.
  destruct (list_fill_take entries 0 max size "") as (k & E & Hk & Hb & Hx).
  exists k. cbn zeta. split_and!; try done.
  - destruct Hb as [->|[Hb _]]; lia.
  - destruct Hb as [->|[_ Hb]]; [|lia]. rewrite E. apply Nat.le_0_l.
  - destruct Hx as [?|[?|?]]; [by left | | by right; right].
    destruct Hb as [->|[Hb _]]; right; left; lia.
Qed.

(** C32: when every row of the slop advisory has at most 80 characters, the text
    is the heading and the rows of a prefix of the findings, and the copy of
    [wpos + 1] bytes stays inside [warn_buf]. *)
Theorem slop_warning_in_buffer fs :
  (Z.of_nat (length fs) <= INT_MAX)%Z ->
  Forall (fun f => strlen (slop_row f) <= 80) fs ->
  strlen (nl +:+ nl +:+ "slop advisory (" +:+ fmt_d (Z.of_nat (length fs)) +:+ " finding(s)):")
    < WARN_BUF ->
  exists k, let '(wpos, buf) := slop_warning fs in
    buf = (nl +:+ nl +:+ "slop advisory (" +:+ fmt_d (Z.of_nat (length fs)) +:+ " finding(s)):")
          +:+ sconcat (map slop_row (take k fs)) /\
    wpos = strlen buf /\ wpos + 1 <= WARN_BUF.
Proof.
  intros _ Hf Hw. unfold slop_warning.
  destruct (slop_rows_fit fs _ _ Hf eq_refl Hw) as (k & -> & Hk). exists k.
  split_and!; [done..|lia].
Qed.

Definition short_finding : slop_finding_t :=
  {| sf_line_number := 3; sf_category_label := "filler"; sf_excerpt := "x = x" |}.

Lemma slop_warning_in_buffer_witness :
  exists k, let '(wpos, buf) := slop_warning [short_finding] in
    buf = (nl +:+ nl +:+ "slop advisory (" +:+ fmt_d (Z.of_nat (length [short_finding]))
           +:+ " finding(s)):") +:+ sconcat (map slop_row (take k [short_finding])) /\
    wpos = strlen buf /\ wpos + 1 <= WARN_BUF.
Proof.
  apply slop_warning_in_buffer.
  - vm_compute. discriminate.
  - constructor; [|constructor]. apply Nat.leb_le. vm_compute. reflexivity.
  - apply Nat.ltb_lt. vm_compute. reflexivity.
Defined.

Definition long_finding : slop_finding_t :=
  {| sf_line_number := 100; sf_category_label := "filler";
     sf_excerpt := String.concat "" (repeat "0123456789" 12) +:+ "0123456" |}.

(** The heading of the advisory, and the text it would be with [k] rows. *)
Definition slop_head (fs : list slop_finding_t) : string :=
  nl +:+ nl +:+ "slop advisory (" +:+ fmt_d (Z.of_nat (length fs)) +:+ " finding(s)):".
Definition slop_text (head : string) (fs : list slop_finding_t) (k : nat) : string :=
  head +:+ sconcat (map slop_row (take k fs)).

Lemma slop_text_S head f fs k : slop_text head (f :: fs) (S k) = slop_text (head +:+ slop_row f) fs k.
Proof.
  unfold slop_text. cbn [firstn map].
  change (sconcat (slop_row f :: map slop_row (take k fs)))
    with (slop_row f +:+ sconcat (map slop_row (take k fs))).
  by rewrite app_assoc_s.
Qed.

Lemma slop_text_0 head fs : slop_text head fs 0 = head.
Proof. apply app_nil_s. Qed.

Lemma slop_text_mono head fs j k : j <= k -> strlen (slop_text head fs j) <= strlen (slop_text head fs k).
Proof.
  revert head j k. induction fs as [|f fs IH]; intros head j k H; [by destruct j, k|].
  destruct j as [|j].
  - unfold slop_text. rewrite !strlen_app. change (strlen (sconcat (map slop_row (take 0 (f :: fs))))) with 0. lia.
  - destruct k as [|k]; [lia|]. rewrite !slop_text_S. apply IH. lia.
Qed.

Lemma slop_rows_stop fs wpos buf : WARN_BUF - 80 <= wpos -> slop_rows fs wpos buf = (wpos, buf).
Proof. intros H. destruct fs as [|f fs]; [done|]. cbn [slop_rows]. by rewrite (proj2 (Nat.ltb_ge _ _)). Qed.

(** The loop stops after some row [k], every text before it being short. *)
Lemma slop_rows_run fs buf :
  strlen buf < WARN_BUF ->
  exists k, k <= length fs /\
    slop_rows fs (strlen buf) buf =
      (strlen (slop_text buf fs k), stake (WARN_BUF - 1) (slop_text buf fs k)) /\
    (forall j, j < k -> strlen (slop_text buf fs j) < WARN_BUF - 80) /\
    (k = length fs \/ WARN_BUF - 80 <= strlen (slop_text buf fs k)).
Proof.
  revert buf. induction fs as [|f fs IH]; intros buf Hb.
  { exists 0. rewrite slop_text_0, stake_ge by lia. split_and!; [lia | done | lia | by left]. }
  cbn [slop_rows]. destruct (Nat.ltb_spec (strlen buf) (WARN_BUF - 80)) as [Hl|Hl].
  2: { exists 0. rewrite slop_text_0, stake_ge by lia.
       split_and!; [lia | done | lia | by right]. }
  unfold snprintf. destruct (decide (strlen buf + strlen (slop_row f) < WARN_BUF)) as [Hf|Hf].
  - rewrite (stake_ge _ (slop_row f)) by lia. rewrite <- strlen_app.
    destruct (IH (buf +:+ slop_row f)) as (k & Hk & E & Hj & Hend); [rewrite strlen_app; lia|].
    exists (S k). rewrite slop_text_S. split_and!; [cbn; lia | done | |].
    + intros [|j] Hlt; [|rewrite slop_text_S; apply Hj; lia].
      by rewrite slop_text_0.
    + destruct Hend as [-> |?]; [by left | by right].
  - exists 1. rewrite slop_rows_stop by (unfold WARN_BUF in *; lia). rewrite slop_text_S.
    rewrite slop_text_0, stake_app_ge, strlen_app by (unfold WARN_BUF in *; lia).
    split_and!; [cbn; lia | do 3 f_equal; lia | |].
    + intros j Hj. replace j with 0 by lia. by rewrite slop_text_0.
    + right. unfold WARN_BUF in *. lia.
Qed.

Lemma slop_head_short fs : length fs <= 16 -> strlen (slop_head fs) < WARN_BUF - 80.
Proof.
  unfold slop_head. generalize (length fs). intros n Hn.
  do 17 (destruct n as [|n]; [by apply Nat.ltb_lt|]). lia.
Qed.

(** C40: when the advisory over-reads.  For at most 16 findings, as many as
    [td_write_file] passes, [warn_buf] holds the first 2047 bytes of the text of
    some number of rows while [wpos] is the length of that whole text; the copy
    of [wpos + 1] bytes leaves the array exactly when some row starts before the
    margin of 80 bytes and ends past the array. *)
Theorem slop_warning_overread (fs : list slop_finding_t) (Hlen : length fs <= 16) :
  (exists k, k <= length fs /\
     slop_warning fs = (strlen (slop_text (slop_head fs) fs k),
                        stake (WARN_BUF - 1) (slop_text (slop_head fs) fs k))) /\
  (WARN_BUF < (slop_warning fs).1 + 1 <->
   exists j, j < length fs /\ strlen (slop_text (slop_head fs) fs j) < WARN_BUF - 80 /\
     WARN_BUF <= strlen (slop_text (slop_head fs) fs (S j))).
Proof.
  pose proof (slop_head_short fs Hlen) as Hh.
  destruct (slop_rows_run fs (slop_head fs)) as (k & Hk & E & Hj & Hend);
    [unfold WARN_BUF in *; lia|].
  change (slop_warning fs) with (slop_rows fs (strlen (slop_head fs)) (slop_head fs)).
  rewrite E. cbn [fst]. split; [eauto|]. split.
  - intros Ho. destruct k as [|k].
    + rewrite slop_text_0 in Ho. unfold WARN_BUF in *. lia.
    + exists k. split_and!; [lia | apply Hj; lia | lia].
  - intros (j & Hlt & H1 & H2).
    assert (S j <= k).
    { destruct (decide (S j <= k)) as [|Hn]; [done|]. exfalso.
      destruct Hend as [->|Hend]; [lia|].
      pose proof (slop_text_mono (slop_head fs) fs k j ltac:(lia)). lia. }
    pose proof (slop_text_mono (slop_head fs) fs (S j) k ltac:(lia)). lia.
Qed.

(** Sixteen findings whose excerpts have 127 characters: the fourteenth row
    crosses the end. *)
Lemma slop_warning_overread_witness : WARN_BUF < (slop_warning (repeat long_finding 16)).1 + 1.
Proof.
  apply (slop_warning_overread (repeat long_finding 16)); [cbn; lia|].
  exists 13. split_and!; apply Nat.ltb_lt + apply Nat.leb_le; vm_compute; reflexivity.
Defined.

(** The count of [edit_file] counts non-overlapping occurrences: it reports a
    unique match of "aa" in "aaa", where the needle occurs at two offsets. *)
Lemma overlapping_match_counted_once :
  count_occurrences "aaa" "aa" = 1 /\
  starts_with "aa" (sdrop 0 "aaa") = true /\ starts_with "aa" (sdrop 1 "aaa") = true.
Proof. done. Qed.

(** C31: the [cd] prefix of a shell command is quoted so that a POSIX shell reads
    the directory back as one word, whatever characters it holds, and continues
    with the command. *)
Theorem cd_prefix_quotes cwd cmd :
  exists rest, cd_prefix cwd +:+ cmd = "cd " +:+ rest /\
    sh_word false rest = (cwd, "&& " +:+ cmd).
Proof.
  exists (String SQUOTE (sh_quote_body cwd +:+ String SQUOTE (" && " +:+ cmd))). split.
  - unfold cd_prefix. cbn. do 4 f_equal. rewrite <- !app_assoc_s. done.
  - cbn [sh_word]. change (Ascii.eqb SQUOTE SQUOTE) with true. cbn iota.
    rewrite sh_word_quoted. cbn. by rewrite app_nil_s.
Qed.
