(* ===== verification/FileTools.v ===== *)
(** The file tools: reading, writing, listing and editing through the workspace
    provider ([agent_tools.c], and [tool_edit_file] and [tool_edit_file_anchored]
    of [agent_tools_dispatch.c]).

    A tool is a program over the calls of [Host]; its result is a C string or
    NULL.  The text algorithms are those of [TextOps]. *)
From S2P Require Import Prelude CStr Ext Prog Json Host TextOps.
Local Open Scope tools_scope.

Section FileTools.
Context {E : Ext} {J : CJson} {L : Lib J}.

(** [return safe_strdup(s)]. *)
Definition safe_strdup (s : string) : tool (option string) := Ret (Some s).

Definition oom : tool (option string) := safe_strdup "error: out of memory".

(** [char *out = cJSON_PrintUnformatted(o); return out ? out : safe_strdup(d)]. *)
Definition print_or (d : string) (o : json) : tool (option string) :=
  Ret (Some (or_else (cJSON_PrintUnformatted o) d)).

Definition agent_tool_output_cap : tool nat :=
  let* present := call config_present in
  if negb present then Ret AGENT_TOOL_OUTPUT_MAX
  else
    let* v := call config_tool_output_max_bytes in
    Ret (agent_tool_output_cap_clamp v).

(** [snprintf(label, 64, "auto:turn%d", turn)]. *)
Definition auto_snapshot_record (path : string) : tool Z :=
  let* present := call config_present in
  if negb present then Ret 0%Z else
  let* on := call config_rewind_auto_snapshot in
  if negb on then Ret 0%Z else
  let* sid := call session_id in
  if negb (nonempty sid) then Ret 0%Z else
  let* up := call db1_init in
  if negb up then Ret 0%Z else
  let* snap_id := call agent_tools_get_snap_id in
  let* snap_id :=
    if (snap_id <=Z 0) then
      let* turn := call agent_tools_get_turn in
      let label :=
        if (0 <=Z turn) then snprintf 64 ("auto:turn" +:+ fmt_d turn) else "auto" in
      let* id :=
        call (db1_fsnap_get_or_create (or_else sid "") (if 0 <=Z turn then turn else 0) label) in
      let* _ := call (agent_tools_set_snap_id id) in
      Ret id
    else Ret snap_id in
  let* _ :=
    if (0 <Z snap_id) then call (db1_fsnap_record_file snap_id path) else Ret tt in
  Ret snap_id.

(** [path_in_thread_cwd(path, buf, buf_len)]: the path returned, and what the
    call wrote to [buf] ([None]: nothing, the pointer [path] is returned). *)
Definition drive_path (path : string) : bool :=
  isalpha (char_at 0 path) && Ascii.eqb (char_at 1 path) ":"
  && (Ascii.eqb (char_at 2 path) "\" || Ascii.eqb (char_at 2 path) "/").

Definition path_in_thread_cwd (path : string) (buf_len : nat) : tool (string * option string) :=
  if (path == "") || starts_with "/" path then Ret (path, None)
  else if drive_path path then Ret (path, None)
  else
    let* cwd := call run_cmd_get_cwd in
    match cwd with
    | Some (String _ _ as cwd) =>
        if buf_len =? 0 then Ret (path, None)
        else
          let buf := snprintf buf_len (cwd +:+ "/" +:+ path) in
          Ret (buf, Some buf)
    | _ => Ret (path, None)
    end.

(** ** tool_read_file *)

(** The anchored branch, after the binary test. *)
Definition read_anchored (resolved data : string) (offset limit : Z) : tool (option string) :=
  let* cap := agent_tool_output_cap in
  let* snap := call (anchor_snapshot_create resolved data) in
  match anchor_format_read data offset limit (if nonempty snap then snap else None) with
  | None => oom
  | Some formatted =>
      if cap <b strlen formatted then
        let formatted := truncate_lines formatted cap in
        let* ok := call (malloc (strlen formatted + 96)) in
        Ret (Some (if ok then formatted +:+ truncation_note cap else formatted))
      else Ret (Some formatted)
  end.

(** The un-anchored branch. *)
Definition read_raw (data : string) (offset limit : Z) : tool (option string) :=
  let* cap := agent_tool_output_cap in
  let* ok := call (malloc (cap + 1)) in
  if negb ok then oom
  else Ret (Some (cstr (read_window data cap offset limit))).

Definition tool_read_file (path : string) (offset limit : Z) (raw : bool) :
    tool (option string) :=
  let proposal := starts_with "proposal:" path in
  let* resolved_proposal :=
    if proposal then call (resolve_proposal_path (sdrop 9 path)) else Ret None in
  let actual_path := if proposal then or_else resolved_proposal (sdrop 9 path) else path in
  let* (actual_path, cwd_path) := path_in_thread_cwd actual_path MAX_PATH_LEN in
  let* (err, resolved) := call (guardrails_validate_file_path actual_path) in
  match err with
  | Some err => safe_strdup err
  | None =>
      let* ws := call workspace_provider_active in
      let* data := call (ws_read_all actual_path) in
      match data with
      | None => safe_strdup (snprintf 512 ("error: cannot open " +:+ actual_path))
      | Some data =>
          (* free(resolved_proposal): actual_path dangles when it is that pointer *)
          let actual_path :=
            match resolved_proposal, cwd_path with
            | Some _, None => indeterminate
            | _, _ => actual_path
            end in
          let* f := call (fmemopen data) in
          if negb f then oom
          else if tool_file_looks_binary data
          then safe_strdup (snprintf 512 ("error: binary file omitted: " +:+ actual_path))
          else if negb raw then read_anchored resolved data offset limit
          else read_raw data offset limit
      end
  end.

(** ** tool_write_file *)

Definition one_mib : Z := (1024 * 1024)%Z.

(** The result when the file changed: the structured diff. *)
Definition diff_payload (actual_path : string) (old : option string) (content : string)
    (dr : diff_result_t) : json :=
  let payload := cJSON_AddStringToObject cJSON_CreateObject "status" "ok" in
  let payload := cJSON_AddStringToObject payload "path" actual_path in
  let payload := cJSON_AddBoolToObject payload "changed" true in
  let payload :=
    cJSON_AddStringToObject payload "summary" (or_else (diff_format_summary dr) "changed") in
  let payload := cJSON_AddItemToObject payload "diff" (diff_result_to_json dr) in
  let unified := diff_format_unified old content dr in
  if nonempty unified
  then cJSON_AddStringToObject payload "unified_diff" (or_else unified "") else payload.

Definition tool_write_file (path content : string) : tool (option string) :=
  let* (actual_path, _) := path_in_thread_cwd path MAX_PATH_LEN in
  let* (err, resolved) := call (guardrails_validate_file_path actual_path) in
  match err with
  | Some err => safe_strdup err
  | None =>
  let* ro := call agent_tools_readonly_delegate_blocks in
  if ro : bool
  then safe_strdup "error: write blocked: read-only delegate (not write-capable)" else
  let* pg := call (agent_tools_parent_write_guard_blocks actual_path None) in
  if pg : bool
  then safe_strdup "error: write blocked: parent worktree is read-only for delegates" else
  if negb (text_is_valid_utf8 content)
  then safe_strdup "error: content is not valid UTF-8; refusing text-file write" else
  let* ws := call workspace_provider_active in
  let* (st_exists, st_size) := call (ws_stat actual_path) in
  let* old :=
    if st_exists && (0 <Z st_size) && (st_size <Z one_mib)
    then call (ws_read_all actual_path) else Ret None in
  let old := cstr <$> old in
  let* ok := call (ws_write_all actual_path content) in
  if negb ok then safe_strdup (snprintf 512 ("error: cannot write " +:+ actual_path)) else
  match diff_compute old content with
  | Some dr =>
      if diff_changed dr then print_or "error: out of memory" (diff_payload actual_path old content dr)
      else safe_strdup "ok"
  | None => safe_strdup "ok"
  end
  end.

(** ** append_write_slop_advisory *)

Definition slop_item (f : slop_finding_t) : json :=
  cJSON_AddStringToObject
    (cJSON_AddStringToObject
       (cJSON_AddNumberToObject cJSON_CreateObject "line" (sf_line_number f))
       "category" (sf_category_label f)) "excerpt" (sf_excerpt f).

Definition append_write_slop_advisory (result : option string) (slop : list slop_finding_t) :
    tool (option string) :=
  match result with
  | None => Ret None
  | Some result =>
      if length slop <=b 0 then safe_strdup result
      else
        match cJSON_Parse result with
        | Some json =>
            if cJSON_IsObject json then
              let arr :=
                fold_left cJSON_AddItemToArray (map slop_item slop) cJSON_CreateArray in
              print_or result (cJSON_AddItemToObject json "slop_advisory" arr)
            else
              let '(wpos, warn_buf) := slop_warning slop in
              let* ok := call (malloc (strlen result + wpos + 1)) in
              safe_strdup (if ok then result +:+ warn_buf else result)
        | None =>
            let '(wpos, warn_buf) := slop_warning slop in
            let* ok := call (malloc (strlen result + wpos + 1)) in
            safe_strdup (if ok then result +:+ warn_buf else result)
        end
  end.

(** ** tool_list_files *)

Definition ws_kind_value (k : ws_kind) : Z :=
  match k with
  | WS_PROVIDER_SHARED => 0
  | WS_PROVIDER_DETACHED => 1
  | WS_PROVIDER_MIRROR => 2
  | WS_PROVIDER_CONTAINER => 3
  end.

Definition list_render (entries : list string) : tool (option string) :=
  let* buf_size := agent_tool_output_cap in
  let* ok := call (malloc (buf_size + 1)) in
  if negb ok then oom
  else safe_strdup (list_fill entries 0 AGENT_MAX_LIST_FILES buf_size "").

Definition tool_list_files (path : string) (pattern : option string) : tool (option string) :=
  if contains (or_else pattern "") ".."
  then safe_strdup "error: pattern must not contain '..'" else
  let* (actual_path, _) := path_in_thread_cwd path MAX_PATH_LEN in
  let* (err, resolved) := call (guardrails_validate_file_path actual_path) in
  match err with
  | Some err => safe_strdup err
  | None =>
      let* ws := call workspace_provider_active in
      let* entries := call (ws_list actual_path pattern) in
      match entries with
      | None =>
          let k := match ws with Some ws => ws_kind_value (kind ws) | None => 0%Z end in
          let* _ := call (aimee_log
            ("list_files: provider list failed (ws_kind=" +:+ fmt_d k +:+ " path='" +:+ actual_path
             +:+ "' pattern='" +:+ or_else pattern "" +:+ "')")) in
          safe_strdup "error: glob failed"
      | Some entries =>
          if (length entries =? 0) && starts_with "**/" (or_else pattern "") then
            let* entries := call (ws_list actual_path (Some (sdrop 3 (or_else pattern "")))) in
            match entries with
            | None => safe_strdup "error: glob failed"
            | Some entries => list_render entries
            end
          else list_render entries
      end
  end.

(** ** tool_edit_file *)

Definition edit_limit : Z := (8 * 1024 * 1024)%Z.

Definition not_found_text : string :=
  "error: old_string not found in file; read the file and copy the exact "
  +:+ "text (including whitespace and indentation) into old_string".

Definition ambiguous_text (count : nat) : string :=
  snprintf 256
    ("error: old_string occurs " +:+ fmt_u count
     +:+ " times; add surrounding context to make it unique, "
     +:+ "or set replace_all=true to replace every occurrence").

(** The reads the two editors share: the content, or the error text. *)
Definition read_for_edit (actual_path : string) : tool (string + string) :=
  let* ws := call workspace_provider_active in
  let* (st_exists, st_size) := call (ws_stat actual_path) in
  if negb st_exists then Ret (inl (snprintf 512 ("error: cannot open " +:+ actual_path)))
  else if (edit_limit <=Z st_size)
  then Ret (inl "error: file too large to edit (limit 8MB); use write_file instead")
  else
    let* content := call (ws_read_all actual_path) in
    match content with
    | None => Ret (inl (snprintf 512 ("error: cannot open " +:+ actual_path)))
    | Some content => Ret (inr content)
    end.

Definition tool_edit_file (path old_string : string) (new_string : option string)
    (replace_all : bool) : tool (option string) :=
  if path == "" then safe_strdup "error: missing 'path' parameter" else
  if old_string == "" then safe_strdup "error: missing or empty 'old_string' parameter" else
  let new_string := or_else new_string "" in
  let* ro := call agent_tools_readonly_delegate_blocks in
  if ro : bool
  then safe_strdup "error: write blocked: read-only delegate (not write-capable)" else
  let* (actual_path, _) := path_in_thread_cwd path MAX_PATH_LEN in
  let* read := read_for_edit actual_path in
  match read with
  | inl err => safe_strdup err
  | inr content =>
      let content := cstr content in
      let count := count_occurrences content old_string in
      if count =? 0 then safe_strdup not_found_text
      else if (1 <b count) && negb replace_all then safe_strdup (ambiguous_text count)
      else
        let reps := if replace_all then count else 1 in
        let* ok := call (malloc (Z.to_nat (replace_alloc content old_string new_string reps))) in
        if negb ok then oom
        else tool_write_file path (replace_occurrences content old_string new_string reps)
  end.

(** ** tool_edit_file_anchored *)

Definition EDIT_LARGE_SPAN_LINES : Z := 8.

Definition expired_payload (actual_path : string) : json :=
  let o := cJSON_AddStringToObject cJSON_CreateObject "status" "snapshot_expired" in
  let o := cJSON_AddStringToObject o "path" actual_path in
  cJSON_AddStringToObject o "hint"
    ("snapshot_id unknown or evicted; re-read the file to mint a fresh "
     +:+ "snapshot, then retry the edits against it").

(** The span of one edit, an [int]: [None] when the loop skips it. *)
Definition edit_span (e : json) : option Z :=
  op ← get_string e "op";
  if (op == "replace_range") || (op == "delete_range") then
    from ← get_string e "from";
    to ← get_string e "to";
    fo ← anchor_parse from;
    to_ord ← anchor_parse to;
    Some (wrap32 (wrap32 (to_ord - fo) + 1))
  else None.

Definition max_span (edits : option json) : Z :=
  match edits with
  | Some edits =>
      if cJSON_IsArray edits
      then fold_left (fun m e => match edit_span e with Some s => Z.max m s | None => m end)
             (children edits) 0%Z
      else 0%Z
  | None => 0%Z
  end.

Definition large_span_advice : string :=
  "large multi-line rewrite: for a whole function/type prefer edit_symbol "
  +:+ "(the server resolves the span from the symbol name) over a hand-built "
  +:+ "replace_range — small models anchor multi-line ranges unreliably.".

(** The advisory added to the result of a large anchored rewrite. *)
Definition span_advisory (edits : option json) (result : option string) : option string :=
  match result with
  | None => None
  | Some r =>
      if negb (starts_with "error:" r) && negb (contains r (jt "'status':'stale_anchor'"))
         && (EDIT_LARGE_SPAN_LINES <=Z max_span edits) then
        match cJSON_Parse r with
        | Some rj =>
            match cJSON_PrintUnformatted (cJSON_AddStringToObject rj "advisory" large_span_advice)
            with
            | Some aug => Some aug
            | None => Some r
            end
        | None => Some r
        end
      else Some r
  end.

(** The preview of [dry_run]. *)
Definition dry_run_payload (path actual_path content new_text : string)
    (cwd_path : option string) : tool (option string) :=
  let payload := cJSON_AddStringToObject cJSON_CreateObject "status" "dry_run" in
  let payload := cJSON_AddStringToObject payload "path" actual_path in
  let payload :=
    match diff_compute (Some content) new_text with
    | Some dr =>
        let unified := diff_format_unified (Some content) new_text dr in
        let payload :=
          cJSON_AddStringToObject payload "summary"
            (or_else (diff_format_summary dr) "no change") in
        let payload := cJSON_AddItemToObject payload "diff" (diff_result_to_json dr) in
        if nonempty unified
        then cJSON_AddStringToObject payload "unified_diff" (or_else unified "") else payload
    | None => payload
    end in
  let abs_path := normalize_path path (Some (or_else cwd_path indeterminate)) in
  let* br := call (guardrails_blast_radius_for_abs_path abs_path) in
  let blast := br ≫= fun br => blast_radius_advisory_format br abs_path in
  print_or "error: out of memory"
    (match blast with
     | Some b => cJSON_AddStringToObject payload "blast_radius" b
     | None => payload
     end).

(** A rejected plan: the payload with a fresh snapshot over the current bytes. *)
Definition rejection (actual_path content : string) (reject : option json) : tool (option string) :=
  let* (verr, resolved) := call (guardrails_validate_file_path actual_path) in
  let* fresh :=
    match verr with
    | None => call (anchor_snapshot_create resolved content)
    | Some _ => Ret None
    end in
  match reject with
  | None => oom (* cJSON_PrintUnformatted(NULL) is NULL *)
  | Some reject =>
      let reject :=
        match fresh with
        | Some fresh => cJSON_AddStringToObject reject "snapshot_id" fresh
        | None => reject
        end in
      print_or "error: out of memory" (cJSON_AddStringToObject reject "path" actual_path)
  end.

Definition tool_edit_file_anchored (path snapshot_id : string) (edits : option json)
    (dry_run : bool) : tool (option string) :=
  if path == "" then safe_strdup "error: missing 'path' parameter" else
  if snapshot_id == ""
  then safe_strdup "error: missing 'snapshot_id'; read the file first to obtain one" else
  let* (actual_path, cwd_path) := path_in_thread_cwd path MAX_PATH_LEN in
  let* read := read_for_edit actual_path in
  match read with
  | inl err => safe_strdup err
  | inr content =>
      let* snap := call (anchor_snapshot_get_copy snapshot_id) in
      match snap with
      | None => print_or "error: out of memory" (expired_payload actual_path)
      | Some snap =>
          match edit_anchored_plan content snap edits with
          | inl reject => rejection actual_path content reject
          | inr new_text =>
              if dry_run : bool
              then dry_run_payload path actual_path (cstr content) new_text cwd_path
              else
                let* result := tool_write_file path new_text in
                Ret (span_advisory edits result)
          end
      end
  end.
End FileTools.
