(* ===== verification/QueryTools.v ===== *)
(** The query tools of [agent_tools.c]: checks, searches, git queries,
    environment variables, code search and notes. *)
From S2P Require Import Prelude CStr Ext Prog Json Host TextOps FileTools.
Local Open Scope tools_scope.

Section QueryTools.
Context {E : Ext} {J : CJson} {L : Lib J}.

(** ** tool_verify *)

(** The scheme, port and rest of an URL. *)
Definition url_scheme (url : string) : option (bool * Z * string) :=
  if starts_with "https://" url then Some (true, 443%Z, sdrop 8 url)
  else if starts_with "http://" url then Some (false, 80%Z, sdrop 7 url)
  else None.

(** The host, the port and the path of what follows the scheme. *)
Definition url_parts (p : string) (port : Z) : option (string * Z * string) :=
  let slash := strchr p "/" in
  let colon := strchr p ":" in
  let colon_first :=
    match colon, slash with
    | Some c, Some s => c <b s
    | Some _, None => true
    | None, _ => false
    end in
  let '(hostlen, port) :=
    match colon with
    | Some c => if colon_first then (c, atoi (sdrop (S c) p))
                else (match slash with Some s => s | None => strlen p end, port)
    | None => (match slash with Some s => s | None => strlen p end, port)
    end in
  if (hostlen =? 0) || (256 <=b hostlen) then None
  else Some (stake hostlen p, port,
             snprintf 2048 (match slash with Some s => sdrop s p | None => "/" end)).

Definition crlf : string := String CR nl.

Definition RESP_BUF : nat := 4096.

(** The read loop of the status line: [resp] holds the [rlen] bytes read. *)
Fixpoint head_read (fuel : nat) (tls : bool) (resp : string) : tool string :=
  match fuel with
  | 0 => Ret resp
  | S fuel =>
      if strlen resp <b RESP_BUF - 1 then
        let cap := RESP_BUF - 1 - strlen resp in
        let* got := call (http_read tls cap) in
        let got := stake cap got in
        if got == "" then Ret resp
        else
          let resp := resp +:+ got in
          if contains (cstr resp) crlf then Ret resp else head_read fuel tls resp
      else Ret resp
  end.

Definition status_code (resp : string) : Z :=
  if (strlen resp <b 12) || negb (starts_with "HTTP/1.0" resp || starts_with "HTTP/1.1" resp)
  then (-1)%Z
  else
    let code := atoi (cstr (sdrop 9 resp)) in
    if (100 <=Z code) && (code <=Z 999) then code else (-1)%Z.

Definition http_head_status (url : string) : tool Z :=
  match url_scheme url with
  | None => Ret (-1)%Z
  | Some (use_ssl, port, p) =>
      match url_parts p port with
      | None => Ret (-1)%Z
      | Some (host, port, path) =>
          let* fd := call (socket_connect host (snprintf 16 (fmt_d port)) 5000) in
          if (fd <Z 0) then Ret (-1)%Z else
          let* ok := call socket_set_timeouts in
          if negb ok then Ret (-1)%Z else
          let* ready :=
            if use_ssl : bool then
              let* ctx := call tls_client_context in
              if negb ctx then Ret false else
              let* ssl := call (tls_client_session_new host) in
              if negb ssl then Ret false else call tls_handshake_client
            else Ret true in
          if negb ready then Ret (-1)%Z else
          let req := "HEAD " +:+ path +:+ " HTTP/1.1" +:+ crlf +:+ "Host: " +:+ host +:+ crlf
                     +:+ "Connection: close" +:+ crlf +:+ crlf in
          if 4096 <=b strlen req then Ret (-1)%Z else
          let* sent := call (http_write_all use_ssl req) in
          if negb sent then Ret (-1)%Z else
          let* resp := head_read RESP_BUF use_ssl "" in
          Ret (status_code resp)
      end
  end.

Definition verdict (pass : bool) : json := cJSON_AddBoolToObject cJSON_CreateObject "pass" pass.
Definition failed (reason : string) : json :=
  cJSON_AddStringToObject (verdict false) "reason" reason.

Definition verify_http (target : string) (expected : option string) : tool json :=
  let* code := http_head_status target in
  if (code <Z 0) then Ret (failed "HTTP request failed")
  else
    let status := snprintf 16 (fmt_d code) in
    let pass :=
      match expected with
      | Some e => status == e
      | None => Ascii.eqb (char_at 0 status) "2"
      end in
    Ret (cJSON_AddStringToObject
           (cJSON_AddStringToObject (verdict pass) "actual" status)
           "expected" (or_else expected "2xx")).

Definition verify_file (target : string) (expected : option string) : tool json :=
  let* (verr, resolved) := call (guardrails_validate_file_path target) in
  match verr with
  | Some verr => Ret (failed verr)
  | None =>
      let* f := call (fopen_read target AGENT_TOOL_OUTPUT_MAX) in
      match f with
      | None => Ret (failed "file not found")
      | Some data =>
          let pass :=
            match expected with
            | Some e => contains (cstr (stake AGENT_TOOL_OUTPUT_MAX data)) e
            | None => false
            end in
          Ret (if pass then verdict true else failed "string not found in file")
      end
  end.

Definition verify_command (target : string) : tool json :=
  let* root := call agent_tools_parent_write_guard_root in
  match root with
  | Some _ => Ret (failed "command_succeeds is blocked while the parent worktree is read-only")
  | None =>
      if has_shell_metachar target then Ret (failed "command contains shell metacharacters")
      else
        let tokens := shlex_split target 64 in
        if length tokens <=b 0 then Ret (failed "empty command")
        else
          let* cap := agent_tool_output_cap in
          let* (rc, output) := call (safe_exec_capture tokens cap) in
          Ret (cJSON_AddNumberToObject (verdict (rc =? 0)%Z) "exit_code" rc)
  end.

Definition tool_verify (check_type target : string) (expected : option string) :
    tool (option string) :=
  let* result :=
    if check_type == "http_status" then verify_http target expected
    else if check_type == "file_contains" then verify_file target expected
    else if check_type == "command_succeeds" then verify_command target
    else Ret (failed "unknown check_type") in
  Ret (cJSON_PrintUnformatted result).

(** ** tool_grep and the git queries *)

Definition clamp_results (max_results : Z) : Z :=
  let m := if (max_results <=Z 0) then 50%Z else max_results in
  if (200 <Z m) then 200%Z else m.

Definition grep_argv (max_str pattern path : string) : list string :=
  ["grep"; "--binary-files=without-match"; "-rn"; "--exclude-dir=.git"; "--exclude-dir=.aimee";
   "--exclude-dir=build"; "--exclude-dir=dist"; "--exclude-dir=node_modules"; "-m"; max_str; "--";
   pattern; path].

Definition tool_grep (path pattern : option string) (max_results : Z) : tool (option string) :=
  match path, pattern with
  | Some path, Some pattern =>
      let max_results := clamp_results max_results in
      let* (actual_path, _) := path_in_thread_cwd path MAX_PATH_LEN in
      let* (verr, resolved) := call (guardrails_validate_file_path actual_path) in
      match verr with
      | Some verr => safe_strdup verr
      | None =>
          let* st := call (stat actual_path) in
          match st with
          | None => safe_strdup "error: path does not exist"
          | Some _ =>
              let* cap := agent_tool_output_cap in
              let* (rc, output) :=
                call (safe_exec_capture
                  (grep_argv (snprintf 16 (fmt_d max_results)) pattern actual_path) cap) in
              if negb (rc =? 0)%Z && negb (rc =? 1)%Z && negb (nonempty output)
              then safe_strdup "no matches found"
              else Ret (Some (or_else output "no matches found"))
          end
      end
  | _, _ => safe_strdup "error: missing path or pattern"
  end.

Definition is_dir (st : option st_type) : bool :=
  match st with Some ST_DIR => true | _ => false end.

(** What the git tools make of the exit status and the output. *)
Definition git_output (err : string) (rc : Z) (output : option string) : tool (option string) :=
  if negb (rc =? 0)%Z && negb (nonempty output) then safe_strdup err
  else Ret (Some (or_else output "")).

Definition tool_git_diff (repo_path ref : option string) : tool (option string) :=
  match repo_path with
  | None => safe_strdup "error: missing repo path"
  | Some repo_path =>
      let* (actual_path, _) := path_in_thread_cwd repo_path MAX_PATH_LEN in
      let* st := call (stat actual_path) in
      if negb (is_dir st) then safe_strdup "error: repo path is not a directory" else
      let argv :=
        ["git"; "-C"; actual_path; "diff"]
        ++ (if nonempty ref then [or_else ref ""] else []) in
      let* ws := call workspace_provider_active in
      let* cap := agent_tool_output_cap in
      let* (rc, output) := call (ws_exec argv cap) in
      git_output "error: git diff failed" rc output
  end.

Definition tool_git_status (repo_path : option string) : tool (option string) :=
  match repo_path with
  | None => safe_strdup "error: missing repo path"
  | Some repo_path =>
      let* (actual_path, _) := path_in_thread_cwd repo_path MAX_PATH_LEN in
      let* st := call (stat actual_path) in
      if negb (is_dir st) then safe_strdup "error: repo path is not a directory" else
      let* ws := call workspace_provider_active in
      let* cap := agent_tool_output_cap in
      let* (rc, output) := call (ws_exec ["git"; "-C"; actual_path; "status"; "--porcelain"] cap) in
      git_output "error: git status failed" rc output
  end.

Definition clamp_log (count : Z) : Z :=
  let c := if (count <=Z 0) then 10%Z else count in
  if (50 <Z c) then 50%Z else c.

Definition tool_git_log (repo_path : string) (count : Z) : tool (option string) :=
  let count := clamp_log count in
  let* (actual_path, _) := path_in_thread_cwd repo_path MAX_PATH_LEN in
  let* st := call (stat actual_path) in
  if negb (is_dir st) then safe_strdup "error: repo path is not a directory" else
  let* cap := agent_tool_output_cap in
  let* (rc, output) :=
    call (safe_exec_capture
      ["git"; "-C"; actual_path; "log"; "--oneline"; "-n"; snprintf 16 (fmt_d count)] cap) in
  git_output "error: git log failed" rc output.

(** ** tool_env_get *)

Fixpoint env_name_ok (s : string) : bool :=
  match s with
  | "" => true
  | String c r => (isalnum c || Ascii.eqb c "_") && env_name_ok r
  end.

Definition tool_env_get (name : option string) : tool (option string) :=
  if negb (nonempty name) then safe_strdup "error: missing variable name" else
  let name := or_else name "" in
  if negb (env_name_ok name) then safe_strdup "error: invalid variable name" else
  let* val := call (getenv name) in
  Ret (Some (or_else val "(not set)")).

(** ** tool_test *)

Definition type_name (t : st_type) : string :=
  match t with
  | ST_DIR => "directory"
  | ST_LNK => "symlink"
  | ST_REG => "file"
  | ST_OTHER => "other"
  end.

Definition tool_test (path check : option string) : tool (option string) :=
  match path with
  | None => safe_strdup (jt "{'pass':false,'reason':'missing path'}")
  | Some path =>
      let check := or_else check "exists" in
      let* (actual_path, _) := path_in_thread_cwd path MAX_PATH_LEN in
      let* st := call (lstat actual_path) in
      let* result :=
        if check == "exists" then
          Ret (match st with
               | Some (t, size) =>
                   cJSON_AddNumberToObject
                     (cJSON_AddStringToObject (verdict true) "type" (type_name t)) "size" size
               | None => verdict false
               end)
        else if check == "is_file" then
          Ret (verdict (match st with Some (ST_REG, _) => true | _ => false end))
        else if check == "is_dir" then
          Ret (verdict (match st with Some (ST_DIR, _) => true | _ => false end))
        else if check == "readable" then
          let* ok := call (access actual_path R_OK) in Ret (verdict ok)
        else if check == "writable" then
          let* ok := call (access actual_path W_OK) in Ret (verdict ok)
        else if check == "executable" then
          let* ok := call (access actual_path X_OK) in Ret (verdict ok)
        else Ret (failed "unknown check type") in
      Ret (cJSON_PrintUnformatted result)
  end.

(** ** tool_request_input *)

Definition tool_request_input (question : option string) : tool (option string) :=
  if negb (nonempty question) then safe_strdup "error: missing question" else
  let* reply := call (delegation_request_input (or_else question "")) in
  Ret (Some (or_else reply
    "error: request_input is only available during delegated execution")).

(** ** tool_code_search *)

Fixpoint code_hits (arr : json) (hits : list code_hit_t) : tool json :=
  match hits with
  | [] => Ret arr
  | hit :: hits =>
      let h := cJSON_AddStringToObject cJSON_CreateObject "project" (ch_project hit) in
      let h := cJSON_AddStringToObject h "file" (ch_file_path hit) in
      let h := cJSON_AddStringToObject h "snippet" (ch_snippet hit) in
      let h := cJSON_AddNumberToObject h "rank" (ch_rank hit) in
      let* h := call (agent_source_add_index_freshness h (ch_project hit) (ch_file_path hit)) in
      code_hits (cJSON_AddItemToArray arr h) hits
  end.

Definition tool_code_search (query project : option string) (max_results : Z) :
    tool (option string) :=
  if negb (nonempty query) then safe_strdup "error: missing query" else
  let query := or_else query "" in
  let max_results := clamp_results max_results in
  let* ok := call (calloc (Z.to_nat max_results)) in
  if negb ok then oom else
  let* (overlay_count, arr) :=
    call (agent_source_append_overlay_code_hits cJSON_CreateArray query project max_results) in
  let remaining := (max_results - overlay_count)%Z in
  let* hits :=
    if (0 <Z remaining) then call (kb_client_index_code_search query project remaining)
    else Ret [] in
  let* arr := code_hits arr hits in
  print_or "[]" arr.

(** ** Notes *)

Definition NOTES_BUF : nat := Z.to_nat 8192.

Definition note_row (include_content : bool) (n : json) : string :=
  let title := or_else (get_string_cs n "title") "" in
  let tags := or_else (get_string_cs n "tags") "" in
  let updated := or_else (get_string_cs n "updated_at") "" in
  if include_content
  then "### " +:+ title +:+ nl +:+ "Tags: " +:+ tags +:+ " | Updated: " +:+ updated +:+ nl +:+ nl
       +:+ or_else (get_string_cs n "content") "" +:+ nl +:+ nl +:+ "---" +:+ nl +:+ nl
  else "- " +:+ title +:+ " [" +:+ tags +:+ "] (updated: " +:+ updated +:+ ")" +:+ nl.

(** The loop over the notes: [pos] adds up the [snprintf] results, [buf] is what
    the buffer holds. *)
Fixpoint note_rows (include_content : bool) (notes : list json) (pos : nat) (buf : string) : string :=
  match notes with
  | [] => buf
  | n :: r =>
      if NOTES_BUF - 1024 <=b pos then buf
      else
        let row := note_row include_content n in
        note_rows include_content r (pos + strlen row) (buf +:+ snprintf (NOTES_BUF - pos) row)
  end.

(** [prefix] is the text the format [prefix] gives for the number of notes. *)
Definition render_notes_json_to_text (json : option string) (empty_msg : string)
    (include_content : bool) (prefix : Z -> string) : string :=
  match json with
  | None => "error: knowledge service unavailable for notes"
  | Some json =>
      match cJSON_Parse json with
      | None => "error: invalid response from knowledge service"
      | Some resp =>
          if negb (or_else (get_string_cs resp "status") "" == "ok") then
            snprintf 256 ("error: " +:+ or_else (get_string_cs resp "message") "notes lookup failed")
          else
            let notes :=
              match cJSON_GetObjectItemCaseSensitive resp "notes" with
              | Some a => if cJSON_IsArray a then children a else []
              | None => []
              end in
            if length notes =? 0 then empty_msg
            else
              let head := prefix (Z.of_nat (length notes)) in
              note_rows include_content notes (strlen head) (snprintf NOTES_BUF head)
      end
  end.

Definition tool_create_note (title content tags : option string) : tool (option string) :=
  if negb (nonempty title) then safe_strdup "error: missing 'title'" else
  if negb (nonempty content) then safe_strdup "error: missing 'content'" else
  let* json :=
    call (kb_client_note_create_json (or_else title "") (or_else content "") tags "delegate") in
  match json with
  | None => safe_strdup "error: knowledge service unavailable for note create"
  | Some json =>
      match cJSON_Parse json with
      | None => safe_strdup "error: invalid response from knowledge service"
      | Some resp =>
          if negb (or_else (get_string_cs resp "status") "" == "ok") then
            safe_strdup (snprintf 256
              ("error: failed to create note: "
               +:+ or_else (get_string_cs resp "message") "unknown"))
          else
            let note := cJSON_GetObjectItemCaseSensitive resp "note" in
            let nt := note ≫= fun n => get_string_cs n "title" in
            let slug := note ≫= fun n => get_string_cs n "slug" in
            let id := note ≫= fun n => cJSON_GetObjectItemCaseSensitive n "id" ≫= long_value in
            safe_strdup (snprintf 512
              ("Note saved: " +:+ or_else nt "" +:+ " (slug: " +:+ or_else slug "" +:+ ", id: "
               +:+ fmt_d (default 0%Z id) +:+ ")"))
      end
  end.

Definition tool_list_notes (tag : option string) (limit : Z) : tool (option string) :=
  let limit := if (limit <=Z 0) || (20 <Z limit) then 20%Z else limit in
  let* json := call (kb_client_note_list_json (if nonempty tag then tag else None) limit) in
  safe_strdup (render_notes_json_to_text json "No investigation notes found." false
    (fun n => "Investigation notes (" +:+ fmt_d n +:+ "):" +:+ nl +:+ nl)).

Definition tool_search_notes (query : option string) : tool (option string) :=
  if negb (nonempty query) then safe_strdup "error: missing 'query'" else
  let* json := call (kb_client_note_search_json (or_else query "") 10) in
  safe_strdup (render_notes_json_to_text json
    (snprintf 256 ("No notes matching '" +:+ or_else query "" +:+ "'.")) true
    (fun n => "Found " +:+ fmt_d n +:+ " note(s):" +:+ nl +:+ nl)).
End QueryTools.
