(* ===== verification/BashTool.v ===== *)
(** The shell tool ([tool_bash] of [agent_tools.c], lines 49-148 and 317-1139).

    The parent's part is [tool_bash]; what a forked child does before and instead
    of the shell is [readonly_child] and [workspace_child], over the validators
    of [CmdGuard].  Closing descriptors, [setpgid] and [dup2] have no effect on
    the results and are left out; the guard's roots are thread-locals that the
    call only reads, read once.  [fuel] bounds the [select] loop: the loop's
    result is [None] when it runs out, which [poll_loop_ends] excludes for a
    clock that reaches the deadline. *)
From S2P Require Import Prelude CStr Ext CmdGuard Prog Json Host TextOps FileTools.
Local Open Scope tools_scope.

Section BashTool.
Context {E : Ext} {J : CJson} {L : Lib J}.

(** ** Cancellation *)

(** [agent_delegation_stop_requested(buf, bufsz)] of [agent_tools_dispatch.c]:
    the text written to [buf] when the result is 1. *)
Definition agent_delegation_stop_requested (bufsz : nat) : tool (option string) :=
  if negb linked_spawn_stop_reason then Ret None else
  let* delegation_id := call delegation_active_id in
  match delegation_id with
  | Some (String _ _ as id) =>
      let* (rc, reason) := call (db1_delegation_spawn_stop_reason id) in
      if (rc =? 1)%Z then
        Ret (Some (snprintf bufsz
          ("error: delegate " +:+ snprintf 32 reason +:+ " (" +:+ id +:+ ") before tool execution")))
      else Ret None
  | _ => Ret None
  end.

Definition job_cancelled : tool (option Z) :=
  let* job_id :=
    if linked_durable_job_id : bool then call agent_get_durable_job_id else Ret 0%Z in
  if (0 <Z job_id) && linked_job_is_cancelled then
    let* c := call (db1_agent_job_is_cancelled job_id) in
    Ret (if c : bool then Some job_id else None)
  else Ret None.

Definition bash_delegate_cancel_requested : tool bool :=
  let* job := job_cancelled in
  match job with
  | Some _ => Ret true
  | None =>
      let* stop := agent_delegation_stop_requested 0 in
      Ret (match stop with Some _ => true | None => false end)
  end.

(** ** PATH of the children *)

Definition bash_prepend_path_dir (buf : string) (buf_len : nat) (dir : string) : tool string :=
  if (buf_len =? 0) || (dir == "") || bash_path_has_dir buf dir then Ret buf
  else
    let candidate := dir +:+ "/aimee" in
    if MAX_PATH_LEN <=b strlen candidate then Ret buf
    else
      let* ok := call (access candidate X_OK) in
      if negb ok then Ret buf
      else
        let old := snprintf (Z.to_nat 8192) buf in
        Ret (snprintf buf_len (if old == "" then dir else dir +:+ ":" +:+ old)).

Definition PATH_BUF : nat := Z.to_nat 8192.

Definition bash_prepare_child_path : tool unit :=
  let* old_path := call (getenv "PATH") in
  let path_buf := snprintf PATH_BUF (or_else old_path "") in
  let* path_buf := bash_prepend_path_dir path_buf PATH_BUF "/usr/local/bin" in
  let* home := call (getenv "HOME") in
  let* path_buf :=
    if nonempty home then
      let local_bin := or_else home "" +:+ "/.local/bin" in
      if strlen local_bin <b MAX_PATH_LEN then bash_prepend_path_dir path_buf PATH_BUF local_bin
      else Ret path_buf
    else Ret path_buf in
  let* exe := call (readlink_self (MAX_PATH_LEN - 1)) in
  let* path_buf :=
    match exe with
    | Some (String _ _ as exe) =>
        match strrchr (cstr exe) "/" with
        | Some (S k) => bash_prepend_path_dir path_buf PATH_BUF (stake (S k) (cstr exe))
        | _ => Ret path_buf
        end
    | _ => Ret path_buf
    end in
  if path_buf == "" then Ret tt else call (setenv "PATH" path_buf).

(** ** The children of the guarded executors *)

Definition exit_of (w : wait_status) : Z :=
  match w with
  | W_EXITED code => code
  | W_SIGNALED sig => (128 + sig)%Z
  | W_UNKNOWN | W_FAILED => 127%Z
  end.

(** Command [i] of a chain. *)
Definition command (tokens : list string) (c : chain) (i : nat) : list string :=
  segment tokens (default 0 (c_starts c !! i)) (default 0 (c_counts c !! i)).

Definition operator (c : chain) (i : nat) : string := or_else (mjoin (c_ops c !! i)) "".

(** The forking loop of the pipeline: the pids, or [None] for the early 127. *)
Fixpoint pipeline_fork (cmds : list (list string)) (workspace : option string)
    (stdin_pipe : bool) (pids : list Z) : tool (option (list Z)) :=
  match cmds with
  | [] => Ret (Some pids)
  | argv :: rest =>
      let is_last := match rest with [] => true | _ => false end in
      let* ok := if is_last then Ret true else call pipe in
      if negb ok then Ret None
      else if default "" (head argv) == "cd" then Ret None
      else
        let dir := if nonempty workspace then workspace else None in
        let* pid := call (fork_exec argv dir stdin_pipe (negb is_last)) in
        if (pid <Z 0) then Ret None
        else pipeline_fork rest workspace (negb is_last) (pids ++ [pid])
  end.

Fixpoint wait_all (pids : list Z) (last_rc : Z) : tool Z :=
  match pids with
  | [] => Ret last_rc
  | pid :: pids =>
      let* w := call (waitpid pid) in
      wait_all pids (exit_of w)
  end.

Definition bash_exec_readonly_pipeline (tokens : list string) (c : chain)
    (first_command last_command : nat) (workspace : option string) : tool Z :=
  let cmds := map (command tokens c) (seq first_command (last_command - first_command + 1)) in
  let* pids := pipeline_fork cmds workspace false [] in
  match pids with
  | None => Ret 127%Z
  | Some pids => wait_all pids 0
  end.

Definition bash_exec_readonly_segment (argv : list string) (workspace : option string) : tool Z :=
  let dir := if nonempty workspace then workspace else None in
  let* pid := call (fork_exec argv dir false false) in
  if (pid <Z 0) then Ret 127%Z
  else
    let* w := call (waitpid pid) in
    Ret (exit_of w).

(** [write_root]: the guard's write root. *)
Definition bash_exec_readonly_cd (write_root : option string) (argv : list string)
    (workspace : option string) : tool Z :=
  match argv with
  | [t0; t1] =>
      if (t0 == "cd") && bash_path_under_guard_write_root write_root t1 workspace then
        let* ok := call (chdir t1) in
        Ret (if ok then 0 else 1)%Z
      else Ret (-1)%Z
  | _ => Ret (-1)%Z
  end.

(** [while (pipe_end + 1 < n && operators[pipe_end + 1] is "|") pipe_end++]. *)
Fixpoint find_pipe_end (fuel : nat) (c : chain) (n pipe_end : nat) : nat :=
  match fuel with
  | 0 => pipe_end
  | S fuel =>
      if (pipe_end + 1 <b n) && (operator c (pipe_end + 1) == "|")
      then find_pipe_end fuel c n (S pipe_end) else pipe_end
  end.

(** The [for] loop over the commands of a read-only chain, from command [i]. *)
Fixpoint readonly_loop (fuel : nat) (write_root : option string) (tokens : list string)
    (c : chain) (workspace : option string) (i : nat) (last_rc : Z) : tool Z :=
  match fuel with
  | 0 => Ret last_rc
  | S fuel =>
      let n := length (c_starts c) in
      if n <=b i then Ret last_rc
      else if (0 <b i) && (operator c i == "&&") && negb (last_rc =? 0)%Z
      then readonly_loop fuel write_root tokens c workspace (S i) last_rc
      else
        let pipe_end := find_pipe_end n c n i in
        if i <b pipe_end then
          let* rc := bash_exec_readonly_pipeline tokens c i pipe_end workspace in
          readonly_loop fuel write_root tokens c workspace (S pipe_end) rc
        else
          let* rc := bash_exec_readonly_cd write_root (command tokens c i) workspace in
          let* rc :=
            if (rc <Z 0) then bash_exec_readonly_segment (command tokens c i) None else Ret rc in
          readonly_loop fuel write_root tokens c workspace (S i) rc
  end.

(** The status [_exit(rc)] leaves: the low byte. *)
Definition exit_status (rc : Z) : Z := Z.land rc 255.

(** The child of [guarded_readonly_exec]: its exit status. *)
Definition readonly_child (write_root : option string) (tokens : list string) (c : chain)
    (workspace : option string) : tool Z :=
  let* _ := bash_prepare_child_path in
  let* _ := if nonempty workspace then call (chdir (or_else workspace "")) else Ret true in
  if length (c_starts c) =? 1 then
    let argv := command tokens c 0 in
    if (length argv =? 2) && (default "" (head argv) == "cd")
    then
      let* rc := bash_exec_readonly_cd write_root argv workspace in
      Ret (exit_status rc)
    else
      let* _ := call (execvp argv) in
      Ret 127%Z
  else
    let* rc := readonly_loop (length (c_starts c)) write_root tokens c workspace 0 0 in
    Ret (exit_status rc).

(** The loop of the child of [guarded_workspace_exec]. *)
Fixpoint workspace_loop (tokens : list string) (c : chain) (idx : list nat) (last_rc : Z) : tool Z :=
  match idx with
  | [] => Ret last_rc
  | i :: idx =>
      if (0 <b i) && (operator c i == "&&") && negb (last_rc =? 0)%Z
      then workspace_loop tokens c idx last_rc
      else
        let* rc := bash_exec_readonly_segment (command tokens c i) None in
        workspace_loop tokens c idx rc
  end.

Definition workspace_child (tokens : list string) (c : chain) (workspace : option string) :
    tool Z :=
  let* _ := if nonempty workspace then call (chdir (or_else workspace "")) else Ret true in
  let* _ := bash_prepare_child_path in
  let* rc := workspace_loop tokens c (seq 0 (length (c_starts c))) 0 in
  Ret (exit_status rc).

(** ** The guarded executors: the pid and the text of [errbuf] (256 bytes) *)

Definition guarded_readonly_exec (write_root : option string) (command : string)
    (workspace : option string) : tool (Z * string) :=
  let tokens := shlex_split command 64 in
  if length tokens =? 0 then Ret ((-1)%Z, "empty command")
  else
    let chain :=
      if length tokens <b 64 then bash_readonly_chain_validate write_root tokens 32 workspace
      else None in
    match chain with
    | None => Ret ((-1)%Z, "command is not eligible for read-only direct execution")
    | Some _ =>
        let* pid := call (fork_readonly_chain tokens workspace) in
        Ret (pid, if (pid <Z 0) then "fork failed" else "")
    end.

Definition guarded_workspace_exec (write_root : option string) (command : string)
    (workspace : option string) : tool (Z * string) :=
  let tokens := shlex_split command 64 in
  if length tokens =? 0 then Ret ((-1)%Z, "empty command")
  else
    let* access_x := call access_snapshot in
    let chain :=
      if length tokens <b 64
      then bash_workspace_chain_validate write_root access_x tokens 32 workspace else None in
    match chain with
    | None => Ret ((-1)%Z, "command is not eligible for guarded workspace execution")
    | Some _ =>
        let* pid := call (fork_workspace_chain tokens workspace) in
        Ret (pid, if (pid <Z 0) then "fork failed" else "")
    end.

(** ** Stopping a child *)

Definition SIGTERM : Z := 15.
Definition SIGKILL : Z := 9.

(** The child and its process group: asked to stop, then killed. *)
Definition bash_kill_child_tree (pid : Z) : tool unit :=
  if (pid <=Z 0) then Ret tt else
  let* _ := call (kill (- pid) SIGTERM) in
  let* _ := call (kill pid SIGTERM) in
  let* _ := call (usleep 100000) in
  let* _ := call (kill (- pid) SIGKILL) in
  call (kill pid SIGKILL).

(** ** The select loop *)

Definition nanos : Z := 1000000000.

(** [deadline += timeout_ms]; [/] and [%] truncate toward zero. *)
Definition deadline_after (now : Z * Z) (timeout_ms : Z) : Z * Z :=
  let sec := (now.1 + Z.quot timeout_ms 1000)%Z in
  let nsec := (now.2 + Z.rem timeout_ms 1000 * 1000000)%Z in
  if (nanos <=Z nsec) then ((sec + 1)%Z, (nsec - nanos)%Z) else (sec, nsec).

Definition remain_ms (deadline now : Z * Z) : Z :=
  ((deadline.1 - now.1) * 1000 + Z.quot (deadline.2 - now.2) 1000000)%Z.

(** One captured stream: whether it is open, its buffer and its capacity. *)
Record stream := { s_open : bool; s_buf : string; s_cap : nat }.

Inductive loop_end : Type := LOOP_EOF | LOOP_TIMED_OUT | LOOP_CANCELLED.

(** Growing the buffer toward [rawcap] when it is full. *)
Definition grow (s : stream) (rawcap : nat) : tool nat :=
  if (strlen (s_buf s) =? s_cap s) && (s_cap s <b rawcap) then
    let ncap := if rawcap <b s_cap s * 2 then rawcap else s_cap s * 2 in
    let* ok := call (malloc (ncap + 1)) in
    Ret (if ok then ncap else s_cap s)
  else Ret (s_cap s).

(** One read of a ready stream; [rd n] is the read of at most [n] bytes. *)
Definition read_stream (rd : nat -> tool string) (s : stream) (rawcap : nat) : tool stream :=
  let* cap := grow s rawcap in
  let len := strlen (s_buf s) in
  let room := if len <b cap then cap - len else 4096 in
  let* got := rd room in
  let got := stake room got in
  Ret (if got == "" then {| s_open := false; s_buf := s_buf s; s_cap := cap |}
       else if len <b cap then {| s_open := s_open s; s_buf := s_buf s +:+ got; s_cap := cap |}
       else {| s_open := s_open s; s_buf := s_buf s; s_cap := cap |}).

Fixpoint poll_loop (fuel : nat) (deadline : Z * Z) (rawcap : nat) (out err : stream) :
    tool (option (loop_end * stream * stream)) :=
  match fuel with
  | 0 => Ret None
  | S fuel =>
      if negb (s_open out || s_open err) then Ret (Some (LOOP_EOF, out, err)) else
      let* now := call clock_gettime in
      let remain := remain_ms deadline now in
      if (remain <=Z 0) then Ret (Some (LOOP_TIMED_OUT, out, err)) else
      let* stop := bash_delegate_cancel_requested in
      if stop : bool then Ret (Some (LOOP_CANCELLED, out, err)) else
      let poll_ms := if (250 <Z remain) then 250%Z else remain in
      let* sel := call (select (s_open out) (s_open err) poll_ms) in
      match sel with
      | SEL_TIMEOUT | SEL_EINTR => poll_loop fuel deadline rawcap out err
      | SEL_ERROR => Ret (Some (LOOP_TIMED_OUT, out, err))
      | SEL_READY out_ready err_ready =>
          let* out :=
            if s_open out && out_ready
            then read_stream (fun n => call (read_stdout n)) out rawcap else Ret out in
          let* err :=
            if s_open err && err_ready
            then read_stream (fun n => call (read_stderr n)) err rawcap else Ret err in
          poll_loop fuel deadline rawcap out err
      end
  end.

(** ** tool_bash *)

(** [safe_strdup] of the constant envelope with this stderr. *)
Definition exec_failure (err : string) : tool (option string) :=
  safe_strdup (jt "{'stdout':'','stderr':'" +:+ err +:+ jt "','exit_code':-1}").

(** The envelope of a provider's shell. *)
Definition provider_envelope (out : string) (exit_code : Z) : tool (option string) :=
  print_or "{}" (exec_envelope out "" exit_code).

(** The detached provider: the client runs the command. *)
Definition detached_shell (command : string) : tool (option string) :=
  let* (out, exit_code) := call (ws_exec_shell command) in
  match out with
  | None => safe_strdup DELEGATE_DETACHED_CHANNEL_DOWN_JSON
  | Some out => provider_envelope out exit_code
  end.

(** [exec_shell_timeout] when the provider has it, [exec_shell] otherwise. *)
Definition provider_shell (ws : ws_provider) (command : string) (timeout_ms : Z) :
    tool (option string * Z) :=
  if has_exec_shell_timeout ws then call (ws_exec_shell_timeout command timeout_ms)
  else call (ws_exec_shell command).

Definition container_shell (ws : ws_provider) (command : string) (timeout_ms : Z) :
    tool (option string) :=
  let* cwd := call run_cmd_get_cwd in
  let wrapped := if nonempty cwd then cd_prefix (or_else cwd "") +:+ command else command in
  let* (out, exit_code) := provider_shell ws wrapped timeout_ms in
  let* _ := if (exit_code =? 0)%Z then call (sandbox_learned_observe cwd command) else Ret tt in
  match out with
  | None =>
      if (exit_code =? -1)%Z then
        exec_failure "sandbox exec failed: could not run the command in the delegate container"
      else provider_envelope "" exit_code
  | Some out => provider_envelope out exit_code
  end.

Definition unsandboxed_refusal : string :=
  "refused: a delegated shell requires sandbox isolation, "
  +:+ "but the sandbox is disabled (sandbox.mode=off); running unsandboxed on the "
  +:+ "aimee-server host is not permitted".

(** The directory of a co-located command: the thread's, else the process's. *)
Definition bash_cwd : tool string :=
  let* src := call run_cmd_get_cwd in
  if nonempty src then Ret (snprintf MAX_PATH_LEN (or_else src ""))
  else
    let* cwd := call getcwd in
    Ret (snprintf MAX_PATH_LEN (or_else cwd "")).

Definition active_root (cwd : string) : tool (option string) :=
  if cwd == "" then Ret None
  else
    let* root := call (workspace_active_root cwd) in
    Ret (snprintf MAX_PATH_LEN <$> root).

(** The branch of a delegate whose parent worktree is protected: the pid and the
    text of [guarded_fallback_err]. *)
Definition guarded_parent_exec (cfg : sandbox_config_t) (command : string)
    (guard_ro guard_rw : option string) : tool (Z * string) :=
  let cfg := sandbox_set_allowlist cfg in
  let* cwd := bash_cwd in
  let* workspace :=
    if negb (cwd == "") && bash_path_under_root cwd guard_rw then Ret (Some cwd)
    else
      let* root := active_root cwd in
      Ret (match root with
           | Some root => Some root
           | None => if cwd == "" then None else Some cwd
           end) in
  let* (pid, err) := guarded_readonly_exec guard_rw command workspace in
  let* (pid, err) :=
    if (pid <Z 0) then guarded_workspace_exec guard_rw command workspace else Ret (pid, err) in
  let* pid :=
    if (pid <Z 0)
    then call (sandbox_exec_with_readonly cfg command workspace guard_ro guard_rw)
    else Ret pid in
  match workspace, guard_rw with
  | Some ws, Some _ =>
      if (pid <Z 0) && lxc_cmd_safe (Some command) guard_ro guard_rw
         && bash_path_under_root ws guard_rw
         && bash_guarded_fallback_paths_safe guard_rw command workspace
      then
        let* pid := (call (fork_shell command workspace) : tool Z) in
        Ret (pid, if (0 <Z pid) then "" else err)
      else Ret (pid, err)
  | _, _ => Ret (pid, err)
  end.

(** The start of the child: the pid and the fallback error. *)
Definition start_child (cfg : sandbox_config_t) (command : string)
    (guard_ro guard_rw : option string) : tool (Z * string) :=
  if build_linux && nonempty guard_ro then guarded_parent_exec cfg command guard_ro guard_rw
  else if build_linux && negb (sandbox_mode_off cfg) then
    let* cwd := bash_cwd in
    let* workspace := active_root cwd in
    let* pid := (call (sandbox_exec cfg command workspace) : tool Z) in
    Ret (pid, "")
  else
    let* cwd := call run_cmd_get_cwd in
    let* pid := (call (fork_shell command (if nonempty cwd then cwd else None)) : tool Z) in
    Ret (pid, "").

Definition fallback_failure (err : string) : tool (option string) :=
  safe_strdup (snprintf 512
    (jt "{'stdout':'','stderr':'parent worktree write guard requires isolated shell execution; sandbox fallback could not start; "
     +:+ (if err == "" then "direct fallback could not start" else err)
     +:+ jt "','exit_code':-1}")).

(** The exit code of [waitpid(pid, &status, 0)]; [status] is 0 before the call. *)
Definition bash_exit_code (w : wait_status) : Z :=
  match w with
  | W_EXITED code => code
  | W_FAILED => 0
  | W_SIGNALED _ | W_UNKNOWN => -1
  end.

(** From the started child to the result. *)
Definition collect (fuel : nat) (pid timeout_ms : Z) : tool (option string) :=
  let rawcap := AGENT_TOOL_OUTPUT_RAW_MAX in
  let* out_ok := call (malloc (rawcap + 1)) in
  let* err_ok := call (malloc (rawcap + 1)) in
  if negb (out_ok && err_ok) then
    let* _ := bash_kill_child_tree pid in
    let* _ := call (waitpid pid) in
    oom
  else
  let* now := call clock_gettime in
  let deadline := deadline_after now timeout_ms in
  let* big := call fd_exceeds_setsize in
  if big : bool then
    let* _ := bash_kill_child_tree pid in
    let* _ := call (waitpid pid) in
    exec_failure "fd exceeds FD_SETSIZE"
  else
  let fresh := {| s_open := true; s_buf := ""; s_cap := rawcap |} in
  let* r := poll_loop fuel deadline rawcap fresh fresh in
  match r with
  | None => Ret None
  | Some (e, out, err) =>
      let* exit_code :=
        match e with
        | LOOP_EOF =>
            let* w := call (waitpid pid) in
            Ret (bash_exit_code w)
        | LOOP_TIMED_OUT | LOOP_CANCELLED =>
            let* _ := bash_kill_child_tree pid in
            let* _ := call (waitpid pid) in
            Ret (-1)%Z
        end in
      let err_text :=
        match e with
        | LOOP_CANCELLED => "delegate cancelled during bash execution"
        | _ => cstr (s_buf err)
        end in
      Ret (cJSON_PrintUnformatted (exec_envelope (cstr (s_buf out)) err_text exit_code))
  end.

(** The co-located execution. *)
Definition local_bash (fuel : nat) (command : string) (timeout_ms : Z) : tool (option string) :=
  let* ok := call pipe in
  let* ok := if ok : bool then call pipe else Ret false in
  if negb ok then exec_failure "pipe failed" else
  let* cfg := call config_sandbox in
  let* guard_ro := call agent_tools_parent_write_guard_root in
  let* guard_rw := call agent_tools_parent_write_guard_write_root in
  let guarded_parent := nonempty guard_ro in
  let host_unsandboxed :=
    if build_linux : bool then sandbox_effective_off cfg else negb guarded_parent in
  let* delegated :=
    if host_unsandboxed : bool then
      let* id := call delegation_active_id in
      Ret (match id with Some _ => true | None => false end)
    else Ret false in
  if delegated : bool then exec_failure unsandboxed_refusal
  else if negb build_linux && guarded_parent then
    exec_failure "parent worktree write guard requires Linux sandbox isolation for shell commands"
  else
  let* (pid, err) := start_child cfg command guard_ro guard_rw in
  if (pid <Z 0) then
    if guarded_parent then fallback_failure err else exec_failure "fork failed"
  else collect fuel pid timeout_ms.

Definition tool_bash (fuel : nat) (command : string) (timeout_ms : Z) : tool (option string) :=
  let* ws := call workspace_provider_active in
  match ws with
  | Some ws =>
      match kind ws with
      | WS_PROVIDER_DETACHED =>
          if has_exec_shell ws then detached_shell command else local_bash fuel command timeout_ms
      | WS_PROVIDER_CONTAINER =>
          if has_exec_shell ws then container_shell ws command timeout_ms
          else local_bash fuel command timeout_ms
      | _ => local_bash fuel command timeout_ms
      end
  | None => local_bash fuel command timeout_ms
  end.
End BashTool.
