(* ===== verification/Anchored.v ===== *)
(** The anchored tools ([agent_tools_anchored.c]): outline, symbol read and
    rewrite, anchored grep, test runs.  Strings built with [dstr] are plain
    concatenations; its allocation failures are not modelled. *)
From S2P Require Import Prelude CStr Ext Prog Json Host TextOps FileTools QueryTools BashTool.
Local Open Scope tools_scope.

Section Anchored.
Context {E : Ext} {J : CJson} {L : Lib J}.

(** The error text, or the data. *)
Definition read_text_file (actual_path : string) : tool (string + string) :=
  let* ws := call workspace_provider_active in
  let* data := call (ws_read_all actual_path) in
  Ret (match data with
       | None => inl "error: cannot open file"
       | Some data =>
           if has_char (stake (Z.to_nat 4096) data) NUL then inl "error: binary file omitted"
           else inr data
       end).

(** [if (anchor_snapshot_create(...) != 0) snap[0] = 0; snap[0] ? snap : NULL]. *)
Definition mint_snapshot (resolved data : string) : tool (option string) :=
  let* snap := call (anchor_snapshot_create resolved data) in
  Ret (if nonempty snap then snap else None).

Definition tool_read_outline (path : option string) : tool (option string) :=
  if negb (nonempty path) then safe_strdup "error: missing 'path' parameter" else
  let* (actual_path, _) := path_in_thread_cwd (or_else path "") MAX_PATH_LEN in
  let* (verr, resolved) := call (guardrails_validate_file_path actual_path) in
  match verr with
  | Some verr => safe_strdup verr
  | None =>
      let* data := read_text_file actual_path in
      match data with
      | inl errmsg => safe_strdup errmsg
      | inr data =>
          let* snap := mint_snapshot resolved data in
          Ret (Some (or_else (code_outline_format data (code_outline_ext actual_path) snap)
                       "error: out of memory"))
      end
  end.

(** The last line of a definition. *)
Definition def_end (d : definition_t) : Z :=
  if (d_line d <Z d_line_end d) then d_line_end d else d_line d.

Definition hit_end (h : term_hit_t) : Z :=
  if (th_line h <Z th_line_end h) then th_line_end h else th_line h.

Definition format_symbol_span (resolved actual_path data symbol : string) (start end_ : Z) :
    tool (option string) :=
  let* snap := mint_snapshot resolved data in
  match anchor_format_read data (start - 1) (end_ - start + 1) snap with
  | None => oom
  | Some span =>
      safe_strdup
        (snprintf (MAX_PATH_LEN + 128)
           ("# " +:+ symbol +:+ "  " +:+ actual_path +:+ ":" +:+ fmt_d start +:+ "-"
            +:+ fmt_d end_ +:+ nl) +:+ span)
  end.

(** The digest of the 1-based line [ln], or [none] outside the text. *)
Definition line_digest (lines : list string) (ln : Z) : option Z :=
  if (1 <=Z ln) && (ln <=Z Z.of_nat (length lines)) then
    Some (anchor_line_digest (default "" (lines !! Z.to_nat (ln - 1))) (ln =? 1)%Z)
  else None.

Definition candidate_row (lines : list string) (d : definition_t) : string :=
  let tag := anchor_short_tag (default 0%Z (line_digest lines (d_line d))) in
  snprintf 256
    (fmt_d (d_line d) +:+ ":" +:+ snprintf 3 tag +:+ "| " +:+ d_kind d +:+ " " +:+ d_name d
     +:+ "  (lines " +:+ fmt_d (d_line d) +:+ "-" +:+ fmt_d (def_end d) +:+ ")" +:+ nl).

Definition format_symbol_candidates (data : string) (defs : list definition_t) :
    tool (option string) :=
  safe_strdup
    ("# ambiguous symbol: choose a candidate (pass a path, or read the span)" +:+ nl
     +:+ sconcat (map (candidate_row (anchor_split_lines data)) defs)).

Definition hit_row (h : term_hit_t) : string :=
  snprintf (MAX_PATH_LEN + 64)
    ("- " +:+ th_file_path h +:+ ":" +:+ fmt_d (th_line h) +:+ " [" +:+ th_kind h +:+ "]" +:+ nl).

(** Where a symbol is looked up: the given path, or the only hit of the index
    with its span; or the text that ends the call. *)
Definition symbol_target (symbol : string) (path : option string)
    (not_found ambiguous : string) : tool (string + string * (Z * Z)) :=
  if nonempty path then Ret (inr (or_else path "", (0, 0)%Z))
  else
    let* hits := call (kb_client_index_find symbol 16) in
    Ret (match hits with
         | [] => inl not_found
         | [h] => inr (th_file_path h, (th_line h, hit_end h))
         | _ => inl (ambiguous +:+ nl +:+ sconcat (map hit_row hits))
         end).

Definition tool_read_symbol (symbol path : option string) : tool (option string) :=
  if negb (nonempty symbol) then safe_strdup "error: missing 'symbol' parameter" else
  let symbol := or_else symbol "" in
  let* target := symbol_target symbol path
    ("error: symbol not found in the code index; pass 'path' to read from a " +:+ "specific file")
    "# ambiguous symbol across files; pass 'path' to disambiguate" in
  match target with
  | inl text => safe_strdup text
  | inr (target, (idx_start, idx_end)) =>
      let* (actual_path, _) := path_in_thread_cwd target MAX_PATH_LEN in
      let* (verr, resolved_path) := call (guardrails_validate_file_path actual_path) in
      match verr with
      | Some verr => safe_strdup verr
      | None =>
          let* data := read_text_file actual_path in
          match data with
          | inl errmsg => safe_strdup errmsg
          | inr data =>
              match code_outline_symbol_defs data (code_outline_ext actual_path) symbol 16 with
              | [] =>
                  if (0 <Z idx_start)
                  then format_symbol_span resolved_path actual_path data symbol idx_start idx_end
                  else safe_strdup "error: symbol not found in file"
              | [d] =>
                  format_symbol_span resolved_path actual_path data symbol (d_line d) (def_end d)
              | defs => format_symbol_candidates data defs
              end
          end
      end
  end.

(** ** tool_edit_symbol *)

Definition anchor_token_for (data : string) (ord : Z) : string :=
  let tag :=
    match line_digest (anchor_split_lines data) ord with
    | Some d => snprintf 3 (anchor_short_tag d)
    | None => "00"
    end in
  snprintf 24 (fmt_d ord +:+ ":" +:+ tag).

(** The single edit handed to the anchored engine. *)
Definition symbol_edits (data text : string) (start end_ : Z) : json :=
  let e := cJSON_AddStringToObject cJSON_CreateObject "op" "replace_range" in
  let e := cJSON_AddStringToObject e "from" (anchor_token_for data start) in
  let e := cJSON_AddStringToObject e "to" (anchor_token_for data end_) in
  let e := cJSON_AddStringToObject e "text" text in
  cJSON_AddItemToArray cJSON_CreateArray e.

(** The identity of the edited definition, added to the result of the write. *)
Definition echo_symbol (symbol actual_path : string) (d : definition_t)
    (write_result : option string) : option string :=
  match write_result ≫= cJSON_Parse with
  | Some wj =>
      let wj := cJSON_AddStringToObject wj "symbol" symbol in
      let wj := cJSON_AddStringToObject wj "resolved_kind" (d_kind d) in
      let wj := cJSON_AddStringToObject wj "resolved_at"
        (snprintf (MAX_PATH_LEN + 32)
           (actual_path +:+ ":" +:+ fmt_d (d_line d) +:+ "-" +:+ fmt_d (def_end d))) in
      Some (or_else (cJSON_PrintUnformatted wj) "error: out of memory")
  | None => Some (or_else write_result "error: write failed")
  end.

(** From the only definition to the write. *)
Definition rewrite_symbol (symbol target actual_path resolved data text : string)
    (d : definition_t) : tool (option string) :=
  let* snap_id := call (anchor_snapshot_create resolved data) in
  match snap_id with
  | None => oom
  | Some snap_id =>
      let* snap := call (anchor_snapshot_get_copy snap_id) in
      match snap with
      | None => safe_strdup "error: snapshot unavailable"
      | Some snap =>
          match edit_anchored_plan data snap
                  (Some (symbol_edits data text (d_line d) (def_end d))) with
          | inl reject =>
              Ret (Some (or_else (reject ≫= cJSON_PrintUnformatted)
                           "error: symbol edit could not be planned"))
          | inr new_text =>
              let* write_result := tool_write_file target new_text in
              Ret (echo_symbol symbol actual_path d write_result)
          end
      end
  end.

Definition tool_edit_symbol (symbol path op text : option string) : tool (option string) :=
  if negb (nonempty symbol) then safe_strdup "error: missing 'symbol' parameter" else
  if nonempty op && negb (or_else op "" == "replace_body")
  then safe_strdup "error: unsupported op (only 'replace_body' is supported)" else
  match text with
  | None => safe_strdup "error: missing 'text' (the new symbol body)"
  | Some text =>
  let symbol := or_else symbol "" in
  let* target := symbol_target symbol path
    ("error: symbol not found in the code index; pass 'path' or a " +:+ "fully-qualified name")
    ("# ambiguous symbol across files; pass 'path' to disambiguate (never " +:+ "a blind resolve)") in
  match target with
  | inl t => safe_strdup t
  | inr (target, _) =>
      let* (actual_path, _) := path_in_thread_cwd target MAX_PATH_LEN in
      let* (verr, resolved) := call (guardrails_validate_file_path actual_path) in
      match verr with
      | Some verr => safe_strdup verr
      | None =>
          let* data := read_text_file actual_path in
          match data with
          | inl errmsg => safe_strdup errmsg
          | inr data =>
              match code_outline_symbol_defs data (code_outline_ext actual_path) symbol 16 with
              | [] => safe_strdup "error: symbol not found in file"
              | [d] => rewrite_symbol symbol target actual_path resolved data text d
              | defs => format_symbol_candidates data defs
              end
          end
      end
  end
  end.

(** ** tool_grep_anchored *)

(** The tokens of [strtok_r(raw, "\n", &save)]: the nonempty lines. *)
Fixpoint strtok_lines (cur s : string) : list string :=
  match s with
  | "" => if cur == "" then [] else [cur]
  | String c r =>
      if Ascii.eqb c NL then (if cur == "" then [] else [cur]) ++ strtok_lines "" r
      else strtok_lines (cur +:+ String c "") r
  end.

(** [path:lineno:text]. *)
Definition parse_hit (line : string) : option (string * Z * string) :=
  c1 ← strchr line ":";
  let rest := sdrop (S c1) line in
  c2 ← strchr rest ":";
  Some (stake c1 line, atoi (stake c2 rest), sdrop (S c2) rest).

(** The header of a new file and its lines, when it could be read. *)
Definition open_hit_file (fpath : string) : tool (string * option (list string)) :=
  let* (actual, _) := path_in_thread_cwd fpath MAX_PATH_LEN in
  let* (verr, resolved) := call (guardrails_validate_file_path actual) in
  let* data :=
    match verr with
    | None => read_text_file actual
    | Some verr => Ret (inl verr)
    end in
  let* file :=
    match data with
    | inl _ => Ret (None, None)
    | inr data =>
        let* snap := mint_snapshot resolved data in
        Ret (snap, Some (anchor_split_lines data))
    end in
  let hdr :=
    match file.1 with
    | Some snap => fpath +:+ "  snapshot=" +:+ snap +:+ nl
    | None => fpath +:+ nl
    end in
  Ret (snprintf (MAX_PATH_LEN + 64) hdr, file.2).

Definition anchored_row (file_lines : option (list string)) (lineno : Z) (text : string) : string :=
  let tag :=
    match file_lines ≫= fun ls => line_digest ls lineno with
    | Some d => snprintf 3 (anchor_short_tag d)
    | None => "00"
    end in
  snprintf 256 ("  " +:+ fmt_d lineno +:+ ":" +:+ tag +:+ "| ") +:+ text +:+ nl.

Fixpoint anchored_rows (hits : list string) (last_file : string)
    (file_lines : option (list string)) (out : string) : tool string :=
  match hits with
  | [] => Ret out
  | line :: hits =>
      match parse_hit line with
      | None => anchored_rows hits last_file file_lines out
      | Some (fpath, lineno, text) =>
          let* (last_file, file_lines, out) :=
            if negb (fpath == last_file) then
              let* (hdr, file_lines) := open_hit_file fpath in
              Ret (snprintf MAX_PATH_LEN fpath, file_lines, out +:+ hdr)
            else Ret (last_file, file_lines, out) in
          anchored_rows hits last_file file_lines (out +:+ anchored_row file_lines lineno text)
      end
  end.

Definition tool_grep_anchored (path pattern : option string) (max_results : Z) :
    tool (option string) :=
  let* raw := tool_grep path pattern max_results in
  match raw with
  | None => safe_strdup "no matches found"
  | Some raw =>
      if starts_with "error:" raw || starts_with "no matches" raw then Ret (Some raw)
      else
        let* out := anchored_rows (strtok_lines "" raw) "" None "" in
        safe_strdup (if out == "" then "no matches found" else out)
  end.

(** ** tool_run_tests *)

Definition tests_report (exit_code : Z) (output : string) : json :=
  let passed := (exit_code =? 0)%Z in
  let out := cJSON_AddStringToObject cJSON_CreateObject "status"
               (if passed then "passed" else "failed") in
  let out := cJSON_AddBoolToObject out "passed" passed in
  let out := cJSON_AddNumberToObject out "exit_code" exit_code in
  cJSON_AddStringToObject out "output" output.

Definition tool_run_tests (fuel : nat) (command : option string) (timeout_ms : Z) :
    tool (option string) :=
  if negb (nonempty command) then safe_strdup "error: missing 'command' parameter" else
  let* bash_out := tool_bash fuel (or_else command "") timeout_ms in
  match bash_out with
  | None => safe_strdup "error: test command failed to run"
  | Some bash_out =>
      match cJSON_Parse bash_out with
      | None => Ret (Some bash_out)
      | Some bj =>
          let exit_code := default (-1)%Z (get_int bj "exit_code") in
          let so := get_string bj "stdout" in
          let se := get_string bj "stderr" in
          let output :=
            or_else so "" +:+ (if nonempty se then nl +:+ or_else se "" else "") in
          print_or "error: out of memory" (tests_report exit_code output)
      end
  end.
End Anchored.
