(* ===== verification/Handlers.v ===== *)
(** The tool handlers [td_*] of [agent_tools_dispatch.c]: each reads its
    arguments from the JSON object of the call and runs its tool.

    [dispatch_cwd] is the directory of the call, [dispatch_sid] its session. *)
From S2P Require Import Prelude CStr Ext Prog Json Host TextOps FileTools QueryTools BashTool.
From S2P Require Import Anchored.
Local Open Scope tools_scope.

Section Handlers.
Context {E : Ext} {J : CJson} {L : Lib J}.

(** ** Shell and scripts *)

Definition td_bash (fuel : nat) (args : json) (timeout_ms : Z) : tool (option string) :=
  match get_string args "command" with
  | None => safe_strdup "error: missing 'command' parameter"
  | Some cmd =>
      let* ws := call workspace_provider_active in
      let detached :=
        match ws with
        | Some ws =>
            match kind ws with WS_PROVIDER_DETACHED => has_exec_shell ws | _ => false end
        | None => false
        end in
      if detached then detached_shell cmd else tool_bash fuel cmd timeout_ms
  end.

(** [cJSON_IsNumber(j) ? j->valueint : d]. *)
Definition int_or (args : json) (key : string) (d : Z) : Z := default d (get_int args key).

Definition script_secs (args : json) : Z :=
  let secs := int_or args "timeout_secs" 120 in
  let secs := if (secs <=Z 0) then 120%Z else secs in
  if (600 <Z secs) then 600%Z else secs.

Definition script_text (lang body : string) : string :=
  (if lang == "python" then "python3 - <<'AIMEE_SCRIPT_EOF'" else "bash -s <<'AIMEE_SCRIPT_EOF'")
  +:+ nl +:+ body +:+ nl +:+ "AIMEE_SCRIPT_EOF" +:+ nl.

Definition container_script (ws : ws_provider) (lang body : string) (wd : option string)
    (secs : Z) : tool (option string) :=
  let* cwd := if nonempty wd then Ret wd else call run_cmd_get_cwd in
  let text :=
    (if nonempty cwd then cd_prefix (or_else cwd "") else "") +:+ script_text lang body in
  let* (out, exit_code) := provider_shell ws text (secs * 1000) in
  let* _ := if (exit_code =? 0)%Z then call (sandbox_learned_observe cwd body) else Ret tt in
  match out with
  | None =>
      if (exit_code =? -1)%Z then
        exec_failure "sandbox exec failed: could not run the script in the delegate container"
      else provider_envelope "" exit_code
  | Some out => provider_envelope out exit_code
  end.

Definition td_execute_script (args : json) : tool (option string) :=
  let env_json :=
    match cJSON_GetObjectItem args "env" with
    | Some env => if cJSON_IsObject env then cJSON_PrintUnformatted env else None
    | None => None
    end in
  match get_string args "language", get_string args "body" with
  | Some lang, Some body =>
      let secs := script_secs args in
      let wd := get_string args "workdir" in
      let* ws := call workspace_provider_active in
      match ws with
      | Some ws =>
          match kind ws, has_exec_shell ws with
          | WS_PROVIDER_CONTAINER, true => container_script ws lang body wd secs
          | _, _ => call (tool_execute_script lang body secs wd env_json)
          end
      | None => call (tool_execute_script lang body secs wd env_json)
      end
  | _, _ => safe_strdup "error: missing 'language' or 'body' parameter"
  end.

Definition td_run_tests (fuel : nat) (args : json) (timeout_ms : Z) : tool (option string) :=
  match get_string args "command" with
  | None => safe_strdup "error: missing 'command' parameter"
  | Some cmd => tool_run_tests fuel (Some cmd) timeout_ms
  end.

Definition td_tool_output_get (args : json) : tool (option string) :=
  match get_string args "ref" with
  | None => safe_strdup "error: missing 'ref' parameter"
  | Some r =>
      let* home := call aimee_home in
      let spill_dir := or_else home "" +:+ "/tool-spills" in
      if negb (nonempty home) || (600 <=b strlen spill_dir)
      then safe_strdup "error: spill store unavailable"
      else
        let* full := call (econ_module_tool_recall spill_dir r) in
        match full with
        | inl err =>
            let err := snprintf 64 err in
            safe_strdup (snprintf 128 ("error: " +:+ (if err == "" then "not found" else err)))
        | inr full =>
            let* _ := call (aimee_log ("tool_output_get recovered " +:+ fmt_u (strlen full)
                                       +:+ " bytes (" +:+ r +:+ ")")) in
            Ret (Some full)
        end
  end.

(** ** Files *)

(** [strncmp(result, "error:", 6) != 0] for a non-NULL result. *)
Definition succeeded (result : option string) : bool :=
  match result with
  | Some r => negb (starts_with "error:" r)
  | None => false
  end.

Definition abs_path (path dispatch_cwd : string) : string :=
  snprintf MAX_PATH_LEN (normalize_path path (Some dispatch_cwd)).

Definition td_read_file (args : json) (dispatch_cwd : string) (dispatch_sid : option string) :
    tool (option string) :=
  match get_string args "path" with
  | None => safe_strdup "error: missing 'path' parameter"
  | Some p =>
      let* result :=
        if or_else (get_string args "mode") "" == "outline" then tool_read_outline (Some p)
        else tool_read_file p (int_or args "offset" 0) (int_or args "limit" 0)
               (get_flag args "raw") in
      let* _ :=
        if succeeded result then
          let* rs := call (session_state_load dispatch_sid) in
          call (session_state_save (session_record_read rs (abs_path p dispatch_cwd)) dispatch_sid)
        else Ret tt in
      Ret result
  end.

Definition isolation_text : string :=
  "error: write blocked: require_session_worktree is enabled and this "
  +:+ "target is outside an aimee-managed worktree (.aimee/worktrees/...)".

(** The three guards of the file writers: the text of the first that blocks. *)
Definition write_guards (p dispatch_cwd : string) : tool (option string) :=
  let* ro := call agent_tools_readonly_delegate_blocks in
  if ro : bool then Ret (Some "error: write blocked: read-only delegate (not write-capable)") else
  let* pg := call (agent_tools_parent_write_guard_blocks p (Some dispatch_cwd)) in
  if pg : bool
  then Ret (Some "error: write blocked: parent worktree is read-only for delegates") else
  let* iso := call (agent_tools_session_isolation_blocks p dispatch_cwd) in
  Ret (if iso : bool then Some isolation_text else None).

(** Recording a successful write under the delegation or the session. *)
Definition record_write (p dispatch_cwd : string) (dispatch_sid : option string) : tool unit :=
  let* write_key := call delegation_active_id in
  call (db1_session_write_path_record
          (match write_key with Some k => Some k | None => dispatch_sid end)
          (abs_path p dispatch_cwd)).

(** The statuses of an anchored edit that did not commit. *)
Definition not_committed : list string :=
  [jt "'status':'stale_anchor'"; jt "'status':'snapshot_expired'"; jt "'status':'invalid_edit'";
   jt "'status':'conflicting_edits'"].

Definition committed (result : option string) : bool :=
  succeeded result && negb (existsb (contains (or_else result "")) not_committed).

(** The anchored branch of [td_edit_file]. *)
Definition edit_anchored_branch (args : json) (p dispatch_cwd : string)
    (dispatch_sid : option string) : tool (option string) :=
  let dry_run := get_flag args "dry_run" in
  let* blocked := if dry_run then Ret None else write_guards p dispatch_cwd in
  let* result :=
    match blocked with
    | Some err => safe_strdup err
    | None =>
        let* _ := if dry_run then Ret 0%Z else auto_snapshot_record p in
        tool_edit_file_anchored p (or_else (get_string args "snapshot_id") "")
          (cJSON_GetObjectItem args "edits") dry_run
    end in
  let* _ :=
    if negb dry_run && committed result then record_write p dispatch_cwd dispatch_sid
    else Ret tt in
  Ret result.

(** The branch of [old_string]. *)
Definition edit_string_branch (args : json) (p o dispatch_cwd : string)
    (dispatch_sid : option string) : tool (option string) :=
  let* blocked := write_guards p dispatch_cwd in
  let* result :=
    match blocked with
    | Some err => safe_strdup err
    | None =>
        let* _ := call (aimee_log
          ("old_string edit path used on " +:+ p +:+ "; migrate to anchored edits (snapshot_id + "
           +:+ "edits[]) — this fallback is deprecated and slated for removal")) in
        let* _ := auto_snapshot_record p in
        tool_edit_file p o (Some (or_else (get_string args "new_string") ""))
          (get_flag args "replace_all")
    end in
  let* _ := if succeeded result then record_write p dispatch_cwd dispatch_sid else Ret tt in
  Ret result.

Definition td_edit_file (args : json) (dispatch_cwd : string) (dispatch_sid : option string) :
    tool (option string) :=
  match get_string args "path" with
  | None => safe_strdup "error: missing 'path' parameter"
  | Some p =>
      let snap := match get_string args "snapshot_id" with Some _ => true | None => false end in
      let edits :=
        match cJSON_GetObjectItem args "edits" with Some e => cJSON_IsArray e | None => false end in
      if snap || edits then edit_anchored_branch args p dispatch_cwd dispatch_sid
      else
        match get_string args "old_string" with
        | None =>
            safe_strdup "error: missing 'old_string' parameter (or use snapshot_id + edits[])"
        | Some o => edit_string_branch args p o dispatch_cwd dispatch_sid
        end
  end.

(** The LSP rows: [pre] is final, [tail] the truncated row the next one
    overwrites. *)
Fixpoint lsp_rows (path : string) (first : bool) (ds : list lsp_diag_t) (pre tail : string) :
    string :=
  match ds with
  | [] => pre +:+ tail
  | d :: ds =>
      let dleft := 1024 - strlen pre in
      if dleft <=b 2 then pre +:+ tail
      else
        let row :=
          (if first then "" else "; ")
          +:+ (if ld_file d == "" then path else ld_file d) +:+ ":" +:+ fmt_d (ld_line d + 1)
          +:+ " [" +:+ lsp_severity_label (ld_severity d) +:+ "] " +:+ ld_message d in
        if strlen row <b dleft then lsp_rows path false ds (pre +:+ row) ""
        else lsp_rows path false ds pre (snprintf dleft row)
  end.

Definition lsp_kept (d : lsp_diag_t) : bool :=
  (ld_severity d =? lsp_sev_error)%Z || (ld_severity d =? lsp_sev_warning)%Z.

(** The diagnostics appended to the result of a write. *)
Definition append_lsp (p dispatch_cwd : string) (result : option string) : tool (option string) :=
  let* root := call (workspace_active_root dispatch_cwd) in
  let ws := snprintf MAX_PATH_LEN (or_else root dispatch_cwd) in
  let* lsp_diags := call (lsp_manager_diagnostics ws p 6) in
  let kept := take 6 (filter (fun d => lsp_kept d = true) lsp_diags) in
  if length kept =? 0 then Ret result
  else
    match cJSON_Parse (or_else result "") with
    | Some jres =>
        if cJSON_IsObject jres then
          let jres :=
            cJSON_AddStringToObject jres "lsp_diagnostics" (lsp_rows p true kept "" "") in
          Ret (match cJSON_PrintUnformatted jres with Some a => Some a | None => result end)
        else Ret result
    | None => Ret result
    end.

Definition recovery_hint : string :=
  nl +:+ "Recovery: read the file with read_file before retrying.".

Definition td_write_file (args : json) (dispatch_cwd : string) (dispatch_sid : option string) :
    tool (option string) :=
  match get_string args "path" with
  | None => safe_strdup "error: missing 'path' parameter"
  | Some p =>
      let content_str := or_else (get_string args "content") "" in
      let* blocked := write_guards p dispatch_cwd in
      let* result :=
        match blocked with
        | Some err => safe_strdup err
        | None =>
            let* _ := auto_snapshot_record p in
            tool_write_file p content_str
        end in
      let* _ := if succeeded result then record_write p dispatch_cwd dispatch_sid else Ret tt in
      match result with
      | None => Ret None
      | Some r =>
          if starts_with "error:" r then
            let* ok := call (malloc (strlen r + strlen recovery_hint + 1)) in
            safe_strdup (if ok then r +:+ recovery_hint else r)
          else if content_str == "" then Ret result
          else
            let slop := take 16 (slop_detect_buf content_str) in
            let* augmented :=
              if length slop =? 0 then Ret None else append_write_slop_advisory result slop in
            append_lsp p dispatch_cwd
              (match augmented with Some a => Some a | None => result end)
      end
  end.

Definition td_list_files (args : json) : tool (option string) :=
  match get_string args "path" with
  | None => safe_strdup "error: missing 'path' parameter"
  | Some p => tool_list_files p (get_string args "pattern")
  end.

(** ** Queries *)

Definition td_verify (args : json) : tool (option string) :=
  match get_string args "check_type", get_string args "target" with
  | Some ct, Some tgt => tool_verify ct tgt (get_string args "expected")
  | _, _ => safe_strdup "error: missing 'check_type' or 'target'"
  end.

Definition no_worktree : tool (option string) :=
  safe_strdup "error: git tool requires a session worktree (no 'path' given)".

(** The repository of a git query: the given path, else the call's directory. *)
Definition repo_path (args : json) (dispatch_cwd : string) : option string :=
  let p := get_string args "path" in
  if nonempty p then p else if dispatch_cwd == "" then None else Some dispatch_cwd.

Definition td_git_log (args : json) (dispatch_cwd : string) : tool (option string) :=
  match repo_path args dispatch_cwd with
  | None => no_worktree
  | Some path => tool_git_log path (int_or args "count" 10)
  end.

Definition td_git_diff (args : json) (dispatch_cwd : string) : tool (option string) :=
  match repo_path args dispatch_cwd with
  | None => no_worktree
  | Some path => tool_git_diff (Some path) (get_string args "ref")
  end.

Definition td_git_status (args : json) (dispatch_cwd : string) : tool (option string) :=
  match repo_path args dispatch_cwd with
  | None => no_worktree
  | Some path => tool_git_status (Some path)
  end.

Definition td_grep (args : json) : tool (option string) :=
  match get_string args "path", get_string args "pattern" with
  | Some p, Some pat =>
      let mx := int_or args "max_results" 50 in
      if get_flag args "anchored" then tool_grep_anchored (Some p) (Some pat) mx
      else tool_grep (Some p) (Some pat) mx
  | _, _ => safe_strdup "error: missing 'path' or 'pattern' parameter"
  end.

Definition td_read_symbol (args : json) : tool (option string) :=
  match get_string args "symbol" with
  | None => safe_strdup "error: missing 'symbol' parameter"
  | Some sym => tool_read_symbol (Some sym) (get_string args "path")
  end.

Definition td_edit_symbol (args : json) (dispatch_cwd : string) (dispatch_sid : option string) :
    tool (option string) :=
  match get_string args "symbol" with
  | None => safe_strdup "error: missing 'symbol' parameter"
  | Some sym =>
      let pth_s := get_string args "path" in
      let* ro := call agent_tools_readonly_delegate_blocks in
      if ro : bool
      then safe_strdup "error: write blocked: read-only delegate (not write-capable)" else
      let* pg :=
        match pth_s with
        | Some p => call (agent_tools_parent_write_guard_blocks p (Some dispatch_cwd))
        | None => Ret false
        end in
      if pg : bool
      then safe_strdup "error: write blocked: parent worktree is read-only for delegates" else
      let* result :=
        tool_edit_symbol (Some sym) pth_s (get_string args "op") (get_string args "text") in
      let* _ :=
        match pth_s with
        | Some p => if succeeded result then record_write p dispatch_cwd dispatch_sid else Ret tt
        | None => Ret tt
        end in
      Ret result
  end.

(** ** MCP seams *)

Definition flatten_text (out : string) (item : json) : string :=
  match get_string_cs item "text" with
  | Some t => if out == "" then t else out +:+ nl +:+ t
  | None => out
  end.

Definition mcp_content_flatten (content : json) : string :=
  let out := fold_left flatten_text (children content) "" in
  if out == "" then "(no output)" else out.

Definition td_git_write (args : json) (name dispatch_cwd : string) (dispatch_sid : option string) :
    tool (option string) :=
  let* fn := call git_write_registered in
  if negb fn then safe_strdup "error: git tools are not available on this surface" else
  match cJSON_Duplicate args with
  | None => oom
  | Some c =>
      let c :=
        match cJSON_GetObjectItemCaseSensitive c "path" with
        | None =>
            if dispatch_cwd == "" then c else cJSON_AddStringToObject c "path" dispatch_cwd
        | Some _ => c
        end in
      let* content := call (git_write name c dispatch_sid) in
      match content with
      | None => safe_strdup "error: git tool unavailable on this surface"
      | Some content => safe_strdup (mcp_content_flatten content)
      end
  end.

Definition td_mcp_tool (args : json) (name : string) (dispatch_sid : option string) :
    tool (option string) :=
  let* fn := call mcp_call_registered in
  if negb fn then safe_strdup "error: tool is not available on this surface" else
  let* content := call (mcp_call name args dispatch_sid) in
  match content with
  | None => safe_strdup "error: tool unavailable on this surface"
  | Some content => safe_strdup (mcp_content_flatten content)
  end.
End Handlers.
