(* ===== verification/KnowledgeHandlers.v ===== *)
(** The handlers over the knowledge service, the process manager, the
    clarification and diagnosis stores ([agent_tools_dispatch.c], 1256-1985). *)
From S2P Require Import Prelude CStr Ext Prog Json Host TextOps FileTools QueryTools Handlers.
Local Open Scope tools_scope.

Section KnowledgeHandlers.
Context {E : Ext} {J : CJson} {L : Lib J}.

Definition td_env_get (args : json) : tool (option string) :=
  match get_string args "name" with
  | None => safe_strdup "error: missing 'name' parameter"
  | Some n => tool_env_get (Some n)
  end.

Definition td_test (args : json) : tool (option string) :=
  match get_string args "path" with
  | None => safe_strdup "error: missing 'path' parameter"
  | Some p => tool_test (Some p) (get_string args "check")
  end.

Definition td_request_input (args : json) : tool (option string) :=
  match get_string args "question" with
  | None => safe_strdup "error: missing 'question' parameter"
  | Some q => tool_request_input (Some q)
  end.

Definition td_code_search (args : json) : tool (option string) :=
  match get_string args "query" with
  | None => safe_strdup "error: missing 'query' parameter"
  | Some q => tool_code_search (Some q) (get_string args "project") (int_or args "max_results" 50)
  end.

Definition td_find_symbol (args : json) : tool (option string) :=
  match get_string args "identifier" with
  | None => safe_strdup "error: missing 'identifier' parameter"
  | Some id => call (tool_find_symbol id)
  end.

(** ** Memory, web and notes *)

Definition FACTS_BUF : nat := Z.to_nat 8192.

Definition fact_row (f : memory_t) : string :=
  "- **" +:+ m_key f +:+ "** [" +:+ m_tier f +:+ "/" +:+ m_kind f +:+ "]: " +:+ m_content f +:+ nl.

(** The loop over the facts, as [note_rows]. *)
Fixpoint fact_rows (facts : list memory_t) (pos : nat) (buf : string) : string :=
  match facts with
  | [] => buf
  | f :: r =>
      if pos <b FACTS_BUF - 512 then
        fact_rows r (pos + strlen (fact_row f)) (buf +:+ snprintf (FACTS_BUF - pos) (fact_row f))
      else buf
  end.

Definition td_search_memory (args : json) : tool (option string) :=
  match get_string args "query" with
  | None => safe_strdup "error: missing 'query' parameter"
  | Some q =>
      let* facts := call (kb_client_memory_find_facts q 20) in
      safe_strdup
        (if length facts =? 0 then snprintf FACTS_BUF ("No facts found for '" +:+ q +:+ "'")
         else
           let head := "Found " +:+ fmt_u (length facts) +:+ " fact(s):" +:+ nl +:+ nl in
           fact_rows facts (strlen head) head)
  end.

Definition td_web_search (args : json) : tool (option string) :=
  match get_string args "query" with
  | None => safe_strdup "error: missing 'query' parameter"
  | Some q =>
      let* result :=
        call (web_search_ex q (int_or args "max_results" 5) (get_bool args "fetch_pages")) in
      let* _ :=
        if succeeded result then call (web_handle_register_from_search (or_else result ""))
        else Ret tt in
      Ret result
  end.

Definition td_web_read (args : json) : tool (option string) :=
  match get_string args "ref" with
  | None => safe_strdup "error: missing 'ref' parameter (a search handle or raw URL)"
  | Some ref =>
      call (tool_web_read ref (get_string args "query") (int_or args "span" 0)
              (get_string args "mode"))
  end.

Definition td_create_note (args : json) : tool (option string) :=
  match get_string args "title", get_string args "content" with
  | Some t, Some c => tool_create_note (Some t) (Some c) (get_string args "tags")
  | _, _ => safe_strdup "error: missing 'title' or 'content' parameter"
  end.

Definition td_list_notes (args : json) : tool (option string) :=
  tool_list_notes (get_string args "tag") (int_or args "limit" 20).

Definition td_search_notes (args : json) : tool (option string) :=
  match get_string args "query" with
  | None => safe_strdup "error: missing 'query' parameter"
  | Some q => tool_search_notes (Some q)
  end.

(** ** Background processes *)

(** [{"id":<id>,"status":"<status>"}]. *)
Definition id_status (id : Z) (status : string) : string :=
  snprintf 64 (jt "{'id':" +:+ fmt_d id +:+ jt ",'status':'" +:+ status +:+ jt "'}").

Definition td_run_background_process (args : json) : tool (option string) :=
  match get_string args "command" with
  | None => safe_strdup "error: missing 'command' parameter"
  | Some cmd =>
      let* root := call agent_tools_parent_write_guard_root in
      match root with
      | Some _ =>
          safe_strdup
            "error: background processes are blocked while the parent worktree is read-only"
      | None =>
          let* (id, err) := call (proc_start cmd (get_string args "cwd")) in
          let err := snprintf 256 err in
          if (id <Z 0) then safe_strdup (if err == "" then "error: proc_start failed" else err)
          else safe_strdup (id_status id "started")
      end
  end.

Definition OUTPUT_BUF : nat := Z.to_nat 131072.

Definition td_get_background_output (args : json) : tool (option string) :=
  match get_int args "id" with
  | None => safe_strdup "error: missing 'id' parameter"
  | Some id =>
      let* ok := call (malloc OUTPUT_BUF) in
      if negb ok then oom
      else
        let* out := call (proc_get_output id (int_or args "tail_lines" 50) OUTPUT_BUF) in
        Ret (Some out)
  end.

Definition td_kill_background_process (args : json) : tool (option string) :=
  match get_int args "id" with
  | None => safe_strdup "error: missing 'id' parameter"
  | Some id =>
      let* ok := call (proc_kill id) in
      safe_strdup
        (if ok then id_status id "killed"
         else snprintf 64 ("error: process id " +:+ fmt_d id +:+ " not found or already exited"))
  end.

Definition td_list_background_processes : tool (option string) :=
  let* ok := call (malloc (Z.to_nat 32768)) in
  if negb ok then safe_strdup "[]"
  else
    let* out := call (proc_list (Z.to_nat 32768)) in
    Ret (Some out).

(** ** Rules and learning *)

Definition td_rules_propose (args : json) : tool (option string) :=
  let text := get_string args "text" in
  if negb (nonempty text) then safe_strdup "error: missing or empty 'text' parameter" else
  let* id :=
    call (kb_client_collab_rules_propose (or_else text "") (or_else (get_string args "reason") "")
            "agent") in
  if (0 <=Z id) then
    safe_strdup (snprintf 128
      (jt "{'id':" +:+ fmt_d id
       +:+ jt ",'status':'proposed','message':'Rule proposed. Awaiting human approval.'}"))
  else safe_strdup "error: could not propose rule".

Definition td_rules_list : tool (option string) :=
  let* json := call kb_client_collab_rules_list_active_json in
  Ret (Some (or_else json (jt "{'epoch':0,'rules':[]}"))).

Definition td_learning_propose (args : json) : tool (option string) :=
  if negb (nonempty (get_string args "signal_type"))
  then safe_strdup "error: missing 'signal_type' parameter" else
  let* envelope := call (kb_client_learning_propose_signal_json args) in
  match envelope ≫= cJSON_Parse with
  | Some resp =>
      if or_else (get_string_cs resp "status") "" == "ok" then
        match cJSON_GetObjectItemCaseSensitive resp "dispatch" with
        | Some dispatch =>
            if cJSON_IsObject dispatch then Ret (cJSON_PrintUnformatted dispatch)
            else safe_strdup (jt "{'signal_id':0}")
        | None => safe_strdup (jt "{'signal_id':0}")
        end
      else safe_strdup "error: failed to record learning signal"
  | None => safe_strdup "error: failed to record learning signal"
  end.

Definition td_learning_review (args : json) : tool (option string) :=
  let state := get_string args "state" in
  let state := if nonempty state then or_else state "" else "pending" in
  let sink := get_string args "sink" in
  let sink := if nonempty sink then sink else None in
  let limit := int_or args "limit" 0 in
  let limit := if (0 <Z limit) then limit else 20%Z in
  let* json := call (kb_client_learning_list_proposals_json state sink limit) in
  match json ≫= cJSON_Parse with
  | None => safe_strdup "error: failed to list learning proposals"
  | Some resp =>
      match cJSON_GetObjectItemCaseSensitive resp "proposals" with
      | Some proposals =>
          if cJSON_IsArray proposals then Ret (cJSON_PrintUnformatted proposals)
          else safe_strdup "[]"
      | None => safe_strdup "[]"
      end
  end.

(** ** Clarification and diagnosis *)

(** [config_present() && db1_init(...) == 0]. *)
Definition storage_up : tool bool :=
  let* present := call config_present in
  if present : bool then call db1_init else Ret false.

Definition no_storage : tool (option string) :=
  safe_strdup "error: server storage unavailable".

Definition clarify_json (s : clarify_session_t) : tool (option string) :=
  Ret (Some (or_else (db1_clarify_to_json s) (jt "{'error':'serialisation failed'}"))).

Definition td_clarify_start (args : json) : tool (option string) :=
  let desc := get_string args "description" in
  if negb (nonempty desc) then safe_strdup "error: missing or empty 'description' parameter" else
  let* up := storage_up in
  if negb up then no_storage else
  let* s := call (db1_clarify_start (or_else desc "")) in
  match s with
  | None => safe_strdup "error: could not start clarification session"
  | Some s => clarify_json s
  end.

Definition td_clarify_answer (args : json) : tool (option string) :=
  let sid := int_or args "session_id" (-1) in
  let ans := get_string args "answer" in
  if (sid <Z 1) || negb (nonempty ans)
  then safe_strdup "error: require positive 'session_id' and non-empty 'answer'" else
  let* up := storage_up in
  if negb up then no_storage else
  let* s := call (db1_clarify_answer sid (or_else ans "")) in
  match s with
  | None => safe_strdup "error: could not record answer — session not found or not open"
  | Some s => clarify_json s
  end.

Definition td_diagnose_start (args : json) : tool (option string) :=
  let sym := get_string args "symptom" in
  if negb (nonempty sym) then safe_strdup "error: missing or empty 'symptom' parameter" else
  let* up := storage_up in
  if negb up then no_storage else
  let* id := call (db1_diagnose_start (or_else sym "")) in
  if (id <Z 0) then safe_strdup "error: could not start diagnosis"
  else safe_strdup (snprintf 96 (jt "{'diagnosis_id':" +:+ fmt_d id +:+ jt ",'status':'active'}")).

Definition item_id (err : string) (id : Z) : tool (option string) :=
  if (id <Z 0) then safe_strdup err
  else safe_strdup (snprintf 96 (jt "{'item_id':" +:+ fmt_d id +:+ "}")).

Definition td_diagnose_observe (args : json) (name : string) : tool (option string) :=
  let diag_id := int_or args "diagnosis_id" (-1) in
  let content := get_string args "content" in
  if (diag_id <Z 1) || negb (nonempty content)
  then safe_strdup "error: require positive 'diagnosis_id' and non-empty 'content'" else
  let* up := storage_up in
  if negb up then no_storage else
  let* id :=
    if name == "diagnose_observe"
    then call (db1_diagnose_add_observation diag_id (or_else content "")
                 (or_else (get_string args "source") ""))
    else call (db1_diagnose_add_hypothesis diag_id (or_else content "")) in
  item_id "error: could not record item" id.

Definition evidence_kind (stance : string) : option string :=
  if stance == "for" then Some "evidence_for"
  else if stance == "against" then Some "evidence_against" else None.

Definition evidence_rank (rank : option string) : Z :=
  match rank with
  | Some r =>
      if r == "direct" then DIAG_RANK_DIRECT
      else if (r == "log") || (r == "metric") then DIAG_RANK_LOG
      else if r == "code" then DIAG_RANK_CODE
      else if r == "speculation" then DIAG_RANK_SPECULATION
      else DIAG_RANK_CODE
  | None => DIAG_RANK_CODE
  end.

Definition td_diagnose_evidence (args : json) : tool (option string) :=
  let diag_id := int_or args "diagnosis_id" (-1) in
  let hyp_id := int_or args "hypothesis_id" (-1) in
  let stance := or_else (get_string args "stance") "" in
  let content := get_string args "content" in
  if (diag_id <Z 1) || (hyp_id <Z 1) || negb (nonempty content) || (stance == "")
  then safe_strdup
    "error: require positive ids, non-empty content, and stance ('for'|'against')" else
  match evidence_kind stance with
  | None => safe_strdup "error: stance must be 'for' or 'against'"
  | Some kind =>
      let* up := storage_up in
      if negb up then no_storage else
      let* id :=
        call (db1_diagnose_add_evidence diag_id hyp_id kind (or_else content "")
                (or_else (get_string args "source") "") (evidence_rank (get_string args "rank"))) in
      item_id "error: could not record evidence" id
  end.

Definition td_diagnose_status (args : json) : tool (option string) :=
  let diag_id := int_or args "diagnosis_id" (-1) in
  if (diag_id <Z 1) then safe_strdup "error: require positive 'diagnosis_id'" else
  let* up := storage_up in
  if negb up then no_storage else
  let* json := call (db1_diagnose_json_full diag_id) in
  Ret (Some (or_else json "error: diagnosis not found")).

(** ** Document search *)

Definition td_search_project (args : json) (dispatch_cwd : string) : tool (option string) :=
  let project := get_string_cs args "project" in
  if nonempty project then Ret project
  else if dispatch_cwd == "" then Ret None
  else
    let* id := call (workspace_repo_identity dispatch_cwd) in
    let id := snprintf MAX_PATH_LEN <$> id in
    Ret (if nonempty id then id else None).

(** [None]: not a scope; otherwise whether every project is searched. *)
Definition search_scope (args : json) : option bool :=
  match cJSON_GetObjectItemCaseSensitive args "scope" with
  | None => Some false
  | Some j =>
      match string_value j with
      | None => None
      | Some s => if s == "current" then Some false else if s == "all" then Some true else None
      end
  end.

(** The outcome capture over the hits of the response. *)
Definition capture_outcome (hits : option json) : tool unit :=
  let* on := call config_learning_implicit_retrieval_outcome in
  match hits with
  | Some hits =>
      if on && linked_retrieval_outcome_bridge && cJSON_IsArray hits then
        let docs := take 8 (td_extract_hit_docs hits 8) in
        if length docs =? 0 then Ret tt
        else
          let* ev := call (kb_client_ranker_emit_event (map fst docs)) in
          let ev := snprintf 64 <$> ev in
          if nonempty ev then call (retrieval_outcome_bridge_note (or_else ev "") docs) else Ret tt
      else Ret tt
  | None => Ret tt
  end.

Definition td_search_docs (args : json) (dispatch_cwd : string) : tool (option string) :=
  let q := get_string args "query" in
  if negb (nonempty q) then safe_strdup "error: missing 'query' parameter" else
  let q := or_else q "" in
  match search_scope args with
  | None => safe_strdup "error: scope must be 'current' or 'all'"
  | Some all_projects =>
      let* project := td_search_project args dispatch_cwd in
      match all_projects, project with
      | false, None =>
          safe_strdup "error: no active project determined from cwd; pass project or scope='all'"
      | _, _ =>
          let* ec := call config_embedder_command_current in
          let* envelope :=
            call (kb_client_search_json_scoped_ex project all_projects q
                    (if nonempty ec then ec else None) (int_or args "max_results" 3)) in
          let resp := envelope ≫= cJSON_Parse in
          let* _ :=
            capture_outcome (resp ≫= fun r => cJSON_GetObjectItemCaseSensitive r "hits") in
          Ret (td_search_result_from_response resp q)
      end
  end.
End KnowledgeHandlers.
