(* ===== verification/Dispatch.v ===== *)
(** The dispatcher: [dispatch_tool_call_ctx] and its parts
    ([agent_tools_dispatch.c]), with the completion hook of
    [agent_tools_completion.c].

    The static variables of the two files are the record [hooks]; a dispatch maps
    the state before it to the state after it and the result.  No handler
    re-enters the dispatcher on its thread (the source's invariant), so the four
    outcome carriers are threaded through one dispatch only. *)
From S2P Require Import Prelude CStr Wire Ext Prog Json Host TextOps FileTools QueryTools.
From S2P Require Import BashTool Anchored Handlers KnowledgeHandlers.
Local Open Scope tools_scope.

(** The statics: [g_td_*], [g_dispatch_role], and which hooks are installed. *)
Record hooks := {
  g_dispatch_role : string;
  g_td_verdict : string;
  g_td_reason : string;
  g_td_mode : string;
  g_td_explicit : bool;
  g_tool_classifier : bool;
  g_tool_event_cb : bool;
  g_completion_cb : bool;
}.

Definition set_outcome (h : hooks) (verdict reason mode : string) (explicit : bool) : hooks :=
  {| g_dispatch_role := g_dispatch_role h; g_td_verdict := verdict; g_td_reason := reason;
     g_td_mode := mode; g_td_explicit := explicit; g_tool_classifier := g_tool_classifier h;
     g_tool_event_cb := g_tool_event_cb h; g_completion_cb := g_completion_cb h |}.

Definition td_outcome_reset (h : hooks) : hooks := set_outcome h "ok" "" "internal" false.

Definition td_outcome_set (h : hooks) (verdict reason : string) : hooks :=
  set_outcome h verdict reason (g_td_mode h) true.

Definition td_set_mode (h : hooks) (mode : string) : hooks :=
  set_outcome h (g_td_verdict h) (g_td_reason h) mode (g_td_explicit h).

Definition agent_tools_set_dispatch_role (h : hooks) (role : option string) : hooks :=
  {| g_dispatch_role := if nonempty role then snprintf 64 (or_else role "") else "";
     g_td_verdict := g_td_verdict h; g_td_reason := g_td_reason h; g_td_mode := g_td_mode h;
     g_td_explicit := g_td_explicit h; g_tool_classifier := g_tool_classifier h;
     g_tool_event_cb := g_tool_event_cb h; g_completion_cb := g_completion_cb h |}.

Definition agent_tools_dispatch_role (h : hooks) : option string :=
  if g_dispatch_role h == "" then None else Some (g_dispatch_role h).

(** ** Shell commands that read aimee's own state *)

Definition command_word_matches (s word : string) : bool :=
  starts_with word s
  && (Ascii.eqb (char_at (strlen word) s) NUL || isspace (char_at (strlen word) s)).

(** The test of the text after one ["aimee "]. *)
Definition stale_subcommand (sub : string) : bool :=
  if starts_with "index " sub then
    negb (existsb (command_word_matches (sdrop 6 sub))
            ["overview"; "find"; "list"; "structure"; "callers"; "blast-radius"])
  else if starts_with "memory " sub then
    negb (existsb (command_word_matches (sdrop 7 sub)) ["search"; "list"; "get"; "read"])
  else
    command_word_matches sub "search" || command_word_matches sub "docs"
    || command_word_matches sub "mcp"
    || (starts_with "kb " sub && command_word_matches (sdrop 3 sub) "search").

Fixpoint stale_loop (fuel : nat) (p : string) : bool :=
  match fuel with
  | 0 => false
  | S fuel =>
      match strstr p "aimee " with
      | None => false
      | Some k =>
          let sub := sdrop (k + 6) p in
          if stale_subcommand sub then true else stale_loop fuel sub
      end
  end.

Definition command_uses_aimee_stale_context (command : option string) : bool :=
  match command with
  | Some c => stale_loop (S (strlen c)) c
  | None => false
  end.

Definition current_code_role_policy_error (role : option string) (detail : string) : string :=
  snprintf 256
    ("error: " +:+ or_else role "this" +:+ " delegates may only use current-checkout evidence; "
     +:+ detail).

Section Dispatch.
Context {E : Ext} {J : CJson} {L : Lib J}.

(** ** Hooks and outcome *)

Definition agent_tools_emit_tool_event (h : hooks) (phase name : string) : tool unit :=
  if g_tool_event_cb h then call (tool_event_cb phase name) else Ret tt.

Definition agent_tools_emit_tool_completion (h : hooks) (tool_ actor : string) : tool unit :=
  if g_completion_cb h
  then call (tool_completion_cb tool_ actor (g_td_verdict h) (g_td_reason h) (g_td_mode h))
  else Ret tt.

Definition is_exec_tool (h : hooks) (name : string) : tool bool :=
  if negb (g_tool_classifier h) then Ret false
  else
    let* (rc, classification) := call (tool_classifier name) in
    Ret ((rc =? 0)%Z && (classification =? class_value AIMEE_TOOL_CLASS_EXEC)%Z).

Definition td_classify_exec_result (h : hooks) (result : string) : hooks :=
  match cJSON_Parse result with
  | None => h
  | Some r =>
      if starts_with "refused:" (or_else (get_string r "stderr") "")
      then td_outcome_set h "refused" "policy"
      else if default false (cJSON_GetObjectItem r "exit_code" ≫= nonzero_value)
      then td_outcome_set h "error" "tool_error"
      else if or_else (get_string r "status") "" == "failed"
      then td_outcome_set h "error" "tool_error"
      else h
  end.

(** ** Arguments *)

Definition aliases : list (string * string) :=
  [("filepath", "path"); ("file_path", "path"); ("file", "path"); ("filename", "path");
   ("file_name", "path"); ("cmd", "command"); ("dir", "path"); ("directory", "path");
   ("msg", "message")].

Definition apply_alias (args : json) (a : string * string) : json :=
  match cJSON_GetObjectItem args a.1, cJSON_GetObjectItem args a.2 with
  | Some _, None =>
      match cJSON_DetachItemFromObject args a.1 with
      | Some (det, args) => cJSON_AddItemToObject args a.2 det
      | None => args
      end
  | _, _ => args
  end.

Definition int_fields : list string := ["offset"; "limit"; "count"; "max_results"].

Definition coerce_int (args : json) (field : string) : json :=
  match get_string args field with
  | Some s =>
      let '(v, end_) := strtol s in
      if (end_ == "") && negb (s == end_)
      then cJSON_ReplaceItemInObject args field (cJSON_CreateNumber v) else args
  | None => args
  end.

Definition normalize_args (args : json) : json :=
  fold_left coerce_int int_fields (fold_left apply_alias aliases args).

(** The schema-driven coercion. *)
Definition coerce_args (name : string) (args : json) : tool json :=
  let* schema := call (agent_tool_get_schema_cached name) in
  Ret (match schema with
       | Some schema => default args (tool_args_coerce schema args)
       | None => args
       end).

(** [cJSON_AddStringToObject(mapped, to, args[from])], for a string item. *)
Definition map_field (args : json) (mapped : json) (from to : string) : json :=
  match get_string args from with
  | Some s => cJSON_AddStringToObject mapped to s
  | None => mapped
  end.

Definition guardrail_input_json (name arguments_json : string) : string :=
  match cJSON_Parse arguments_json with
  | None => arguments_json
  | Some args =>
      let mapped := cJSON_CreateObject in
      let mapped :=
        if name == "bash" then Some (map_field args mapped "command" "command")
        else if name == "write_file" then Some (map_field args mapped "path" "file_path")
        else if name == "edit_file" then Some (map_field args mapped "path" "file_path")
        else if name == "execute_script" then
          Some (map_field args (map_field args mapped "body" "command") "workdir" "workdir")
        else if name == "read_file" then Some (map_field args mapped "path" "file_path")
        else None in
      match mapped with
      | Some mapped => or_else (cJSON_PrintUnformatted mapped) arguments_json
      | None => arguments_json
      end
  end.

(** The command text of the two shell tools. *)
Definition shell_text (name : string) (args : json) : option string :=
  if name == "bash" then get_string args "command"
  else if name == "execute_script" then get_string args "body"
  else None.

(** ** Refusals before the guardrail *)

Definition tool_dispatch_cancelled (bufsz : nat) : tool (option string) :=
  let* job :=
    if linked_durable_job_id && linked_job_is_cancelled then
      let* job_id := call agent_get_durable_job_id in
      if (0 <Z job_id) then
        let* c := call (db1_agent_job_is_cancelled job_id) in
        Ret (if c : bool then Some job_id else None)
      else Ret None
    else Ret None in
  match job with
  | Some id =>
      Ret (Some (snprintf bufsz
        ("error: delegate cancelled (job #" +:+ fmt_d id +:+ ") before tool execution")))
  | None => agent_delegation_stop_requested bufsz
  end.

Definition is_shell_tool (name : string) : bool := (name == "bash") || (name == "execute_script").

Definition shell_refusal : string :=
  "error: this delegate does not hold the `shell` permission, so it "
  +:+ "cannot run commands. Use the file and index tools, or give the role "
  +:+ "`shell` in its template's permissions block.".

Definition git_refusal : string :=
  "error: run git through aimee, not a shell — use git_status, git_log, "
  +:+ "git_diff, git_branch, git_commit, git_push or git_pr. They execute on "
  +:+ "aimee-server, which holds the forge credential; this shell has none, so a "
  +:+ "raw git/gh command cannot authenticate anyway. (Operator: "
  +:+ "require_aimee_git: false in aimee.yaml opts out.)".

(** A refusal: the reason code and the text. *)
Definition refusal : Type := string * string.

(** The permission and role checks. *)
Definition check_permissions (role : option string) (name : string) (args : json) :
    tool (option refusal) :=
  let* denied :=
    if is_shell_tool name then
      let* ok := call agent_tools_shell_allowed in Ret (negb ok)
    else Ret false in
  if denied : bool then Ret (Some ("permission", shell_refusal)) else
  let* allowed := call (agent_tools_tool_allowed_for_role role name) in
  if negb allowed then
    Ret (Some ("role", current_code_role_policy_error role
      ("indexed, memory, docs, notes, and remote MCP tools are " +:+ "disabled for this role")))
  else
  let* kw := call agent_tools_knowledge_write_allowed in
  if negb kw && command_uses_aimee_stale_context (shell_text name args) then
    Ret (Some ("role", current_code_role_policy_error role
      "mutating or broad aimee context commands are disabled for this role"))
  else Ret None.

Definition dispatch_cwd_of : tool string :=
  let* tl_cwd := call run_cmd_get_cwd in
  if nonempty tl_cwd then Ret (snprintf MAX_PATH_LEN (or_else tl_cwd ""))
  else
    let* cwd := call getcwd in
    Ret (snprintf MAX_PATH_LEN (or_else cwd "")).

(** The shell-git gate: true when the command is refused. *)
Definition git_gate_blocks (name : string) (args : json) (dispatch_cwd : string) : tool bool :=
  let* gate := call shell_git_gate_registered in
  match shell_text name args with
  | Some cmd => if gate : bool then call (shell_git_gate cmd dispatch_cwd) else Ret false
  | None => Ret false
  end.

(** ** The guardrail *)

(** The field a command rewrite goes to. *)
Definition rewritable_field (args : json) : option string :=
  match get_string args "command", get_string args "cmd", get_string args "body" with
  | Some _, _, _ => Some "command"
  | None, Some _, _ => Some "cmd"
  | None, None, Some _ => Some "body"
  | None, None, None => None
  end.

(** What the answer of [pre_tool_check] does to the arguments: a refusal text, or
    the arguments the tool runs with. *)
Definition apply_verdict (rc : Z) (msg : string) (args : json) : string + json :=
  if (rc =? 1)%Z && negb (msg == "") then
    match cJSON_GetObjectItem args "file_path" with
    | Some _ => inr (set_item_string args "file_path" msg)
    | None =>
        match cJSON_GetObjectItem args "path" with
        | Some _ => inr (set_item_string args "path" msg)
        | None => inr args
        end
    end
  else if (rc =? 3)%Z && negb (msg == "") then
    match rewritable_field args with
    | Some field => inr (set_item_string args field msg)
    | None =>
        inl ("error: guardrail requires a worktree rewrite but the tool carries "
             +:+ "no rewritable command field")
    end
  else if negb (rc =? 0)%Z then
    inl (snprintf 1200 ("error: guardrail blocked: " +:+ msg))
  else inr args.

Definition guardrail (name arguments_json : string) (args : json) (dispatch_cwd : string)
    (dispatch_sid : option string) : tool (string + json) :=
  let* _ := call db1_init in
  let* state := call (session_state_load dispatch_sid) in
  let state := set_is_delegate state in
  let gr_input := guardrail_input_json name arguments_json in
  let* mode := call config_guardrail_mode in
  let* (rc, msg, state) := call (pre_tool_check name gr_input state mode dispatch_cwd) in
  let* _ := call (session_state_save state dispatch_sid) in
  Ret (apply_verdict rc (snprintf 1024 msg) args).

(** ** Routing *)

(** The branch of a namespaced tool, [<client>:<tool>]. *)
Definition dispatch_remote (h : hooks) (name : string) (args : json) (timeout_ms : Z) :
    tool (hooks * option string) :=
  let* transport := call (mcp_client_registry_transport_kind name) in
  let h := td_set_mode h
    match transport with
    | MCP_TRANSPORT_STDIO => "outbound:stdio"
    | MCP_TRANSPORT_SSE => "outbound:sse"
    | MCP_TRANSPORT_OTHER => "outbound"
    end in
  let clen := default 0 (strchr name ":") in
  let* local :=
    if (0 <b clen) && (clen <b 128) then call (mcp_client_registry_get (stake clen name))
    else Ret false in
  let* remote :=
    if local : bool then call (mcp_client_registry_call_tool name args timeout_ms)
    else call (kb_client_mcp_call name args timeout_ms (agent_tools_dispatch_role h)) in
  match remote with
  | inl err =>
      let err := snprintf 256 err in
      Ret (td_outcome_set h "error" "tool_error",
           Some (snprintf 384
             ("error: " +:+ (if local : bool then "remote" else "kb-hosted")
              +:+ " mcp tool failed: " +:+ (if err == "" then "unknown error" else err))))
  | inr result =>
      Ret (h, Some (or_else (cJSON_PrintUnformatted result)
                      (jt "{'error':'failed to serialize remote tool result'}")))
  end.

Definition unknown_tool (h : hooks) (name : string) : tool (hooks * option string) :=
  let* suggestion := call (tool_suggest name) in
  Ret (td_outcome_set h "error" "unknown_tool",
       Some (snprintf 256
         match suggestion with
         | Some s => "error: unknown tool '" +:+ name +:+ "'. Did you mean '" +:+ s +:+ "'?"
         | None => "error: unknown tool '" +:+ name +:+ "'"
         end)).

Definition git_write_names : list string := ["git_commit"; "git_push"; "git_branch"; "git_pr"].

(** The native tools, in the order of the comparisons. *)
Definition native_tool (fuel : nat) (name : string) (args : json) (dispatch_cwd : string)
    (dispatch_sid : option string) (timeout_ms : Z) : option (tool (option string)) :=
  if name == "bash" then Some (td_bash fuel args timeout_ms)
  else if name == "execute_script" then Some (td_execute_script args)
  else if name == "read_file" then Some (td_read_file args dispatch_cwd dispatch_sid)
  else if name == "tool_output_get" then Some (td_tool_output_get args)
  else if name == "edit_file" then Some (td_edit_file args dispatch_cwd dispatch_sid)
  else if name == "write_file" then Some (td_write_file args dispatch_cwd dispatch_sid)
  else if name == "list_files" then Some (td_list_files args)
  else if name == "verify" then Some (td_verify args)
  else if name == "git_log" then Some (td_git_log args dispatch_cwd)
  else if name == "grep" then Some (td_grep args)
  else if name == "git_diff" then Some (td_git_diff args dispatch_cwd)
  else if name == "git_status" then Some (td_git_status args dispatch_cwd)
  else if in_list name git_write_names then Some (td_git_write args name dispatch_cwd dispatch_sid)
  else if name == "env_get" then Some (td_env_get args)
  else if name == "test" then Some (td_test args)
  else if name == "request_input" then Some (td_request_input args)
  else if name == "code_search" then Some (td_code_search args)
  else if name == "find_symbol" then Some (td_find_symbol args)
  else if name == "read_symbol" then Some (td_read_symbol args)
  else if name == "run_tests" then Some (td_run_tests fuel args timeout_ms)
  else if name == "edit_symbol" then Some (td_edit_symbol args dispatch_cwd dispatch_sid)
  else if name == "search_memory" then Some (td_search_memory args)
  else if name == "web_search" then Some (td_web_search args)
  else if name == "web_read" then Some (td_web_read args)
  else if name == "create_note" then Some (td_create_note args)
  else if name == "list_notes" then Some (td_list_notes args)
  else if name == "search_notes" then Some (td_search_notes args)
  else if name == "run_background_process" then Some (td_run_background_process args)
  else if name == "get_background_output" then Some (td_get_background_output args)
  else if name == "kill_background_process" then Some (td_kill_background_process args)
  else if name == "list_background_processes" then Some td_list_background_processes
  else if name == "rules_propose" then Some (td_rules_propose args)
  else if name == "rules_list" then Some td_rules_list
  else if name == "learning_propose" then Some (td_learning_propose args)
  else if name == "learning_review" then Some (td_learning_review args)
  else if name == "clarify_start" then Some (td_clarify_start args)
  else if name == "clarify_answer" then Some (td_clarify_answer args)
  else if name == "diagnose_start" then Some (td_diagnose_start args)
  else if (name == "diagnose_observe") || (name == "diagnose_hypothesize")
  then Some (td_diagnose_observe args name)
  else if name == "diagnose_evidence" then Some (td_diagnose_evidence args)
  else if name == "diagnose_status" then Some (td_diagnose_status args)
  else if name == "search_docs" then Some (td_search_docs args dispatch_cwd)
  else None.

Definition route (fuel : nat) (h : hooks) (name : string) (args : json) (dispatch_cwd : string)
    (dispatch_sid : option string) (timeout_ms : Z) : tool (hooks * option string) :=
  match native_tool fuel name args dispatch_cwd dispatch_sid timeout_ms with
  | Some t =>
      let* result := t in
      Ret (h, result)
  | None =>
      if has_char name ":" then dispatch_remote h name args timeout_ms
      else
        let* derived := call (agent_tools_is_mcp_derived name) in
        if derived : bool then
          let* result := td_mcp_tool args name dispatch_sid in
          Ret (h, result)
        else unknown_tool h name
  end.

(** ** The dispatcher *)

Definition refuse (h : hooks) (reason text : string) : tool (hooks * option string) :=
  Ret (td_outcome_set h "refused" reason, Some text).

(** From the normalised arguments: the permission checks, the git gate, the
    guardrail, the tool. *)
Definition dispatch_checked (fuel : nat) (h : hooks) (name arguments_json : string) (args : json)
    (timeout_ms : Z) : tool (hooks * option string) :=
  let* refused := check_permissions (agent_tools_dispatch_role h) name args in
  match refused with
  | Some (reason, text) => refuse h reason text
  | None =>
      let* dispatch_sid := call session_id in
      let* dispatch_cwd := dispatch_cwd_of in
      let* gated := git_gate_blocks name args dispatch_cwd in
      if gated : bool then refuse h "policy" git_refusal else
      let* verdict := guardrail name arguments_json args dispatch_cwd dispatch_sid in
      match verdict with
      | inl text => refuse h "guardrail" text
      | inr args => route fuel h name args dispatch_cwd dispatch_sid timeout_ms
      end
  end.

Definition dispatch_tool_call_ctx_inner (fuel : nat) (h : hooks) (name arguments_json : string)
    (timeout_ms : Z) : tool (hooks * option string) :=
  match cJSON_Parse arguments_json with
  | None => Ret (td_outcome_set h "error" "bad_args", Some "error: invalid arguments JSON")
  | Some args =>
      let* cancel_msg := tool_dispatch_cancelled 128 in
      match cancel_msg with
      | Some msg => refuse h "cancelled" msg
      | None =>
          let* args := coerce_args name (normalize_args args) in
          dispatch_checked fuel h name arguments_json args timeout_ms
      end
  end.

(** The outcome of a call whose return path did not set one. *)
Definition classify_result (h : hooks) (name : string) (result : option string) : tool hooks :=
  match result with
  | None => Ret h
  | Some r =>
      let* exec := if g_td_explicit h then Ret false else is_exec_tool h name in
      let h := if exec : bool then td_classify_exec_result h r else h in
      Ret (if g_td_explicit h then h
           else if starts_with "error: timeout" r then td_outcome_set h "timeout" "timeout"
           else if starts_with "error: timed out" r then td_outcome_set h "timeout" "timeout"
           else if starts_with "error:" r then td_outcome_set h "error" "tool_error"
           else h)
  end.

Definition dispatch_tool_call_ctx (fuel : nat) (h : hooks) (name arguments_json : string)
    (timeout_ms : Z) : tool (hooks * option string) :=
  let* _ := agent_tools_emit_tool_event h "started" name in
  let* (h, result) :=
    dispatch_tool_call_ctx_inner fuel (td_outcome_reset h) name arguments_json timeout_ms in
  let* _ := agent_tools_emit_tool_event h "completed" name in
  let* h := classify_result h name result in
  let* who := call session_id in
  let* _ :=
    agent_tools_emit_tool_completion h name (if nonempty who then or_else who "" else "tool") in
  Ret (h, result).

Definition dispatch_tool_call (fuel : nat) (h : hooks) (name arguments_json : string)
    (timeout_ms : Z) : tool (hooks * option string) :=
  dispatch_tool_call_ctx fuel h name arguments_json timeout_ms.
End Dispatch.
