(* ===== verification/DispatchFacts.v ===== *)
(** Facts about whole dispatches: which calls the handlers make, in which order,
    and what the outcome says. *)
From S2P Require Import Prelude CStr Wire Ext Prog Json Host TextOps FileTools QueryTools.
From S2P Require Import BashTool Anchored Handlers KnowledgeHandlers Dispatch.
Local Open Scope tools_scope.

Section Loops.
Context {E : Ext} {J : CJson} {L : Lib J}.

Definition head_read_call (q : req) : bool := match q with http_read _ _ => true | _ => false end.

Lemma head_read_calls fuel tls resp : avoids (fun q => negb (head_read_call q)) (head_read fuel tls resp).
Proof. revert resp. induction fuel as [|fuel IH]; intros resp; cbn [head_read]; solve_avoids. Qed.

Definition code_hits_call (q : req) : bool :=
  match q with agent_source_add_index_freshness _ _ _ => true | _ => false end.

Lemma code_hits_calls hits arr : avoids (fun q => negb (code_hits_call q)) (code_hits arr hits).
Proof. revert arr. induction hits as [|h hits IH]; intros arr; cbn [code_hits]; solve_avoids. Qed.

Definition anchored_call (q : req) : bool :=
  match q with
  | run_cmd_get_cwd | guardrails_validate_file_path _ | workspace_provider_active
  | ws_read_all _ | anchor_snapshot_create _ _ => true
  | _ => false
  end.

Lemma anchored_rows_calls hits last ls out :
  avoids (fun q => negb (anchored_call q)) (anchored_rows hits last ls out).
Proof.
  revert last ls out. induction hits as [|h hits IH]; intros last ls out; cbn [anchored_rows];
    solve_avoids.
Qed.

Definition poll_call (q : req) : bool :=
  match q with
  | clock_gettime | agent_get_durable_job_id | db1_agent_job_is_cancelled _
  | delegation_active_id | db1_delegation_spawn_stop_reason _ | select _ _ _
  | malloc _ | read_stdout _ | read_stderr _ => true
  | _ => false
  end.

Lemma poll_loop_calls fuel deadline rawcap out err :
  avoids (fun q => negb (poll_call q)) (poll_loop fuel deadline rawcap out err).
Proof.
  revert out err. induction fuel as [|fuel IH]; intros out err; cbn [poll_loop]; solve_avoids.
Qed.
End Loops.

#[export] Hint Extern 1 (avoids _ (head_read _ _ _)) =>
  apply (avoids_alphabet head_read_call); [apply head_read_calls | by intros []] : avoids.
#[export] Hint Extern 1 (avoids _ (code_hits _ _)) =>
  apply (avoids_alphabet code_hits_call); [apply code_hits_calls | by intros []] : avoids.
#[export] Hint Extern 1 (avoids _ (anchored_rows _ _ _ _)) =>
  apply (avoids_alphabet anchored_call); [apply anchored_rows_calls | by intros []] : avoids.
#[export] Hint Extern 1 (avoids _ (poll_loop _ _ _ _ _)) =>
  apply (avoids_alphabet poll_call); [apply poll_loop_calls | by intros []] : avoids.

(** Case analysis on the table of native tools: a goal about the tool it gives
    becomes one per handler, which [solve_avoids] proves. *)
Ltac native_cases :=
  unfold native_tool;
  repeat match goal with
  | |- (if ?b then _ else _) = Some _ -> _ => destruct b
  end;
  lazymatch goal with
  | |- None = Some _ -> _ => done
  | |- Some _ = Some _ -> _ => let H := fresh in intros H; injection H as <-; solve_avoids
  end.

Section Alphabets.
Context {E : Ext} {J : CJson} {L : Lib J}.

(** The calls that report a dispatch to the server. *)
Definition hook_call (q : req) : bool :=
  match q with tool_event_cb _ _ | tool_completion_cb _ _ _ _ _ => true | _ => false end.

Lemma native_silent fuel name args cwd sid timeout_ms t :
  native_tool fuel name args cwd sid timeout_ms = Some t -> avoids hook_call t.
Proof. native_cases. Qed.

Lemma route_silent fuel h name args cwd sid timeout_ms :
  avoids hook_call (route fuel h name args cwd sid timeout_ms).
Proof.
  unfold route. destruct (native_tool _ _ _ _ _ _) eqn:N.
  - apply avoids_seq; [by eapply native_silent | done].
  - solve_avoids.
Qed.

#[local] Hint Resolve route_silent : avoids.

Lemma inner_silent fuel h name arguments_json timeout_ms :
  avoids hook_call (dispatch_tool_call_ctx_inner fuel h name arguments_json timeout_ms).
Proof. solve_avoids. Qed.
End Alphabets.

Section Outcome.
Context {E : Ext} {J : CJson} {L : Lib J}.

(** The pairs of verdict and reason code a completion may carry, and the modes. *)
Definition outcome_table : list (string * string) :=
  [("ok", ""); ("error", "tool_error"); ("error", "unknown_tool"); ("error", "bad_args");
   ("timeout", "timeout"); ("refused", "guardrail"); ("refused", "role");
   ("refused", "cancelled"); ("refused", "policy"); ("refused", "permission")].

Definition mode_table : list string := ["internal"; "outbound"; "outbound:stdio"; "outbound:sse"].

Definition outcome_ok (h : hooks) : bool :=
  existsb (fun p => (p.1 == g_td_verdict h) && (p.2 == g_td_reason h)) outcome_table
  && in_list (g_td_mode h) mode_table.

(** What a dispatch leaves as it found it. *)
Definition same_hooks (h h' : hooks) : Prop :=
  g_dispatch_role h' = g_dispatch_role h /\ g_tool_classifier h' = g_tool_classifier h /\
  g_tool_event_cb h' = g_tool_event_cb h /\ g_completion_cb h' = g_completion_cb h.

Definition well_formed (h h' : hooks) : Prop := same_hooks h h' /\ outcome_ok h' = true.

Lemma same_refl h : same_hooks h h.
Proof. done. Qed.

Lemma refuse_ok h verdict reason :
  existsb (fun p => (p.1 == verdict) && (p.2 == reason)) outcome_table = true ->
  outcome_ok h = true -> well_formed h (td_outcome_set h verdict reason).
Proof.
  intros Ht Hh. apply andb_true_iff in Hh as [_ Hm]. split; [done|].
  unfold outcome_ok. cbn -[outcome_table mode_table]. by rewrite Ht, Hm.
Qed.

Lemma remote_ok h name args timeout_ms :
  outcome_ok h = true ->
  returns (dispatch_remote h name args timeout_ms) (fun r => well_formed h r.1).
Proof.
  intros Hh. apply andb_true_iff in Hh as [Ht _]. unfold dispatch_remote.
  apply returns_seq. intros tr. apply returns_seq. intros local. apply returns_seq. intros [err|res].
  - cbn [returns fst]. split; [done|]. by destruct tr.
  - cbn [returns fst]. split; [done|]. unfold outcome_ok, td_set_mode.
    cbn -[outcome_table mode_table]. rewrite Ht. by destruct tr.
Qed.

Lemma route_ok fuel h name args cwd sid timeout_ms :
  outcome_ok h = true ->
  returns (route fuel h name args cwd sid timeout_ms) (fun r => well_formed h r.1).
Proof.
  intros Hh. unfold route. destruct (native_tool _ _ _ _ _ _).
  { apply returns_seq. intros r. by cbn. }
  destruct (has_char name ":"); [by apply remote_ok|].
  apply returns_seq. intros [|]; [apply returns_seq; intros r; by cbn|].
  apply returns_seq. intros s. cbn [returns fst]. by apply refuse_ok.
Qed.

Lemma permissions_reason role name args :
  returns (check_permissions role name args)
    (fun r => match r with Some (reason, _) => reason = "permission" \/ reason = "role" | None => True end).
Proof.
  unfold check_permissions. apply returns_seq. intros [|]; [cbn; auto|].
  apply returns_seq. intros ok. destruct (negb _); [cbn; auto|].
  apply returns_seq. intros kw. destruct (_ && _)%bool; cbn; auto.
Qed.

Lemma checked_ok fuel h name arguments_json args timeout_ms :
  outcome_ok h = true ->
  returns (dispatch_checked fuel h name arguments_json args timeout_ms)
    (fun r => well_formed h r.1).
Proof.
  intros Hh. unfold dispatch_checked. apply returns_bind.
  eapply returns_mono; [|apply permissions_reason].
  intros [[reason text]|] Hr; [cbn; destruct Hr as [->| ->]; by apply refuse_ok|].
  do 3 (apply returns_seq; intro). destruct a1; [cbn; by apply refuse_ok|].
  apply returns_seq. intros [text|args']; [cbn; by apply refuse_ok | by apply route_ok].
Qed.

Lemma inner_ok fuel h name arguments_json timeout_ms :
  outcome_ok h = true ->
  returns (dispatch_tool_call_ctx_inner fuel h name arguments_json timeout_ms)
    (fun r => well_formed h r.1).
Proof.
  intros Hh. unfold dispatch_tool_call_ctx_inner. destruct (cJSON_Parse _); [|cbn; by apply refuse_ok].
  apply returns_seq. intros [msg|]; [cbn; by apply refuse_ok|].
  apply returns_seq. intros args. by apply checked_ok.
Qed.

Lemma exec_result_ok h r : outcome_ok h = true -> well_formed h (td_classify_exec_result h r).
Proof.
  intros Hh. unfold td_classify_exec_result. destruct (cJSON_Parse r); [|done].
  repeat case_if; first [by apply refuse_ok | done].
Qed.

Lemma classify_ok h name result :
  outcome_ok h = true -> returns (classify_result h name result) (well_formed h).
Proof.
  intros Hh. unfold classify_result. destruct result as [r|]; [|by cbn].
  apply returns_seq. intros exec.
  assert (H : well_formed h (if exec then td_classify_exec_result h r else h))
    by (destruct exec; [by apply exec_result_ok | done]).
  cbv zeta. revert H. generalize (if exec then td_classify_exec_result h r else h).
  intros h' [Hs Ho]. cbn [returns].
  assert (Hset : forall v x, existsb (fun p => (p.1 == v) && (p.2 == x)) outcome_table = true ->
                 well_formed h (td_outcome_set h' v x)).
  { intros v x Hv. destruct (refuse_ok h' v x Hv Ho) as [_ ?]. split; [exact Hs | done]. }
  repeat case_if; first [by apply Hset | done].
Qed.
End Outcome.
