(* ===== verification/DispatchProps.v ===== *)
(** The dispatcher's properties: the order of the calls of a dispatch, the
    outcome it reports, what the guardrail and the permissions stop. *)
From S2P Require Import Prelude CStr Wire Ext Prog Json Host Demo TextOps FileTools QueryTools.
From S2P Require Import BashTool Anchored Handlers KnowledgeHandlers Dispatch DispatchFacts.
Local Open Scope tools_scope.

(** The environment of the witnesses. *)
Definition demo_hooks : hooks :=
  {| g_dispatch_role := ""; g_td_verdict := ""; g_td_reason := ""; g_td_mode := "";
     g_td_explicit := false; g_tool_classifier := true; g_tool_event_cb := true;
     g_completion_cb := true |}.

Section Props.
Context {E : Ext} {J : CJson} {L : Lib J}.

(** ** Framing *)

(** The calls of a trace that report to the server. *)
Definition hook_calls (t : list (step answer)) : list req :=
  List.filter hook_call (calls t).

Lemma hook_calls_app t t' : hook_calls (t ++ t') = hook_calls t ++ hook_calls t'.
Proof. unfold hook_calls, calls. rewrite map_app. apply List.filter_app. Qed.

Lemma hook_calls_silent {A} (p : tool A) o h : avoids hook_call p -> hook_calls (run o h p).1 = [].
Proof.
  intros H. pose proof (avoids_run _ p H o h) as Hf. unfold hook_calls, calls.
  induction Hf as [|s t Hs Ht IH]; [done|]. cbn. by rewrite Hs.
Qed.

Lemma classify_silent h name r : avoids hook_call (classify_result h name r).
Proof. solve_avoids. Qed.

Lemma event_calls o hs h phase name :
  hook_calls (run o hs (agent_tools_emit_tool_event h phase name)).1 =
  if g_tool_event_cb h then [tool_event_cb phase name] else [].
Proof. unfold agent_tools_emit_tool_event. by destruct (g_tool_event_cb h). Qed.

Lemma completion_calls o hs h name actor :
  hook_calls (run o hs (agent_tools_emit_tool_completion h name actor)).1 =
  if g_completion_cb h
  then [tool_completion_cb name actor (g_td_verdict h) (g_td_reason h) (g_td_mode h)] else [].
Proof. unfold agent_tools_emit_tool_completion. by destruct (g_completion_cb h). Qed.

Lemma reset_ok h : outcome_ok (td_outcome_reset h) = true.
Proof. done. Qed.

Lemma well_formed_trans h h1 h2 : well_formed h h1 -> well_formed h1 h2 -> well_formed h h2.
Proof.
  intros [(A & B & C & D) _] [(A' & B' & C' & D') Ho]. split; [|done]. unfold same_hooks.
  split_and!; congruence.
Qed.

(** C4: a dispatch with both hooks installed reports, whatever the tool does and
    on every return path, exactly three times: "started" first, "completed"
    after the tool, and one completion last, whose verdict, reason code and mode
    are those of the final state; and the hooks themselves are unchanged. *)
Theorem dispatch_framing (fuel : nat) (h : hooks) (name arguments_json : string) (timeout_ms : Z)
    (o : oracle answer)
  (Hev : g_tool_event_cb h = true) (Hcb : g_completion_cb h = true) :
  let r := run o [] (dispatch_tool_call_ctx fuel h name arguments_json timeout_ms) in
  exists actor,
    hook_calls r.1 =
      [tool_event_cb "started" name; tool_event_cb "completed" name;
       tool_completion_cb name actor (g_td_verdict r.2.1) (g_td_reason r.2.1) (g_td_mode r.2.1)] /\
    same_hooks h r.2.1.
Proof.
  cbv zeta. unfold dispatch_tool_call_ctx. rewrite run_bind. cbn [fst snd].
  rewrite hook_calls_app, event_calls, Hev. rewrite run_bind. cbn [fst snd].
  set (hs := hist _ _). set (inner := dispatch_tool_call_ctx_inner _ _ _ _ _).
  pose proof (inner_ok fuel _ name arguments_json timeout_ms (reset_ok h)) as Hw. fold inner in Hw.
  pose proof (returns_run inner _ Hw o hs) as Hw'. clear Hw.
  rewrite hook_calls_app, (hook_calls_silent inner) by apply inner_silent.
  destruct (run o hs inner) as [t1 [h1 result]]. cbn [fst snd] in *.
  rewrite !run_bind. cbn [fst snd]. rewrite !hook_calls_app, event_calls.
  set (hs2 := hist _ _).
  pose proof Hw' as [(_ & _ & -> & _) Ho1].
  change (g_tool_event_cb (td_outcome_reset h)) with (g_tool_event_cb h). rewrite Hev.
  pose proof (returns_run _ _ (classify_ok h1 name result Ho1) o hs2) as Hc.
  rewrite (hook_calls_silent (classify_result h1 name result)) by apply classify_silent.
  destruct (run o hs2 _) as [t2 h2]. cbn [fst snd] in *.
  destruct (well_formed_trans _ _ _ Hw' Hc) as [(Er & Ec & Ee & Eb) _].
  rewrite (hook_calls_silent (call session_id)) by (by apply avoids_call).
  rewrite completion_calls, Eb.
  change (g_completion_cb (td_outcome_reset h)) with (g_completion_cb h). rewrite Hcb.
  eexists. split; [reflexivity|]. done.
Qed.

(** C11: whatever the tool and the environment do, the verdict and the reason code
    of a dispatch are one of ten pairs and its mode one of four, and the role and
    the hooks are left as they were.  The pair ("refused", "permission") is among
    them, a reason code the header does not list. *)
Theorem outcome_vocabulary (fuel : nat) (h : hooks) (name arguments_json : string)
    (timeout_ms : Z) (o : oracle answer) :
  let h' := (run o [] (dispatch_tool_call_ctx fuel h name arguments_json timeout_ms)).2.1 in
  (g_td_verdict h', g_td_reason h') ∈ outcome_table /\ g_td_mode h' ∈ mode_table /\
  same_hooks h h'.
Proof.
  cbv zeta. assert (H : returns (dispatch_tool_call_ctx fuel h name arguments_json timeout_ms)
    (fun r => well_formed h r.1)).
  { unfold dispatch_tool_call_ctx. apply returns_seq. intros _. apply returns_bind.
    eapply returns_mono; [|apply (inner_ok fuel _ name arguments_json timeout_ms (reset_ok h))].
    intros [h1 r] Hw. apply returns_seq. intros _. apply returns_bind.
    eapply returns_mono; [|apply (classify_ok h1 name r (proj2 Hw))].
    intros h2 Hw2. do 2 (apply returns_seq; intro). cbn.
    exact (well_formed_trans (td_outcome_reset h) h1 h2 Hw Hw2). }
  destruct (returns_run _ _ H o []) as [Hs Ho]. apply andb_true_iff in Ho as [Ho Hm].
  split_and!; [|by apply in_list_spec | exact Hs].
  apply existsb_exists in Ho as ([v r] & Hin & Heq). apply andb_true_iff in Heq as [Hv Hr].
  apply String.eqb_eq in Hv, Hr. cbn in Hv, Hr. rewrite <- Hv, <- Hr. by apply list_elem_of_In.
Qed.

(** ** The guardrail comes first *)

(** The calls the dispatcher makes for itself; every other call is a tool's. *)
Definition dispatcher_call (q : req) : bool :=
  match q with
  | agent_get_durable_job_id | db1_agent_job_is_cancelled _ | delegation_active_id
  | db1_delegation_spawn_stop_reason _ | agent_tool_get_schema_cached _
  | agent_tools_shell_allowed | agent_tools_tool_allowed_for_role _ _
  | agent_tools_knowledge_write_allowed | session_id | run_cmd_get_cwd | getcwd
  | shell_git_gate_registered | shell_git_gate _ _ | db1_init | session_state_load _
  | session_state_save _ _ | config_guardrail_mode | pre_tool_check _ _ _ _ _
  | tool_event_cb _ _ | tool_classifier _ | tool_completion_cb _ _ _ _ _ => true
  | _ => false
  end.

Definition tool_call (q : req) : bool := negb (dispatcher_call q).

(** An answer of the guardrail with which the dispatch goes on to the tool: 0, or
    1 or 3 with a rewrite. *)
Definition proceeds (rc : Z) (msg : string) : bool :=
  (rc =? 0)%Z || (((rc =? 1)%Z || (rc =? 3)%Z) && negb (msg == "")).

(** A step of the trace where the guardrail was asked about [name] and did not
    refuse it. *)
Definition guardrail_pass (name : string) (s : step answer) : bool :=
  match asked s as q return answer q -> bool with
  | pre_tool_check n _ _ _ _ => fun r => (n == name) && proceeds r.1.1 (snprintf 1024 r.1.2)
  | _ => fun _ => false
  end (got s).

Lemma apply_verdict_proceeds rc msg args args' :
  apply_verdict rc msg args = inr args' -> proceeds rc msg = true.
Proof.
  unfold apply_verdict, proceeds. destruct (rc =? 1)%Z, (rc =? 3)%Z, (rc =? 0)%Z, (msg == ""); done.
Qed.

Lemma checked_guarded fuel h name arguments_json args timeout_ms :
  guarded (guardrail_pass name) tool_call
    (dispatch_checked fuel h name arguments_json args timeout_ms).
Proof.
  unfold dispatch_checked. apply guarded_seq; [apply guarded_avoids; solve_avoids|].
  intros [[reason text]|]; [done|].
  apply guarded_seq; [apply guarded_avoids; solve_avoids|]. intros sid.
  apply guarded_seq; [apply guarded_avoids; solve_avoids|]. intros cwd.
  apply guarded_seq; [apply guarded_avoids; solve_avoids|]. intros [|]; [done|].
  cbn [guardrail bind call ask guarded]. split; [done|]. intros up. right.
  split; [done|]. intros st. right. split; [done|]. intros mode. right. split; [done|].
  intros [[rc msg] st']. unfold guardrail_pass. cbn [asked got fst snd].
  rewrite String.eqb_refl. cbn [andb].
  destruct (proceeds rc (snprintf 1024 msg)) eqn:P; [by left | right].
  cbn [bind call ask guarded]. split; [done|]. intros u. right.
  destruct (apply_verdict _ _ _) eqn:V; [done|].
  apply apply_verdict_proceeds in V. congruence.
Qed.

(** C1: no call of a tool, of any kind, is made before the guardrail was asked
    about this tool and answered that it may run (as it is or rewritten): in
    every run of the dispatcher, a call other than the dispatcher's own comes
    after such an answer. *)
Theorem guardrail_first (fuel : nat) (h : hooks) (name arguments_json : string) (timeout_ms : Z)
    (o : oracle answer) :
  preceded (guardrail_pass name) tool_call
    (run o [] (dispatch_tool_call_ctx fuel h name arguments_json timeout_ms)).1.
Proof.
  apply guarded_run. unfold dispatch_tool_call_ctx.
  apply guarded_seq; [apply guarded_avoids; solve_avoids|]. intros _.
  apply guarded_seq.
  - unfold dispatch_tool_call_ctx_inner. destruct (cJSON_Parse _); [|done].
    apply guarded_seq; [apply guarded_avoids; solve_avoids|]. intros [msg|]; [done|].
    apply guarded_seq; [apply guarded_avoids; solve_avoids|]. intros args.
    apply checked_guarded.
  - intros [h1 r]. apply guarded_avoids. solve_avoids.
Qed.

(** ** The shell permission *)

(** A refused dispatch: the guardrail is not reached and nothing is run. *)
Definition beyond_permissions (q : req) : bool :=
  match q with pre_tool_check _ _ _ _ _ => true | q => tool_call q end.

Lemma cancelled_inside : avoids beyond_permissions (tool_dispatch_cancelled 128).
Proof. solve_avoids. Qed.

(** The answers of an environment that withholds the permission. *)
Definition shell_withheld (s : step answer) : Prop :=
  match asked s as q return answer q -> Prop with
  | agent_tools_shell_allowed => fun r => r = false
  | _ => fun _ => True
  end (got s).

(** C6: when the [shell] permission is withheld, a dispatch of [bash] or
    [execute_script] runs nothing and does not reach the guardrail; it ends with
    the reason "permission" unless the arguments were not JSON or the delegate
    was cancelled. *)
Theorem shell_permission_binds (fuel : nat) (h : hooks) (name arguments_json : string)
    (timeout_ms : Z) (o : oracle answer)
  (Hname : name = "bash" \/ name = "execute_script") (Ho : answers shell_withheld o) :
  let r := run o [] (dispatch_tool_call_ctx_inner fuel h name arguments_json timeout_ms) in
  Forall (fun s => beyond_permissions (asked s) = false) r.1 /\
  g_td_explicit r.2.1 = true /\
  g_td_reason r.2.1 ∈ ["bad_args"; "cancelled"; "permission"].
Proof.
  cbv zeta. unfold dispatch_tool_call_ctx_inner.
  assert (Hs : is_shell_tool name = true) by (by destruct Hname as [-> | ->]). split.
  - apply (within_run shell_withheld); [|done]. destruct (cJSON_Parse _); [|done].
    apply within_seq; [apply avoids_within, cancelled_inside|]. intros [msg|]; [done|].
    apply within_seq; [apply avoids_within; solve_avoids|]. intros args.
    unfold dispatch_checked, check_permissions. rewrite Hs. cbn. split; [done|].
    intros r ->. cbn. done.
  - apply (returns_within_run shell_withheld); [|done]. destruct (cJSON_Parse _);
      [|cbn; split; [done|]; apply in_list_spec; done].
    apply returns_within_bind. apply returns_within_all. intros [msg|];
      [cbn; split; [done|]; apply in_list_spec; done|].
    apply returns_within_bind. apply returns_within_all. intros args.
    unfold dispatch_checked, check_permissions. rewrite Hs. cbn.
    intros r ->. cbn. split; [done|]. apply in_list_spec. done.
Qed.

(** ** Routing *)

Definition native_names : list string :=
  ["bash"; "execute_script"; "read_file"; "tool_output_get"; "edit_file"; "write_file";
   "list_files"; "verify"; "git_log"; "grep"; "git_diff"; "git_status"; "git_commit"; "git_push";
   "git_branch"; "git_pr"; "env_get"; "test"; "request_input"; "code_search"; "find_symbol";
   "read_symbol"; "run_tests"; "edit_symbol"; "search_memory"; "web_search"; "web_read";
   "create_note"; "list_notes"; "search_notes"; "run_background_process"; "get_background_output";
   "kill_background_process"; "list_background_processes"; "rules_propose"; "rules_list";
   "learning_propose"; "learning_review"; "clarify_start"; "clarify_answer"; "diagnose_start";
   "diagnose_observe"; "diagnose_hypothesize"; "diagnose_evidence"; "diagnose_status";
   "search_docs"].

(** The calls that route a tool to an MCP server or report it unknown. *)
Definition foreign_call (q : req) : bool :=
  match q with
  | mcp_call_registered | mcp_call _ _ _ | agent_tools_is_mcp_derived _
  | mcp_client_registry_transport_kind _ | mcp_client_registry_get _
  | mcp_client_registry_call_tool _ _ _ | kb_client_mcp_call _ _ _ _ | tool_suggest _ => true
  | _ => false
  end.

Lemma native_not_foreign fuel name args cwd sid timeout_ms t :
  native_tool fuel name args cwd sid timeout_ms = Some t -> avoids foreign_call t.
Proof. native_cases. Qed.

Lemma native_is_native fuel name args cwd sid timeout_ms :
  in_list name native_names = true <->
  is_Some (native_tool fuel name args cwd sid timeout_ms).
Proof.
  unfold native_tool, git_write_names, native_names, in_list. cbn [existsb].
  repeat match goal with
  | |- context [name == ?x] =>
      destruct (String.eqb_spec name x) as [->|_];
      [split; intros _; [eexists; reflexivity | reflexivity]|]
  end.
  cbn. split; [discriminate | by intros [? [=]]].
Qed.

(** C25: a native tool always wins over an MCP tool of the same name: a dispatch of
    one of the 46 native names never consults the MCP registries, calls an MCP
    handler or looks for a suggestion; and for every other name the dispatcher
    has no native handler. *)
Theorem native_tool_wins (fuel : nat) (h : hooks) (name arguments_json : string) (timeout_ms : Z)
    (o : oracle answer) :
  (in_list name native_names = true ->
   Forall (fun s => foreign_call (asked s) = false)
     (run o [] (dispatch_tool_call_ctx fuel h name arguments_json timeout_ms)).1) /\
  (in_list name native_names = false ->
   forall args cwd sid, native_tool fuel name args cwd sid timeout_ms = None).
Proof.
  split.
  - intros Hn. apply avoids_run.
    assert (R : forall h0 args cwd sid,
      avoids foreign_call (route fuel h0 name args cwd sid timeout_ms)).
    { intros h0 args cwd sid. unfold route.
      pose proof (proj1 (native_is_native fuel name args cwd sid timeout_ms) Hn) as [t Ht].
      rewrite Ht. apply avoids_seq; [by eapply native_not_foreign | done]. }
    solve_avoids.
  - intros Hn args cwd sid. destruct (native_tool _ _ _ _ _ _) eqn:N; [|done].
    rewrite (proj2 (native_is_native fuel name args cwd sid timeout_ms)) in Hn; [done | eauto].
Qed.

(** The programs of the queries: [grep], and [git -C dir] with one of three
    subcommands. *)
Definition query_program (argv : list string) : bool :=
  let prog := default "" (argv !! 0) in
  (prog == "grep")
  || ((prog == "git") && (default "" (argv !! 1) == "-C")
      && in_list (default "" (argv !! 3)) ["diff"; "status"; "log"]).

(** The queries: calls that read configuration, files and stores, allocate, or
    write the log.  What another module does inside a query is its own affair. *)
Definition observes (q : req) : bool :=
  match q with
  | config_present | config_tool_output_max_bytes | config_embedder_command_current
  | config_learning_implicit_retrieval_outcome | session_id | session_state_load _
  | workspace_provider_active | ws_stat _ | ws_read_all _ | ws_list _ _ | run_cmd_get_cwd | getcwd
  | workspace_active_root _ | workspace_repo_identity _ | malloc _ | calloc _ | fmemopen _
  | fopen_read _ _ | stat _ | lstat _ | access _ _ | getenv _ | resolve_proposal_path _
  | guardrails_validate_file_path _ | aimee_log _
  | kb_client_index_find _ _ | kb_client_index_code_search _ _ _
  | agent_source_append_overlay_code_hits _ _ _ _ | agent_source_add_index_freshness _ _ _
  | kb_client_note_list_json _ _ | kb_client_note_search_json _ _
  | kb_client_memory_find_facts _ _ | kb_client_search_json_scoped_ex _ _ _ _ _
  | web_search_ex _ _ _ | tool_web_read _ _ _ _ | tool_find_symbol _ => true
  | ws_exec argv _ | safe_exec_capture argv _ => query_program argv
  | _ => false
  end.

(** What a READ tool may record besides: [read_file] the read in the session's
    state, the anchored reads a snapshot to anchor later edits to, the searches
    the handles and events of their results. *)
Definition records (name : string) (q : req) : bool :=
  match q with
  | session_state_save _ _ => name == "read_file"
  | anchor_snapshot_create _ _ => in_list name ["read_file"; "grep"; "read_symbol"]
  | web_handle_register_from_search _ => name == "web_search"
  | kb_client_ranker_emit_event _ | retrieval_outcome_bridge_note _ _ => name == "search_docs"
  | _ => false
  end.

(** C12: the classifier's READ class is sound for the dispatcher: every call a
    READ tool makes is one of the queries of [observes] (among them runs of
    [grep] and of [git diff], [git status] and [git log]) or one of the records
    that [records] lists for this very tool; so none calls for a file to be
    written, a shell or another program to be run, or the knowledge, rule,
    process, clarification or diagnosis stores to be changed. *)
Theorem read_class_pure (fuel : nat) (name : string) (args : json) (cwd : string)
    (sid : option string) (timeout_ms : Z) (t : tool (option string)) (o : oracle answer)
  (Hclass : classify name = AIMEE_TOOL_CLASS_READ)
  (Ht : native_tool fuel name args cwd sid timeout_ms = Some t) :
  Forall (fun s => observes (asked s) = true \/ records name (asked s) = true) (run o [] t).1.
Proof.
  eapply Forall_impl with (P := fun s => negb (observes (asked s) || records name (asked s)) = false);
    [intros s Hs; by apply orb_true_iff, negb_false_iff|].
  apply (avoids_run (fun q => negb (observes q || records name q))).
  revert Ht. unfold native_tool.
  repeat match goal with
  | |- (if ?b then _ else _) = Some _ -> _ =>
      let B := fresh in destruct b eqn:B;
      [ first [ apply String.eqb_eq in B; subst name | idtac ] | clear B ]
  end;
  try discriminate Hclass;
  try (intros Ht; injection Ht as <-; solve_avoids; fail).
  - exfalso. apply in_list_spec, list_elem_of_In in H.
    destruct H as [<-|[<-|[<-|[<-|[]]]]]; discriminate Hclass.
  - exfalso. apply orb_true_iff in H as [H|H]; apply String.eqb_eq in H; subst name;
      discriminate Hclass.
  - discriminate.
Qed.
End Props.

(** ** Witnesses *)

(** The arguments of the runs: the texts the parser of the environment knows. *)
Definition demo_table : list (string * jv) :=
  [("ls", JObj [("command", JStr "ls")]); ("read", JObj [("path", JStr "/p/wt/a.txt")])].

#[local] Existing Instance demo_ext.
#[local] Instance demo_cjson : CJson := demo_json demo_table.
#[local] Instance demo_library : Lib demo_cjson := demo_lib demo_table.

(** An environment without the shell permission. *)
Definition no_shell : oracle (@answer demo_cjson demo_library) :=
  demo_oracle demo_table (fun q =>
    match q as q return option (answer q) with
    | agent_tools_shell_allowed => Some false
    | _ => None
    end).

Lemma no_shell_withheld : answers shell_withheld no_shell.
Proof. by intros h []. Qed.

Lemma dispatch_framing_witness :
  let r := run (demo_oracle demo_table (fun _ => None)) []
             (dispatch_tool_call_ctx 1 demo_hooks "read_file" "read" 1000) in
  exists actor,
    hook_calls r.1 =
      [tool_event_cb "started" "read_file"; tool_event_cb "completed" "read_file";
       tool_completion_cb "read_file" actor (g_td_verdict r.2.1) (g_td_reason r.2.1)
         (g_td_mode r.2.1)] /\
    same_hooks demo_hooks r.2.1.
Proof. exact (dispatch_framing 1 demo_hooks "read_file" "read" 1000 _ eq_refl eq_refl). Defined.

Lemma shell_permission_binds_witness :
  let r := run no_shell [] (dispatch_tool_call_ctx_inner 1 demo_hooks "bash" "ls" 1000) in
  Forall (fun s => beyond_permissions (asked s) = false) r.1 /\
  g_td_explicit r.2.1 = true /\ g_td_reason r.2.1 ∈ ["bad_args"; "cancelled"; "permission"].
Proof.
  exact (shell_permission_binds 1 demo_hooks "bash" "ls" 1000 no_shell (or_introl eq_refl)
           no_shell_withheld).
Defined.

Lemma native_tool_wins_witness :
  Forall (fun s => foreign_call (asked s) = false)
    (run no_shell [] (dispatch_tool_call_ctx 1 demo_hooks "grep" "ls" 1000)).1.
Proof. exact (proj1 (native_tool_wins 1 demo_hooks "grep" "ls" 1000 no_shell) eq_refl). Defined.

Lemma read_class_pure_witness :
  classify "read_file" = AIMEE_TOOL_CLASS_READ /\
  Forall (fun s => observes (asked s) = true \/ records "read_file" (asked s) = true)
    (run no_shell [] (td_read_file (JObj [("path", JStr "/p/a")] : @json demo_cjson) "/p" None)).1.
Proof.
  split; [reflexivity|].
  exact (read_class_pure 1 "read_file" (JObj [("path", JStr "/p/a")] : @json demo_cjson) "/p" None
           1000 _ no_shell eq_refl eq_refl).
Defined.

(** The [shell] permission covers [bash] and [execute_script] only: in an
    environment that withholds it, [run_tests] still starts a sandboxed shell on
    the caller's command. *)
Lemma run_tests_without_permission :
  existsb (fun q => match q with sandbox_exec _ c _ => c == "ls" | _ => false end)
    (calls (run no_shell [] (dispatch_tool_call_ctx 1 demo_hooks "run_tests" "ls" 1000)).1) = true.
Proof. vm_compute. reflexivity. Qed.
