(* ===== verification/BashProps.v ===== *)
(** The shell tool's properties: what may be started for a delegate, what the
    forked children execute, how the capture loop ends and what it returns. *)
From S2P Require Import Prelude CStr Ext CmdGuard Prog Json Host Demo TextOps FileTools BashTool.
From S2P Require Import DispatchFacts.
Local Open Scope tools_scope.

(** The calls that start a process or hand a command line to another one. *)
Definition starts_process {J : CJson} {L : Lib J} (q : req) : bool :=
  match q with
  | fork_readonly_chain _ _ | fork_workspace_chain _ _ | fork_shell _ _
  | sandbox_exec _ _ _ | sandbox_exec_with_readonly _ _ _ _ _
  | ws_exec_shell _ | ws_exec_shell_timeout _ _ | proc_start _ _
  | tool_execute_script _ _ _ _ _ | safe_exec_capture _ _ | ws_exec _ _
  | fork_exec _ _ _ _ | execvp _ => true
  | _ => false
  end.

(** The calls that hand the command to the workspace provider, and those that
    start a process on this host. *)
Definition hands_to_provider {J : CJson} {L : Lib J} (q : req) : bool :=
  match q with ws_exec_shell _ | ws_exec_shell_timeout _ _ => true | _ => false end.

Definition starts_on_host {J : CJson} {L : Lib J} (q : req) : bool :=
  starts_process q && negb (hands_to_provider q).

(** The provider is a detached client or a container, and takes shell commands. *)
Definition runs_elsewhere (ws : ws_provider) : bool :=
  match kind ws with
  | WS_PROVIDER_DETACHED | WS_PROVIDER_CONTAINER => has_exec_shell ws
  | _ => false
  end.

Section BashProps.
Context {E : Ext} {J : CJson} {L : Lib J}.

Lemma within_call {ok bad} q : bad q = false -> within ok bad (call q).
Proof. by intros H. Qed.

Lemma collect_starts_nothing (bad : req -> bool) fuel pid timeout_ms :
  (forall q, starts_process q = false -> bad q = false) ->
  avoids bad (collect fuel pid timeout_ms).
Proof.
  intros H. apply (avoids_mono starts_process).
  - intros q Hq. destruct (starts_process q) eqn:S; [done|]. rewrite H in Hq; done.
  - solve_avoids.
Qed.

(** What no run of [local_bash] does on the host, no run of [tool_bash] does:
    otherwise the command goes to the provider. *)
Lemma tool_bash_within {ok bad} fuel command timeout_ms :
  (forall q, starts_on_host q = false -> bad q = false) ->
  within ok bad (local_bash fuel command timeout_ms) ->
  within ok bad (tool_bash fuel command timeout_ms).
Proof.
  intros Hbad Hl. unfold tool_bash.
  apply within_seq; [by apply within_call, Hbad|]. intros ws.
  assert (Hdet : within ok bad (detached_shell command)).
  { apply avoids_within, (avoids_mono starts_on_host); [|solve_avoids].
    intros q Hq. destruct (starts_on_host q) eqn:S; [done|]. rewrite Hbad in Hq; done. }
  assert (Hcon : forall w, within ok bad (container_shell w command timeout_ms)).
  { intros w. apply avoids_within, (avoids_mono starts_on_host); [|solve_avoids].
    intros q Hq. destruct (starts_on_host q) eqn:S; [done|]. rewrite Hbad in Hq; done. }
  destruct ws as [ws|]; [|exact Hl]. cbv beta iota.
  destruct (kind ws), (has_exec_shell ws); first [exact Hl | exact Hdet | exact (Hcon ws)].
Qed.

(** A step of the trace where the provider was found to run commands elsewhere. *)
Definition provider_runs (s : step answer) : bool :=
  match asked s as q return answer q -> bool with
  | workspace_provider_active => fun r => match r with Some ws => runs_elsewhere ws | None => false end
  | _ => fun _ => false
  end (got s).

Lemma local_not_handed fuel command timeout_ms :
  avoids hands_to_provider (local_bash fuel command timeout_ms).
Proof. solve_avoids. Qed.

Lemma tool_bash_handed fuel command timeout_ms :
  guarded provider_runs hands_to_provider (tool_bash fuel command timeout_ms).
Proof.
  pose proof (guarded_avoids provider_runs _ _ (local_not_handed fuel command timeout_ms)) as Hl.
  unfold tool_bash. cbn [bind call ask guarded]. split; [done|]. intros [ws|]; [|by right].
  unfold provider_runs. cbn [asked got]. unfold runs_elsewhere.
  destruct (kind ws), (has_exec_shell ws); first [by left | by right].
Qed.

(** ** A delegate never runs unsandboxed *)

(** A delegate is active, the sandbox is effectively off. *)
Definition unsandboxed_delegate (s : step answer) : Prop :=
  match asked s as q return answer q -> Prop with
  | config_sandbox => fun c => sandbox_effective_off c = true
  | delegation_active_id => fun id => is_Some id
  | _ => fun _ => True
  end (got s).

(** C7: on Linux, when a delegate is active and the sandbox is effectively off,
    the shell tool starts no process on this host, whatever the command, the
    guards and the workspace provider; the command is handed to the provider
    only after the provider was found to be a detached client or a container
    that takes shell commands. *)
Theorem delegate_never_unsandboxed (fuel : nat) (command : string) (timeout_ms : Z)
    (o : oracle answer)
  (Hlinux : build_linux = true) (Ho : answers unsandboxed_delegate o) :
  let t := (run o [] (tool_bash fuel command timeout_ms)).1 in
  Forall (fun s => starts_on_host (asked s) = false) t /\
  preceded provider_runs hands_to_provider t.
Proof.
  split; [|apply guarded_run, tool_bash_handed].
  apply (within_run unsandboxed_delegate); [|done]. apply tool_bash_within; [done|].
  unfold local_bash. apply within_seq; [by apply within_call|]. intros ok1.
  apply within_seq; [apply avoids_within; solve_avoids|]. intros [|]; [|done]. cbn [negb].
  cbn [bind call ask within]. split; [done|]. intros cfg Hcfg. split; [done|]. intros ro _.
  split; [done|]. intros rw _. cbn in Hcfg. cbv zeta. rewrite Hlinux, Hcfg.
  cbn [bind call ask within]. split; [done|]. intros id Hid. cbn in Hid. by destruct Hid as [d ->].
Qed.

(** ** What a delegate with a protected parent worktree may start *)

(** The parent worktree [ro] is protected, the delegate's own worktree is [rw]. *)
Definition guarded_env (ro : string) (rw : option string) (ax : string -> bool)
    (s : step answer) : Prop :=
  match asked s as q return answer q -> Prop with
  | agent_tools_parent_write_guard_root => fun r => r = Some ro
  | agent_tools_parent_write_guard_write_root => fun r => r = rw
  | access_snapshot => fun r => r = ax
  | _ => fun _ => True
  end (got s).

Definition opt_eqb (a b : option string) : bool := bool_decide (a = b).

(** A process that may not be started on this host for [command]: anything but
    the two direct executors on validated tokens of [command], the sandbox with
    [ro] bound read-only, and a plain shell on a command whose text and paths
    stay clear of the protected worktree. *)
Definition unguarded_start (command ro : string) (rw : option string) (ax : string -> bool)
    (q : req) : bool :=
  match q with
  | fork_readonly_chain tokens ws =>
      negb (bool_decide (tokens = shlex_split command 64)
            && bool_decide (is_Some (bash_readonly_chain_validate rw tokens 32 ws)))
  | fork_workspace_chain tokens ws =>
      negb (bool_decide (tokens = shlex_split command 64)
            && bool_decide (is_Some (bash_workspace_chain_validate rw ax tokens 32 ws)))
  | sandbox_exec_with_readonly _ c _ r w =>
      negb ((c == command) && opt_eqb r (Some ro) && opt_eqb w rw)
  | fork_shell c ws =>
      negb ((c == command) && bash_path_under_root (or_else ws "") rw
            && lxc_cmd_safe (Some command) (Some ro) rw
            && bash_guarded_fallback_paths_safe rw command ws)
  | q => starts_on_host q
  end.

Lemma opt_eqb_refl a : opt_eqb a a = true.
Proof. by apply bool_decide_eq_true. Qed.

Lemma readonly_exec_guarded ok command ro rw ax ws :
  within ok (unguarded_start command ro rw ax) (guarded_readonly_exec rw command ws).
Proof.
  unfold guarded_readonly_exec. destruct (_ =? 0); [done|].
  destruct (_ <b 64); [|done]. destruct (bash_readonly_chain_validate _ _ _ _) eqn:V; [|done].
  apply within_seq; [|done]. apply within_call. cbn [unguarded_start].
  rewrite V, !bool_decide_eq_true_2; eauto.
Qed.

Lemma workspace_exec_guarded command ro rw ax ws :
  within (guarded_env ro rw ax) (unguarded_start command ro rw ax)
    (guarded_workspace_exec rw command ws).
Proof.
  unfold guarded_workspace_exec. destruct (_ =? 0); [done|].
  cbn [bind call ask within]. split; [done|]. intros a Ha. cbn in Ha. subst a. cbv zeta.
  destruct (_ <b 64); [|done]. destruct (bash_workspace_chain_validate _ _ _ _ _) eqn:V; [|done].
  cbn [within unguarded_start]. split; [|done]. rewrite V, !bool_decide_eq_true_2; eauto.
Qed.

Lemma guarded_parent_within cfg command ro rw ax :
  within (guarded_env ro rw ax) (unguarded_start command ro rw ax)
    (guarded_parent_exec cfg command (Some ro) rw).
Proof.
  unfold guarded_parent_exec. cbv zeta.
  apply within_seq; [apply avoids_within; solve_avoids|]. intros cwd.
  apply within_seq; [apply avoids_within; solve_avoids|]. intros ws.
  apply within_seq; [apply readonly_exec_guarded|]. intros [pid err].
  apply within_seq; [destruct (pid <Z 0); [apply workspace_exec_guarded | done]|].
  intros [pid' err'].
  apply within_seq.
  { destruct (pid' <Z 0); [|done]. apply within_call. cbn.
    by rewrite String.eqb_refl, !opt_eqb_refl. }
  intros pid''. destruct ws as [ws'|]; [|done]. destruct rw as [w|] eqn:R; [|done].
  rewrite <- R. destruct (_ && _ && _ && _) eqn:G; [|done].
  apply andb_true_iff in G as [G Hp]. apply andb_true_iff in G as [G Hr].
  apply andb_true_iff in G as [_ Hl]. apply within_seq; [|done].
  apply within_call. cbn [unguarded_start]. rewrite String.eqb_refl, Hp, Hl.
  change (or_else (Some ws') "") with ws'. by rewrite Hr.
Qed.


(** ** The forked children *)

(** A program execution the read-only test does not accept. *)
Definition unvalidated_exec (wroot ws : option string) (q : req) : bool :=
  match q with
  | fork_exec argv _ _ _ | execvp argv => negb (bash_command_is_readonly_exec wroot argv ws)
  | q => starts_process q
  end.

Lemma avoids_call_iff {A} bad q (k : answer q -> tool A) :
  bad q = false -> (forall r, avoids bad (k r)) -> avoids bad (bind (call q) k).
Proof. done. Qed.

Lemma avoids_exec_segment bad argv ws :
  (forall dir i o, bad (fork_exec argv dir i o) = false) -> (forall p, bad (waitpid p) = false) ->
  avoids bad (bash_exec_readonly_segment argv ws).
Proof.
  intros He Hw. unfold bash_exec_readonly_segment. cbv zeta.
  apply avoids_call_iff; [done|]. intros pid. destruct (pid <Z 0); [done|].
  by apply avoids_call_iff.
Qed.

Lemma avoids_wait_all bad pids rc :
  (forall p, bad (waitpid p) = false) -> avoids bad (wait_all pids rc).
Proof.
  intros Hw. revert rc. induction pids as [|p pids IH]; intros rc; [done|].
  by apply avoids_call_iff.
Qed.

Lemma avoids_pipeline_fork bad cmds ws sp pids :
  (forall argv dir i o, argv ∈ cmds -> bad (fork_exec argv dir i o) = false) ->
  bad pipe = false -> avoids bad (pipeline_fork cmds ws sp pids).
Proof.
  revert sp pids. induction cmds as [|argv cmds IH]; intros sp pids He Hp; [done|].
  cbn [pipeline_fork]. cbv zeta.
  apply avoids_seq; [by destruct cmds | intros ok]. destruct (negb ok); [done|].
  destruct (_ == "cd"); [done|]. apply avoids_call_iff; [apply He, list_elem_of_here|].
  intros pid. destruct (pid <Z 0); [done|]. apply IH; [|done].
  intros argv' dir i o Hin. by apply He, list_elem_of_further.
Qed.

Lemma find_pipe_end_lt fuel c n i : i < n -> find_pipe_end fuel c n i < n.
Proof.
  revert i. induction fuel as [|fuel IH]; intros i Hi; [done|]. cbn [find_pipe_end].
  destruct (_ && _) eqn:G; [|done]. breflect. apply IH. lia.
Qed.

Section Readonly.
Variables (wroot ws : option string) (tokens : list string) (c : chain).
Hypothesis Hc : forall i, i < length (c_starts c) ->
  bash_command_is_readonly_exec wroot (command tokens c i) ws = true.

Let bad : req -> bool := unvalidated_exec wroot ws.

Lemma readonly_pipeline_validated i j w :
  i <= j < length (c_starts c) -> avoids bad (bash_exec_readonly_pipeline tokens c i j w).
Proof.
  intros Hij. unfold bash_exec_readonly_pipeline. cbv zeta. apply avoids_seq.
  - apply avoids_pipeline_fork; [|done]. intros argv dir b b' Hin.
    apply list_elem_of_In, in_map_iff in Hin as (k & <- & Hk). apply in_seq in Hk.
    cbn. rewrite Hc by lia. done.
  - intros [pids|]; [by apply avoids_wait_all | done].
Qed.

Lemma readonly_cd_validated argv w : avoids bad (bash_exec_readonly_cd wroot argv w).
Proof. unfold bash_exec_readonly_cd. solve_avoids. Qed.

Lemma readonly_loop_validated fuel w i rc :
  avoids bad (readonly_loop fuel wroot tokens c w i rc).
Proof.
  revert i rc. induction fuel as [|fuel IH]; intros i rc; [done|]. cbn [readonly_loop]. cbv zeta.
  destruct (_ <=b i) eqn:Hi; [done|]. breflect. destruct (_ && _ && _); [apply IH|].
  case_if.
  - breflect. apply avoids_seq; [|intros; apply IH].
    apply readonly_pipeline_validated. split; [lia | by apply find_pipe_end_lt].
  - apply avoids_seq; [apply readonly_cd_validated|]. intros r.
    apply avoids_seq; [|intros; apply IH]. destruct (r <Z 0); [|done].
    apply avoids_exec_segment; [|done]. intros dir b b'. cbn. by rewrite Hc.
Qed.
End Readonly.

(** Every command of an accepted chain passes the test of its validator. *)
Lemma chain_commands_ok allowed_op ok max tokens c i :
  chain_validate allowed_op ok max tokens = Some c -> i < length (c_starts c) ->
  ok (command tokens c i) = true.
Proof.
  intros Hv Hi. apply chain_validate_sound in Hv as (init & ops & last & [_ _ _ Hcm] & Ha).
  pose proof (ca_starts _ _ _ _ Ha) as Hs. pose proof (ca_counts _ _ _ _ Ha) as Hn.
  destruct (lookup_lt_is_Some_2 (c_starts c) i) as [st Hst]; [lia|].
  destruct (lookup_lt_is_Some_2 (c_counts c) i) as [n Hcn]; [lia|].
  destruct (chain_arrays_lookup _ _ _ _ _ _ _ Ha Hst Hcn) as [Hseg _].
  unfold command. rewrite Hst, Hcn. cbn [default from_option id].
  by destruct (Forall_lookup_1 _ _ _ _ Hcm Hseg) as (_ & Hok & _).
Qed.

(** C9: the child of the read-only executor, run on the chain the parent
    validated, executes only commands that pass the read-only test, whatever
    the children's exit codes, in pipelines and after [&&] and [;] alike. *)
Theorem readonly_child_validated (wroot ws : option string) (tokens : list string) (max : nat)
    (c : chain) (o : oracle answer)
  (Hc : bash_readonly_chain_validate wroot tokens max ws = Some c) :
  Forall (fun s => unvalidated_exec wroot ws (asked s) = false)
    (run o [] (readonly_child wroot tokens c ws)).1.
Proof.
  apply avoids_run. unfold bash_readonly_chain_validate in Hc. destruct (_ || _)%bool; [done|].
  assert (Hok : forall i, i < length (c_starts c) ->
    bash_command_is_readonly_exec wroot (command tokens c i) ws = true)
    by (intros i Hi; exact (chain_commands_ok _ _ _ _ _ _ Hc Hi)).
  unfold readonly_child. apply avoids_seq; [solve_avoids|]. intros _.
  apply avoids_seq; [solve_avoids|]. intros _. destruct (length _ =? 1) eqn:L1.
  - cbv zeta. case_if; [apply avoids_seq; [apply readonly_cd_validated | done]|]. breflect. apply avoids_call_iff; [|done].
    cbn [unvalidated_exec]. rewrite Hok; [done | lia].
  - apply avoids_seq; [by apply readonly_loop_validated | done].
Qed.

(** A program execution with a path-like argument outside [wroot]. *)
Definition escaping_exec (wroot : option string) (ws : string) (q : req) : bool :=
  match q with
  | fork_exec argv _ _ _ =>
      existsb (fun t => bash_token_looks_path_like t
                        && negb (bash_path_under_guard_write_root wroot t (Some ws))) argv
  | q => starts_process q
  end.

(** C13: the child of the workspace executor, run on the chain the parent
    validated, executes only commands all of whose path-like words, the
    command's own name included, normalise to the delegate's write root or
    below it. *)
Theorem workspace_child_contained (wroot : option string) (ax : string -> bool) (ws : string)
    (tokens : list string) (max : nat) (c : chain) (o : oracle answer)
  (Hc : bash_workspace_chain_validate wroot ax tokens max (Some ws) = Some c) :
  Forall (fun s => escaping_exec wroot ws (asked s) = false)
    (run o [] (workspace_child tokens c (Some ws))).1.
Proof.
  apply avoids_run. unfold workspace_child. apply avoids_seq; [solve_avoids|]. intros _.
  apply avoids_seq; [solve_avoids|]. intros _. apply avoids_seq; [|done]. generalize 0%Z.
  assert (Hi : Forall (fun i => i < length (c_starts c)) (seq 0 (length (c_starts c))))
    by (apply Forall_forall; intros i Hin; apply in_seq in Hin; lia).
  induction Hi as [|i idx Hi _ IH]; intros rc; [done|]. cbn [workspace_loop].
  destruct (_ && _ && _); [apply IH|]. apply avoids_seq; [|intros; apply IH].
  apply avoids_exec_segment; [|done]. intros dir b b'. cbn [escaping_exec].
  pose proof (chain_commands_ok _ _ _ _ _ _ Hc Hi) as Hok.
  apply not_true_is_false. intros He. apply existsb_exists in He as (t & Hin & Ht).
  apply andb_true_iff in Ht as [Hp Hn]. apply list_elem_of_In in Hin.
  rewrite (workspace_segment_paths _ _ _ _ _ Hok Hin Hp) in Hn. done.
Qed.

(** ** The capture *)

(** What a step of a trace read from the child's stdout and stderr. *)
Definition stdout_of (s : step answer) : string :=
  match asked s as q return answer q -> string with
  | read_stdout n => fun r => stake n r
  | _ => fun _ => ""
  end (got s).

Definition stderr_of (s : step answer) : string :=
  match asked s as q return answer q -> string with
  | read_stderr n => fun r => stake n r
  | _ => fun _ => ""
  end (got s).

Definition read_of (obs : step answer -> string) (t : list (step answer)) : string :=
  String.concat "" (map obs t).

Lemma concat_cons s l : String.concat "" (s :: l) = s +:+ String.concat "" l.
Proof.
  destruct l; [|done]. cbn. by rewrite app_nil_s.
Qed.

Lemma read_of_cons obs s t : read_of obs (s :: t) = obs s +:+ read_of obs t.
Proof. apply concat_cons. Qed.

Lemma read_of_app obs t t' : read_of obs (t ++ t') = read_of obs t +:+ read_of obs t'.
Proof.
  induction t as [|s t IH]; [done|]. cbn [List.app app].
  change (read_of obs (s :: (t ++ t')) = read_of obs (s :: t) +:+ read_of obs t').
  by rewrite !read_of_cons, IH, app_assoc_s.
Qed.

(** A program whose calls read nothing. *)
Lemma read_of_silent {A} obs (bad : req -> bool) (p : tool A) o h :
  (forall s, bad (asked s) = false -> obs s = "") -> avoids bad p ->
  read_of obs (run o h p).1 = "".
Proof.
  intros Hobs Hp. pose proof (avoids_run _ _ Hp o h) as H.
  induction H as [|s t Hs _ IH]; [done|]. by rewrite read_of_cons, Hobs, IH.
Qed.

Lemma stake_app_stake n a b : stake n (stake n a +:+ b) = stake n (a +:+ b).
Proof.
  revert n. induction a as [|c a IH]; intros [|n]; try done. cbn. by rewrite IH.
Qed.

Lemma stake_app_full n a b : strlen a = n -> stake n (a +:+ b) = a.
Proof.
  revert n. induction a as [|c a IH]; intros [|n]; cbn; try done.
  intros [= H]. by rewrite IH.
Qed.

Lemma stake_app_room n a b : stake n (a +:+ stake (n - strlen a) b) = stake n (a +:+ b).
Proof.
  revert n. induction a as [|c a IH]; intros n; cbn.
  - rewrite Nat.sub_0_r. revert n. induction b as [|c b IH]; intros [|n]; try done.
    cbn. by rewrite IH.
  - destruct n as [|n]; [done|]. cbn. by rewrite IH.
Qed.

(** A stream with a full-size buffer, as [collect] allocates it. *)
Definition full_size (rawcap : nat) (s : stream) : Prop :=
  s_cap s = rawcap /\ strlen (s_buf s) <= rawcap.

Lemma read_stream_full obs (rd : nat -> tool string) s rawcap o h :
  (forall n o h, stake n (run o h (rd n)).2 = read_of obs (run o h (rd n)).1) ->
  full_size rawcap s ->
  let r := run o h (read_stream rd s rawcap) in
  full_size rawcap r.2 /\ s_buf r.2 = stake rawcap (s_buf s +:+ read_of obs r.1).
Proof.
  intros Hrd [Hcap Hlen]. cbv zeta. unfold read_stream, grow.
  rewrite Hcap, Nat.ltb_irrefl, andb_false_r. cbn [bind]. cbv zeta.
  set (n := if strlen (s_buf s) <b rawcap then rawcap - strlen (s_buf s) else 4096).
  rewrite run_bind. cbn [fst snd run]. rewrite app_nil_r, <- (Hrd n o h).
  generalize (run o h (rd n)).2. intros got.
  destruct (String.eqb_spec (stake n got) "") as [->|Hg].
  { rewrite app_nil_s, stake_ge by done. by split. }
  subst n. destruct (_ <b _) eqn:Hroom; breflect.
  - assert (Hl : strlen (s_buf s +:+ stake (rawcap - strlen (s_buf s)) got) <= rawcap)
      by (rewrite strlen_app, strlen_stake; lia).
    split; [by split|]. cbn [s_buf]. by rewrite (stake_ge rawcap _ Hl).
  - split; [done|]. cbn [s_buf]. rewrite stake_app_full; [done | lia].
Qed.

Lemma read_stdout_obs n o h :
  stake n (run o h (call (read_stdout n))).2 = read_of stdout_of (run o h (call (read_stdout n))).1.
Proof. done. Qed.

Lemma read_stderr_obs n o h :
  stake n (run o h (call (read_stderr n))).2 = read_of stderr_of (run o h (call (read_stderr n))).1.
Proof. done. Qed.

Definition is_read_stdout (q : req) : bool := match q with read_stdout _ => true | _ => false end.
Definition is_read_stderr (q : req) : bool := match q with read_stderr _ => true | _ => false end.

Lemma stdout_silent {A} (p : tool A) o h :
  avoids is_read_stdout p -> read_of stdout_of (run o h p).1 = "".
Proof. apply read_of_silent. by intros [[] ?]. Qed.

Lemma stderr_silent {A} (p : tool A) o h :
  avoids is_read_stderr p -> read_of stderr_of (run o h p).1 = "".
Proof. apply read_of_silent. by intros [[] ?]. Qed.

(** What a stream holds after a trace. *)
Definition holds (obs : step answer -> string) (rawcap : nat) (s : stream) (t : list (step answer))
    (s' : stream) : Prop :=
  full_size rawcap s' /\ s_buf s' = stake rawcap (s_buf s +:+ read_of obs t).

Lemma holds_silent obs rawcap s t : full_size rawcap s -> read_of obs t = "" -> holds obs rawcap s t s.
Proof. intros Hs Ht. split; [done|]. rewrite Ht, app_nil_s, stake_ge; [done | apply Hs]. Qed.

Lemma holds_app obs rawcap s t s' t' s'' :
  holds obs rawcap s t s' -> holds obs rawcap s' t' s'' -> holds obs rawcap s (t ++ t') s''.
Proof.
  intros [_ H] [? H']. split; [done|].
  by rewrite H', H, stake_app_stake, read_of_app, app_assoc_s.
Qed.

(** Both streams after a program that returns them. *)
Definition captured (rawcap : nat) (out err : stream) (t : list (step answer))
    (r : stream * stream) : Prop :=
  holds stdout_of rawcap out t r.1 /\ holds stderr_of rawcap err t r.2.

Lemma captured_silent {A} rawcap out err (p : tool A) o h :
  full_size rawcap out -> full_size rawcap err ->
  avoids is_read_stdout p -> avoids is_read_stderr p ->
  captured rawcap out err (run o h p).1 (out, err).
Proof.
  intros Ho He H1 H2. split; apply holds_silent; try done;
    [by apply stdout_silent | by apply stderr_silent].
Qed.

Lemma captured_app rawcap out err t out' err' t' r :
  captured rawcap out err t (out', err') -> captured rawcap out' err' t' r ->
  captured rawcap out err (t ++ t') r.
Proof. intros [] []. split; by eapply holds_app. Qed.

Lemma captured_out rawcap out err (b : bool) o h :
  full_size rawcap out -> full_size rawcap err ->
  let r := run o h (if b then read_stream (fun n => call (read_stdout n)) out rawcap
                    else Ret out) in
  captured rawcap out err r.1 (r.2, err).
Proof.
  intros Ho He. destruct b; cbv zeta.
  - split; [by apply (read_stream_full stdout_of _ _ _ _ _ read_stdout_obs)|].
    apply holds_silent; [done|]. apply stderr_silent. solve_avoids.
  - by apply (captured_silent rawcap out err (Ret out)).
Qed.

Lemma captured_err rawcap out err (b : bool) o h :
  full_size rawcap out -> full_size rawcap err ->
  let r := run o h (if b then read_stream (fun n => call (read_stderr n)) err rawcap
                    else Ret err) in
  captured rawcap out err r.1 (out, r.2).
Proof.
  intros Ho He. destruct b; cbv zeta.
  - split; [|by apply (read_stream_full stderr_of _ _ _ _ _ read_stderr_obs)].
    apply holds_silent; [done|]. apply stdout_silent. solve_avoids.
  - by apply (captured_silent rawcap out err (Ret err)).
Qed.

(** The capture of a program that ends as the loop does. *)
Definition captures (rawcap : nat) (out err : stream)
    (p : tool (option (loop_end * stream * stream))) : Prop :=
  forall o h, match (run o h p).2 with
  | Some (_, out', err') => captured rawcap out err (run o h p).1 (out', err')
  | None => True
  end.

Lemma captures_bind {A} rawcap out err (p : tool A) f (g : A -> stream * stream) :
  (forall o h, captured rawcap out err (run o h p).1 (g (run o h p).2)) ->
  (forall a, full_size rawcap (g a).1 -> full_size rawcap (g a).2 ->
     captures rawcap (g a).1 (g a).2 (f a)) ->
  captures rawcap out err (bind p f).
Proof.
  intros Hp Hf o h. rewrite run_bind. cbn [fst snd].
  pose proof (Hp o h) as H1. pose proof H1 as [[Ho _] [He _]].
  pose proof (Hf _ Ho He o (hist h (run o h p).1)) as H2.
  destruct (run o _ (f _)).2 as [[[e out'] err']|]; [|done].
  destruct (g _) as [o1 e1]. by eapply captured_app.
Qed.

Lemma captures_silent {A} rawcap out err (p : tool A) f :
  full_size rawcap out -> full_size rawcap err ->
  avoids is_read_stdout p -> avoids is_read_stderr p ->
  (forall a, captures rawcap out err (f a)) -> captures rawcap out err (bind p f).
Proof.
  intros Ho He H1 H2 Hf. apply (captures_bind _ _ _ _ _ (fun _ => (out, err))); [|done].
  intros o h. by apply captured_silent.
Qed.

Lemma captures_ret rawcap out err e :
  full_size rawcap out -> full_size rawcap err ->
  captures rawcap out err (Ret (Some (e, out, err))).
Proof. intros Ho He o h. by split; apply holds_silent. Qed.

Lemma poll_loop_captures fuel deadline rawcap out err :
  full_size rawcap out -> full_size rawcap err ->
  captures rawcap out err (poll_loop fuel deadline rawcap out err).
Proof.
  revert out err. induction fuel as [|fuel IH]; intros out err Ho He; [done|].
  cbn [poll_loop]. destruct (negb _); [by apply captures_ret|].
  apply captures_silent; [done | done | solve_avoids | solve_avoids|]. intros now. cbv zeta.
  destruct (_ <=Z 0); [by apply captures_ret|].
  apply captures_silent; [done | done | solve_avoids | solve_avoids|].
  intros [|]; [by apply captures_ret|].
  apply captures_silent; [done | done | solve_avoids | solve_avoids|].
  intros [out_ready err_ready| | |]; [|by apply IH|by apply IH|by apply captures_ret].
  apply (captures_bind _ _ _ _ _ (fun s => (s, err))); [by intros; apply captured_out|].
  cbn [fst snd]. intros out' Ho' _.
  apply (captures_bind _ _ _ _ _ (fun s => (out', s))); [by intros; apply captured_err|].
  cbn [fst snd]. intros err' _ He'. by apply IH.
Qed.

Definition fresh (rawcap : nat) : stream := {| s_open := true; s_buf := ""; s_cap := rawcap |}.

(** C14: whatever the order of the two streams' data and however the loop ends,
    what it captured of each stream is exactly the first [rawcap] bytes the
    child wrote there (the rest is read and dropped); in particular the buffers
    of [rawcap + 1] bytes are never overrun. *)
Theorem capture_is_prefix (fuel : nat) (deadline : Z * Z) (rawcap : nat) (o : oracle answer)
    (e : loop_end) (out err : stream)
  (Hend : (run o [] (poll_loop fuel deadline rawcap (fresh rawcap) (fresh rawcap))).2 =
          Some (e, out, err)) :
  let t := (run o [] (poll_loop fuel deadline rawcap (fresh rawcap) (fresh rawcap))).1 in
  s_buf out = stake rawcap (read_of stdout_of t) /\
  s_buf err = stake rawcap (read_of stderr_of t) /\
  strlen (s_buf out) <= rawcap /\ strlen (s_buf err) <= rawcap.
Proof.
  assert (Hf : full_size rawcap (fresh rawcap)) by (split; cbn; [done | lia]).
  pose proof (poll_loop_captures fuel deadline rawcap _ _ Hf Hf o []) as H.
  rewrite Hend in H. destruct H as [[[_ H1] H2] [[_ H3] H4]]. by split_and!.
Qed.

(** ** The end of the loop *)

Definition clock_reads (h : list req) : nat :=
  length (List.filter (fun q => match q with clock_gettime => true | _ => false end) h).

(** From history [h] on, [p] ends with a result. *)
Definition ends {A} (o : oracle answer) (h : list req) (p : tool (option A)) : Prop :=
  is_Some (run o h p).2.

Lemma clock_reads_hist h (t : list (step answer)) : clock_reads h <= clock_reads (hist h t).
Proof. unfold clock_reads, hist. rewrite List.filter_app, length_app. lia. Qed.

Lemma ends_bind {A B} o h (p : tool A) (f : A -> tool (option B)) :
  (forall h' a, clock_reads h <= clock_reads h' -> ends o h' (f a)) -> ends o h (bind p f).
Proof. intros H. unfold ends. rewrite run_bind. apply H, clock_reads_hist. Qed.

(** The loop from any history. *)
Lemma poll_loop_ends_from n fuel deadline rawcap out err (o : oracle answer) h :
  (forall h', n <= clock_reads h' -> (remain_ms deadline (o h' clock_gettime) <= 0)%Z) ->
  0 < fuel -> n < fuel + clock_reads h -> ends o h (poll_loop fuel deadline rawcap out err).
Proof.
  intros Hclock. revert out err h. induction fuel as [|fuel IH]; intros out err h H0 Hf; [lia|].
  assert (Hdone : forall e s s' h', ends o h' (Ret (Some (e : loop_end, s : stream, s' : stream))))
    by (intros; by eexists).
  cbn [poll_loop]. destruct (negb _); [apply Hdone|]. unfold ends. rewrite run_bind.
  cbn [fst snd call ask run]. cbv zeta. destruct (_ <=Z 0) eqn:Hr; [apply Hdone|]. breflect.
  assert (Hn : clock_reads h < n).
  { destruct (decide (n <= clock_reads h)) as [Hle|]; [specialize (Hclock h Hle); lia | lia]. }
  set (h1 := hist h _). assert (H1 : clock_reads h1 = S (clock_reads h)) by done. clearbody h1.
  assert (Hnext : forall s s' h', clock_reads h1 <= clock_reads h' ->
    ends o h' (poll_loop fuel deadline rawcap s s')) by (intros; apply IH; lia).
  apply ends_bind. intros h2 [|] H2; [apply Hdone|].
  apply ends_bind. intros h3 [out_ready err_ready| | |] H3;
    [|apply Hnext; lia | apply Hnext; lia | apply Hdone].
  apply ends_bind. intros h4 out' H4. apply ends_bind. intros h5 err' H5. apply Hnext. lia.
Qed.

(** C15: the capture loop ends: if the clock has passed the deadline once it was
    read [n] times, the loop leaves within [n + 1] rounds, however the child,
    the descriptors and the cancellation behave.  So a fuel above [n] is
    enough. *)
Theorem poll_loop_ends (n fuel : nat) (deadline : Z * Z) (rawcap : nat) (out err : stream)
    (o : oracle answer)
  (Hclock : forall h, n <= clock_reads h -> (remain_ms deadline (o h clock_gettime) <= 0)%Z)
  (Hfuel : n < fuel) :
  is_Some (run o [] (poll_loop fuel deadline rawcap out err)).2.
Proof. apply (poll_loop_ends_from n); [done | lia | cbn; lia]. Qed.

(** Two seconds beyond the timeout there is no time left. *)
Lemma deadline_passed now now' timeout_ms :
  (0 <= now.2 < nanos)%Z -> (0 <= now'.2 < nanos)%Z ->
  (now.1 + Z.quot timeout_ms 1000 + 2 <= now'.1)%Z ->
  (remain_ms (deadline_after now timeout_ms) now' <= 0)%Z.
Proof.
  unfold remain_ms, deadline_after, nanos. intros H1 H2 H3.
  destruct (_ <=Z _) eqn:D; breflect; cbn [fst snd]; Z.to_euclidean_division_equations; lia.
Qed.

(** ** The child is reaped *)

Definition is_waitpid (q : req) : bool := match q with waitpid _ => true | _ => false end.

Definition waits (t : list (step answer)) : list req := List.filter is_waitpid (calls t).

(** A signal to a process other than the child and its group. *)
Definition stray_signal (pid : Z) (q : req) : bool :=
  match q with
  | kill p _ => negb ((0 <Z pid) && ((p =? pid)%Z || (p =? - pid)%Z))
  | _ => false
  end.

(** From history [h] on, [p] waits exactly for [l]. *)
Definition waits_for {A} (o : oracle answer) (h : list req) (p : tool A) (l : list req) : Prop :=
  waits (run o h p).1 = l.

Lemma waits_silent {A} o h (p : tool A) : avoids is_waitpid p -> waits_for o h p [].
Proof.
  intros Hp. pose proof (avoids_run _ _ Hp o h) as H. unfold waits_for, waits, calls.
  induction H as [|s t Hs _ IH]; [done|]. cbn. by rewrite Hs.
Qed.

Lemma waits_bind {A B} o h (p : tool A) (f : A -> tool B) l l' :
  waits_for o h p l ->
  waits_for o (hist h (run o h p).1) (f (run o h p).2) l' -> waits_for o h (bind p f) (l ++ l').
Proof.
  unfold waits_for, waits, calls. intros <- <-. rewrite run_bind. cbn [fst].
  by rewrite map_app, List.filter_app.
Qed.

Lemma waits_skip {A B} o h (p : tool A) (f : A -> tool B) l :
  avoids is_waitpid p ->
  (forall h' a, clock_reads h <= clock_reads h' -> waits_for o h' (f a) l) ->
  waits_for o h (bind p f) l.
Proof.
  intros Hp Hf. apply (waits_bind o h p f [] l); [by apply waits_silent|].
  apply Hf, clock_reads_hist.
Qed.

Lemma waits_here {A} o h pid (f : wait_status -> tool A) :
  (forall r, avoids is_waitpid (f r)) -> waits_for o h (bind (call (waitpid pid)) f) [waitpid pid].
Proof.
  intros Hf. apply (waits_bind o h (call (waitpid pid)) f [waitpid pid] []); [done|].
  by apply waits_silent.
Qed.

Lemma kill_tree_waits pid : avoids is_waitpid (bash_kill_child_tree pid).
Proof. solve_avoids. Qed.

Lemma kill_tree_signals pid : avoids (stray_signal pid) (bash_kill_child_tree pid).
Proof.
  unfold bash_kill_child_tree. destruct (_ <=Z 0) eqn:P; [done|]. breflect.
  assert (H0 : (0 <Z pid) = true) by (apply Z.ltb_lt; lia).
  repeat (apply avoids_seq; [apply avoids_call; cbn; rewrite ?H0, ?Z.eqb_refl, ?orb_true_r; done|
                             intros _]).
  apply avoids_call. cbn. rewrite H0, Z.eqb_refl. done.
Qed.

Lemma collect_signals fuel pid timeout_ms : avoids (stray_signal pid) (collect fuel pid timeout_ms).
Proof.
  pose proof (kill_tree_signals pid) as Hk. unfold collect. cbv zeta.
  repeat first
    [ apply avoids_seq; [first [exact Hk | solve [solve_avoids]
                              | idtac]|intros ?]
    | match goal with |- avoids _ (match ?x with _ => _ end) => destruct x end
    | solve [solve_avoids] ].
Qed.

(** C10: a started child never stays a zombie: once the timeout passes on the
    clock, the collection of a child's output ends, and on every path (out of
    memory, descriptors too large, end of output, timeout, cancellation, a
    failing [select]) it waits exactly once, for this child, and signals
    nothing but this child and its process group. *)
Theorem collect_reaps_once (n fuel : nat) (pid timeout_ms : Z) (o : oracle answer)
  (Hnsec : forall h, (0 <= (o h clock_gettime).2 < nanos)%Z)
  (Hclock : forall h h', n + clock_reads h <= clock_reads h' ->
     ((o h clock_gettime).1 + Z.quot timeout_ms 1000 + 2 <= (o h' clock_gettime).1)%Z)
  (Hfuel : n < fuel) :
  let t := (run o [] (collect fuel pid timeout_ms)).1 in
  List.filter is_waitpid (calls t) = [waitpid pid] /\
  Forall (fun s => stray_signal pid (asked s) = false) t.
Proof.
  cbv zeta. split; [|apply avoids_run, collect_signals].
  change (waits_for o [] (collect fuel pid timeout_ms) [waitpid pid]). unfold collect. cbv zeta.
  apply waits_skip; [done|]. intros h1 ok1 _. apply waits_skip; [done|]. intros h2 ok2 _.
  destruct (negb _).
  { apply waits_skip; [apply kill_tree_waits|]. intros h3 _ _. by apply waits_here. }
  apply (waits_bind _ _ _ _ [] _); [done|]. cbn [fst snd call ask run].
  set (h3 := hist h2 _). assert (H3 : clock_reads h3 = S (clock_reads h2)) by done. clearbody h3.
  apply waits_skip; [done|]. intros h4 [|] H4.
  { apply waits_skip; [apply kill_tree_waits|]. intros h5 _ _. by apply waits_here. }
  set (deadline := deadline_after _ _).
  pose proof (poll_loop_ends_from (n + clock_reads h2) fuel deadline AGENT_TOOL_OUTPUT_RAW_MAX
    (fresh AGENT_TOOL_OUTPUT_RAW_MAX) (fresh AGENT_TOOL_OUTPUT_RAW_MAX) o h4) as Hend.
  destruct Hend as [[[e out] err] Hend]; [|lia | lia|].
  { intros h' Hh. apply deadline_passed; auto. }
  apply (waits_bind _ _ _ _ [] _); [apply waits_silent; solve_avoids|].
  fold (fresh AGENT_TOOL_OUTPUT_RAW_MAX). rewrite Hend.
  apply (waits_bind _ _ _ _ [waitpid pid] []); [|done].
  destruct e; [by apply waits_here| |];
    (apply waits_skip; [apply kill_tree_waits|]; intros h6 _ _; by apply waits_here).
Qed.

(** ** Sequencing *)

(** The calls that run a command of a chain, or connect two. *)
Definition runs_command (q : req) : bool :=
  match q with fork_exec _ _ _ _ | execvp _ | pipe => true | _ => false end.

Lemma cd_not_cd wroot argv ws :
  head argv <> Some "cd" -> bash_exec_readonly_cd wroot argv ws = Ret (-1)%Z.
Proof.
  intros H. unfold bash_exec_readonly_cd. destruct argv as [|t0 [|t1 [|]]]; try done.
  destruct (String.eqb_spec t0 "cd") as [->|_]; [by destruct H | done].
Qed.

(** One command of the chain: one fork, and a status that is not zero when the
    first child fails. *)
Lemma segment_runs (o : oracle answer) h argv :
  List.filter runs_command (calls (run o h (bash_exec_readonly_segment argv None)).1) =
  [fork_exec argv None false false].
Proof.
  unfold bash_exec_readonly_segment. cbn [nonempty bind call ask]. rewrite trace_ask.
  unfold calls. cbn [map asked]. case_if; [done|]. by rewrite trace_ask.
Qed.

Lemma segment_fails (o : oracle answer) h argv :
  (forall h p, List.filter is_waitpid h = [] -> exit_of (o h (waitpid p)) <> 0%Z) ->
  List.filter is_waitpid h = [] ->
  (run o h (bash_exec_readonly_segment argv None)).2 <> 0%Z.
Proof.
  intros Hfail Hh. unfold bash_exec_readonly_segment. cbn [nonempty bind call ask].
  rewrite result_ask. case_if; [done|]. rewrite result_ask. by apply Hfail.
Qed.

(** A command that is not a [cd], run outside a pipeline. *)
Lemma loop_segment (o : oracle answer) h fuel wroot tokens c ws i rc0 :
  i < length (c_starts c) ->
  (0 <b i) && (operator c i == "&&") && negb (rc0 =? 0)%Z = false ->
  find_pipe_end (length (c_starts c)) c (length (c_starts c)) i = i ->
  head (command tokens c i) <> Some "cd" ->
  exists h1 rc,
    (rc = (run o h (bash_exec_readonly_segment (command tokens c i) None)).2) /\
    List.filter runs_command (calls (run o h (readonly_loop (S fuel) wroot tokens c ws i rc0)).1) =
    fork_exec (command tokens c i) None false false ::
    List.filter runs_command (calls (run o h1 (readonly_loop fuel wroot tokens c ws (S i) rc)).1).
Proof.
  intros Hi Hskip Hpipe Hcd. cbn [readonly_loop]. cbv zeta.
  rewrite (proj2 (Nat.leb_gt _ _)) by lia. rewrite Hskip, Hpipe, Nat.ltb_irrefl, cd_not_cd by done.
  cbn [bind]. change (-1 <Z 0)%Z with true. cbv iota. rewrite run_bind. cbn [fst].
  do 2 eexists. split; [reflexivity|].
  pose proof (segment_runs o h (command tokens c i)) as Hs. unfold calls in *.
  by rewrite map_app, List.filter_app, Hs.
Qed.

(** C37: the read-only executor does not sequence [a && b | c] as a shell does:
    for any three commands joined by these operators, [a] and [c] other than
    [cd], when the first child fails, the loop skips [b] only and starts [c],
    with no pipe, as a command of its own; a shell skips the whole pipeline. *)
Theorem skipped_pipeline_tail_runs (wroot ws : option string) (tokens : list string) (c : chain)
    (o : oracle answer)
  (Hlen : length (c_starts c) = 3) (Hops : c_ops c = [None; Some "&&"; Some "|"])
  (Ha : head (command tokens c 0) <> Some "cd") (Hc : head (command tokens c 2) <> Some "cd")
  (Hfail : forall h p, List.filter is_waitpid h = [] -> exit_of (o h (waitpid p)) <> 0%Z) :
  List.filter runs_command
    (calls (run o [] (readonly_loop (length (c_starts c)) wroot tokens c ws 0 0)).1) =
    [fork_exec (command tokens c 0) None false false;
     fork_exec (command tokens c 2) None false false].
Proof.
  assert (Hop : forall i, operator c i = or_else (mjoin ([None; Some "&&"; Some "|"] !! i)) "")
    by (intros i; unfold operator; by rewrite Hops).
  rewrite Hlen.
  destruct (loop_segment o [] 2 wroot tokens c ws 0 0) as (h1 & rc & Hrc & ->);
    [lia | done | rewrite Hlen; cbn [find_pipe_end]; by rewrite Hop | done |].
  assert (Hn : rc <> 0%Z) by (subst rc; by apply segment_fails).
  assert (Hskip : readonly_loop 2 wroot tokens c ws 1 rc = readonly_loop 1 wroot tokens c ws 2 rc).
  { cbn [readonly_loop]. rewrite Hlen, Hop. apply Z.eqb_neq in Hn. by rewrite Hn. }
  rewrite Hskip.
  destruct (loop_segment o h1 0 wroot tokens c ws 2 rc) as (h2 & rc2 & _ & ->);
    [lia | by rewrite Hop | by rewrite Hlen | done |].
  done.
Qed.
End BashProps.

(** ** Runs and witnesses *)

#[local] Existing Instance demo_ext.
#[local] Instance demo_cjson : CJson := demo_json [].
#[local] Instance demo_library : Lib demo_cjson := demo_lib [].

(** Every child exits with 1. *)
Definition failing_children : oracle (@answer demo_cjson demo_library) :=
  demo_oracle [] (fun q =>
    match q as q return option (answer q) with
    | waitpid _ => Some (W_EXITED 1)
    | fork_exec _ _ _ _ => Some 7%Z
    | _ => None
    end).

(** A delegate is active and the sandbox is off. *)
Definition delegate_sandbox_off : oracle (@answer demo_cjson demo_library) :=
  demo_oracle [] (fun q =>
    match q as q return option (answer q) with
    | config_sandbox => Some (true, true)
    | delegation_active_id => Some (Some "d1")
    | _ => None
    end).

Lemma delegate_sandbox_off_ok : answers unsandboxed_delegate delegate_sandbox_off.
Proof. intros h []; try done. by exists "d1". Qed.

Lemma delegate_never_unsandboxed_witness :
  let t := (run delegate_sandbox_off [] (tool_bash 1 "id" 1000)).1 in
  Forall (fun s => starts_on_host (asked s) = false) t /\
  preceded provider_runs hands_to_provider t.
Proof.
  exact (delegate_never_unsandboxed 1 "id" 1000 delegate_sandbox_off eq_refl
           delegate_sandbox_off_ok).
Defined.

(** The parent worktree is [/p], the delegate's own is [/p/wt]. *)
Definition guarded_delegate : oracle (@answer demo_cjson demo_library) :=
  demo_oracle [] (fun q =>
    match q as q return option (answer q) with
    | agent_tools_parent_write_guard_root => Some (Some "/p")
    | agent_tools_parent_write_guard_write_root => Some (Some "/p/wt")
    | fork_readonly_chain _ _ => Some 7%Z
    | _ => None
    end).

Lemma guarded_delegate_ok :
  answers (guarded_env "/p" (Some "/p/wt") (fun _ => false)) guarded_delegate.
Proof. by intros h []. Qed.


Lemma readonly_child_validated_witness :
  let tokens := ["cat"; "a"; "|"; "wc"; "-l"] in
  let c := {| c_starts := [0; 3]; c_counts := [2; 2]; c_ops := [None; Some "|"] |} in
  Forall (fun s => unvalidated_exec None None (asked s) = false)
    (run failing_children [] (readonly_child None tokens c None)).1.
Proof.
  exact (readonly_child_validated None None ["cat"; "a"; "|"; "wc"; "-l"] 32 _ failing_children
           eq_refl).
Defined.

Lemma workspace_child_contained_witness :
  let c := {| c_starts := [0; 3]; c_counts := [2; 3]; c_ops := [None; Some "&&"] |} in
  Forall (fun s => escaping_exec (Some "/p/wt") "/p/wt" (asked s) = false)
    (run failing_children []
       (workspace_child ["mkdir"; "x"; "&&"; "cp"; "x"; "b/c"] c (Some "/p/wt"))).1.
Proof.
  exact (workspace_child_contained (Some "/p/wt") (fun _ => false) "/p/wt"
           ["mkdir"; "x"; "&&"; "cp"; "x"; "b/c"] 32 _ failing_children eq_refl).
Defined.

(** The child writes "abc", three times per read, and the clock ticks a second
    per read. *)
Definition chatty_child : oracle (@answer demo_cjson demo_library) :=
  fun h => demo_oracle [] (fun q =>
    match q as q return option (answer q) with
    | clock_gettime => Some (Z.of_nat (clock_reads h), 0%Z)
    | read_stdout _ => Some "abc"
    | _ => None
    end) h.

Lemma capture_is_prefix_witness :
  exists e out err,
    (run chatty_child [] (poll_loop 9 (3, 0)%Z 5 (fresh 5) (fresh 5))).2 = Some (e, out, err) /\
    s_buf out = stake 5
      (read_of stdout_of (run chatty_child [] (poll_loop 9 (3, 0)%Z 5 (fresh 5) (fresh 5))).1).
Proof.
  do 3 eexists. split; [vm_compute; reflexivity|].
  exact (proj1 (capture_is_prefix 9 (3, 0)%Z 5 chatty_child _ _ _ eq_refl)).
Defined.

Lemma chatty_clock h : (chatty_child h clock_gettime) = (Z.of_nat (clock_reads h), 0%Z).
Proof. reflexivity. Qed.

Lemma poll_loop_ends_witness :
  is_Some (run chatty_child [] (poll_loop 4 (3, 0)%Z 5 (fresh 5) (fresh 5))).2.
Proof.
  apply (poll_loop_ends 3); [|lia]. intros h Hh. rewrite chatty_clock. unfold remain_ms.
  cbn [fst snd]. change (Z.quot (0 - 0) 1000000) with 0%Z. lia.
Defined.

Lemma collect_reaps_once_witness :
  let t := (run chatty_child [] (collect 4 7 1000)).1 in
  List.filter is_waitpid (calls t) = [waitpid 7] /\
  Forall (fun s => stray_signal 7 (asked s) = false) t.
Proof.
  apply (collect_reaps_once 3); [| |lia].
  - intros h. rewrite chatty_clock. unfold nanos. cbn [snd]. lia.
  - intros h h' Hh. rewrite !chatty_clock. cbn [fst]. change (Z.quot 1000 1000) with 1%Z. lia.
Defined.

Lemma skipped_pipeline_tail_runs_witness :
  let tokens := ["cat"; "missing"; "&&"; "cat"; "a"; "|"; "wc"] in
  let c := {| c_starts := [0; 3; 6]; c_counts := [2; 2; 1];
              c_ops := [None; Some "&&"; Some "|"] |} in
  List.filter runs_command (calls (run failing_children [] (readonly_loop 3 None tokens c None 0 0)).1)
  = [fork_exec ["cat"; "missing"] None false false; fork_exec ["wc"] None false false].
Proof.
  exact (skipped_pipeline_tail_runs None None ["cat"; "missing"; "&&"; "cat"; "a"; "|"; "wc"]
           {| c_starts := [0; 3; 6]; c_counts := [2; 2; 1]; c_ops := [None; Some "&&"; Some "|"] |}
           failing_children eq_refl eq_refl ltac:(discriminate) ltac:(discriminate)
           ltac:(intros; discriminate)).
Defined.
