(* ===== verification/WriteProps.v ===== *)
(** The writers' properties: what must have been asked before a file changes,
    what [edit_file] writes, which path the guardrail sees and which path the
    tool uses. *)
From S2P Require Import Prelude CStr Wire Ext Prog Json Host Demo TextOps FileTools QueryTools.
From S2P Require Import BashTool Anchored Handlers KnowledgeHandlers Dispatch DispatchFacts.
Local Open Scope tools_scope.

(** One step on [guarded _ _ p]: the structure of [p], a lemma of the database
    [guarded], a program without the guarded calls, or a definition. *)
Create HintDb guarded discriminated.

Ltac guarded_step :=
  lazymatch goal with
  | |- guarded _ _ (Ret _) => exact I
  | |- guarded _ _ (bind _ _) => apply guarded_seq; [|intro]
  | |- guarded _ _ (match ?x with _ => _ end) => destruct x
  | |- guarded _ _ (let _ := _ in _) => cbv zeta
  | |- guarded _ _ ?p =>
      first [ solve [auto with guarded nocore]
            | apply guarded_avoids; solve [solve_avoids]
            | let h := prog_head p in progress unfold h; cbv zeta beta ]
  end.

Ltac solve_guarded := cbv zeta beta; repeat guarded_step.

Section Writes.
Context {E : Ext} {J : CJson} {L : Lib J}.

Definition is_write (q : req) : bool := match q with ws_write_all _ _ => true | _ => false end.

Definition writes_to (p : string) (q : req) : bool :=
  match q with ws_write_all q _ => q == p | _ => false end.

(** ** The guards come before the write *)

Definition not_readonly (s : step answer) : bool :=
  match asked s as q return answer q -> bool with
  | agent_tools_readonly_delegate_blocks => negb
  | _ => fun _ => false
  end (got s).

(** The parent-worktree guard was asked about [p] itself and let it pass. *)
Definition outside_parent (p : string) (s : step answer) : bool :=
  match asked s as q return answer q -> bool with
  | agent_tools_parent_write_guard_blocks q None => fun r => (q == p) && negb r
  | _ => fun _ => false
  end (got s).

Definition validated (p : string) (s : step answer) : bool :=
  match asked s as q return answer q -> bool with
  | guardrails_validate_file_path q => fun r => (q == p) && negb (bool_decide (is_Some r.1))
  | _ => fun _ => false
  end (got s).

Lemma write_file_readonly p path content :
  guarded not_readonly (writes_to p) (tool_write_file path content).
Proof.
  unfold tool_write_file. apply guarded_seq; [solve_guarded|]. intros [actual cp].
  apply guarded_seq; [solve_guarded|]. intros [[err|] resolved]; [done|].
  cbn [bind call ask guarded]. split; [done|]. intros [|]; [by right | by left].
Qed.

Lemma write_file_outside p path content :
  guarded (outside_parent p) (writes_to p) (tool_write_file path content).
Proof.
  unfold tool_write_file. apply guarded_seq; [solve_guarded|]. intros [actual cp].
  apply guarded_seq; [solve_guarded|]. intros [[err|] resolved]; [done|].
  apply guarded_seq; [solve_guarded|]. intros [|]; [done|].
  destruct (String.eqb_spec actual p) as [->|Hne].
  - cbn [bind call ask guarded]. split; [done|]. intros [|]; [by right | left].
    unfold outside_parent. cbn. by rewrite String.eqb_refl.
  - apply guarded_avoids. apply String.eqb_neq in Hne.
    assert (Hw : forall d, avoids (writes_to p) (call (ws_write_all actual d)))
      by (intros d; by apply avoids_call).
    repeat first [ progress avoids_step | apply Hw ].
Qed.

Lemma write_file_validated p path content :
  guarded (validated p) (writes_to p) (tool_write_file path content).
Proof.
  unfold tool_write_file. apply guarded_seq; [solve_guarded|]. intros [actual cp].
  destruct (String.eqb_spec actual p) as [->|Hne].
  - cbn [bind call ask guarded]. split; [done|]. intros [[err|] resolved]; [by right | left].
    unfold validated. cbn. by rewrite String.eqb_refl.
  - apply guarded_avoids. apply String.eqb_neq in Hne.
    assert (Hw : forall d, avoids (writes_to p) (call (ws_write_all actual d)))
      by (intros d; by apply avoids_call).
    repeat first [ progress avoids_step | apply Hw ].
Qed.

(** Every write of a dispatch is [tool_write_file]'s: what guards its writes
    guards those of the whole dispatch. *)
Section Lift.
Variables (pass : step answer -> bool) (p : string).
Hypothesis Hwrite : forall path content, guarded pass (writes_to p) (tool_write_file path content).

#[local] Hint Resolve Hwrite : guarded.

Lemma native_guarded fuel name args cwd sid timeout_ms t :
  native_tool fuel name args cwd sid timeout_ms = Some t -> guarded pass (writes_to p) t.
Proof.
  unfold native_tool.
  repeat match goal with |- (if ?b then _ else _) = Some _ -> _ => destruct b end;
  lazymatch goal with
  | |- None = Some _ -> _ => done
  | |- Some _ = Some _ -> _ =>
      let H := fresh in intros H; injection H as <-;
      first [apply guarded_avoids; solve [solve_avoids] | solve_guarded]
  end.
Qed.

Lemma route_guarded fuel h name args cwd sid timeout_ms :
  guarded pass (writes_to p) (route fuel h name args cwd sid timeout_ms).
Proof.
  unfold route. destruct (native_tool _ _ _ _ _ _) eqn:N.
  - apply guarded_seq; [by eapply native_guarded | done].
  - apply guarded_avoids. solve_avoids.
Qed.

#[local] Hint Resolve route_guarded : guarded.

Lemma dispatch_guarded fuel h name arguments_json timeout_ms o :
  preceded pass (writes_to p)
    (run o [] (dispatch_tool_call_ctx fuel h name arguments_json timeout_ms)).1.
Proof. apply guarded_run. solve_guarded. Qed.
End Lift.

(** C2: no unguarded write: in every dispatch of any tool, in any environment, a
    write of the file [p] comes after the read-only test answered no, the
    parent-worktree guard was asked about [p] itself and let it pass, and the
    path validation of [p] itself succeeded. *)
Theorem no_unguarded_write (fuel : nat) (h : hooks) (name arguments_json : string)
    (timeout_ms : Z) (p : string) (o : oracle answer) :
  let t := (run o [] (dispatch_tool_call_ctx fuel h name arguments_json timeout_ms)).1 in
  preceded not_readonly (writes_to p) t /\ preceded (outside_parent p) (writes_to p) t /\
  preceded (validated p) (writes_to p) t.
Proof.
  split_and!; apply dispatch_guarded; intros;
    [apply write_file_readonly | apply write_file_outside | apply write_file_validated].
Qed.

(** ** Session isolation *)

(** The session-isolation guard was asked about [p] and let it pass. *)
Definition isolated (p cwd : string) (s : step answer) : bool :=
  match asked s as q return answer q -> bool with
  | agent_tools_session_isolation_blocks q c => fun r => (q == p) && (c == cwd) && negb r
  | _ => fun _ => false
  end (got s).

Lemma write_guards_isolate {A} p cwd (w : req -> bool) (f : option string -> tool A) :
  (forall q, match q with
             | agent_tools_readonly_delegate_blocks | agent_tools_parent_write_guard_blocks _ _
             | agent_tools_session_isolation_blocks _ _ => w q = false | _ => True end) ->
  (forall text, guarded (isolated p cwd) w (f (Some text))) ->
  guarded (isolated p cwd) w (bind (write_guards p cwd) f).
Proof.
  intros Hw Hf. unfold write_guards. cbn [bind call ask guarded].
  split; [apply (Hw agent_tools_readonly_delegate_blocks)|]. intros [|]; right; [apply Hf|].
  cbn [bind guarded]. split; [apply (Hw (agent_tools_parent_write_guard_blocks _ _))|].
  intros [|]; right; [apply Hf|]. cbn [bind guarded].
  split; [apply (Hw (agent_tools_session_isolation_blocks _ _))|].
  intros [|]; [right; apply Hf | left]. unfold isolated. cbn. by rewrite !String.eqb_refl.
Qed.

(** What a committed edit leaves behind: the file, the record of the write under
    the session or delegation, the snapshot of the old contents. *)
Definition leaves_mark (q : req) : bool :=
  match q with
  | ws_write_all _ _ | db1_session_write_path_record _ _ | db1_fsnap_get_or_create _ _ _
  | db1_fsnap_record_file _ _ => true
  | _ => false
  end.

Lemma dry_run_silent p s e : avoids leaves_mark (tool_edit_file_anchored p s e true).
Proof. solve_avoids. Qed.

(** The arguments of an anchored edit: a snapshot or an array of edits. *)
Definition anchored (args : json) : Prop :=
  is_Some (get_string args "snapshot_id") \/
  exists e, cJSON_GetObjectItem args "edits" = Some e /\ cJSON_IsArray e = true.

Lemma anchored_branch args p cwd sid :
  get_string args "path" = Some p -> anchored args ->
  td_edit_file args cwd sid = edit_anchored_branch args p cwd sid.
Proof.
  intros Hp Ha. unfold td_edit_file. rewrite Hp. cbv zeta.
  destruct Ha as [[s ->] | (e & -> & ->)]; [done|]. by rewrite orb_true_r.
Qed.

Lemma dry_branch_silent args p cwd sid :
  get_flag args "dry_run" = true -> avoids leaves_mark (edit_anchored_branch args p cwd sid).
Proof.
  intros Hd. unfold edit_anchored_branch. rewrite Hd. cbv zeta. cbn [negb andb bind].
  apply avoids_seq; [apply dry_run_silent | done].
Qed.

Lemma edit_file_isolated args p cwd sid :
  get_string args "path" = Some p -> guarded (isolated p cwd) is_write (td_edit_file args cwd sid).
Proof.
  intros Hp. unfold td_edit_file. rewrite Hp. cbv zeta. destruct (_ || _).
  - destruct (get_flag args "dry_run") eqn:Hd.
    + apply guarded_avoids. eapply avoids_mono; [|by apply dry_branch_silent]. by intros [].
    + unfold edit_anchored_branch. rewrite Hd. cbv zeta.
      apply write_guards_isolate; [by intros []|]. intros text. apply guarded_avoids. solve_avoids.
  - destruct (get_string args "old_string"); [|done].
    apply write_guards_isolate; [by intros []|]. intros text. apply guarded_avoids. solve_avoids.
Qed.

(** C8: [write_file] and [edit_file] (anchored or not) write nothing before the
    session-isolation guard was asked about the tool's path in the directory of
    the call and let it pass; and the dry run of an anchored edit writes no file,
    records no write and takes no snapshot, whatever the guards would answer. *)
Theorem write_isolation (fuel : nat) (name p : string) (args : json) (cwd : string)
    (sid : option string) (timeout_ms : Z) (t : tool (option string)) (o : oracle answer)
  (Hname : name = "write_file" \/ name = "edit_file")
  (Hpath : get_string args "path" = Some p)
  (Ht : native_tool fuel name args cwd sid timeout_ms = Some t) :
  preceded (isolated p cwd) is_write (run o [] t).1 /\
  (name = "edit_file" -> anchored args -> get_flag args "dry_run" = true ->
   Forall (fun s => leaves_mark (asked s) = false) (run o [] t).1).
Proof.
  split.
  - apply guarded_run. destruct Hname as [-> | ->]; injection Ht as <-; [|by apply edit_file_isolated].
    unfold td_write_file. rewrite Hpath. cbv zeta. apply write_guards_isolate; [by intros []|].
    intros text. apply guarded_avoids. solve_avoids.
  - intros -> Ha Hd. injection Ht as <-. rewrite (anchored_branch _ _ _ _ Hpath Ha).
    by apply avoids_run, dry_branch_silent.
Qed.

(** ** What [edit_file] writes *)

(** The file [p] holds [f] and is small, nothing blocks and every call works. *)
Definition edit_env (p f : string) (s : step answer) : Prop :=
  match asked s as q return answer q -> Prop with
  | agent_tools_readonly_delegate_blocks | agent_tools_parent_write_guard_blocks _ _ =>
      fun r => r = false
  | ws_stat q => fun r => q = p -> r = (true, Z.of_nat (strlen f))
  | ws_read_all q => fun r => q = p -> r = Some f
  | malloc _ | ws_write_all _ _ => fun r => r = true
  | guardrails_validate_file_path q => fun r => r = (None, q)
  | _ => fun _ => True
  end (got s).

(** From history [h] on, the writes of [t] are [l] and its result satisfies [Q]. *)
Definition does {A} (o : oracle answer) (h : list req) (t : tool A) (l : list req) (Q : A -> Prop) :
    Prop := List.filter is_write (calls (run o h t).1) = l /\ Q (run o h t).2.

Lemma does_assoc {A B C} o h (t : tool A) (f : A -> tool B) (g : B -> tool C) l Q :
  does o h (bind t (fun a => bind (f a) g)) l Q -> does o h (bind (bind t f) g) l Q.
Proof. unfold does. by rewrite run_assoc. Qed.

Lemma does_any {A} o h q (k : answer q -> tool A) l Q :
  is_write q = false -> (forall r, does o (q :: h) (k r) l Q) -> does o h (bind (call q) k) l Q.
Proof.
  intros Hw H. destruct (H (o h q)) as [Hl Hq]. unfold does. cbn [bind call ask].
  rewrite trace_ask, result_ask. split; [|done]. unfold calls in *. cbn. by rewrite Hw.
Qed.

Lemma does_known {A} o h q v (k : answer q -> tool A) l Q :
  o h q = v -> is_write q = false -> does o (q :: h) (k v) l Q -> does o h (bind (call q) k) l Q.
Proof.
  intros <- Hw [Hl Hq]. unfold does. cbn [bind call ask].
  rewrite trace_ask, result_ask. split; [|done]. unfold calls in *. cbn. by rewrite Hw.
Qed.

Lemma does_write {A} o h q v (k : answer q -> tool A) l Q :
  o h q = v -> is_write q = true -> does o (q :: h) (k v) l Q ->
  does o h (bind (call q) k) (q :: l) Q.
Proof.
  intros <- Hw [Hl Hq]. unfold does. cbn [bind call ask].
  rewrite trace_ask, result_ask. split; [|done]. unfold calls in *. cbn. by rewrite Hw, Hl.
Qed.

(** Step over a call whose answer the environment [Ho] fixes. *)
Ltac known_of H :=
  let Hk := fresh in
  pose proof H as Hk; cbn in Hk; eapply does_known; [exact Hk | reflexivity|]; clear Hk;
  cbn iota beta.

Ltac known Ho :=
  lazymatch goal with |- does _ ?h (bind (call ?q) _) _ _ => known_of (Ho h q) end.

Lemma does_silent {A} o h (t : tool A) l Q :
  avoids is_write t -> (forall o h, Q (run o h t).2) -> l = [] -> does o h t l Q.
Proof.
  intros Ht HQ ->. split; [|done]. pose proof (avoids_run _ _ Ht o h) as H. unfold calls.
  induction H as [|s tr Hs _ IH]; [done|]. cbn. by rewrite Hs.
Qed.

Lemma write_file_does o h p f content :
  answers (edit_env p f) o -> starts_with "/" p = true -> text_is_valid_utf8 content = true ->
  does o h (tool_write_file p content) [ws_write_all p content] (fun _ => True).
Proof.
  intros Ho Hp Hu. unfold tool_write_file, path_in_thread_cwd. rewrite Hp, orb_true_r.
  cbn [bind]. known Ho.
  known Ho.
  known Ho. rewrite Hu. cbn [negb].
  apply does_any; [done|]. intros ws.
  lazymatch goal with |- does _ ?h _ _ _ => known_of (Ho h (ws_stat p) eq_refl) end.
  assert (Hw : forall h' old, does o h'
    (let* ok := call (ws_write_all p content) in
     if negb ok then safe_strdup (snprintf 512 ("error: cannot write " +:+ p)) else
     match diff_compute (cstr <$> old) content with
     | Some dr => if diff_changed dr
                  then print_or "error: out of memory" (diff_payload p (cstr <$> old) content dr)
                  else safe_strdup "ok"
     | None => safe_strdup "ok"
     end) [ws_write_all p content] (fun _ => True)).
  { intros h' old. eapply does_write; [exact (Ho h' (ws_write_all p content)) | done|]. cbn [negb].
    apply does_silent; [solve_avoids | done | done]. }
  cbv zeta. case_if; [apply does_any; [done | intros old; apply Hw] | apply Hw].
Qed.

(** C5: [edit_file] end to end: for an absolute path of a small readable file
    that nothing blocks, it writes the file exactly once, the old text replaced
    at its only occurrence (at every one with [replace_all]); with no occurrence,
    or several and no [replace_all], it writes nothing and says so. *)
Theorem edit_file_end_to_end (p f old new : string) (replace_all : bool) (o : oracle answer)
  (Hp : starts_with "/" p = true) (Hold : old <> "") (Hnul : cstr f = f)
  (Hsmall : (Z.of_nat (strlen f) < edit_limit)%Z) (Ho : answers (edit_env p f) o)
  (Hutf : forall n, text_is_valid_utf8 (replace_occurrences f old new n) = true) :
  let r := run o [] (tool_edit_file p old (Some new) replace_all) in
  let writes := List.filter is_write (calls r.1) in
  let n := count_occurrences f old in
  (n = 0 -> writes = [] /\ r.2 = Some not_found_text) /\
  (1 < n -> replace_all = false -> writes = [] /\ r.2 = Some (ambiguous_text n)) /\
  (n = 1 -> exists a b, f = a +:+ old +:+ b /\ writes = [ws_write_all p (a +:+ new +:+ b)]) /\
  (0 < n -> replace_all = true -> exists ps, f = join old ps /\
     Forall (fun s => contains s old = false) ps /\ writes = [ws_write_all p (join new ps)]).
Proof.
  cbv zeta.
  set (n := count_occurrences f old).
  set (reps := if replace_all then n else 1).
  assert (Hrun : forall l Q,
    (forall h, does o h
      (if n =? 0 then safe_strdup not_found_text
       else if (1 <b n) && negb replace_all then safe_strdup (ambiguous_text n)
       else let* ok := call (malloc (Z.to_nat (replace_alloc f old new reps))) in
            if negb ok then oom else tool_write_file p (replace_occurrences f old new reps)) l Q) ->
    does o [] (tool_edit_file p old (Some new) replace_all) l Q).
  { intros l Q H. unfold tool_edit_file.
    destruct (String.eqb_spec p "") as [->|_]; [done|].
    destruct (String.eqb_spec old "") as [->|_]; [done|].
    known Ho.
    unfold path_in_thread_cwd. rewrite Hp, orb_true_r. cbn [bind]. unfold read_for_edit.
    apply does_assoc, does_any; [done|]. intros ws. apply does_assoc.
    lazymatch goal with |- does _ ?h _ _ _ => known_of (Ho h (ws_stat p) eq_refl) end.
    cbn [negb]. rewrite (proj2 (Z.leb_gt _ _) Hsmall). apply does_assoc.
    lazymatch goal with |- does _ ?h _ _ _ => known_of (Ho h (ws_read_all p) eq_refl) end.
    cbn [bind]. rewrite Hnul. apply H. }
  assert (Hwrite : forall h m, does o h
    (let* ok := call (malloc (Z.to_nat (replace_alloc f old new m))) in
     if negb ok then oom else tool_write_file p (replace_occurrences f old new m))
    [ws_write_all p (replace_occurrences f old new m)] (fun _ => True)).
  { intros h m. known Ho. cbn [negb]. by apply (write_file_does _ _ p f). }
  destruct (pieces_total old f Hold) as [ps Hps].
  assert (Hn : n = length ps - 1) by (by apply count_occurrences_pieces).
  split_and!.
  - intros Hz. apply (Hrun [] (fun r => r = Some not_found_text)). intros h. by rewrite Hz.
  - intros Hm ->. apply (Hrun [] (fun r => r = Some (ambiguous_text n))). intros h.
    rewrite (proj2 (Nat.eqb_neq n 0)) by lia.
    by rewrite (proj2 (Nat.ltb_lt 1 n) Hm).
  - intros H1. destruct (single_occurrence f old new Hold H1) as (a & b & Hf & _ & _ & Hr).
    exists a, b. split; [done|]. rewrite <- Hr.
    destruct (Hrun [ws_write_all p (replace_occurrences f old new 1)] (fun _ => True)) as [Hw _];
      [|exact Hw].
    intros h. rewrite H1. cbn. assert (reps = 1) as -> by (subst reps; by destruct replace_all).
    apply Hwrite.
  - intros H0 ->. exists ps. rewrite <- (replace_all_pieces old new f ps) by done. split_and!.
    + symmetry. by apply pieces_join.
    + by eapply pieces_free.
    + destruct (Hrun [ws_write_all p (replace_occurrences f old new n)] (fun _ => True)) as [Hw _];
        [|rewrite <- Hn; exact Hw].
      intros h. rewrite (proj2 (Nat.eqb_neq n 0)) by lia. rewrite andb_false_r. apply Hwrite.
Qed.

(** ** [edit_symbol] *)

(** The calls with which [edit_file] isolates sessions and keeps a snapshot. *)
Definition isolation_or_snapshot (q : req) : bool :=
  match q with
  | agent_tools_session_isolation_blocks _ _ | db1_fsnap_get_or_create _ _ _
  | db1_fsnap_record_file _ _ => true
  | _ => false
  end.

Lemma edit_symbol_skips args cwd sid : avoids isolation_or_snapshot (td_edit_symbol args cwd sid).
Proof. solve_avoids. Qed.
End Writes.

(** ** Runs and witnesses *)

#[local] Existing Instance demo_ext.

Definition demo_args : jv :=
  JObj [("path", JStr "/p/f"); ("old_string", JStr "b"); ("new_string", JStr "Q");
        ("content", JStr "abc"); ("symbol", JStr "main"); ("text", JStr "int main;")].

#[local] Instance demo_cjson : CJson := demo_json [("args", demo_args)].
#[local] Instance demo_library : Lib demo_cjson := demo_lib [("args", demo_args)].

(** [/p/f] holds "abc"; snapshots can be taken. *)
Definition demo_file : oracle (@answer demo_cjson demo_library) :=
  demo_oracle _ (fun q =>
    match q as q return option (answer q) with
    | ws_stat _ => Some (true, 3%Z)
    | ws_read_all _ => Some (Some "abc")
    | anchor_snapshot_create _ _ | anchor_snapshot_get_copy _ => Some (Some "snap")
    | _ => None
    end).

(** C38: [edit_symbol] writes files without the session-isolation guard and the
    snapshot of [edit_file] that its guards are said to mirror: whatever its
    arguments and the environment it makes none of those calls, and there is a
    run in which it writes. *)
Theorem edit_symbol_not_isolated :
  (forall (args : json) cwd sid o, Forall (fun s => isolation_or_snapshot (asked s) = false)
     (run o [] (td_edit_symbol args cwd sid)).1) /\
  List.filter is_write (calls (run demo_file [] (td_edit_symbol demo_args "/p" None)).1) =
    [ws_write_all "/p/f" "abc"].
Proof.
  split; [|reflexivity]. intros args cwd sid o. apply avoids_run, edit_symbol_skips.
Qed.

(** The dry run of an anchored edit. *)
Definition dry_args : jv :=
  JObj [("path", JStr "/p/f"); ("snapshot_id", JStr "snap"); ("dry_run", JBool true);
        ("edits", JArr [])].

Lemma write_isolation_witness :
  preceded (isolated "/p/f" "/p") is_write
    (run demo_file [] (td_write_file demo_args "/p" None)).1 /\
  Forall (fun s => leaves_mark (asked s) = false)
    (run demo_file [] (td_edit_file dry_args "/p" None)).1.
Proof.
  split.
  - exact (proj1 (write_isolation 1 "write_file" "/p/f" (demo_args : json) "/p" None 1000 _ demo_file
             (or_introl eq_refl) eq_refl eq_refl)).
  - exact (proj2 (write_isolation 1 "edit_file" "/p/f" (dry_args : json) "/p" None 1000 _ demo_file
             (or_intror eq_refl) eq_refl eq_refl) eq_refl
             (or_introl (ex_intro _ "snap" eq_refl)) eq_refl).
Defined.

Lemma demo_file_env : answers (edit_env "/p/f" "abc") demo_file.
Proof. by intros h []. Qed.

Lemma edit_file_end_to_end_witness :
  exists a b, "abc" = a +:+ "b" +:+ b /\
    List.filter is_write
      (calls (run demo_file [] (tool_edit_file "/p/f" "b" (Some "Q") false)).1) =
    [ws_write_all "/p/f" (a +:+ "Q" +:+ b)].
Proof.
  refine (proj1 (proj2 (proj2 (edit_file_end_to_end "/p/f" "abc" "b" "Q" false demo_file
           eq_refl _ eq_refl _ demo_file_env _))) eq_refl); [discriminate | reflexivity|].
  intros [|[|n]]; reflexivity.
Defined.
