(* ===== verification/GuardProps.v ===== *)
(** What the guardrail is shown and what the tool runs with: the normalisation of
    the arguments, the mapping handed to the guardrail, its rewrites, and the
    scan for commands on aimee's own state. *)
From S2P Require Import Prelude CStr Ext Prog Json Host Demo Handlers Dispatch.
Local Open Scope tools_scope.

Section Arguments.
Context {J : CJson} {Laws : CJsonLaws J}.

(** The item of the first of the keys that [args] has. *)
Fixpoint first_present (args : json) (ks : list string) : option json :=
  match ks with
  | [] => None
  | k :: ks =>
      match cJSON_GetObjectItem args k with Some j => Some j | None => first_present args ks end
  end.

(** ** Aliases *)

Lemma alias_to args from to :
  same_key from to = false ->
  cJSON_GetObjectItem (apply_alias args (from, to)) to =
  match cJSON_GetObjectItem args to with
  | Some j => Some j
  | None => cJSON_GetObjectItem args from
  end.
Proof.
  intros Hk. unfold apply_alias. cbn [fst snd].
  destruct (cJSON_GetObjectItem args from) as [j|] eqn:F;
    destruct (cJSON_GetObjectItem args to) eqn:T; try done.
  destruct (cJSON_DetachItemFromObject args from) as [[det o']|] eqn:D.
  - pose proof (detach_item _ _ _ _ D) as Hd. rewrite F in Hd. injection Hd as <-.
    destruct (detach_object _ _ _ _ D) as [_ Ho].
    apply get_add_item; [done|]. by rewrite (detach_other _ _ _ _ _ D Hk).
  - apply detach_get in D. congruence.
Qed.

Lemma alias_other args from to k :
  same_key from k = false -> same_key to k = false ->
  cJSON_GetObjectItem (apply_alias args (from, to)) k = cJSON_GetObjectItem args k.
Proof.
  intros Hf Ht. unfold apply_alias. cbn [fst snd].
  destruct (cJSON_GetObjectItem args from); [|done].
  destruct (cJSON_GetObjectItem args to); [done|].
  destruct (cJSON_DetachItemFromObject args from) as [[det o']|] eqn:D; [|done].
  rewrite get_add_item_other by done. by apply (detach_other _ _ _ _ _ D).
Qed.

Lemma coerce_other args f k :
  same_key f k = false -> cJSON_GetObjectItem (coerce_int args f) k = cJSON_GetObjectItem args k.
Proof.
  intros Hk. unfold coerce_int. destruct (get_string args f) as [s|]; [|done].
  destruct (strtol s) as [v e]. destruct (_ && _); [by apply replace_other | done].
Qed.

Definition path_keys : list string :=
  ["path"; "filepath"; "file_path"; "file"; "filename"; "file_name"; "dir"; "directory"].

Ltac aliases :=
  unfold normalize_args, aliases, int_fields; cbn [fold_left];
  repeat first [ rewrite coerce_other by reflexivity
               | rewrite alias_to by reflexivity
               | rewrite alias_other by reflexivity ].

Lemma normalized_path args :
  cJSON_GetObjectItem (normalize_args args) "path" = first_present args path_keys.
Proof.
  aliases. unfold path_keys. cbn [first_present].
  repeat match goal with |- context [cJSON_GetObjectItem args ?k] =>
    destruct (cJSON_GetObjectItem args k) end; done.
Qed.

(** C24: the normalisation never overwrites an argument the caller gave: the
    [path], [command] and [message] a tool runs with are the caller's own when
    present and otherwise the first present of their aliases, in the order of
    the table. *)
Theorem aliases_fill_gaps (args : json) :
  cJSON_GetObjectItem (normalize_args args) "path" = first_present args path_keys /\
  cJSON_GetObjectItem (normalize_args args) "command" = first_present args ["command"; "cmd"] /\
  cJSON_GetObjectItem (normalize_args args) "message" = first_present args ["message"; "msg"].
Proof.
  split_and!; [apply normalized_path | |]; aliases; cbn [first_present];
    repeat match goal with |- context [cJSON_GetObjectItem args ?k] =>
    destruct (cJSON_GetObjectItem args k) end; done.
Qed.

(** ** The guardrail's view *)

Definition path_tools : list string := ["read_file"; "write_file"; "edit_file"].

Lemma map_path_get args :
  get_string (map_field args cJSON_CreateObject "path" "file_path") "file_path" =
  get_string args "path".
Proof.
  unfold map_field. destruct (get_string args "path") as [p|].
  - apply string_add; [apply create_object | apply get_create].
  - unfold get_string. by rewrite get_create.
Qed.

(** C23: for the file tools, the path the guardrail judges is the path the tool
    runs with whenever the caller spelled the argument [path]; when the caller
    used an alias instead, the guardrail is shown no path at all and the tool
    still runs on it. *)
Theorem guardrail_path_view (name arguments_json : string) (args : json)
  (Hname : in_list name path_tools = true) (Hparse : cJSON_Parse arguments_json = Some args) :
  exists shown,
    guardrail_input_json name arguments_json =
      or_else (cJSON_PrintUnformatted shown) arguments_json /\
    (cJSON_GetObjectItem args "path" <> None ->
     get_string shown "file_path" = get_string (normalize_args args) "path") /\
    (cJSON_GetObjectItem args "path" = None ->
     get_string shown "file_path" = None /\
     get_string (normalize_args args) "path" = first_present args path_keys ≫= string_value).
Proof.
  exists (map_field args cJSON_CreateObject "path" "file_path"). split_and!.
  - unfold guardrail_input_json. rewrite Hparse. cbv zeta.
    apply in_list_spec, list_elem_of_In in Hname.
    destruct Hname as [<-|[<-|[<-|[]]]]; reflexivity.
  - intros Hp. rewrite map_path_get. unfold get_string. rewrite normalized_path.
    unfold path_keys. cbn [first_present]. by destruct (cJSON_GetObjectItem args "path").
  - intros Hp. rewrite map_path_get. unfold get_string. rewrite Hp, normalized_path. done.
Qed.

(** ** Rewrites *)

(** C33: a path rewrite of the guardrail reaches the [path] the file tools read
    only when the arguments have no [file_path]: with both present it changes
    [file_path] and the tool keeps the original path. *)
Theorem path_rewrite_reach (msg p : string) (args : json)
  (Hmsg : msg <> "") (Hp : get_string args "path" = Some p) :
  exists args', apply_verdict 1 msg args = inr args' /\
    (cJSON_GetObjectItem args "file_path" = None -> get_string args' "path" = Some msg) /\
    (cJSON_GetObjectItem args "file_path" <> None -> get_string args' "path" = Some p).
Proof.
  unfold apply_verdict. cbn. destruct (String.eqb_spec msg "") as [->|_]; [done|]. cbn [negb].
  destruct (cJSON_GetObjectItem args "file_path") as [fp|] eqn:F.
  - eexists. split; [done|]. split; [done|]. intros _. unfold get_string.
    by rewrite set_item_other.
  - assert (Hg : is_Some (cJSON_GetObjectItem args "path")).
    { unfold get_string in Hp. by destruct (cJSON_GetObjectItem args "path"). }
    destruct Hg as [j Hj]. rewrite Hj. eexists. split; [done|]. split; [|done]. intros _.
    by apply (set_item_get _ _ _ p).
Qed.

(** C34: a command rewrite reaches the [body] that [execute_script] runs only when
    the arguments have neither [command] nor [cmd]; otherwise the script runs
    unchanged. *)
Theorem script_rewrite_reach (msg body : string) (args : json)
  (Hmsg : msg <> "") (Hbody : get_string args "body" = Some body) :
  exists args', apply_verdict 3 msg args = inr args' /\
    (get_string args "command" = None -> get_string args "cmd" = None ->
     get_string args' "body" = Some msg) /\
    (get_string args "command" <> None \/ get_string args "cmd" <> None ->
     get_string args' "body" = Some body).
Proof.
  unfold apply_verdict, rewritable_field. cbn.
  destruct (String.eqb_spec msg "") as [->|_]; [done|]. cbn [negb]. rewrite Hbody.
  destruct (get_string args "command"); [|destruct (get_string args "cmd")];
    eexists; (split; [reflexivity|]).
  - split; [done|]. intros _. unfold get_string. by rewrite set_item_other.
  - split; [done|]. intros _. unfold get_string. by rewrite set_item_other.
  - split; [|by intros [?|?]]. intros _ _. by apply (set_item_get _ _ _ body).
Qed.
End Arguments.

(** ** The scan for commands on aimee's own state *)

Lemma aimee_no_overlap s k :
  starts_with "aimee " s = true -> 0 < k < 6 -> starts_with "aimee " (sdrop k s) = false.
Proof.
  intros H Hk. apply starts_with_spec in H as [r ->].
  destruct k as [|[|[|[|[|[|k]]]]]]; try lia; reflexivity.
Qed.

Lemma stale_loop_sound fuel p :
  stale_loop fuel p = true ->
  exists k, starts_with "aimee " (sdrop k p) = true /\ stale_subcommand (sdrop (k + 6) p) = true.
Proof.
  revert p. induction fuel as [|fuel IH]; intros p; cbn [stale_loop]; [done|].
  destruct (strstr p "aimee ") as [k|] eqn:F; [|done]. apply strstr_Some in F as [F _].
  destruct (stale_subcommand _) eqn:S; [eauto|]. intros H. apply IH in H as (j & Hj & Hs).
  rewrite sdrop_sdrop in Hj, Hs. exists (k + 6 + j). by rewrite (Nat.add_assoc _ j 6) in Hs.
Qed.

Lemma stale_loop_complete fuel p k :
  strlen p < fuel -> starts_with "aimee " (sdrop k p) = true ->
  stale_subcommand (sdrop (k + 6) p) = true -> stale_loop fuel p = true.
Proof.
  revert p k. induction fuel as [|fuel IH]; intros p k Hf Hk Hs; [lia|]. cbn [stale_loop].
  destruct (strstr p "aimee ") as [i|] eqn:F; [|by rewrite (strstr_None _ _ F k) in Hk].
  pose proof (strstr_bound _ _ _ F) as Hb. apply strstr_Some in F as [Hi Hmin].
  destruct (stale_subcommand (sdrop (i + 6) p)) eqn:S; [done|].
  assert (i + 6 <= k) as Hle.
  { destruct (decide (k < i)) as [Hlt|]; [by rewrite (Hmin k Hlt) in Hk|].
    destruct (decide (k = i)) as [->|]; [congruence|].
    destruct (decide (i + 6 <= k)) as [|Hn]; [done|]. exfalso.
    pose proof (aimee_no_overlap _ (k - i) Hi ltac:(lia)) as Ho.
    rewrite sdrop_sdrop in Ho. replace (i + (k - i)) with k in Ho by lia. congruence. }
  cbn in Hb. apply (IH _ (k - (i + 6))).
  - rewrite strlen_sdrop. lia.
  - rewrite sdrop_sdrop. by replace (i + 6 + (k - (i + 6))) with k by lia.
  - rewrite sdrop_sdrop. by replace (i + 6 + (k - (i + 6) + 6)) with (k + 6) by lia.
Qed.

(** C26: the scan refuses a command exactly when at some offset it says [aimee ]
    followed by a subcommand that counts as broad or mutating; it looks at every
    offset, not only at the first, and always terminates. *)
Theorem stale_scan_spec (c : string) :
  command_uses_aimee_stale_context (Some c) = true <->
  exists k, starts_with "aimee " (sdrop k c) = true /\ stale_subcommand (sdrop (k + 6) c) = true.
Proof.
  split; [apply stale_loop_sound|]. intros (k & Hk & Hs). unfold command_uses_aimee_stale_context.
  apply (stale_loop_complete _ _ k); [lia | done | done].
Qed.

(** ** Witnesses *)

#[local] Instance demo_cjson : CJson :=
  demo_json [("alias", JObj [("file", JStr "/x"); ("content", JStr "c")])].

#[local] Existing Instance jv_cjson_laws.

Lemma aliases_fill_gaps_witness :
  let args : json := JObj [("dir", JStr "/d"); ("file", JStr "/f"); ("cmd", JStr "ls")] in
  cJSON_GetObjectItem (normalize_args args) "path" = Some (JStr "/f") /\
  cJSON_GetObjectItem (normalize_args args) "command" = Some (JStr "ls").
Proof.
  destruct (aliases_fill_gaps (J := demo_cjson)
              (JObj [("dir", JStr "/d"); ("file", JStr "/f"); ("cmd", JStr "ls")]))
    as (H1 & H2 & _).
  split; [exact H1 | exact H2].
Defined.

Lemma guardrail_path_view_witness :
  let args : json := JObj [("file", JStr "/x"); ("content", JStr "c")] in
  exists shown,
    guardrail_input_json "write_file" "alias" =
      or_else (cJSON_PrintUnformatted shown) "alias" /\
    get_string shown "file_path" = None /\
    get_string (normalize_args args) "path" = first_present args path_keys ≫= string_value.
Proof.
  destruct (guardrail_path_view (J := demo_cjson) "write_file" "alias"
              (JObj [("file", JStr "/x"); ("content", JStr "c")]) eq_refl eq_refl)
    as (shown & H1 & _ & H2).
  exists shown. split; [exact H1 | exact (H2 eq_refl)].
Defined.

Lemma path_rewrite_reach_witness :
  exists args' : json,
    apply_verdict 1 "/wt/x"
      (JObj [("path", JStr "/x"); ("file_path", JStr "/x")] : json) = inr args' /\
    get_string args' "path" = Some "/x".
Proof.
  destruct (path_rewrite_reach (J := demo_cjson) "/wt/x" "/x"
              (JObj [("path", JStr "/x"); ("file_path", JStr "/x")]))
    as (args' & H1 & _ & H2); [discriminate | reflexivity|].
  exists args'. split; [exact H1 | apply H2; discriminate].
Defined.

Lemma script_rewrite_reach_witness :
  exists args' : json,
    apply_verdict 3 "cd /wt && make" (JObj [("body", JStr "make"); ("cmd", JStr "x")] : json)
      = inr args' /\
    get_string args' "body" = Some "make".
Proof.
  destruct (script_rewrite_reach (J := demo_cjson) "cd /wt && make" "make"
              (JObj [("body", JStr "make"); ("cmd", JStr "x")]))
    as (args' & H1 & _ & H2); [discriminate | reflexivity|].
  exists args'. split; [exact H1 | apply H2; right; discriminate].
Defined.
